(** * picture-organizer: a shallow embedding of [sort_pictures.py]

    The program sorts media files into a date-based layout
    ([<out>/<year>/<formatted timestamp>.<ext>]), reconciles the planned
    moves against the ledger [<out>/info.json] written by earlier runs,
    moves the files and finally removes empty directories.

    The model:
    - [PyStr], [PosixPath]: the string and path functions of Python the
      program calls ([str.split], [str.replace], [in], [os.path.join],
      [os.path.basename], ...);
    - [PyDict]: insertion-ordered dictionaries as association lists;
    - [Strftime], [Plan]: the target names and [create_moves];
    - [Sys], [Os]: the file system, the trace of I/O calls, the
      state-and-exception monad of the effectful functions and the
      operating-system calls;
    - [Organizer]: [sort_file_in], [check_update_old_info],
      [append_moves_to_json], [do_move_files], [dryrun_move_files];
    - [Timestamp]: [extract_timestamp_from_filemeta];
    - [Cleaner]: [cleanup] over an [os.walk] snapshot;
    - [Discovery]: [find_pictures] over such a snapshot,
      [extract_picture_timestamp], and the default output directory of
      [main];
    - [Snapshot]: the snapshot a walk takes of the file system of the
      executor, and one run of [main] with [--apply];
    - [Listing]: [cleanup] over a walk that lists directories it does
      not visit.

    [Scenario], [Props] and [Notions] hold the concrete inputs and the
    predicates of the statements.  The properties follow, one module per
    subject: [DryRun], [Duplicates] (with [Reconcile] and [Executor]),
    [Rerun], [Conflict], [Fallback], [Cleanup] and [PlanFacts] (with
    [Naming]); then [PlanShape], [LedgerFacts], [LedgerWrite], [Reports],
    [Moves], [ApplyRun], [FallbackFacts], [CleanupFacts],
    [DiscoveryFacts], [MainFacts], [Ambiguity], [Directories] and
    [ExifFacts]; then [Matching], [Differing] and [SecondRun] on whole
    reconciliations and on repeated runs.

    Pillow, ffprobe, the file times and the clock are parameters of the
    readers.  Not modelled: the progress bars of [rich], argument
    parsing, and the order in which [main] calls the functions. *)

From Stdlib Require Import String Ascii List ZArith Lia Bool Arith.
From Stdlib Require Import DecimalString DecimalNat Permutation.
From stdpp Require Import gmap strings list.

Set Default Proof Using "Type".

(** ** Exceptions and results of pure code *)

Inductive exn : Type :=
| ValueError (msg : string)
| TypeError (msg : string)
| FileNotFoundError (path : string)
| FileExistsError (path : string)
| NotADirectoryError (path : string)
| IsADirectoryError (path : string)
| OSError (path : string)
| JSONDecodeError (path : string)
| KeyError (key : string)
| ShutilError (msg : string).

Inductive outcome (A : Type) : Type :=
| Ok (a : A)
| Raise (e : exn).
Arguments Ok {A} a.
Arguments Raise {A} e.

(** ** Python strings *)

Module PyStr.

(** [str(n)] for a non-negative integer. *)
Definition of_nat (n : nat) : string :=
  NilEmpty.string_of_uint (Nat.to_uint n).

(** [c in s] for a single character. *)
Fixpoint has_char (c : ascii) (s : string) : bool :=
  match s with
  | EmptyString => false
  | String a s' => Ascii.eqb a c || has_char c s'
  end.

(** [s.startswith(p)]. *)
Fixpoint startswith (p s : string) : bool :=
  match p, s with
  | EmptyString, _ => true
  | String _ _, EmptyString => false
  | String a p', String b s' => Ascii.eqb a b && startswith p' s'
  end.

(** [sub in s]: [sub] occurs in [s] at some position. *)
Fixpoint contains (sub s : string) : bool :=
  startswith sub s ||
  match s with
  | EmptyString => false
  | String _ s' => contains sub s'
  end.

(** [s.split(sep)] for a one-character separator: never empty. *)
Fixpoint split_on (sep : ascii) (s : string) : list string :=
  match s with
  | EmptyString => [EmptyString]
  | String a s' =>
      if Ascii.eqb a sep then EmptyString :: split_on sep s'
      else match split_on sep s' with
           | [] => [String a EmptyString]
           | w :: ws => String a w :: ws
           end
  end.

(** [s.replace(old, new)] for a non-empty [old]: the occurrences are
    found from the left and do not overlap.  [skip] counts the characters
    of a matched occurrence still to be dropped. *)
Fixpoint replace_go (old new : string) (skip : nat) (s : string) : string :=
  match s with
  | EmptyString => EmptyString
  | String a s' =>
      match skip with
      | S k => replace_go old new k s'
      | O =>
          if startswith old s
          then new +:+ replace_go old new (String.length old - 1) s'
          else String a (replace_go old new 0 s')
      end
  end.

Definition replace (old new s : string) : string := replace_go old new 0 s.

(** [s.endswith(c)] for a single character. *)
Fixpoint endswith_char (c : ascii) (s : string) : bool :=
  match s with
  | EmptyString => false
  | String a EmptyString => Ascii.eqb a c
  | String _ s' => endswith_char c s'
  end.

(** [s.rstrip(c)]: drop the trailing run of [c]. *)
Fixpoint rstrip (c : ascii) (s : string) : string :=
  match s with
  | EmptyString => EmptyString
  | String a s' =>
      match rstrip c s' with
      | EmptyString => if Ascii.eqb a c then EmptyString else String a EmptyString
      | r => String a r
      end
  end.

(** The last character, if any. *)
Fixpoint last_char (s : string) : option ascii :=
  match s with
  | EmptyString => None
  | String a EmptyString => Some a
  | String _ s' => last_char s'
  end.

End PyStr.

(** ** [posixpath] *)

Module PosixPath.
Import PyStr.

Definition sep : ascii := "/"%char.

(** [(p[:i], p[i:])] with [i = p.rfind('/') + 1]. *)
Fixpoint rsplit (p : string) : string * string :=
  match p with
  | EmptyString => (EmptyString, EmptyString)
  | String a p' =>
      match rsplit p' with
      | (EmptyString, t) =>
          if Ascii.eqb a sep then (String a EmptyString, t)
          else (EmptyString, String a t)
      | (h, t) => (String a h, t)
      end
  end.

Fixpoint all_sep (s : string) : bool :=
  match s with
  | EmptyString => true
  | String a s' => Ascii.eqb a sep && all_sep s'
  end.

(** [os.path.split]. *)
Definition split (p : string) : string * string :=
  let '(head, tail) := rsplit p in
  if negb (String.eqb head "") && negb (all_sep head)
  then (rstrip sep head, tail)
  else (head, tail).

(** [os.path.basename]. *)
Definition basename (p : string) : string := snd (rsplit p).

(** [os.path.dirname]. *)
Definition dirname (p : string) : string := fst (split p).

(** [os.path.join(a, b)]. *)
Definition join (a b : string) : string :=
  if startswith "/" b then b
  else if String.eqb a "" || endswith_char sep a then a +:+ b
  else a +:+ "/" +:+ b.

End PosixPath.

(** ** Insertion-ordered dictionaries

    A Python [dict] keeps its keys in insertion order; the order shows in
    the order of the moves and of the report, so a dictionary is an
    association list.  Assigning to a present key keeps its position. *)

Module PyDict.

Definition dict (V : Type) : Type := list (string * V).

Section ops.
Context {V : Type}.

Fixpoint get (d : dict V) (k : string) : option V :=
  match d with
  | [] => None
  | (k', v) :: d' => if String.eqb k' k then Some v else get d' k
  end.

Definition mem (k : string) (d : dict V) : bool :=
  match get d k with Some _ => true | None => false end.

(** [d[k] = v] *)
Fixpoint set (d : dict V) (k : string) (v : V) : dict V :=
  match d with
  | [] => [(k, v)]
  | (k', v') :: d' =>
      if String.eqb k' k then (k', v) :: d' else (k', v') :: set d' k v
  end.

(** [del d[k]] (the caller has checked that [k] is a key) *)
Definition del (d : dict V) (k : string) : dict V :=
  List.filter (fun kv => negb (String.eqb (fst kv) k)) d.

Definition keys (d : dict V) : list string := map fst d.

(** [d.update(other)] *)
Definition update (d other : dict V) : dict V :=
  fold_left (fun acc kv => set acc (fst kv) (snd kv)) other d.
End ops.

End PyDict.

(** ** Timestamps *)

(** A [datetime.datetime]; the microsecond field is never read by the
    program and is left out. *)
Record datetime : Type := mkDatetime {
  year : nat; month : nat; day : nat;
  hour : nat; minute : nat; second : nat
}.

Module Strftime.
Import PyStr.

(** [%m], [%d], [%H], [%M], [%S]: zero-padded to two digits. *)
Definition pad2 (n : nat) : string :=
  if n <? 10 then "0" +:+ of_nat n else of_nat n.

(** [%B] in the C locale. *)
Definition month_name (m : nat) : string :=
  match m with
  | 1 => "January" | 2 => "February" | 3 => "March" | 4 => "April"
  | 5 => "May" | 6 => "June" | 7 => "July" | 8 => "August"
  | 9 => "September" | 10 => "October" | 11 => "November"
  | 12 => "December" | _ => ""
  end.

(** [timestamp.strftime('%m_%d_%H_%M_%S__%-dth_of_%B_at_%Hh_%Mm')] *)
Definition format (t : datetime) : string :=
  pad2 (month t) +:+ "_" +:+ pad2 (day t) +:+ "_" +:+ pad2 (hour t) +:+ "_" +:+
  pad2 (minute t) +:+ "_" +:+ pad2 (second t) +:+ "__" +:+
  of_nat (day t) +:+ "th_of_" +:+ month_name (month t) +:+ "_at_" +:+
  pad2 (hour t) +:+ "h_" +:+ pad2 (minute t) +:+ "m".

End Strftime.

(** ** The plan builder: [create_moves] *)

Module Plan.
Import PyStr PyDict.

(** The target name computed in the first loop of [create_moves]. *)
Definition target_name (out : string) (timestamp : datetime) (path : string) : string :=
  let directory := PosixPath.join out (of_nat (year timestamp)) in
  let file_ext := List.last (split_on "." (PosixPath.basename path)) "" in
  let filename := Strftime.format timestamp +:+ "." +:+ file_ext in
  PosixPath.join directory filename.

(** One iteration of the first loop: file [path] joins the group of its
    target name. *)
Definition group_step (out : string) (mapping : dict (list string))
    (rec : datetime * string) : dict (list string) :=
  let '(timestamp, path) := rec in
  let new_name := target_name out timestamp path in
  match get mapping new_name with
  | Some files => set mapping new_name (files ++ [path])
  | None => set mapping new_name [path]
  end.

Definition group_all (out : string) (pictures : list (datetime * string))
  : dict (list string) :=
  fold_left (group_step out) pictures [].

(** [dir_and_filename, file_ext = new_name.split('.')] followed by the
    f-string: the unpacking needs exactly two parts. *)
Definition numbered_name (new_name : string) (i : nat) : outcome string :=
  match split_on "." new_name with
  | [dir_and_filename; file_ext] =>
      Ok (dir_and_filename +:+ "_" +:+ of_nat (i + 1) +:+ "." +:+ file_ext)
  | [_] => Raise (ValueError "not enough values to unpack (expected 2, got 1)")
  | _ => Raise (ValueError "too many values to unpack (expected 2)")
  end.

(** The inner loop [for i, file in enumerate(files)], from index [i]. *)
Fixpoint number_files (new_name : string) (i : nat) (files : list string)
    (moves : dict string) : outcome (dict string) :=
  match files with
  | [] => Ok moves
  | file :: rest =>
      match numbered_name new_name i with
      | Ok name => number_files new_name (S i) rest (set moves name file)
      | Raise e => Raise e
      end
  end.

(** One iteration of the second loop. *)
Definition place_group (moves : dict string) (group : string * list string)
  : outcome (dict string) :=
  let '(new_name, files) := group in
  match files with
  | [file] => Ok (set moves new_name file)
  | _ => number_files new_name 0 files moves
  end.

Fixpoint place_all (groups : dict (list string)) (moves : dict string)
  : outcome (dict string) :=
  match groups with
  | [] => Ok moves
  | g :: rest =>
      match place_group moves g with
      | Ok moves' => place_all rest moves'
      | Raise e => Raise e
      end
  end.

Definition create_moves (pictures : list (datetime * string)) (out : string)
  : outcome (dict string) :=
  place_all (group_all out pictures) [].

End Plan.

(** ** The file system, the I/O trace and the monad of effectful code *)

Module Sys.
Import PyStr.

(** What a regular file holds.  A file written by [json.dump] holds the
    text of one JSON object from strings to strings; it is represented by
    that object, so that [json.load] after [json.dump] is the identity.
    Every other file is raw data, on which [json.load] fails. *)
Inductive content : Type :=
| Data (bytes : string)
| Json (obj : PyDict.dict string).

Inductive node : Type :=
| File (c : content)
| Dir.

Global Instance content_eq_dec : EqDecision content.
Proof. solve_decision. Defined.
Global Instance node_eq_dec : EqDecision node.
Proof. solve_decision. Defined.

(** The calls with an effect outside the process, in program order. *)
Inductive event : Type :=
| EvPrint (line : string)
| EvCompare (f1 f2 : string) (same : bool)
| EvRemove (path : string)
| EvMove (src dst : string)
| EvMkdir (path : string)
| EvWrite (path : string).

(** The file system is a finite map from path strings, used as they are
    spelled, to nodes. *)
Record world : Type := mkWorld {
  fs : gmap string node;
  trace : list event
}.

(** A computation runs on a world and ends with a value or with an
    exception that nothing caught; the world reached is kept in both
    cases. *)
Definition M (A : Type) : Type := world -> world * outcome A.

Definition ret {A} (a : A) : M A := fun w => (w, Ok a).
Definition raise {A} (e : exn) : M A := fun w => (w, Raise e).
Definition bind {A B} (m : M A) (k : A -> M B) : M B :=
  fun w =>
    match m w with
    | (w', Ok a) => k a w'
    | (w', Raise e) => (w', Raise e)
    end.
Definition lift {A} (o : outcome A) : M A := fun w => (w, o).
(** [try: m except ...: handler] *)
Definition try_with {A} (m : M A) (handler : exn -> M A) : M A :=
  fun w =>
    match m w with
    | (w', Ok a) => (w', Ok a)
    | (w', Raise e) => handler e w'
    end.

Definition emit (ev : event) : M unit :=
  fun w => (mkWorld (fs w) (trace w ++ [ev]), Ok tt).
Definition set_fs (f : gmap string node) : M unit :=
  fun w => (mkWorld f (trace w), Ok tt).
Definition get_fs : M (gmap string node) := fun w => (w, Ok (fs w)).

(** [for x in l: body(x)] *)
Fixpoint for_each {A} (l : list A) (body : A -> M unit) : M unit :=
  match l with
  | [] => ret tt
  | x :: l' => bind (body x) (fun _ => for_each l' body)
  end.

(** A loop that threads its local variables [s] through the iterations. *)
Fixpoint fold_m {A S} (body : A -> S -> M S) (l : list A) (s : S) : M S :=
  match l with
  | [] => ret s
  | x :: l' => bind (body x s) (fun s' => fold_m body l' s')
  end.

Definition is_oserror (e : exn) : bool :=
  match e with
  | FileNotFoundError _ | FileExistsError _ | NotADirectoryError _
  | IsADirectoryError _ | OSError _ => true
  | _ => false
  end.

End Sys.

Declare Scope pyio_scope.
Delimit Scope pyio_scope with pyio.
Notation "'let*' x ':=' m 'in' k" := (Sys.bind m (fun x => k))
  (at level 10, x pattern, m at level 100, k at level 200) : pyio_scope.
Notation "m ';;;' k" := (Sys.bind m (fun _ => k))
  (at level 100, k at level 200, right associativity) : pyio_scope.

(** ** The operating-system calls of the program *)

Module Os.
Import PyStr Sys.
Local Open Scope pyio_scope.

(** What [os.stat] finds: nothing at the empty path, the root directory
    at a path of slashes only, the node of the map otherwise. *)
Definition stat (f : gmap string node) (p : string) : option node :=
  if String.eqb p "" then None
  else if PosixPath.all_sep p then Some Dir
  else f !! p.

(** [os.path.exists] *)
Definition path_exists (p : string) : M bool :=
  fun w => (w, Ok (match stat (fs w) p with Some _ => true | None => false end)).

(** [os.path.isdir] *)
Definition isdir (p : string) : M bool :=
  fun w => (w, Ok (match stat (fs w) p with Some Dir => true | _ => false end)).

(** Creating the entry [p] needs the directory that will hold it: the
    working directory for a bare name, a directory node otherwise. *)
Definition parent_ok (f : gmap string node) (p : string) : outcome unit :=
  let parent := PosixPath.dirname p in
  if String.eqb parent "" then Ok tt
  else match stat f parent with
       | Some Dir => Ok tt
       | Some (File _) => Raise (NotADirectoryError p)
       | None => Raise (FileNotFoundError p)
       end.

(** [os.mkdir] *)
Definition mkdir (name : string) : M unit :=
  let* f := get_fs in
  if String.eqb name "" then raise (FileNotFoundError name)
  else match stat f name with
       | Some _ => raise (FileExistsError name)
       | None =>
           lift (parent_ok f name) ;;;
           set_fs (<[name := Dir]> f) ;;;
           emit (EvMkdir name)
       end.

(** [os.makedirs(name, exist_ok=exist_ok)], as CPython writes it; the
    recursion is on the head of the path, which gets shorter, so that
    [fuel = String.length name] is enough. *)
Fixpoint makedirs_go (fuel : nat) (name : string) (exist_ok : bool) : M unit :=
  let '(head, tail) := PosixPath.split name in
  let '(head, tail) :=
    if String.eqb tail "" then PosixPath.split head else (head, tail) in
  let finish : M unit :=
    try_with (mkdir name)
      (fun e =>
         if is_oserror e then
           let* d := isdir name in
           if negb exist_ok || negb d then raise e else ret tt
         else raise e) in
  let* head_exists := path_exists head in
  if negb (String.eqb head "") && negb (String.eqb tail "") && negb head_exists
  then
    match fuel with
    | O => finish
    | S fuel' =>
        try_with (makedirs_go fuel' head exist_ok)
          (fun e => match e with
                    | FileExistsError _ => ret tt
                    | _ => raise e
                    end) ;;;
        if String.eqb tail "." then ret tt else finish
    end
  else finish.

Definition makedirs (name : string) (exist_ok : bool) : M unit :=
  makedirs_go (String.length name) name exist_ok.

Fixpoint drop_chars (n : nat) (s : string) : string :=
  match n, s with
  | O, _ => s
  | S _, EmptyString => EmptyString
  | S n', String _ s' => drop_chars n' s'
  end.

(** Renaming a directory renames every path below it. *)
Definition rekey (src dst p : string) : string :=
  if String.eqb p src then dst
  else if startswith (src +:+ "/") p
       then dst +:+ drop_chars (String.length src) p
       else p.

Definition rename_tree (src dst : string) (f : gmap string node)
  : gmap string node :=
  list_to_map (map (fun kn => (rekey src dst (fst kn), snd kn)) (map_to_list f)).

(** [os.rename(src, dst)].  The program reaches it only with [dst]
    absent; an existing directory at [dst] is refused. *)
Definition rename (src dst : string) : M unit :=
  let* f := get_fs in
  match stat f src with
  | None => raise (FileNotFoundError src)
  | Some (File c) =>
      match stat f dst with
      | Some Dir => raise (IsADirectoryError dst)
      | _ =>
          lift (parent_ok f dst) ;;;
          set_fs (<[dst := File c]> (delete src f)) ;;;
          emit (EvMove src dst)
      end
  | Some Dir =>
      match stat f dst with
      | Some (File _) => raise (NotADirectoryError dst)
      | Some Dir => raise (OSError dst)
      | None =>
          lift (parent_ok f dst) ;;;
          set_fs (rename_tree src dst f) ;;;
          emit (EvMove src dst)
      end
  end.

(** [shutil.move(src, dst)] on one file system: into [dst] when it is a
    directory, onto [dst] otherwise. *)
Definition shutil_move (src dst : string) : M unit :=
  let* d := isdir dst in
  if d then
    let real_dst := PosixPath.join dst (PosixPath.basename (rstrip PosixPath.sep src)) in
    let* taken := path_exists real_dst in
    if taken
    then raise (ShutilError ("Destination path '" +:+ real_dst +:+ "' already exists"))
    else rename src real_dst
  else rename src dst.

(** [os.remove] *)
Definition remove (p : string) : M unit :=
  let* f := get_fs in
  match stat f p with
  | None => raise (FileNotFoundError p)
  | Some Dir => raise (IsADirectoryError p)
  | Some (File _) => set_fs (delete p f) ;;; emit (EvRemove p)
  end.

(** [filecmp.cmp(f1, f2, shallow=False)]: both paths are stat-ed, two
    regular files are equal when their contents are, anything else is
    unequal. *)
Definition same_content (n1 n2 : node) : bool :=
  match n1, n2 with
  | File c1, File c2 => bool_decide (c1 = c2)
  | _, _ => false
  end.

Definition filecmp_cmp (f1 f2 : string) : M bool :=
  let* f := get_fs in
  match stat f f1 with
  | None => raise (FileNotFoundError f1)
  | Some n1 =>
      match stat f f2 with
      | None => raise (FileNotFoundError f2)
      | Some n2 =>
          let same := same_content n1 n2 in
          emit (EvCompare f1 f2 same) ;;; ret same
      end
  end.

(** [with open(path, 'r') as f: json.load(f)] *)
Definition json_load (path : string) : M (PyDict.dict string) :=
  let* f := get_fs in
  match stat f path with
  | None => raise (FileNotFoundError path)
  | Some Dir => raise (IsADirectoryError path)
  | Some (File (Json obj)) => ret obj
  | Some (File (Data _)) => raise (JSONDecodeError path)
  end.

(** [with open(path, 'w') as f: json.dump(obj, f)] *)
Definition json_dump (obj : PyDict.dict string) (path : string) : M unit :=
  let* f := get_fs in
  if String.eqb path "" then raise (FileNotFoundError path)
  else match stat f path with
       | Some Dir => raise (IsADirectoryError path)
       | _ =>
           lift (parent_ok f path) ;;;
           set_fs (<[path := File (Json obj)]> f) ;;;
           emit (EvWrite path)
       end.

(** [print(line)] *)
Definition print (line : string) : M unit := emit (EvPrint line).

End Os.

(** ** The ledger and the executor *)

Module Organizer.
Import PyStr PyDict Sys Os.
Local Open Scope pyio_scope.

Definition sort_file_in (outfile infile : string) : M unit :=
  let dirname := PosixPath.dirname outfile in
  let* dir_exists := path_exists dirname in
  (if negb dir_exists then makedirs dirname false else ret tt) ;;;
  let* out_exists := path_exists outfile in
  if out_exists
  then raise (ValueError ("Won't copy " +:+ infile +:+ " to " +:+ outfile
                          +:+ ". File already exists!"))
  else shutil_move infile outfile.

(** The path [filecmp.cmp] is given for the file recorded under the
    ledger key [k]. *)
Definition recorded_location (k : string) : string :=
  replace "/pictures_sorted/" "/pictures/" k.

Definition different_msg (existing_file incoming_file : string) : string :=
  "Files " +:+ existing_file +:+ " and " +:+ incoming_file
  +:+ " are different. Please compare manually!".

Definition more_than_one_msg (k : string) : string :=
  "Found more than one file with the same name like old (" +:+ k
  +:+ ") in the new files".

(** The body of the loop of [check_update_old_info] for the ledger key
    [k]; the loop's variables are [moves] and [deleted_duplicates]. *)
Definition reconcile_entry (dry_run : bool) (k : string)
    (st : dict string * nat) : M (dict string * nat) :=
  let '(moves, deleted_duplicates) := st in
  let old_filename := PosixPath.basename k in
  if existsb (String.eqb old_filename) (map PosixPath.basename (keys moves))
  then
    let existing_file := k in
    let incoming_files :=
      List.filter (fun new_file => contains old_filename new_file) (keys moves) in
    match incoming_files with
    | [incoming] =>
        match get moves incoming with
        | None => raise (KeyError incoming)
        | Some incoming_file =>
            let moves := del moves incoming in
            let* same := filecmp_cmp (recorded_location existing_file) incoming_file in
            if negb same then
              print (different_msg existing_file incoming_file) ;;;
              ret (moves, deleted_duplicates)
            else if negb dry_run then
              let deleted_duplicates := deleted_duplicates + 1 in
              remove incoming_file ;;;
              ret (moves, deleted_duplicates)
            else ret (moves, deleted_duplicates)
        end
    | _ => raise (ValueError (more_than_one_msg k))
    end
  else ret st.

(** The ledger on disk, or the empty one when there is no file. *)
Definition load_old_info (json_file : string) : M (dict string) :=
  let* present := path_exists json_file in
  if present then json_load json_file else ret [].

Definition check_update_old_info (moves : dict string) (json_file : string)
    (dry_run : bool) : M (dict string * nat) :=
  let deleted_duplicates := 0 in
  let* old_info := load_old_info json_file in
  fold_m (reconcile_entry dry_run) (keys old_info) (moves, deleted_duplicates).

Definition still_exists_msg (k : string) : string :=
  "ERROR: " +:+ k
  +:+ " still exists in the new info.json, this shouldn't have happened".

(** [raise print(...)] prints and then raises [None], which is a
    [TypeError]. *)
Definition append_moves_to_json (moves : dict string) (json_file : string)
    (dry_run : bool) : M (dict string) :=
  let* old_info := load_old_info json_file in
  for_each (keys old_info)
    (fun k =>
       if mem k moves then
         print (still_exists_msg k) ;;;
         raise (TypeError "exceptions must derive from BaseException")
       else ret tt) ;;;
  let old_info := update old_info moves in
  (if negb dry_run then
     let* present := path_exists json_file in
     (if negb present
      then makedirs (fst (PosixPath.split json_file)) true
      else ret tt) ;;;
     json_dump old_info json_file
   else ret tt) ;;;
  ret old_info.

Definition deleted_msg (n : nat) : string :=
  "Deleted " +:+ of_nat n +:+ " duplicates".
Definition would_have_deleted_msg (n : nat) : string :=
  "Would have deleted " +:+ of_nat n +:+ " duplicates".

(** The loop of [do_move_files] over [moves.items()]. *)
Definition move_all (moves : dict string) : M unit :=
  for_each moves (fun item => sort_file_in (fst item) (snd item)).

Definition do_move_files (pictures : list (datetime * string)) (out : string)
  : M unit :=
  print "Moving files..." ;;;
  let* moves := lift (Plan.create_moves pictures out) in
  let* r := check_update_old_info moves (PosixPath.join out "info.json") false in
  let '(moves, deleted_duplicates) := r in
  move_all moves ;;;
  append_moves_to_json moves (PosixPath.join out "info.json") false ;;;
  if 0 <? deleted_duplicates then print (deleted_msg deleted_duplicates)
  else ret tt.

Definition tab : string := String "009"%char EmptyString.

Definition planned_line (new_name file : string) : string :=
  file +:+ " --> " +:+ tab +:+ tab +:+ new_name.

Definition dryrun_move_files (pictures : list (datetime * string)) (out : string)
  : M unit :=
  let* moves := lift (Plan.create_moves pictures out) in
  let* r := check_update_old_info moves (PosixPath.join out "info.json") true in
  let '(moves, deleted_duplicates) := r in
  for_each moves (fun item => print (planned_line (fst item) (snd item))) ;;;
  append_moves_to_json moves (PosixPath.join out "info.json") true ;;;
  if 0 <? deleted_duplicates then print (would_have_deleted_msg deleted_duplicates)
  else ret tt.

End Organizer.

(** ** The file-metadata fallback of the timestamp resolver *)

Module Timestamp.
Import PyStr.

(** [datetime.datetime.fromtimestamp] in UTC: the civil date of a day
    number counted from 1970-01-01 and the time of day, for seconds since
    the epoch.  The program uses the local time zone; the theorems below
    hold for every conversion, this one evaluates concrete inputs. *)
Definition civil_from_days (days : Z) : Z * Z * Z :=
  let z := (days + 719468)%Z in
  let era := (z / 146097)%Z in
  let doe := (z - era * 146097)%Z in
  let yoe := ((doe - doe / 1460 + doe / 36524 - doe / 146096) / 365)%Z in
  let y := (yoe + era * 400)%Z in
  let doy := (doe - (365 * yoe + yoe / 4 - yoe / 100))%Z in
  let mp := ((5 * doy + 2) / 153)%Z in
  let d := (doy - (153 * mp + 2) / 5 + 1)%Z in
  let m := (if (mp <? 10)%Z then mp + 3 else mp - 9)%Z in
  ((if (m <=? 2)%Z then y + 1 else y)%Z, m, d).

Definition utc_fromtimestamp (t : Z) : datetime :=
  let '(y, m, d) := civil_from_days (t / 86400) in
  let s := (t mod 86400)%Z in
  mkDatetime (Z.to_nat y) (Z.to_nat m) (Z.to_nat d)
    (Z.to_nat (s / 3600)) (Z.to_nat ((s mod 3600) / 60)) (Z.to_nat (s mod 60)).

Definition pad4 (n : nat) : string :=
  (if n <? 10 then "000" else if n <? 100 then "00"
   else if n <? 1000 then "0" else "") +:+ of_nat n.

(** [str(t)] for a [datetime] without microseconds. *)
Definition str_datetime (t : datetime) : string :=
  pad4 (year t) +:+ "-" +:+ Strftime.pad2 (month t) +:+ "-" +:+ Strftime.pad2 (day t)
  +:+ " " +:+ Strftime.pad2 (hour t) +:+ ":" +:+ Strftime.pad2 (minute t)
  +:+ ":" +:+ Strftime.pad2 (second t).

Section resolver.
(** [os.path.getctime], [os.path.getmtime]: seconds since the epoch, or
    the exception of the failed [os.stat]. *)
Variable getctime getmtime : string -> outcome Z.
Variable fromtimestamp : Z -> datetime.
(** [datetime.datetime.now()], read once for the whole test. *)
Variable now : datetime.

(** The test of the [if]: the chained comparison
    [a.month == b.month == a.day == b.day] is the conjunction of the
    three neighbouring equalities. *)
Definition suspicious (min_time : datetime) : bool :=
  (year min_time =? year now) &&
  ((month min_time =? month now) && (month now =? day min_time)
   && (day min_time =? day now)).

Definition extract_timestamp_from_filemeta (path : string) : outcome datetime :=
  match getctime path with
  | Raise e => Raise e
  | Ok ctime =>
      match getmtime path with
      | Raise e => Raise e
      | Ok mtime =>
          let min_time := fromtimestamp (Z.min ctime mtime) in
          if suspicious min_time
          then Raise (ValueError ("Suspicious timestamp " +:+ str_datetime min_time))
          else Ok min_time
      end
  end.
End resolver.

End Timestamp.

(** ** The tree cleaner *)

Module Cleaner.
Import PyStr.

(** What [os.walk] sees below a directory: the names of the entries that
    are not directories and the subdirectories it descends into.  A name
    that [os.walk] lists without visiting it (a link to a directory, a
    directory it cannot read) has no place in such a snapshot; [Listing]
    has the walk with such names. *)
#[warnings="-register-all"]
Inductive dirtree : Type :=
| DirNode (files : list string) (subdirs : list (string * dirtree)).

Definition files_of (t : dirtree) : list string :=
  match t with DirNode files _ => files end.
Definition subdirs_of (t : dirtree) : list (string * dirtree) :=
  match t with DirNode _ subdirs => subdirs end.

(** [os.walk(top, topdown=False)]: the triples
    [(current_dir, subdirs, files)], every directory after the
    directories below it.  Each directory is listed before anything
    below it is visited, so what the loop removes never changes a later
    triple. *)
Fixpoint walk_bottomup (top : string) (t : dirtree)
  : list (string * list string * list string) :=
  match t with
  | DirNode files subdirs =>
      flat_map (fun entry => walk_bottomup (PosixPath.join top (fst entry)) (snd entry))
        subdirs
      ++ [(top, map fst subdirs, files)]
  end.

(** [any(files)]: some name is a non-empty string. *)
Definition any_name (files : list string) : bool :=
  existsb (fun f => negb (String.eqb f "")) files.

(** The body of the loop.  [os.rmdir(current_dir)] is called on a
    directory without files whose subdirectories were all removed by
    earlier iterations; [deleted] holds the directories removed. *)
Definition cleanup_step (deleted : gset string)
    (triple : string * list string * list string) : gset string :=
  let '(current_dir, subdirs, files) := triple in
  let still_has_subdirs :=
    existsb (fun subdir =>
               negb (bool_decide (PosixPath.join current_dir subdir ∈ deleted)))
      subdirs in
  if negb (any_name files) && negb still_has_subdirs
  then {[current_dir]} ∪ deleted
  else deleted.

Definition cleanup_deleted (root : string) (t : dirtree) : gset string :=
  fold_left cleanup_step (walk_bottomup root t) ∅.

Definition cleanup (root : string) (t : dirtree) : nat :=
  size (cleanup_deleted root t).

(** The last lines of [main]: with [--cleanup], the source directory is
    cleaned and the count printed. *)
Definition main_cleanup (args_cleanup : bool) (args_source : string)
    (t : dirtree) : list string :=
  if args_cleanup
  then ["Deleted " +:+ of_nat (cleanup args_source t) +:+ " empty directories"]
  else [].

End Cleaner.

(** * The vocabulary of the properties

    The predicates the theorems are stated with, the claims of the
    specification that are refuted, in the words of the specification, and
    the concrete inputs of the witnesses and counterexamples. *)

Module Scenario.
Import PyDict Sys.

(** The formatted name of 2024-01-02 10:00:00 (and of the same moment of
    any other year). *)
Definition stem : string := "01_02_10_00_00__2th_of_January_at_10h_00m".

(** 2024-01-02 10:00:00. *)
Definition jan2_2024 : datetime := mkDatetime 2024 1 2 10 0 0.

(** A world with the given files and directories and an empty trace. *)
Definition world_of (entries : list (string * node)) : world :=
  mkWorld (list_to_map entries) [].

(** One incoming file, dated 2024; the ledger knows a file of the same
    name and the same bytes, sorted under 2023. *)
Definition other_year : world :=
  world_of
    [("out", Dir); ("out/2023", Dir); ("in", Dir);
     ("out/2023/" +:+ stem +:+ ".jpg", File (Data "AAA"));
     ("out/info.json",
       File (Json [("out/2023/" +:+ stem +:+ ".jpg", "old/a.jpg")]));
     ("in/b.jpg", File (Data "AAA"))].

(** The ledger knows the name under 2023 and under 2024; the incoming
    file is planned for 2024. *)
Definition two_years : world :=
  world_of
    [("out", Dir); ("out/2023", Dir); ("out/2024", Dir); ("in", Dir);
     ("out/2023/" +:+ stem +:+ ".jpg", File (Data "AAA"));
     ("out/2024/" +:+ stem +:+ ".jpg", File (Data "CCC"));
     ("out/info.json",
       File (Json [("out/2023/" +:+ stem +:+ ".jpg", "old/a.jpg");
                   ("out/2024/" +:+ stem +:+ ".jpg", "old/c.jpg")]));
     ("in/b.jpg", File (Data "AAA"))].

(** The ledger knows the target of the incoming file; [bytes] is what the
    incoming file holds, the recorded file holds ["AAA"]. *)
Definition same_target (bytes : string) : world :=
  world_of
    [("out", Dir); ("out/2024", Dir); ("in", Dir);
     ("out/2024/" +:+ stem +:+ ".jpg", File (Data "AAA"));
     ("out/info.json",
       File (Json [("out/2024/" +:+ stem +:+ ".jpg", "old/a.jpg")]));
     ("in/b.jpg", File (Data bytes))].

(** The discovery of the single file [in/b.jpg] and its plan. *)
Definition one_picture : list (datetime * string) := [(jan2_2024, "in/b.jpg")].

Definition one_move : dict string :=
  [("out/2024/" +:+ stem +:+ ".jpg", "in/b.jpg")].

(** Two incoming files of one second; the ledger holds both numbered
    names, the first with the bytes of [in/c.jpg], the second with other
    bytes than [in/d.jpg]. *)
Definition numbered_pair : world :=
  world_of
    [("out", Dir); ("out/2024", Dir); ("in", Dir);
     ("out/2024/" +:+ stem +:+ "_1.jpg", File (Data "AAA"));
     ("out/2024/" +:+ stem +:+ "_2.jpg", File (Data "BBB"));
     ("out/info.json",
       File (Json [("out/2024/" +:+ stem +:+ "_1.jpg", "old/a.jpg");
                   ("out/2024/" +:+ stem +:+ "_2.jpg", "old/b.jpg")]));
     ("in/c.jpg", File (Data "AAA"));
     ("in/d.jpg", File (Data "DDD"))].

Definition two_pictures : list (datetime * string) :=
  [(jan2_2024, "in/c.jpg"); (jan2_2024, "in/d.jpg")].

(** Two planned moves; the first target is already on disk. *)
Definition taken_target : world :=
  world_of
    [("out", Dir); ("out/2024", Dir); ("in", Dir);
     ("out/2024/a.jpg", File (Data "OLD"));
     ("in/a.jpg", File (Data "AAA"));
     ("in/b.jpg", File (Data "BBB"))].

Definition two_moves : dict string :=
  [("out/2024/a.jpg", "in/a.jpg"); ("out/2024/b.jpg", "in/b.jpg")].

(** The output tree is [/x/pictures_sorted]; a tree [/x/pictures] holds a
    file of the same relative name with the bytes of the incoming file,
    while the file recorded in the output tree holds other bytes. *)
Definition two_roots : world :=
  world_of
    [("/x", Dir); ("/x/in", Dir);
     ("/x/pictures", Dir); ("/x/pictures/2024", Dir);
     ("/x/pictures_sorted", Dir); ("/x/pictures_sorted/2024", Dir);
     ("/x/pictures/2024/" +:+ stem +:+ ".jpg", File (Data "AAA"));
     ("/x/pictures_sorted/2024/" +:+ stem +:+ ".jpg", File (Data "CCC"));
     ("/x/pictures_sorted/info.json",
       File (Json [("/x/pictures_sorted/2024/" +:+ stem +:+ ".jpg", "/x/old/b.jpg")]));
     ("/x/in/b.jpg", File (Data "AAA"))].

(** The source of the run is the output tree itself: the file to sort is
    the file the ledger records. *)
Definition already_sorted : world :=
  world_of
    [("out", Dir); ("out/2024", Dir);
     ("out/2024/" +:+ stem +:+ ".jpg", File (Data "AAA"));
     ("out/info.json",
       File (Json [("out/2024/" +:+ stem +:+ ".jpg", "in/b.jpg")]))].

End Scenario.

Module Props.
Import PyStr PyDict Sys Os Organizer Plan Cleaner Timestamp Scenario.
Local Open Scope pyio_scope.

(** Every event the computation adds to the trace satisfies [P]. *)
Definition emits {A} (P : event -> Prop) (m : M A) : Prop :=
  forall w, exists evs, trace (fst (m w)) = trace w ++ evs /\ Forall P evs.

(** The computation leaves every file and directory as it is. *)
Definition keeps_fs {A} (m : M A) : Prop :=
  forall w, fs (fst (m w)) = fs w.

(** Reading and reporting: the events of a dry run. *)
Definition quiet (ev : event) : Prop :=
  match ev with
  | EvPrint _ | EvCompare _ _ _ => True
  | _ => False
  end.

(** The ledger [check_update_old_info] works with: the object in the
    ledger file, or the empty dictionary when there is no such file (also
    where loading raises, so that the loop is not entered). *)
Definition ledger_of (f : gmap string node) (json_file : string) : dict string :=
  match stat f json_file with
  | Some (File (Json obj)) => obj
  | _ => []
  end.

(** The comparison of [f1] with [f2] is the one of a ledger key with the
    plan entry of the same base name. *)
Definition name_matched_compare (ledger_keys : list string) (moves : dict string)
    (f1 f2 : string) : Prop :=
  exists k n,
    In k ledger_keys /\ get moves n = Some f2 /\
    PosixPath.basename n = PosixPath.basename k /\
    f1 = recorded_location k.

(** [p] is the source of a plan entry named like the ledger key [k], and
    the file at the recorded location of [k] holds the same bytes. *)
Definition identical_to_name_match (ledger_keys : list string) (moves : dict string)
    (f : gmap string node) (p : string) : Prop :=
  exists k n c,
    In k ledger_keys /\ get moves n = Some p /\
    PosixPath.basename n = PosixPath.basename k /\
    stat f (recorded_location k) = Some (File c) /\
    stat f p = Some (File c).

(** The events a reconciliation may add: prints, name-matched
    comparisons and removals of files found identical. *)
Definition reconcile_event (ledger_keys : list string) (moves : dict string)
    (f : gmap string node) (ev : event) : Prop :=
  match ev with
  | EvPrint _ => True
  | EvCompare f1 f2 _ => name_matched_compare ledger_keys moves f1 f2
  | EvRemove p => identical_to_name_match ledger_keys moves f p
  | _ => False
  end.

(** [emits], for the run that starts in [w]. *)
Definition emits_at {A} (P : event -> Prop) (m : M A) (w : world) : Prop :=
  exists evs, trace (fst (m w)) = trace w ++ evs /\ Forall P evs.

(** The invariant of the loop of [check_update_old_info], started with
    the plan [moves0] in the world [w0]: files only disappear, and every
    event so far is one of the three kinds above. *)
Definition loop_world (ledger_keys : list string) (moves0 : dict string)
    (w0 w : world) : Prop :=
  (forall p n, fs w !! p = Some n -> fs w0 !! p = Some n) /\
  exists evs, trace w = trace w0 ++ evs /\
              Forall (reconcile_event ledger_keys moves0 (fs w0)) evs.

(** The plan only loses entries. *)
Definition loop_state (ledger_keys : list string) (moves0 : dict string)
    (w0 : world) (st : dict string * nat) (w : world) : Prop :=
  (forall key v, get (fst st) key = Some v -> get moves0 key = Some v) /\
  loop_world ledger_keys moves0 w0 w.

(** Any event but a removal. *)
Definition no_removal (ev : event) : Prop :=
  match ev with
  | EvRemove _ => False
  | _ => True
  end.

(** The claim as the specification words it: whatever an Apply run
    removes is the source of a plan entry whose own target is recorded in
    the ledger and holds the same bytes. *)
Definition deletes_only_identical_to_target
    (pictures : list (datetime * string)) (out : string) (w : world) : Prop :=
  forall evs p,
    trace (fst (do_move_files pictures out w)) = trace w ++ evs ->
    In (EvRemove p) evs ->
    exists moves target c,
      Plan.create_moves pictures out = Ok moves /\
      get moves target = Some p /\
      mem target (ledger_of (fs w) (PosixPath.join out "info.json")) = true /\
      stat (fs w) target = Some (File c) /\
      stat (fs w) p = Some (File c).

(** The claim as the specification words it: the comparisons made are
    exactly those of the keys the ledger and the plan share, between the
    file at the key and the source the plan gives for it. *)
Definition compares_exactly_shared_targets
    (moves : dict string) (json_file : string) (dry_run : bool) (w : world) : Prop :=
  forall evs,
    trace (fst (check_update_old_info moves json_file dry_run w)) = trace w ++ evs ->
    forall f1 f2,
      (exists same, In (EvCompare f1 f2 same) evs) <->
      (mem f1 (ledger_of (fs w) json_file) = true /\ get moves f1 = Some f2).

(** The claim as the specification words it: an entry whose target is in
    the ledger with other bytes is reported and stays in the returned
    plan. *)
Definition differing_entry_stays_planned
    (moves : dict string) (json_file : string) (dry_run : bool) (w : world) : Prop :=
  forall target src c1 c2,
    mem target (ledger_of (fs w) json_file) = true ->
    get moves target = Some src ->
    stat (fs w) target = Some (File c1) ->
    stat (fs w) src = Some (File c2) ->
    c1 <> c2 ->
    exists w' moves' n,
      check_update_old_info moves json_file dry_run w = (w', Ok (moves', n)) /\
      In (EvPrint (different_msg target src)) (trace w') /\
      get moves' target = Some src.

(** The ledger file holds [obj] and can be written again. *)
Definition ledger_written (f : gmap string node) (json_file : string)
    (obj : dict string) : Prop :=
  String.eqb json_file "" = false /\
  stat f json_file = Some (File (Json obj)) /\
  parent_ok f json_file = Ok tt.

(** A first run that moves its only file into an empty output tree. *)
Definition fresh : world :=
  world_of [("in", Dir); ("in/b.jpg", File (Data "AAA"))].

(** The world that run leaves. *)
Definition after_fresh : world := fst (do_move_files one_picture "out" fresh).

(** The claim as the specification words it: a conflict costs one move
    only; every other planned move whose target is free and whose source
    is a file is carried out. *)
Definition conflict_skips_only_that_move (moves : dict string) (w : world) : Prop :=
  forall new_file old_file c,
    In (new_file, old_file) moves ->
    stat (fs w) new_file = None ->
    stat (fs w) old_file = Some (File c) ->
    stat (fs (fst (move_all moves w))) new_file = Some (File c).

(** The message of the [ValueError] of [sort_file_in]. *)
Definition wont_copy_msg (infile outfile : string) : string :=
  "Won't copy " +:+ infile +:+ " to " +:+ outfile +:+ ". File already exists!".

(** The same calendar day. *)
Definition same_date (a b : datetime) : bool :=
  (year a =? year b) && (month a =? month b) && (day a =? day b).

(** The same time of day. *)
Definition same_time (a b : datetime) : bool :=
  (hour a =? hour b) && (minute a =? minute b) && (second a =? second b).

(** The claim as the specification words it: the fallback fails exactly
    when the resolved timestamp is on the current date at the current
    time, and returns the timestamp otherwise. *)
Definition rejects_exactly_the_current_moment
    (getctime getmtime : string -> outcome Z) (fromtimestamp : Z -> datetime)
    (now : datetime) (path : string) : Prop :=
  forall ctime mtime,
    getctime path = Ok ctime -> getmtime path = Ok mtime ->
    let min_time := fromtimestamp (Z.min ctime mtime) in
    if same_date min_time now && same_time min_time now
    then exists e, extract_timestamp_from_filemeta getctime getmtime fromtimestamp
                     now path = Raise e
    else extract_timestamp_from_filemeta getctime getmtime fromtimestamp now path
         = Ok min_time.

(** 2024-03-05 10:00:00 UTC, in seconds since the epoch. *)
Definition march5_10h : Z := 1709632800.

(** 2024-03-05 12:00:00 UTC. *)
Definition march5_12h : Z := 1709640000.

(** 2024-02-02 10:00:00 UTC. *)
Definition feb2_10h : Z := 1706868000.

(** 2024-03-03 10:00:00 UTC. *)
Definition march3_10h : Z := 1709460000.

(** No file anywhere in the tree. *)
Fixpoint no_files (t : dirtree) : bool :=
  match t with
  | DirNode files subdirs =>
      negb (any_name files) && forallb (fun e => no_files (snd e)) subdirs
  end.

(** The directories of the tree, the root included. *)
Fixpoint dir_count (t : dirtree) : nat :=
  match t with
  | DirNode _ subdirs => S (list_sum (map (fun e => dir_count (snd e)) subdirs))
  end.

(** The directories of the tree that hold no file at any depth. *)
Fixpoint removable_count (t : dirtree) : nat :=
  match t with
  | DirNode _ subdirs =>
      list_sum (map (fun e => removable_count (snd e)) subdirs)
      + (if no_files t then 1 else 0)
  end.

(** The paths [os.walk] gives to the directories of the tree. *)
Fixpoint all_dirs (top : string) (t : dirtree) : list string :=
  match t with
  | DirNode _ subdirs =>
      top :: flat_map (fun e => all_dirs (PosixPath.join top (fst e)) (snd e)) subdirs
  end.

(** The paths of the directories without files, in the order of the walk. *)
Fixpoint removed (top : string) (t : dirtree) : list string :=
  match t with
  | DirNode _ subdirs =>
      flat_map (fun e => removed (PosixPath.join top (fst e)) (snd e)) subdirs
      ++ (if no_files t then [top] else [])
  end.

(** Names of directory entries: not empty, without a slash. *)
Definition name_ok (c : string) : bool :=
  negb (String.eqb c "") && negb (has_char "/" c).

(** No name occurs twice. *)
Fixpoint distinct (l : list string) : bool :=
  match l with
  | [] => true
  | x :: l' => negb (existsb (String.eqb x) l') && distinct l'
  end.

(** A snapshot of a real directory: the entries of a directory have
    proper names, different from each other. *)
Fixpoint wf_tree (t : dirtree) : bool :=
  match t with
  | DirNode _ subdirs =>
      forallb name_ok (map fst subdirs) && distinct (map fst subdirs)
      && forallb (fun e => wf_tree (snd e)) subdirs
  end.

(** What [os.path.join(top, c)] puts in front of a proper name [c]. *)
Definition prefix_of (top : string) : string :=
  if String.eqb top "" || endswith_char PosixPath.sep top then top else top +:+ "/".

(** A path [os.path.join] extends with a slash. *)
Definition clean (q : string) : Prop :=
  q <> "" /\ endswith_char PosixPath.sep q = false.

(** [p] is [q] or lies under [q]. *)
Definition below (q p : string) : Prop :=
  exists r, p = q +:+ r /\ (r = "" \/ startswith "/" r = true).

(** A source tree left without files: [a], [b] and [b/c]. *)
Definition emptied : dirtree :=
  DirNode [] [("a", DirNode [] []); ("b", DirNode [] [("c", DirNode [] [])])].

(** Every character of [s] satisfies [P]. *)
Fixpoint all_chars (P : ascii -> bool) (s : string) : bool :=
  match s with
  | EmptyString => true
  | String a s' => P a && all_chars P s'
  end.

(** A decimal digit. *)
Definition is_digit (a : ascii) : bool :=
  match a with
  | "0" | "1" | "2" | "3" | "4" | "5" | "6" | "7" | "8" | "9" => true
  | _ => false
  end%char.

(** A name as the first loop of [create_moves] builds it: a directory,
    the formatted timestamp, which ends in ["m"], and an extension
    without a dot. *)
Definition shaped (k : string) : Prop :=
  exists d f e,
    k = (d +:+ "/" +:+ f) +:+ String "." e /\
    last_char f = Some "m"%char /\
    has_char "." e = false.

(** The groups after the first loop over [pictures]: one group per
    target name, every key a target name, every source in one group. *)
Definition grouped (out : string) (pictures : list (datetime * string))
    (G : dict (list string)) : Prop :=
  NoDup (keys G) /\
  (forall k, In k (keys G) -> exists t path, k = target_name out t path) /\
  Permutation (concat (map snd G)) (map snd pictures).

(** [name] is a name the second loop gives to a file of the group [g]. *)
Definition derived (g : string * list string) (name : string) : Prop :=
  match snd g with
  | [_] => name = fst g
  | _ => exists i, numbered_name (fst g) i = Ok name
  end.

(** The plan after the groups [done]: no name was assigned twice, and
    the sources are those of the groups, in order. *)
Definition placed (done : dict (list string)) (moves : dict string) : Prop :=
  NoDup (keys moves) /\
  map snd moves = concat (map snd done) /\
  forall name, In name (keys moves) -> exists g, In g done /\ derived g name.

End Props.

(** * The discovery walk, the timestamp readers and the default output

    [find_pictures] and [extract_picture_timestamp] call into Pillow,
    ffprobe and the clock; these are the variables of the section
    [readers].  The walk runs over the same snapshots as the cleaner. *)

Module Discovery.
Import PyStr PyDict Cleaner.

(** [s.endswith(suffix)] *)
Fixpoint endswith (suffix s : string) : bool :=
  String.eqb suffix s ||
  match s with
  | EmptyString => false
  | String _ s' => endswith suffix s'
  end.

Definition allowed_picture_extensions : list string :=
  [".jpg"; ".JPG"; ".jpeg"; ".JPEG"; ".png"; ".PNG"; ".gif"; ".GIF";
   ".NEF"; ".CR2"; ".dng"; ".bmp"].

Definition pictures_with_exif : list string :=
  [".jpg"; ".JPG"; ".jpeg"; ".JPEG"].

(** The extensions the [elif] of [find_pictures] tests one by one. *)
Definition video_extensions : list string :=
  [".mp4"; ".MP4"; ".mov"; ".MOV"; ".avi"; ".AVI"].

(** [any(name.endswith(ext) for ext in exts)] *)
Definition endswith_any (exts : list string) (name : string) : bool :=
  existsb (fun ext => endswith ext name) exts.

(** [os.walk(top)]: the triples [(root, dirs, files)], every directory
    before the directories below it. *)
Fixpoint walk_topdown (top : string) (t : dirtree)
  : list (string * list string * list string) :=
  match t with
  | DirNode files subdirs =>
      (top, map fst subdirs, files)
      :: flat_map (fun entry => walk_topdown (PosixPath.join top (fst entry)) (snd entry))
           subdirs
  end.

(** [min(dates)] keeps the first of the smallest strings, in the order of
    the code points. *)
Definition min_str (smallest d : string) : string :=
  if String.ltb d smallest then d else smallest.

Definition date_tags : list string :=
  ["DateTime"; "DateTimeOriginal"; "DateTimeDigitized"].

(** What the program reads of the dictionary [ffmpeg.probe] returns: the
    [creation_time] tag of the first stream and the one of the format,
    each when every key on the way to it is present. *)
Record probe_result : Type := mkProbe {
  stream_creation_time : option string;
  format_creation_time : option string
}.

(** The three lists [find_pictures] returns.  An entry of [unmatched] is
    the pair of an empty dictionary and the path; the path is kept. *)
Record discovery : Type := mkDiscovery {
  pictures : list (datetime * string);
  unmatched : list string;
  errors : list (exn * string)
}.

Definition found_msg (d : discovery) : string :=
  "Found " +:+ of_nat (length (pictures d)) +:+ " valid files and "
  +:+ of_nat (length (unmatched d) + length (errors d)) +:+ " invalid files...".

Section readers.
(** The EXIF tags of the image at a path, by name ([ExifTags.TAGS]); the
    empty dictionary when the image has no EXIF data, the exception of
    [Image.open] or [_getexif] otherwise. *)
Variable exif_tags : string -> outcome (dict string).
(** [datetime.datetime.strptime(s, '%Y:%m:%d %H:%M:%S')] *)
Variable strptime : string -> outcome datetime.
(** [ffmpeg.probe] *)
Variable probe : string -> outcome probe_result.
(** [datetime.datetime.fromisoformat] *)
Variable fromisoformat : string -> outcome datetime.
Variable getctime getmtime : string -> outcome Z.
Variable fromtimestamp : Z -> datetime.
Variable now : datetime.

Definition extract_picture_timestamp (path : string) : outcome datetime :=
  let filemeta :=
    Timestamp.extract_timestamp_from_filemeta getctime getmtime fromtimestamp now in
  if endswith_any pictures_with_exif path then
    match exif_tags path with
    | Raise e => Raise e
    | Ok tags =>
        let dates :=
          flat_map (fun tag => match get tags tag with
                               | Some v => [v]
                               | None => []
                               end) date_tags in
        match dates with
        | d :: ds => strptime (fold_left min_str ds d)
        | [] => filemeta path
        end
    end
  else filemeta path.

(** The [try] block of the video branch. *)
Definition video_timestamp (path : string) : outcome datetime :=
  match probe path with
  | Raise e => Raise e
  | Ok p =>
      match stream_creation_time p with
      | Some s => fromisoformat s
      | None =>
          match format_creation_time p with
          | Some s => fromisoformat s
          | None =>
              Timestamp.extract_timestamp_from_filemeta getctime getmtime
                fromtimestamp now path
          end
      end
  end.

(** [try: ... pictures.append((timestamp, path))
     except Exception as e: errors.append((e, path))] *)
Definition record_timestamp (d : discovery) (path : string)
    (timestamp : outcome datetime) : discovery :=
  match timestamp with
  | Ok t => mkDiscovery (pictures d ++ [(t, path)]) (unmatched d) (errors d)
  | Raise e => mkDiscovery (pictures d) (unmatched d) (errors d ++ [(e, path)])
  end.

(** The body of the inner loop, for the file [file] of the directory
    [root]. *)
Definition find_file (root : string) (d : discovery) (file : string) : discovery :=
  let path := PosixPath.join root file in
  if endswith_any allowed_picture_extensions file then
    record_timestamp d path (extract_picture_timestamp path)
  else if endswith_any video_extensions file then
    record_timestamp d path (video_timestamp path)
  else mkDiscovery (pictures d) (unmatched d ++ [path]) (errors d).

(** The body of the outer loop. *)
Definition find_dir (d : discovery)
    (triple : string * list string * list string) : discovery :=
  let '(root, _, files) := triple in
  fold_left (find_file root) files d.

(** [snapshot] is what [os.walk] sees below [source], or [None] when
    [source] is not a directory.  The result comes with the line the
    function prints. *)
Definition find_pictures (source : string) (snapshot : option dirtree)
  : outcome (discovery * string) :=
  match snapshot with
  | None => Raise (ValueError "Source is not a directory")
  | Some t =>
      let d := fold_left find_dir (walk_topdown source t) (mkDiscovery [] [] []) in
      Ok (d, found_msg d)
  end.
End readers.

(** [main] without [--out]: [base, old_dir = os.path.split(args.source)]
    and [args.out = os.path.join(base, 'pictures')]. *)
Definition default_out (source : string) : string :=
  let '(base, old_dir) := PosixPath.split source in
  PosixPath.join base "pictures".

End Discovery.

(** * The file system as a walk sees it

    [find_pictures] and [cleanup] walk the tree that the executor
    changes.  [tree_of] reads the snapshot of a directory off the file
    system of the executor, so that a discovery can follow a run. *)

Module Snapshot.
Import PyStr PyDict Sys Os Organizer Cleaner Discovery.
Local Open Scope pyio_scope.

(** [os.listdir(top)] with the nodes: the names [top] holds, in the
    order of the map (a real directory has no order of its own). *)
Definition listdir (f : gmap string node) (top : string) : list (string * node) :=
  flat_map
    (fun entry =>
       let name := PosixPath.basename (fst entry) in
       if negb (String.eqb name "") && String.eqb (PosixPath.join top name) (fst entry)
       then [(name, snd entry)]
       else [])
    (map_to_list f).

Definition is_dir (entry : string * node) : bool :=
  match snd entry with
  | Dir => true
  | File _ => false
  end.

(** The snapshot of the directory [top]; a tree is not deeper than the
    file system has entries. *)
Fixpoint tree_below (fuel : nat) (f : gmap string node) (top : string) : dirtree :=
  DirNode
    (map fst (List.filter (fun entry => negb (is_dir entry)) (listdir f top)))
    (match fuel with
     | O => []
     | S fuel' =>
         map (fun entry =>
                (fst entry, tree_below fuel' f (PosixPath.join top (fst entry))))
           (List.filter is_dir (listdir f top))
     end).

(** What [os.walk(source)] sees, or [None] when [source] is not a
    directory. *)
Definition tree_of (f : gmap string node) (source : string) : option dirtree :=
  match stat f source with
  | Some Dir => Some (tree_below (size f) f source)
  | _ => None
  end.

Section run.
Variable exif_tags : string -> outcome (dict string).
Variable strptime : string -> outcome datetime.
Variable probe : string -> outcome probe_result.
Variable fromisoformat : string -> outcome datetime.
Variable getctime getmtime : string -> outcome Z.
Variable fromtimestamp : Z -> datetime.
Variable now : datetime.

(** Lines 232 to 235 of [main] with [--apply]: the discovery of
    [source], which prints its line, and [do_move_files] on what it
    found. *)
Definition apply_once (source out : string) : M unit :=
  fun w =>
    match find_pictures exif_tags strptime probe fromisoformat getctime getmtime
            fromtimestamp now source (tree_of (fs w) source) with
    | Raise e => (w, Raise e)
    | Ok (d, line) => (print line ;;; do_move_files (pictures d) out) w
    end.
End run.

End Snapshot.

(** * A walk that lists more than it visits

    [os.walk] lists a link to a directory, and a directory it cannot
    read, among the subdirectories of their parent, and yields no triple
    for them. *)

Module Listing.
Import PyStr Cleaner.

(** What [os.walk] sees below a directory: its files, and the names it
    lists as subdirectories, each with what the walk sees below it, or
    [None] when the walk does not visit it. *)
#[warnings="-register-all"]
Inductive listed : Type :=
| Listed (files : list string) (subdirs : list (string * option listed)).

(** [os.walk(top, topdown=False)] *)
Fixpoint walk_bottomup (top : string) (t : listed)
  : list (string * list string * list string) :=
  match t with
  | Listed files subdirs =>
      flat_map (fun entry =>
                  match snd entry with
                  | Some below => walk_bottomup (PosixPath.join top (fst entry)) below
                  | None => []
                  end) subdirs
      ++ [(top, map fst subdirs, files)]
  end.

(** [cleanup] over such a walk: the loop body is [Cleaner.cleanup_step]. *)
Definition cleanup_deleted (root : string) (t : listed) : gset string :=
  fold_left cleanup_step (walk_bottomup root t) ∅.

Definition cleanup (root : string) (t : listed) : nat :=
  size (cleanup_deleted root t).

End Listing.

(** * More vocabulary

    The notions of the further properties of the plan builder, the
    ledger, the executor, the cleaner and the discovery walk. *)

Module Notions.
Import PyStr PyDict Sys Os Organizer Plan Cleaner Timestamp Discovery Scenario Props.
Import Snapshot.
Local Open Scope pyio_scope.

(** A list as a dictionary value of the first loop of [create_moves]: a
    key is present only with a non-empty list. *)
Definition nonempty {A} (l : list A) : option (list A) :=
  match l with
  | [] => None
  | _ => Some l
  end.

(** The sources of the records whose target name is [k], in the order of
    discovery. *)
Definition sources_of (out k : string) (pictures : list (datetime * string))
  : list string :=
  map snd
    (List.filter (fun r => String.eqb (target_name out (fst r) (snd r)) k) pictures).

(** What [create_moves] takes for the extension of a source. *)
Definition ext_of (path : string) : string :=
  List.last (split_on "." (PosixPath.basename path)) "".

(** The target name of a timestamp without its extension. *)
Definition stem_of (out : string) (t : datetime) : string :=
  PosixPath.join out (of_nat (year t)) +:+ "/" +:+ Strftime.format t.

(** The entries the inner loop of [create_moves] writes for the files of
    one group, from index [i]. *)
Fixpoint numbered_entries (new_name : string) (i : nat) (files : list string)
  : outcome (dict string) :=
  match files with
  | [] => Ok []
  | file :: rest =>
      match numbered_name new_name i with
      | Ok name =>
          match numbered_entries new_name (S i) rest with
          | Ok l => Ok ((name, file) :: l)
          | Raise e => Raise e
          end
      | Raise e => Raise e
      end
  end.

(** The entries the second loop writes for one group. *)
Definition entries_of (g : string * list string) : outcome (dict string) :=
  match snd g with
  | [file] => Ok [(fst g, file)]
  | files => numbered_entries (fst g) 0 files
  end.

(** Two records of one second and one extension, and a third. *)
Definition burst : list (datetime * string) :=
  [(jan2_2024, "in/x.jpg"); (mkDatetime 2023 12 24 18 30 5, "in/c.png");
   (jan2_2024, "in/y.jpg")].

(** No key of the ledger has the base name of the target of the plan
    entry. *)
Definition unknown_name (ledger_keys : list string) (entry : string * string) : bool :=
  negb (existsb
          (fun k => String.eqb (PosixPath.basename k) (PosixPath.basename (fst entry)))
          ledger_keys).

Definition is_removal (ev : event) : bool :=
  match ev with
  | EvRemove _ => true
  | _ => false
  end.

Definition is_compare (ev : event) : bool :=
  match ev with
  | EvCompare _ _ _ => true
  | _ => false
  end.

(** How many events of the list satisfy the test. *)
Definition count_events (test : event -> bool) (evs : list event) : nat :=
  length (List.filter test evs).

(** The body of the loop of [append_moves_to_json]. *)
Definition check_key (moves : dict string) (k : string) : M unit :=
  if mem k moves then
    print (still_exists_msg k) ;;;
    raise (TypeError "exceptions must derive from BaseException")
  else ret tt.

(** A ledger of one file sorted earlier, and a plan of two other files. *)
Definition one_known : world :=
  world_of
    [("out", Dir); ("out/2024", Dir); ("in", Dir);
     ("out/2024/a.jpg", File (Data "AAA"));
     ("out/info.json", File (Json [("out/2024/a.jpg", "old/a.jpg")]));
     ("in/b.jpg", File (Data "BBB")); ("in/c.jpg", File (Data "CCC"))].

Definition two_new : dict string :=
  [("out/2024/b.jpg", "in/b.jpg"); ("out/2024/c.jpg", "in/c.jpg")].

(** From [f] to [f']: every entry is as it was, and what is new is a
    directory. *)
Definition only_new_dirs (f f' : gmap string node) : Prop :=
  forall p, f' !! p = f !! p \/ (f !! p = None /\ f' !! p = Some Dir).

(** The computation changes the file system by new directories only. *)
Definition adds_dirs {A} (m : M A) : Prop :=
  forall w, only_new_dirs (fs w) (fs (fst (m w))).

(** The event of the move that carries out a plan entry. *)
Definition move_event (item : string * string) : event :=
  EvMove (snd item) (fst item).

(** The sources and the targets of a plan. *)
Definition touched (moves : dict string) (p : string) : Prop :=
  In p (keys moves) \/ In p (map snd moves).

(** The source tree of a first run, next to an empty output directory. *)
Definition first_run : world :=
  world_of [("out", Dir); ("in", Dir); ("in/b.jpg", File (Data "AAA"))].

(** Any event but the writing of a file. *)
Definition no_write (ev : event) : Prop :=
  match ev with
  | EvWrite _ => False
  | _ => True
  end.

Definition is_print (ev : event) : Prop :=
  match ev with
  | EvPrint _ => True
  | _ => False
  end.

(** The events of a computation that writes [path] as its last step: no
    file is written when it raises; when it ends normally, [path] is
    written once, after everything else but prints. *)
Definition written_last (path : string) {A} (r : outcome A) (evs : list event) : Prop :=
  match r with
  | Raise _ => Forall no_write evs
  | Ok _ =>
      exists before after,
        evs = before ++ EvWrite path :: after /\
        Forall no_write before /\ Forall is_print after
  end.

Definition writes_last (path : string) {A} (m : M A) : Prop :=
  forall w, exists evs,
    trace (fst (m w)) = trace w ++ evs /\ written_last path (snd (m w)) evs.

(** The computation only prints, and ends normally. *)
Definition reports {A} (m : M A) : Prop :=
  forall w, exists evs a,
    m w = (mkWorld (fs w) (trace w ++ evs), Ok a) /\ Forall is_print evs.

(** The moves of a plan, and the directories made on the way. *)
Definition planned_move (moves : dict string) (ev : event) : Prop :=
  match ev with
  | EvMove src dst => In (dst, src) moves
  | EvMkdir _ => True
  | _ => False
  end.

(** Any event but a move. *)
Definition no_move (ev : event) : Prop :=
  match ev with
  | EvMove _ _ => False
  | _ => True
  end.

(** A source tree with one file left, in [d]. *)
Definition one_left : dirtree :=
  DirNode [] [("a", DirNode [] []);
              ("b", DirNode [] [("c", DirNode [] [])]);
              ("d", DirNode ["f.jpg"] [("e", DirNode [] [])])].

(** The paths of the three lists of a discovery. *)
Definition sorted_paths (d : discovery) : list string :=
  map snd (Discovery.pictures d) ++ unmatched d ++ map snd (errors d).

(** The paths of the files of a snapshot, in the order of the walk. *)
Definition all_files (top : string) (t : dirtree) : list string :=
  flat_map (fun triple => map (PosixPath.join (fst (fst triple))) (snd triple))
    (walk_topdown top t).

(** [file] is a file of the directory [root] of the snapshot, and [path]
    its path. *)
Definition walked (top : string) (t : dirtree) (root file path : string) : Prop :=
  exists dirs files,
    In (root, dirs, files) (walk_topdown top t) /\ In file files /\
    path = PosixPath.join root file.

(** A source tree with a picture, a video that cannot be probed, and a
    text file. *)
Definition mixed_tree : dirtree :=
  DirNode ["a.png"; "notes.txt"] [("x", DirNode ["v.mp4"] [])].

(** Readers for [mixed_tree]: no EXIF data, no probe, file times of
    2024-03-05. *)
Definition no_exif (path : string) : outcome (dict string) := Ok [].
Definition no_strptime (s : string) : outcome datetime := Raise (ValueError s).
Definition no_probe (path : string) : outcome probe_result :=
  Raise (OSError "ffprobe").
Definition ctime_march5 (path : string) : outcome Z := Ok march5_10h.
Definition mtime_march5 (path : string) : outcome Z := Ok march5_12h.

Section sorting.
Variable exif_tags : string -> outcome (dict string).
Variable strptime : string -> outcome datetime.
Variable probe : string -> outcome probe_result.
Variable fromisoformat : string -> outcome datetime.
Variable getctime getmtime : string -> outcome Z.
Variable fromtimestamp : Z -> datetime.
Variable now : datetime.

(** What reading the timestamp of a file gave, for the reader its name
    selects; [None] for a name that selects no reader. *)
Definition reading (file path : string) : option (outcome datetime) :=
  if endswith_any allowed_picture_extensions file then
    Some (extract_picture_timestamp exif_tags strptime getctime getmtime
            fromtimestamp now path)
  else if endswith_any video_extensions file then
    Some (video_timestamp probe fromisoformat getctime getmtime fromtimestamp now path)
  else None.

(** Every entry of the three lists is a file of one of the triples, in
    the list its reading puts it in. *)
Definition sorted_by_reading
    (triples : list (string * list string * list string)) (d : discovery) : Prop :=
  (forall ts path, In (ts, path) (Discovery.pictures d) ->
     exists root dirs files file,
       In (root, dirs, files) triples /\ In file files /\
       path = PosixPath.join root file /\ reading file path = Some (Ok ts)) /\
  (forall path, In path (unmatched d) ->
     exists root dirs files file,
       In (root, dirs, files) triples /\ In file files /\
       path = PosixPath.join root file /\ reading file path = None) /\
  (forall e path, In (e, path) (errors d) ->
     exists root dirs files file,
       In (root, dirs, files) triples /\ In file files /\
       path = PosixPath.join root file /\ reading file path = Some (Raise e)).
End sorting.

(** The values of the date tags that are present, in the order of
    [date_tags]. *)
Definition exif_dates (tags : dict string) : list string :=
  flat_map (fun tag => match get tags tag with
                       | Some v => [v]
                       | None => []
                       end) date_tags.

(** EXIF data with two of the date tags. *)
Definition two_dates (path : string) : outcome (dict string) :=
  Ok [("Model", "X100"); ("DateTime", "2024:03:05 12:00:00");
      ("DateTimeOriginal", "2024:03:05 10:00:00")].

(** A parser that accepts one string. *)
Definition strptime_10h (s : string) : outcome datetime :=
  if String.eqb s "2024:03:05 10:00:00" then Ok (mkDatetime 2024 3 5 10 0 0)
  else Raise (ValueError s).

(** [k] is the first key of the ledger with its base name. *)
Definition first_named (k : string) (ledger_keys : list string) : Prop :=
  exists before after,
    ledger_keys = before ++ k :: after /\
    forall k', In k' before -> PosixPath.basename k' <> PosixPath.basename k.

(** The comparison of [f1] with [f2] is the one of a plan entry with the
    first ledger key of its base name. *)
Definition first_name_match (ledger_keys : list string) (moves : dict string)
    (f1 f2 : string) : Prop :=
  exists k t,
    first_named k ledger_keys /\ get moves t = Some f2 /\
    PosixPath.basename t = PosixPath.basename k /\
    f1 = recorded_location k.

(** A directory the walk visits stands for itself; a name that is only
    listed is kept by [cleanup] like a directory with a file. *)
Fixpoint stand_in (t : Listing.listed) : dirtree :=
  match t with
  | Listing.Listed files subdirs =>
      DirNode files
        (map (fun entry =>
                (fst entry,
                 match snd entry with
                 | Some below => stand_in below
                 | None => DirNode ["."] []
                 end)) subdirs)
  end.

(** Neither a file nor a name that is only listed, at any depth. *)
Fixpoint bare (t : Listing.listed) : bool :=
  match t with
  | Listing.Listed files subdirs =>
      negb (any_name files)
      && forallb (fun entry => match snd entry with
                               | Some below => bare below
                               | None => false
                               end) subdirs
  end.

(** The paths of the bare directories, in the order of the walk. *)
Fixpoint bare_dirs (top : string) (t : Listing.listed) : list string :=
  match t with
  | Listing.Listed _ subdirs =>
      flat_map (fun entry =>
                  match snd entry with
                  | Some below => bare_dirs (PosixPath.join top (fst entry)) below
                  | None => []
                  end) subdirs
      ++ (if bare t then [top] else [])
  end.

(** Proper, distinct names in every directory the walk visits. *)
Fixpoint wf_listed (t : Listing.listed) : bool :=
  match t with
  | Listing.Listed _ subdirs =>
      forallb name_ok (map fst subdirs) && distinct (map fst subdirs)
      && forallb (fun entry => match snd entry with
                               | Some below => wf_listed below
                               | None => true
                               end) subdirs
  end.

(** A snapshot in which every listed directory is visited. *)
Fixpoint all_visited (t : dirtree) : Listing.listed :=
  match t with
  | DirNode files subdirs =>
      Listing.Listed files (map (fun entry => (fst entry, Some (all_visited (snd entry)))) subdirs)
  end.

(** A source tree without files: [a] is a directory, [b] holds a link
    [l] to a directory elsewhere. *)
Definition with_link : Listing.listed :=
  Listing.Listed [] [("a", Some (Listing.Listed [] [])); ("b", Some (Listing.Listed [] [("l", None)]))].

(** EXIF data and parser of a camera that dates every picture
    2024-01-02 10:00:00; the data travels with the file. *)
Definition exif_jan2 (path : string) : outcome (dict string) :=
  Ok [("DateTimeOriginal", "2024:01:02 10:00:00")].
Definition strptime_jan2 (s : string) : outcome datetime :=
  if String.eqb s "2024:01:02 10:00:00" then Ok jan2_2024
  else Raise (ValueError s).

(** [main] with [--apply] for such pictures. *)
Definition apply_jan2 (source out : string) : M unit :=
  apply_once exif_jan2 strptime_jan2 no_probe no_strptime ctime_march5 mtime_march5
    Timestamp.utc_fromtimestamp (mkDatetime 2024 6 1 12 0 0) source out.

(** One picture in a source directory named [pictures]; without [--out]
    the output directory is the source directory itself. *)
Definition own_output : world :=
  world_of
    [("/x", Dir); ("/x/pictures", Dir);
     ("/x/pictures/IMG_1.jpg", File (Data "AAA"))].

(** The world the first run leaves. *)
Definition after_own_output : world :=
  fst (apply_jan2 "/x/pictures" (default_out "/x/pictures") own_output).

(** The world the first run leaves from [numbered_pair]. *)
Definition after_numbered_pair : world := fst (apply_jan2 "in" "out" numbered_pair).

End Notions.

(** * Properties *)

(** ** The model on concrete inputs *)

Import PyStr PyDict.

Example basename_ex : PosixPath.basename "out/2024/a.jpg" = "a.jpg".
Proof. reflexivity. Qed.

Example dirname_ex : PosixPath.dirname "out/2024/a.jpg" = "out/2024".
Proof. reflexivity. Qed.

Example replace_ex :
  replace "/pictures_sorted/" "/pictures/" "/x/pictures_sorted/2024/a.jpg"
  = "/x/pictures/2024/a.jpg".
Proof. reflexivity. Qed.

Example create_moves_ex :
  Plan.create_moves
    [(mkDatetime 2024 1 2 10 0 0, "in/a.jpg");
     (mkDatetime 2024 1 2 10 0 0, "in/b.jpg");
     (mkDatetime 2023 12 24 18 30 5, "in/c.tar.png")] "out"
  = Ok [("out/2024/01_02_10_00_00__2th_of_January_at_10h_00m_1.jpg", "in/a.jpg");
        ("out/2024/01_02_10_00_00__2th_of_January_at_10h_00m_2.jpg", "in/b.jpg");
        ("out/2023/12_24_18_30_05__24th_of_December_at_18h_30m.png", "in/c.tar.png")].
Proof. vm_compute. reflexivity. Qed.

Example plan_of_one_picture :
  Plan.create_moves Scenario.one_picture "out" = Ok Scenario.one_move.
Proof. vm_compute. reflexivity. Qed.

(** ** What a computation does to the trace and to the file system *)

Module Frame.
Import Props.
Import Sys Os.
Local Open Scope pyio_scope.

Section emits.
Context (P : event -> Prop).

Lemma emits_ret {A} (a : A) : emits P (ret a).
Proof. intros w. exists []. simpl. rewrite app_nil_r. auto. Qed.

Lemma emits_raise {A} (e : exn) : emits P (@raise A e).
Proof. intros w. exists []. simpl. rewrite app_nil_r. auto. Qed.

Lemma emits_lift {A} (o : outcome A) : emits P (lift o).
Proof. intros w. exists []. simpl. rewrite app_nil_r. auto. Qed.

Lemma emits_get_fs : emits P get_fs.
Proof. intros w. exists []. simpl. rewrite app_nil_r. auto. Qed.

Lemma emits_set_fs f : emits P (set_fs f).
Proof. intros w. exists []. simpl. rewrite app_nil_r. auto. Qed.

Lemma emits_emit ev : P ev -> emits P (emit ev).
Proof. intros H w. exists [ev]. simpl. auto. Qed.

Lemma emits_bind {A B} (m : M A) (k : A -> M B) :
  emits P m -> (forall a, emits P (k a)) -> emits P (bind m k).
Proof.
  intros Hm Hk w. unfold bind.
  destruct (Hm w) as (evs1 & Ht1 & Hf1).
  destruct (m w) as [w1 [a|e]]; simpl in *.
  - destruct (Hk a w1) as (evs2 & Ht2 & Hf2).
    exists (evs1 ++ evs2). rewrite Ht2, Ht1, app_assoc.
    split; [reflexivity | apply Forall_app; auto].
  - exists evs1. auto.
Qed.

Lemma emits_try_with {A} (m : M A) (h : exn -> M A) :
  emits P m -> (forall e, emits P (h e)) -> emits P (try_with m h).
Proof.
  intros Hm Hh w. unfold try_with.
  destruct (Hm w) as (evs1 & Ht1 & Hf1).
  destruct (m w) as [w1 [a|e]]; simpl in *.
  - exists evs1. auto.
  - destruct (Hh e w1) as (evs2 & Ht2 & Hf2).
    exists (evs1 ++ evs2). rewrite Ht2, Ht1, app_assoc.
    split; [reflexivity | apply Forall_app; auto].
Qed.

Lemma emits_for_each {A} (l : list A) (body : A -> M unit) :
  (forall x, emits P (body x)) -> emits P (for_each l body).
Proof.
  intros Hb. induction l as [|x l IH]; simpl.
  - apply emits_ret.
  - apply emits_bind; auto.
Qed.

Lemma emits_fold_m {A S} (body : A -> S -> M S) (l : list A) (s : S) :
  (forall x s', emits P (body x s')) -> emits P (fold_m body l s).
Proof.
  intros Hb. revert s. induction l as [|x l IH]; intros s; simpl.
  - apply emits_ret.
  - apply emits_bind; auto.
Qed.

Lemma emits_path_exists p : emits P (path_exists p).
Proof. intros w. exists []. simpl. rewrite app_nil_r. auto. Qed.

Lemma emits_isdir p : emits P (isdir p).
Proof. intros w. exists []. simpl. rewrite app_nil_r. auto. Qed.
End emits.

Lemma fold_m_cons {A S} (body : A -> S -> M S) x l s w :
  fold_m body (x :: l) s w =
  match body x s w with
  | (w', Ok s') => fold_m body l s' w'
  | (w', Raise e) => (w', Raise e)
  end.
Proof. reflexivity. Qed.

Lemma for_each_cons {A} (body : A -> M unit) x l w :
  for_each (x :: l) body w =
  match body x w with
  | (w', Ok _) => for_each l body w'
  | (w', Raise e) => (w', Raise e)
  end.
Proof. reflexivity. Qed.

Lemma emits_weaken {A} (P Q : event -> Prop) (m : M A) :
  (forall ev, P ev -> Q ev) -> emits P m -> emits Q m.
Proof.
  intros HPQ Hm w. destruct (Hm w) as (evs & Ht & Hf).
  exists evs. split; [assumption|]. eapply Forall_impl; eauto.
Qed.

Lemma keeps_ret {A} (a : A) : keeps_fs (ret a).
Proof. intros w. reflexivity. Qed.

Lemma keeps_raise {A} (e : exn) : keeps_fs (@raise A e).
Proof. intros w. reflexivity. Qed.

Lemma keeps_lift {A} (o : outcome A) : keeps_fs (lift o).
Proof. intros w. reflexivity. Qed.

Lemma keeps_get_fs : keeps_fs get_fs.
Proof. intros w. reflexivity. Qed.

Lemma keeps_emit ev : keeps_fs (emit ev).
Proof. intros w. reflexivity. Qed.

Lemma keeps_path_exists p : keeps_fs (path_exists p).
Proof. intros w. reflexivity. Qed.

Lemma keeps_bind {A B} (m : M A) (k : A -> M B) :
  keeps_fs m -> (forall a, keeps_fs (k a)) -> keeps_fs (bind m k).
Proof.
  intros Hm Hk w. unfold bind. specialize (Hm w).
  destruct (m w) as [w1 [a|e]]; simpl in *.
  - rewrite Hk. assumption.
  - assumption.
Qed.

Lemma keeps_for_each {A} (l : list A) (body : A -> M unit) :
  (forall x, keeps_fs (body x)) -> keeps_fs (for_each l body).
Proof.
  intros Hb. induction l as [|x l IH]; simpl.
  - apply keeps_ret.
  - apply keeps_bind; auto.
Qed.

Lemma keeps_fold_m {A S} (body : A -> S -> M S) (l : list A) (s : S) :
  (forall x s', keeps_fs (body x s')) -> keeps_fs (fold_m body l s).
Proof.
  intros Hb. revert s. induction l as [|x l IH]; intros s; simpl.
  - apply keeps_ret.
  - apply keeps_bind; auto.
Qed.

Lemma keeps_filecmp f1 f2 : keeps_fs (filecmp_cmp f1 f2).
Proof.
  intros w. unfold filecmp_cmp, bind, get_fs. simpl.
  destruct (stat (fs w) f1); [|reflexivity].
  destruct (stat (fs w) f2); reflexivity.
Qed.

Lemma keeps_json_load p : keeps_fs (json_load p).
Proof.
  intros w. unfold json_load, bind, get_fs. simpl.
  destruct (stat (fs w) p) as [[[?|?]|]|]; reflexivity.
Qed.

Lemma quiet_filecmp f1 f2 : emits quiet (filecmp_cmp f1 f2).
Proof.
  unfold filecmp_cmp. apply emits_bind; [apply emits_get_fs|]. intros f.
  destruct (stat f f1); [|apply emits_raise].
  destruct (stat f f2); [|apply emits_raise].
  apply emits_bind; [apply emits_emit; exact I | intros; apply emits_ret].
Qed.

Lemma emits_json_load P p : emits P (json_load p).
Proof.
  unfold json_load. apply emits_bind; [apply emits_get_fs|]. intros f.
  destruct (stat f p) as [[[?|?]|]|];
    first [apply emits_raise | apply emits_ret].
Qed.

End Frame.

(** ** Dry run *)

Module DryRun.
Import Props.
Import Sys Os Organizer Frame.
Local Open Scope pyio_scope.

Ltac quiet_step :=
  first
    [ apply emits_ret | apply emits_raise | apply emits_lift
    | apply emits_get_fs | apply emits_path_exists | apply emits_json_load
    | apply quiet_filecmp
    | apply emits_emit; exact I
    | apply emits_bind; [|intros ?]
    | apply emits_for_each; intros ?
    | apply emits_fold_m; intros ? ? ].

Ltac keeps_step :=
  first
    [ apply keeps_ret | apply keeps_raise | apply keeps_lift
    | apply keeps_get_fs | apply keeps_path_exists | apply keeps_json_load
    | apply keeps_filecmp | apply keeps_emit
    | apply keeps_bind; [|intros ?]
    | apply keeps_for_each; intros ?
    | apply keeps_fold_m; intros ? ? ].

Lemma quiet_load_old_info json_file : emits quiet (load_old_info json_file).
Proof.
  unfold load_old_info. quiet_step; [quiet_step|].
  destruct a; quiet_step.
Qed.

Lemma keeps_load_old_info json_file : keeps_fs (load_old_info json_file).
Proof.
  unfold load_old_info. keeps_step; [keeps_step|].
  destruct a; keeps_step.
Qed.

Lemma quiet_reconcile_entry k st : emits quiet (reconcile_entry true k st).
Proof.
  unfold reconcile_entry. destruct st as [moves n].
  destruct (existsb _ _); [|quiet_step].
  destruct (List.filter _ _) as [|incoming [|? ?]]; try quiet_step.
  destruct (PyDict.get moves incoming); [|quiet_step].
  quiet_step; [quiet_step|].
  destruct a; simpl; unfold print; repeat quiet_step.
Qed.

Lemma keeps_reconcile_entry k st : keeps_fs (reconcile_entry true k st).
Proof.
  unfold reconcile_entry. destruct st as [moves n].
  destruct (existsb _ _); [|keeps_step].
  destruct (List.filter _ _) as [|incoming [|? ?]]; try keeps_step.
  destruct (PyDict.get moves incoming); [|keeps_step].
  keeps_step; [keeps_step|].
  destruct a; simpl; unfold print; repeat keeps_step.
Qed.

Lemma quiet_check_update_old_info moves json_file :
  emits quiet (check_update_old_info moves json_file true).
Proof.
  unfold check_update_old_info. quiet_step; [apply quiet_load_old_info|].
  quiet_step. apply quiet_reconcile_entry.
Qed.

Lemma keeps_check_update_old_info moves json_file :
  keeps_fs (check_update_old_info moves json_file true).
Proof.
  unfold check_update_old_info. keeps_step; [apply keeps_load_old_info|].
  keeps_step. apply keeps_reconcile_entry.
Qed.

Lemma quiet_append_moves_to_json moves json_file :
  emits quiet (append_moves_to_json moves json_file true).
Proof.
  unfold append_moves_to_json. quiet_step; [apply quiet_load_old_info|].
  quiet_step.
  - quiet_step. destruct (PyDict.mem _ _); unfold print; repeat quiet_step.
  - simpl. repeat quiet_step.
Qed.

Lemma keeps_append_moves_to_json moves json_file :
  keeps_fs (append_moves_to_json moves json_file true).
Proof.
  unfold append_moves_to_json. keeps_step; [apply keeps_load_old_info|].
  keeps_step.
  - keeps_step. destruct (PyDict.mem _ _); unfold print; repeat keeps_step.
  - simpl. repeat keeps_step.
Qed.

Lemma quiet_dryrun_move_files pictures out :
  emits quiet (dryrun_move_files pictures out).
Proof.
  unfold dryrun_move_files. quiet_step; [quiet_step|].
  quiet_step; [apply quiet_check_update_old_info|].
  destruct a0 as [moves n].
  quiet_step; [unfold print; repeat quiet_step|].
  quiet_step; [apply quiet_append_moves_to_json|].
  destruct (0 <? n); unfold print; repeat quiet_step.
Qed.

Lemma keeps_dryrun_move_files pictures out :
  keeps_fs (dryrun_move_files pictures out).
Proof.
  unfold dryrun_move_files. keeps_step; [keeps_step|].
  keeps_step; [apply keeps_check_update_old_info|].
  destruct a0 as [moves n].
  keeps_step; [unfold print; repeat keeps_step|].
  keeps_step; [apply keeps_append_moves_to_json|].
  destruct (0 <? n); unfold print; repeat keeps_step.
Qed.

(** C4. A dry run leaves the file system, and with it the output tree
    and the ledger file [<out>/info.json], exactly as it found them: for
    every list of records, every output directory and every initial
    world, whether the run ends normally or with an exception, the map of
    files and directories is unchanged and the only calls made are
    prints and file comparisons (no move, removal, directory creation or
    write). *)
Theorem dryrun_leaves_output_and_ledger_untouched
    (pictures : list (datetime * string)) (out : string) (w : world) :
  let w' := fst (dryrun_move_files pictures out w) in
  fs w' = fs w /\
  fs w' !! PosixPath.join out "info.json" = fs w !! PosixPath.join out "info.json" /\
  exists evs, trace w' = trace w ++ evs /\ Forall quiet evs.
Proof.
  simpl. pose proof (keeps_dryrun_move_files pictures out w) as Hfs.
  split; [exact Hfs|]. split; [rewrite Hfs; reflexivity|].
  apply quiet_dryrun_move_files.
Qed.

End DryRun.

(** ** Facts about strings, paths and dictionaries *)

Module Facts.
Import Props.
Import PyStr PyDict.

Lemma app_cons a s t : String a s +:+ t = String a (s +:+ t).
Proof. reflexivity. Qed.

Lemma app_empty_l t : "" +:+ t = t.
Proof. reflexivity. Qed.

Lemma app_empty_r s : s +:+ "" = s.
Proof. induction s as [|a s IH]; [reflexivity|]. rewrite app_cons, IH. reflexivity. Qed.

Lemma app_assoc_s s t u : (s +:+ t) +:+ u = s +:+ (t +:+ u).
Proof. induction s as [|a s IH]; [reflexivity|]. rewrite !app_cons, IH. reflexivity. Qed.

Lemma startswith_refl s : startswith s s = true.
Proof.
  induction s as [|a s IH]; simpl; [reflexivity|].
  rewrite Ascii.eqb_refl. exact IH.
Qed.

Lemma contains_refl s : contains s s = true.
Proof. destruct s; simpl; [reflexivity|]. rewrite Ascii.eqb_refl, startswith_refl. reflexivity. Qed.

Lemma contains_app_r pre s : contains s (pre +:+ s) = true.
Proof.
  induction pre as [|a pre IH].
  - rewrite app_empty_l. apply contains_refl.
  - rewrite app_cons. simpl. rewrite IH. apply orb_true_r.
Qed.

Lemma rsplit_app p : fst (PosixPath.rsplit p) +:+ snd (PosixPath.rsplit p) = p.
Proof.
  induction p as [|a p IH]; simpl; [reflexivity|].
  destruct (PosixPath.rsplit p) as [h t]. simpl in IH.
  destruct h as [|b h].
  - rewrite app_empty_l in IH. subst p.
    destruct (Ascii.eqb a PosixPath.sep); reflexivity.
  - simpl. rewrite app_cons, IH. reflexivity.
Qed.

(** A path contains its own base name. *)
Lemma contains_basename p : contains (PosixPath.basename p) p = true.
Proof.
  unfold PosixPath.basename.
  rewrite <- (rsplit_app p) at 2. apply contains_app_r.
Qed.

Section dict.
Context {V : Type}.
Implicit Types d : dict V.

Lemma get_del_Some d k key v :
  get (del d k) key = Some v -> get d key = Some v.
Proof.
  unfold del. induction d as [|[k' v'] d IH]; simpl; [discriminate|].
  destruct (String.eqb_spec k' k) as [->|Hne]; simpl.
  - intros H. specialize (IH H).
    destruct (String.eqb_spec k key) as [->|]; [|exact IH].
    clear IH. exfalso. revert H. induction d as [|[k2 v2] d IH]; simpl; [discriminate|].
    destruct (String.eqb_spec k2 key) as [->|Hne2]; simpl.
    + exact IH.
    + destruct (String.eqb_spec k2 key); [contradiction|]. exact IH.
  - destruct (String.eqb k' key); [auto | exact IH].
Qed.

Lemma get_del_same d k : get (del d k) k = None.
Proof.
  unfold del. induction d as [|[k' v'] d IH]; simpl; [reflexivity|].
  destruct (String.eqb_spec k' k) as [->|Hne]; simpl; [exact IH|].
  destruct (String.eqb_spec k' k); [contradiction | exact IH].
Qed.

Lemma get_Some_In_keys d k v : get d k = Some v -> In k (keys d).
Proof.
  induction d as [|[k' v'] d IH]; simpl; [discriminate|].
  destruct (String.eqb_spec k' k) as [->|Hne]; auto.
Qed.

Lemma In_keys_get d k : In k (keys d) -> exists v, get d k = Some v.
Proof.
  induction d as [|[k' v'] d IH]; simpl; [contradiction|].
  intros [->|Hin].
  - rewrite String.eqb_refl. eauto.
  - destruct (String.eqb k' k); eauto.
Qed.

Lemma mem_false_not_In d k : mem k d = false -> ~ In k (keys d).
Proof.
  unfold mem. intros H Hin. apply In_keys_get in Hin as [v Hv].
  rewrite Hv in H. discriminate.
Qed.

Lemma In_keys_del d k key : In key (keys (del d k)) -> In key (keys d) /\ key <> k.
Proof.
  unfold del, keys. intros H. apply in_map_iff in H as ([k' v'] & <- & Hin).
  apply filter_In in Hin as [Hin Hne]. cbn [fst] in *. split.
  - apply (in_map fst _ _ Hin).
  - intros ->. rewrite String.eqb_refl in Hne. discriminate Hne.
Qed.

Lemma get_singleton k (v : V) key v' :
  get [(k, v)] key = Some v' -> key = k /\ v' = v.
Proof.
  simpl. destruct (String.eqb_spec k key) as [->|]; [|discriminate].
  intros [= ->]. auto.
Qed.

Lemma update_nil d : update d [] = d.
Proof. reflexivity. Qed.
End dict.

End Facts.

(** ** Reconciliation against the ledger *)

Module Reconcile.
Import Props.
Import PyStr PyDict Sys Os Organizer Frame Facts.
Local Open Scope pyio_scope.

Lemma emits_emits_at {A} P (m : M A) w : emits P m -> emits_at P m w.
Proof. intros H. apply H. Qed.

Lemma emits_at_weaken {A} (P Q : event -> Prop) (m : M A) w :
  (forall ev, P ev -> Q ev) -> emits_at P m w -> emits_at Q m w.
Proof.
  intros HPQ (evs & Ht & Hf). exists evs. split; [assumption|].
  eapply Forall_impl; eauto.
Qed.

Lemma emits_at_bind {A B} P (m : M A) (k : A -> M B) w :
  emits_at P m w ->
  (forall a w1, m w = (w1, Ok a) -> emits_at P (k a) w1) ->
  emits_at P (bind m k) w.
Proof.
  intros (evs1 & Ht1 & Hf1) Hk. unfold emits_at, bind.
  destruct (m w) as [w1 [a|e]] eqn:Hm; simpl in *.
  - destruct (Hk a w1 eq_refl) as (evs2 & Ht2 & Hf2).
    exists (evs1 ++ evs2). rewrite Ht2, Ht1, app_assoc.
    split; [reflexivity | apply Forall_app; auto].
  - exists evs1. auto.
Qed.

Lemma filecmp_cmp_run f1 f2 w :
  filecmp_cmp f1 f2 w =
  match stat (fs w) f1, stat (fs w) f2 with
  | None, _ => (w, Raise (FileNotFoundError f1))
  | Some _, None => (w, Raise (FileNotFoundError f2))
  | Some n1, Some n2 =>
      (mkWorld (fs w) (trace w ++ [EvCompare f1 f2 (same_content n1 n2)]),
       Ok (same_content n1 n2))
  end.
Proof.
  unfold filecmp_cmp, bind, get_fs. simpl.
  destruct (stat (fs w) f1); [|reflexivity].
  destruct (stat (fs w) f2); reflexivity.
Qed.

Lemma remove_run p w :
  remove p w =
  match stat (fs w) p with
  | None => (w, Raise (FileNotFoundError p))
  | Some Dir => (w, Raise (IsADirectoryError p))
  | Some (File _) => (mkWorld (delete p (fs w)) (trace w ++ [EvRemove p]), Ok tt)
  end.
Proof.
  unfold remove, bind, get_fs. simpl.
  destruct (stat (fs w) p) as [[?|]|]; reflexivity.
Qed.

Lemma print_run line w :
  print line w = (mkWorld (fs w) (trace w ++ [EvPrint line]), Ok tt).
Proof. reflexivity. Qed.

Lemma same_content_true n1 n2 :
  same_content n1 n2 = true -> exists c, n1 = File c /\ n2 = File c.
Proof.
  destruct n1 as [c1|], n2 as [c2|]; simpl; try discriminate.
  intros H. apply bool_decide_eq_true in H. subst. eauto.
Qed.

Lemma load_old_info_run json_file w :
  exists r, load_old_info json_file w = (w, r) /\
    forall obj, r = Ok obj -> obj = ledger_of (fs w) json_file.
Proof.
  unfold load_old_info, ledger_of, json_load, path_exists, get_fs, bind.
  cbn beta iota.
  destruct (stat (fs w) json_file) as [[[b|obj]|]|] eqn:Hs;
    cbn beta iota; rewrite ?Hs;
    eexists; (split; [reflexivity|]); intros ? [=]; subst; reflexivity.
Qed.

(** If the base name of [k] is the base name of a plan key and exactly
    one plan key contains it, that key is named like [k]. *)
Lemma single_incoming_named_like (moves : dict string) k incoming :
  existsb (String.eqb (PosixPath.basename k))
    (map PosixPath.basename (keys moves)) = true ->
  List.filter (fun new_file => contains (PosixPath.basename k) new_file) (keys moves)
    = [incoming] ->
  PosixPath.basename incoming = PosixPath.basename k /\ In incoming (keys moves).
Proof.
  intros Hex Hfil.
  apply existsb_exists in Hex as (b & Hin & Heq).
  apply String.eqb_eq in Heq. subst b.
  apply in_map_iff in Hin as (n & Hn & Hin).
  assert (In n (List.filter (fun new_file =>
            contains (PosixPath.basename k) new_file) (keys moves))) as Hmem.
  { apply filter_In. split; [assumption|].
    rewrite <- Hn. apply contains_basename. }
  rewrite Hfil in Hmem. destruct Hmem as [->|[]]. auto.
Qed.

Section invariant.
Variable ledger_keys : list string.
Variable moves0 : dict string.
Variable w0 : world.

Lemma stat_mono w p n :
  loop_world ledger_keys moves0 w0 w -> stat (fs w) p = Some n -> stat (fs w0) p = Some n.
Proof.
  intros [Hfs _]. unfold stat.
  destruct (String.eqb p ""); [auto|].
  destruct (PosixPath.all_sep p); auto.
Qed.

Lemma inv_world_event w ev :
  loop_world ledger_keys moves0 w0 w -> reconcile_event ledger_keys moves0 (fs w0) ev ->
  loop_world ledger_keys moves0 w0 (mkWorld (fs w) (trace w ++ [ev])).
Proof.
  intros [Hfs (evs & Ht & Hf)] Hev. split; [exact Hfs|].
  exists (evs ++ [ev]). simpl. rewrite Ht, app_assoc.
  split; [reflexivity|]. apply Forall_app. auto.
Qed.

Lemma inv_world_remove w p :
  loop_world ledger_keys moves0 w0 w -> identical_to_name_match ledger_keys moves0 (fs w0) p ->
  loop_world ledger_keys moves0 w0 (mkWorld (delete p (fs w)) (trace w ++ [EvRemove p])).
Proof.
  intros [Hfs (evs & Ht & Hf)] Hev. split.
  - simpl. intros q n Hq. apply Hfs.
    destruct (decide (p = q)) as [->|Hne].
    + rewrite lookup_delete_eq in Hq. discriminate.
    + rewrite lookup_delete_ne in Hq by assumption. exact Hq.
  - exists (evs ++ [EvRemove p]). simpl. rewrite Ht, app_assoc.
    split; [reflexivity|]. apply Forall_app. auto.
Qed.

Lemma reconcile_entry_inv dry_run k st w :
  In k ledger_keys -> loop_state ledger_keys moves0 w0 st w ->
  match reconcile_entry dry_run k st w with
  | (w', Ok st') => loop_state ledger_keys moves0 w0 st' w'
  | (w', Raise _) => loop_world ledger_keys moves0 w0 w'
  end.
Proof.
  intros Hk [Hsub Hw]. unfold reconcile_entry.
  destruct st as [moves n]. simpl in Hsub.
  destruct (existsb _ _) eqn:Hex; [|split; assumption].
  destruct (List.filter _ _) as [|incoming [|? ?]] eqn:Hfil;
    try exact Hw.
  destruct (single_incoming_named_like moves k incoming Hex Hfil)
    as [Hname Hin].
  destruct (get moves incoming) as [src|] eqn:Hget; [|exact Hw].
  unfold bind. rewrite filecmp_cmp_run.
  destruct (stat (fs w) (recorded_location k)) as [n1|] eqn:Hs1; [|exact Hw].
  destruct (stat (fs w) src) as [n2|] eqn:Hs2; [|exact Hw].
  assert (name_matched_compare ledger_keys moves0 (recorded_location k) src)
    as Hcmp.
  { exists k, incoming. auto. }
  pose proof (inv_world_event w (EvCompare (recorded_location k) src
                (same_content n1 n2)) Hw Hcmp) as Hw1.
  assert (forall key v, get (del moves incoming) key = Some v ->
                        get moves0 key = Some v) as Hsub'.
  { intros key v Hg. apply Hsub. eapply get_del_Some. exact Hg. }
  destruct (same_content n1 n2) eqn:Hsame; simpl.
  - destruct dry_run; simpl.
    + split; assumption.
    + rewrite remove_run. simpl. rewrite Hs2.
      apply same_content_true in Hsame as (c & -> & ->).
      split; [exact Hsub'|].
      apply (inv_world_remove _ src Hw1).
      exists k, incoming, c. repeat split; auto.
      * eapply stat_mono; eauto.
      * eapply stat_mono; eauto.
  - split; [exact Hsub'|].
    apply (inv_world_event _ (EvPrint (different_msg k src)) Hw1). exact I.
Qed.

Lemma reconcile_loop_inv dry_run l st w :
  (forall k, In k l -> In k ledger_keys) -> loop_state ledger_keys moves0 w0 st w ->
  match fold_m (reconcile_entry dry_run) l st w with
  | (w', Ok st') => loop_state ledger_keys moves0 w0 st' w'
  | (w', Raise _) => loop_world ledger_keys moves0 w0 w'
  end.
Proof.
  revert st w. induction l as [|k l IH]; intros st w Hl Hinv; simpl.
  - exact Hinv.
  - unfold bind.
    pose proof (reconcile_entry_inv dry_run k st w (Hl k (or_introl eq_refl)) Hinv)
      as Hstep.
    destruct (reconcile_entry dry_run k st w) as [w1 [st1|e]].
    + apply IH; [|exact Hstep]. intros k' Hk'. apply Hl. right. exact Hk'.
    + exact Hstep.
Qed.
End invariant.

(** Every event of a reconciliation is a print, a comparison of a ledger
    key with the plan entry of the same base name, or the removal of a
    file found identical to such a ledger file. *)
Lemma reconcile_events moves json_file dry_run w :
  emits_at (reconcile_event (keys (ledger_of (fs w) json_file)) moves (fs w))
    (check_update_old_info moves json_file dry_run) w.
Proof.
  unfold emits_at, check_update_old_info, bind.
  destruct (load_old_info_run json_file w) as (r & Hload & Hobj).
  rewrite Hload. destruct r as [obj|e].
  - rewrite (Hobj obj eq_refl).
    pose proof (reconcile_loop_inv (keys (ledger_of (fs w) json_file)) moves w
                  dry_run (keys (ledger_of (fs w) json_file)) (moves, 0) w
                  (fun k H => H)) as Hloop.
    assert (loop_state (keys (ledger_of (fs w) json_file)) moves w (moves, 0) w)
      as Hinit.
    { split; [auto|]. split; [auto|]. exists []. rewrite app_nil_r. auto. }
    specialize (Hloop Hinit).
    destruct (fold_m _ _ _ _) as [w' [st'|e]]; simpl.
    + destruct Hloop as [_ [_ H]]. exact H.
    + destruct Hloop as [_ H]. exact H.
  - exists []. simpl. rewrite app_nil_r. auto.
Qed.

End Reconcile.

(** ** The executor adds no removal *)

Module Executor.
Import Props.
Import PyStr PyDict Sys Os Organizer Frame.
Local Open Scope pyio_scope.

Section emits.
Context (P : event -> Prop).
Hypothesis P_mkdir : forall p, P (EvMkdir p).
Hypothesis P_move : forall src dst, P (EvMove src dst).
Hypothesis P_write : forall p, P (EvWrite p).
Hypothesis P_print : forall line, P (EvPrint line).

Lemma emits_mkdir name : emits P (mkdir name).
Proof using P_mkdir.
  unfold mkdir. apply emits_bind; [apply emits_get_fs|]. intros f.
  destruct (String.eqb name ""); [apply emits_raise|].
  destruct (stat f name); [apply emits_raise|].
  apply emits_bind; [apply emits_lift|]. intros _.
  apply emits_bind; [apply emits_set_fs|]. intros _.
  apply emits_emit. apply P_mkdir.
Qed.

Lemma emits_makedirs_go fuel name exist_ok :
  emits P (makedirs_go fuel name exist_ok).
Proof using P_mkdir.
  revert name. induction fuel as [|fuel IH]; intros name; simpl;
    destruct (PosixPath.split name) as [head tail];
    destruct (if String.eqb tail "" then PosixPath.split head else (head, tail))
      as [head' tail'].
  - apply emits_bind; [apply emits_path_exists|]. intros ex.
    assert (emits P (try_with (mkdir name)
              (fun e => if is_oserror e
                        then let* d := isdir name in
                             if negb exist_ok || negb d then raise e else ret tt
                        else raise e))) as Hfin.
    { apply emits_try_with; [apply emits_mkdir|]. intros e.
      destruct (is_oserror e); [|apply emits_raise].
      apply emits_bind; [apply emits_isdir|]. intros d.
      destruct (negb exist_ok || negb d); [apply emits_raise | apply emits_ret]. }
    destruct (_ && _); exact Hfin.
  - apply emits_bind; [apply emits_path_exists|]. intros ex.
    assert (emits P (try_with (mkdir name)
              (fun e => if is_oserror e
                        then let* d := isdir name in
                             if negb exist_ok || negb d then raise e else ret tt
                        else raise e))) as Hfin.
    { apply emits_try_with; [apply emits_mkdir|]. intros e.
      destruct (is_oserror e); [|apply emits_raise].
      apply emits_bind; [apply emits_isdir|]. intros d.
      destruct (negb exist_ok || negb d); [apply emits_raise | apply emits_ret]. }
    destruct (_ && _); [|exact Hfin].
    apply emits_bind.
    + apply emits_try_with; [apply IH|]. intros e.
      destruct e; first [apply emits_ret | apply emits_raise].
    + intros _. destruct (String.eqb tail' "."); [apply emits_ret | exact Hfin].
Qed.

Lemma emits_makedirs name exist_ok : emits P (makedirs name exist_ok).
Proof using P_mkdir. apply emits_makedirs_go. Qed.

Lemma emits_rename src dst : emits P (rename src dst).
Proof using P_move.
  unfold rename. apply emits_bind; [apply emits_get_fs|]. intros f.
  destruct (stat f src) as [[c|]|]; [| |apply emits_raise].
  - destruct (stat f dst) as [[c'|]|]; try apply emits_raise;
      (apply emits_bind; [apply emits_lift|]; intros _;
       apply emits_bind; [apply emits_set_fs|]; intros _;
       apply emits_emit; apply P_move).
  - destruct (stat f dst) as [[c'|]|]; try apply emits_raise.
    apply emits_bind; [apply emits_lift|]; intros _.
    apply emits_bind; [apply emits_set_fs|]; intros _.
    apply emits_emit; apply P_move.
Qed.

Lemma emits_shutil_move src dst : emits P (shutil_move src dst).
Proof using P_move.
  unfold shutil_move. apply emits_bind; [apply emits_isdir|]. intros d.
  destruct d; [|apply emits_rename].
  apply emits_bind; [apply emits_path_exists|]. intros taken.
  destruct taken; [apply emits_raise | apply emits_rename].
Qed.

Lemma emits_json_dump obj path : emits P (json_dump obj path).
Proof using P_write.
  unfold json_dump. apply emits_bind; [apply emits_get_fs|]. intros f.
  destruct (String.eqb path ""); [apply emits_raise|].
  destruct (stat f path) as [[c|]|]; try apply emits_raise;
    (apply emits_bind; [apply emits_lift|]; intros _;
     apply emits_bind; [apply emits_set_fs|]; intros _;
     apply emits_emit; apply P_write).
Qed.

Lemma emits_sort_file_in outfile infile : emits P (sort_file_in outfile infile).
Proof using P_mkdir P_move.
  unfold sort_file_in. apply emits_bind; [apply emits_path_exists|]. intros ex.
  apply emits_bind.
  - destruct (negb ex); [apply emits_makedirs | apply emits_ret].
  - intros _. apply emits_bind; [apply emits_path_exists|]. intros ex2.
    destruct ex2; [apply emits_raise | apply emits_shutil_move].
Qed.

Lemma emits_move_all moves : emits P (move_all moves).
Proof using P_mkdir P_move.
  unfold move_all. apply emits_for_each. intros x. apply emits_sort_file_in.
Qed.

Lemma emits_load_old_info json_file : emits P (load_old_info json_file).
Proof.
  unfold load_old_info. apply emits_bind; [apply emits_path_exists|].
  intros present. destruct present; [apply emits_json_load | apply emits_ret].
Qed.

Lemma emits_append_moves_to_json moves json_file dry_run :
  emits P (append_moves_to_json moves json_file dry_run).
Proof using P_mkdir P_write P_print.
  unfold append_moves_to_json.
  apply emits_bind; [apply emits_load_old_info|]. intros old_info.
  apply emits_bind.
  - apply emits_for_each. intros k. destruct (mem k moves); [|apply emits_ret].
    apply emits_bind; [apply emits_emit; apply P_print|]. intros _.
    apply emits_raise.
  - intros _. apply emits_bind; [|intros _; apply emits_ret].
    destruct (negb dry_run); [|apply emits_ret].
    apply emits_bind; [apply emits_path_exists|]. intros present.
    apply emits_bind; [|intros _; apply emits_json_dump].
    destruct (negb present); [apply emits_makedirs | apply emits_ret].
Qed.
End emits.

End Executor.

(** ** Deletion and comparison during reconciliation *)

Module Duplicates.
Import Props.
Import PyStr PyDict Sys Os Organizer Frame Facts Reconcile Executor Scenario.
Local Open Scope pyio_scope.

Lemma print_moving_fs w w1 a :
  print "Moving files..." w = (w1, Ok a) -> fs w1 = fs w.
Proof. rewrite print_run. intros [= <- _]. reflexivity. Qed.

(** C1 (as amended). In an Apply run every removed file [p] is the source
    of a plan entry that has the base name of some ledger key, and the
    byte-for-byte comparison found [p] identical to the file at that
    key's recorded location (the key with [/pictures_sorted/] rewritten
    to [/pictures/]), both as they were when the run started.  This
    holds on every path through the run, also when it ends with an
    exception. *)
Theorem deletion_needs_identical_name_match
    (pictures : list (datetime * string)) (out : string) (w : world) :
  exists evs,
    trace (fst (do_move_files pictures out w)) = trace w ++ evs /\
    forall p, In (EvRemove p) evs ->
      exists moves,
        Plan.create_moves pictures out = Ok moves /\
        identical_to_name_match
          (keys (ledger_of (fs w) (PosixPath.join out "info.json")))
          moves (fs w) p.
Proof.
  set (Q := fun ev =>
    match ev with
    | EvRemove p =>
        exists moves,
          Plan.create_moves pictures out = Ok moves /\
          identical_to_name_match
            (keys (ledger_of (fs w) (PosixPath.join out "info.json")))
            moves (fs w) p
    | _ => True
    end).
  assert (emits_at Q (do_move_files pictures out) w) as (evs & Ht & Hf).
  { unfold do_move_files.
    apply emits_at_bind.
    { apply emits_emits_at. apply emits_emit. exact I. }
    intros a w1 Hprint. apply print_moving_fs in Hprint.
    apply emits_at_bind.
    { apply emits_emits_at. apply emits_lift. }
    intros moves w2 Hlift. unfold lift in Hlift.
    injection Hlift as <- Hplan.
    apply emits_at_bind.
    { eapply emits_at_weaken; [|apply reconcile_events].
      rewrite Hprint. intros [line|f1 f2 same|p|src dst|d|q]; simpl; auto.
      intros Hid. exists moves. auto. }
    intros [moves' n] w3 _.
    apply emits_emits_at.
    assert (forall ev, no_removal ev -> Q ev) as Hweak.
    { intros [line|f1 f2 same|p|src dst|d|q]; simpl; auto. contradiction. }
    apply (emits_weaken no_removal Q); [exact Hweak|].
    apply emits_bind.
    { apply emits_move_all; intros; exact I. }
    intros _. apply emits_bind.
    { apply emits_append_moves_to_json; intros; exact I. }
    intros _. destruct (0 <? n); [apply emits_emit; exact I | apply emits_ret]. }
  exists evs. split; [exact Ht|].
  intros p Hin. apply (proj1 (List.Forall_forall _ _) Hf _ Hin).
Qed.

(** C1, as stated, fails: the incoming file is removed although nothing
    is recorded, or stored, at its own target [out/2024/...]; it was
    compared with the file of the same name sorted under 2023. *)
Lemma deletion_without_file_at_target :
  ~ deletes_only_identical_to_target one_picture "out" other_year.
Proof.
  intros H. unfold deletes_only_identical_to_target in H.
  destruct (H [EvPrint "Moving files...";
               EvCompare ("out/2023/" +:+ stem +:+ ".jpg") "in/b.jpg" true;
               EvRemove "in/b.jpg";
               EvWrite "out/info.json";
               EvPrint "Deleted 1 duplicates"] "in/b.jpg")
    as (moves & target & c & Hplan & Hget & _ & Hstat & _).
  - vm_compute. reflexivity.
  - simpl. auto.
  - rewrite plan_of_one_picture in Hplan. injection Hplan as <-.
    apply get_singleton in Hget as [-> _].
    vm_compute in Hstat. discriminate Hstat.
Qed.

(** The path rewriting at work: the incoming file is compared with the
    file under [/x/pictures], found identical and removed, while the file
    recorded at its target under [/x/pictures_sorted] holds other bytes. *)
Example rewritten_location_is_compared :
  let r := do_move_files [(jan2_2024, "/x/in/b.jpg")] "/x/pictures_sorted" two_roots in
  snd r = Ok tt /\
  trace (fst r)
  = [EvPrint "Moving files...";
     EvCompare ("/x/pictures/2024/" +:+ stem +:+ ".jpg") "/x/in/b.jpg" true;
     EvRemove "/x/in/b.jpg";
     EvWrite "/x/pictures_sorted/info.json";
     EvPrint "Deleted 1 duplicates"].
Proof. vm_compute. split; reflexivity. Qed.

(** A file that is its own recorded file is compared with itself and
    removed: after the run no file holds its bytes. *)
Example sorted_file_compared_with_itself :
  let r := do_move_files [(jan2_2024, "out/2024/" +:+ stem +:+ ".jpg")] "out"
             already_sorted in
  snd r = Ok tt /\
  trace (fst r)
  = [EvPrint "Moving files...";
     EvCompare ("out/2024/" +:+ stem +:+ ".jpg") ("out/2024/" +:+ stem +:+ ".jpg") true;
     EvRemove ("out/2024/" +:+ stem +:+ ".jpg");
     EvWrite "out/info.json";
     EvPrint "Deleted 1 duplicates"] /\
  fs (fst r) !! ("out/2024/" +:+ stem +:+ ".jpg") = None.
Proof. vm_compute. repeat split; reflexivity. Qed.

(** C5, as stated, fails in both directions: the key the ledger and the
    plan share ([out/2024/...]) is never compared, and the comparison
    that is made uses the ledger file of another key ([out/2023/...]). *)
Lemma comparison_on_unshared_key :
  ~ compares_exactly_shared_targets one_move "out/info.json" false two_years.
Proof.
  intros H. unfold compares_exactly_shared_targets in H.
  specialize (H [EvCompare ("out/2023/" +:+ stem +:+ ".jpg") "in/b.jpg" true;
                 EvRemove "in/b.jpg"]).
  assert (mem ("out/2023/" +:+ stem +:+ ".jpg")
            (ledger_of (fs two_years) "out/info.json") = true /\
          get one_move ("out/2023/" +:+ stem +:+ ".jpg") = Some "in/b.jpg")
    as [_ Hget].
  { apply H; [vm_compute; reflexivity|]. exists true. simpl. auto. }
  vm_compute in Hget. discriminate Hget.
Qed.

(** C2, as stated, fails: the entry whose recorded file differs is not
    in the plan that reconciliation returns. *)
Lemma differing_entry_leaves_the_plan :
  ~ differing_entry_stays_planned one_move "out/info.json" false (same_target "BBB").
Proof.
  intros H. unfold differing_entry_stays_planned in H.
  destruct (H ("out/2024/" +:+ stem +:+ ".jpg") "in/b.jpg" (Data "AAA") (Data "BBB"))
    as (w' & moves' & n & Hrun & _ & Hget);
    try (vm_compute; reflexivity); [discriminate|].
  assert (snd (check_update_old_info one_move "out/info.json" false
                 (same_target "BBB")) = Ok ([], 0)) as Hres.
  { vm_compute. reflexivity. }
  rewrite Hrun in Hres. simpl in Hres. injection Hres as -> _.
  discriminate Hget.
Qed.

(** After the iteration for the ledger key [k] no plan key is named like
    [k], whatever the comparison said. *)
Lemma reconcile_entry_drops_name dry_run k moves n w w' moves' n' :
  reconcile_entry dry_run k (moves, n) w = (w', Ok (moves', n')) ->
  (forall t, In t (keys moves') -> In t (keys moves)) /\
  (forall t, In t (keys moves') -> PosixPath.basename t <> PosixPath.basename k).
Proof.
  unfold reconcile_entry.
  destruct (existsb _ _) eqn:Hex.
  - destruct (List.filter _ _) as [|incoming [|? ?]] eqn:Hfil; try discriminate.
    destruct (get moves incoming) as [src|]; [|discriminate].
    intros Hrun.
    assert (moves' = del moves incoming) as ->.
    { revert Hrun. unfold bind. rewrite filecmp_cmp_run.
      destruct (stat (fs w) _) as [n1|]; [|discriminate].
      destruct (stat (fs w) src) as [n2|]; [|discriminate].
      destruct (same_content n1 n2); simpl.
      - destruct dry_run; simpl.
        + intros [= _ <- _]. reflexivity.
        + rewrite remove_run. simpl.
          destruct (stat _ src) as [[c|]|]; try discriminate.
          intros [= _ <- _]. reflexivity.
      - intros [= _ <- _]. reflexivity. }
    split.
    + intros t Ht. apply In_keys_del in Ht as [Ht _]. exact Ht.
    + intros t Ht Hname. apply In_keys_del in Ht as [Ht Hne]. apply Hne.
      assert (In t (List.filter
                (fun new_file => contains (PosixPath.basename k) new_file)
                (keys moves))) as Hin.
      { apply filter_In. split; [exact Ht|].
        rewrite <- Hname. apply contains_basename. }
      rewrite Hfil in Hin. destruct Hin as [->|[]]. reflexivity.
  - intros [= _ <- _]. split; [auto|].
    intros t Ht Hname.
    assert (existsb (String.eqb (PosixPath.basename k))
              (map PosixPath.basename (keys moves)) = true) as Hyes.
    { apply existsb_exists. exists (PosixPath.basename t). split.
      - apply in_map. exact Ht.
      - rewrite Hname. apply String.eqb_refl. }
    rewrite Hyes in Hex. discriminate Hex.
Qed.

(** The plan that reconciliation returns holds no key named like a ledger
    key: every matched entry is dropped, identical or not. *)
Lemma reconciled_plan_has_no_ledger_name moves json_file dry_run w w' moves' n :
  check_update_old_info moves json_file dry_run w = (w', Ok (moves', n)) ->
  forall t k,
    In t (keys moves') -> In k (keys (ledger_of (fs w) json_file)) ->
    PosixPath.basename t <> PosixPath.basename k.
Proof.
  unfold check_update_old_info, bind.
  destruct (load_old_info_run json_file w) as (r & Hload & Hobj).
  rewrite Hload. destruct r as [obj|e]; [|discriminate].
  rewrite <- (Hobj obj eq_refl). clear Hload Hobj.
  generalize 0 as n0. intros n0. revert moves w n0.
  induction (keys obj) as [|k l IH]; intros moves w n0 Hrun t k' Ht Hk'.
  - destruct Hk'.
  - rewrite fold_m_cons in Hrun.
    destruct (reconcile_entry dry_run k (moves, n0) w) as [w1 [[m1 n1]|e]] eqn:Hstep;
      [|discriminate Hrun].
    apply reconcile_entry_drops_name in Hstep as [Hsub Hdrop].
    assert (forall t, In t (keys moves') -> In t (keys m1)) as Hkeep.
    { clear -Hrun. revert m1 w1 n1 Hrun.
      induction l as [|k l IH]; intros m1 w1 n1 Hrun t Ht.
      - cbn [fold_m] in Hrun. injection Hrun as _ <- _. exact Ht.
      - rewrite fold_m_cons in Hrun.
        destruct (reconcile_entry dry_run k (m1, n1) w1) as [w2 [[m2 n2]|e]] eqn:Hstep;
          [|discriminate Hrun].
        apply reconcile_entry_drops_name in Hstep as [Hsub _].
        apply Hsub. apply (IH _ _ _ Hrun). exact Ht. }
    destruct Hk' as [<-|Hk'].
    + apply Hdrop. apply Hkeep. exact Ht.
    + apply (IH m1 w1 n1 Hrun t k' Ht Hk').
Qed.

(** In a dry run the duplicate counter is never incremented. *)
Lemma dry_run_counts_nothing moves json_file w w' moves' n :
  check_update_old_info moves json_file true w = (w', Ok (moves', n)) -> n = 0.
Proof.
  unfold check_update_old_info, bind.
  destruct (load_old_info json_file w) as [w1 [old_info|e]]; [|discriminate].
  generalize 0 as n0. intros n0. revert moves w1 n0.
  induction (keys old_info) as [|k l IH]; intros moves w1 n0.
  - simpl. intros [= _ _ ->]. reflexivity.
  - rewrite fold_m_cons.
    destruct (reconcile_entry true k (moves, n0) w1) as [w2 [[m2 n2]|e]] eqn:Hstep;
      [|discriminate].
    assert (n2 = n0) as ->.
    { revert Hstep. unfold reconcile_entry.
      destruct (existsb _ _); [|intros [= _ _ ->]; reflexivity].
      destruct (List.filter _ _) as [|incoming [|? ?]]; try discriminate.
      destruct (get moves incoming); [|discriminate].
      unfold bind. rewrite filecmp_cmp_run.
      destruct (stat (fs w1) _); [|discriminate].
      destruct (stat (fs w1) _); [|discriminate].
      destruct (same_content _ _); simpl; intros [= _ _ ->]; reflexivity. }
    apply IH.
Qed.

(** C7 (the code departs from the claim). For one incoming file that is
    byte-identical to the file recorded at its target, Apply counts and
    reports one duplicate, while the dry run on the same input returns
    the count 0 and prints no "Would have deleted" line: the counter is
    incremented only under [if not dry_run]. *)
Theorem dry_run_loses_the_duplicate_count :
  snd (check_update_old_info one_move "out/info.json" false (same_target "AAA"))
    = Ok ([], 1) /\
  snd (check_update_old_info one_move "out/info.json" true (same_target "AAA"))
    = Ok ([], 0) /\
  trace (fst (do_move_files one_picture "out" (same_target "AAA")))
    = [EvPrint "Moving files...";
       EvCompare ("out/2024/" +:+ stem +:+ ".jpg") "in/b.jpg" true;
       EvRemove "in/b.jpg";
       EvWrite "out/info.json";
       EvPrint "Deleted 1 duplicates"] /\
  trace (fst (dryrun_move_files one_picture "out" (same_target "AAA")))
    = [EvCompare ("out/2024/" +:+ stem +:+ ".jpg") "in/b.jpg" true].
Proof. vm_compute. repeat split; reflexivity. Qed.

End Duplicates.

(** ** Running Apply again *)

Module Rerun.
Import Props.
Import PyStr PyDict Sys Os Organizer Frame Facts Reconcile Scenario.
Local Open Scope pyio_scope.

Lemma bind_Ok_inv {A B} (m : M A) (k : A -> M B) w w' b :
  bind m k w = (w', Ok b) ->
  exists w1 a, m w = (w1, Ok a) /\ k a w1 = (w', Ok b).
Proof.
  unfold bind. destruct (m w) as [w1 [a|e]]; [eauto | discriminate].
Qed.

Lemma json_dump_Ok obj path w w' u :
  json_dump obj path w = (w', Ok u) -> ledger_written (fs w') path obj.
Proof.
  unfold json_dump, bind, get_fs, lift, set_fs, emit.
  destruct (String.eqb path "") eqn:Hne; [discriminate|].
  assert (stat (fs w) path <> Some Dir ->
            (match parent_ok (fs w) path with
             | Ok _ =>
                 (mkWorld (<[path := File (Json obj)]> (fs w))
                    (trace w ++ [EvWrite path]), Ok tt)
             | Raise e => (w, Raise e)
             end) = (w', Ok u) ->
            ledger_written (fs w') path obj) as Hcore.
  { intros Hnd Hrun.
    destruct (parent_ok (fs w) path) as [[]|e] eqn:Hpar; [|discriminate].
    injection Hrun as <- _. simpl.
    assert (PosixPath.all_sep path = false) as Hsep.
    { destruct (PosixPath.all_sep path) eqn:Hsep; [|reflexivity].
      exfalso. apply Hnd. unfold stat. rewrite Hne, Hsep. reflexivity. }
    split; [exact Hne|]. split.
    - unfold stat. rewrite Hne, Hsep. apply lookup_insert_eq.
    - revert Hpar. unfold parent_ok.
      destruct (String.eqb (PosixPath.dirname path) "") eqn:Hd; [auto|].
      destruct (stat (fs w) (PosixPath.dirname path)) as [[c|]|] eqn:Hsd;
        try discriminate.
      intros _.
      assert (stat (<[path := File (Json obj)]> (fs w)) (PosixPath.dirname path)
              = Some Dir) as ->; [|reflexivity].
      revert Hsd. unfold stat. rewrite Hd.
      destruct (PosixPath.all_sep (PosixPath.dirname path)); [auto|].
      intros Hl. destruct (decide (path = PosixPath.dirname path)) as [Heq|Hneq].
      + exfalso. apply Hnd. unfold stat. rewrite Hne, Hsep, Heq. exact Hl.
      + rewrite lookup_insert_ne by exact Hneq. exact Hl. }
  destruct (stat (fs w) path) as [[c|]|] eqn:Hs; simpl.
  - intros Hrun. apply Hcore; [congruence | exact Hrun].
  - discriminate.
  - intros Hrun. apply Hcore; [congruence | exact Hrun].
Qed.

Lemma append_written moves json_file w w' r :
  append_moves_to_json moves json_file false w = (w', Ok r) ->
  exists obj, ledger_written (fs w') json_file obj.
Proof.
  unfold append_moves_to_json. intros H.
  apply bind_Ok_inv in H as (w1 & old_info & _ & H).
  apply bind_Ok_inv in H as (w2 & [] & _ & H).
  apply bind_Ok_inv in H as (w3 & [] & H & Hret).
  injection Hret as <- _. simpl in H.
  apply bind_Ok_inv in H as (w4 & present & _ & H).
  apply bind_Ok_inv in H as (w5 & [] & _ & H).
  eexists. eapply json_dump_Ok. exact H.
Qed.

Lemma apply_leaves_ledger pictures out w w1 :
  do_move_files pictures out w = (w1, Ok tt) ->
  exists obj, ledger_written (fs w1) (PosixPath.join out "info.json") obj.
Proof.
  unfold do_move_files. intros H.
  apply bind_Ok_inv in H as (wa & [] & _ & H).
  apply bind_Ok_inv in H as (wb & moves & _ & H).
  apply bind_Ok_inv in H as (wc & [moves' n] & _ & H).
  apply bind_Ok_inv in H as (wd & [] & _ & H).
  apply bind_Ok_inv in H as (we & r & Happ & H).
  apply append_written in Happ as (obj & Hobj).
  exists obj.
  destruct (0 <? n).
  - rewrite print_run in H. injection H as <-. exact Hobj.
  - injection H as <-. exact Hobj.
Qed.

Lemma load_written json_file obj w :
  ledger_written (fs w) json_file obj -> load_old_info json_file w = (w, Ok obj).
Proof.
  intros (_ & Hs & _).
  unfold load_old_info, json_load, path_exists, get_fs, bind.
  cbn beta iota. rewrite Hs. cbn beta iota. rewrite Hs. reflexivity.
Qed.

Lemma dump_written json_file obj w :
  ledger_written (fs w) json_file obj ->
  json_dump obj json_file w = (mkWorld (fs w) (trace w ++ [EvWrite json_file]), Ok tt).
Proof.
  intros (Hne & Hs & Hpar).
  unfold json_dump, get_fs, lift, set_fs, emit, bind.
  cbn beta iota. rewrite Hne, Hs, Hpar. cbn beta iota. simpl.
  rewrite insert_id; [reflexivity|].
  revert Hs. unfold stat. rewrite Hne.
  destruct (PosixPath.all_sep json_file); [discriminate | auto].
Qed.

Lemma reconcile_empty_plan dry_run l n w :
  fold_m (reconcile_entry dry_run) l ([], n) w = (w, Ok ([], n)).
Proof.
  induction l as [|k l IH]; [reflexivity|].
  rewrite fold_m_cons. simpl. exact IH.
Qed.

Lemma no_key_left (l : list string) w :
  for_each l
    (fun k => if mem k ([] : dict string)
              then print (still_exists_msg k) ;;;
                   raise (TypeError "exceptions must derive from BaseException")
              else ret tt) w = (w, Ok tt).
Proof.
  induction l as [|k l IH]; [reflexivity|].
  rewrite for_each_cons. simpl. exact IH.
Qed.

Lemma apply_on_nothing out obj w :
  ledger_written (fs w) (PosixPath.join out "info.json") obj ->
  do_move_files [] out w =
    (mkWorld (fs w)
       (trace w ++ [EvPrint "Moving files..."; EvWrite (PosixPath.join out "info.json")]),
     Ok tt).
Proof.
  intros Hw.
  set (w1 := mkWorld (fs w) (trace w ++ [EvPrint "Moving files..."])).
  assert (ledger_written (fs w1) (PosixPath.join out "info.json") obj) as Hw1
    by exact Hw.
  unfold do_move_files.
  unfold bind at 1. rewrite print_run. fold w1.
  unfold bind at 1. unfold lift at 1. cbn [Plan.create_moves Plan.group_all
    fold_left Plan.place_all].
  unfold bind at 1. unfold check_update_old_info.
  unfold bind at 1. rewrite (load_written _ _ _ Hw1).
  rewrite reconcile_empty_plan.
  unfold bind at 1. unfold move_all at 1. cbn [for_each]. unfold ret at 1.
  unfold bind at 1. unfold append_moves_to_json.
  unfold bind at 1. rewrite (load_written _ _ _ Hw1).
  unfold bind at 1. rewrite no_key_left.
  rewrite update_nil. cbn [negb].
  unfold bind at 1. unfold bind at 1. unfold bind at 1.
  assert (path_exists (PosixPath.join out "info.json") w1 = (w1, Ok true)) as ->.
  { unfold path_exists. destruct Hw1 as (_ & -> & _). reflexivity. }
  cbn [negb]. unfold ret at 1.
  rewrite (dump_written _ _ _ Hw1).
  unfold ret at 1. unfold ret at 1. cbn [Nat.ltb Nat.leb].
  unfold ret. subst w1. simpl. rewrite <- app_assoc. reflexivity.
Qed.

End Rerun.

(** ** A target that is already on disk *)

Module Conflict.
Import Props.
Import PyStr PyDict Sys Os Organizer Frame Facts Scenario.
Local Open Scope pyio_scope.

Lemma sort_file_in_taken outfile infile w n d :
  stat (fs w) outfile = Some n ->
  stat (fs w) (PosixPath.dirname outfile) = Some d ->
  sort_file_in outfile infile w = (w, Raise (ValueError (wont_copy_msg infile outfile))).
Proof.
  intros Hout Hdir. unfold sort_file_in, path_exists, bind.
  cbn beta iota. rewrite Hdir. cbn beta iota.
  change (negb true) with false. cbn beta iota. unfold ret at 1.
  rewrite Hout. reflexivity.
Qed.

Lemma for_each_app {A} (body : A -> M unit) l1 l2 w :
  for_each (l1 ++ l2) body w =
  match for_each l1 body w with
  | (w1, Ok _) => for_each l2 body w1
  | (w1, Raise e) => (w1, Raise e)
  end.
Proof.
  revert w. induction l1 as [|x l1 IH]; intros w; [reflexivity|].
  rewrite <- app_comm_cons, !for_each_cons.
  destruct (body x w) as [w1 [[]|e]]; [apply IH | reflexivity].
Qed.

(** C8 (as amended). When the loop of [do_move_files] reaches a move
    whose target exists on disk (in its existing directory), that move
    raises [ValueError] and nothing is overwritten; the exception is not
    caught, so the loop ends there: the moves made before it stay made
    and the moves after it are not attempted. *)
Theorem existing_target_stops_the_run
    (done rest : dict string) (new_file old_file : string)
    (w w1 : world) (n d : node) :
  move_all done w = (w1, Ok tt) ->
  stat (fs w1) new_file = Some n ->
  stat (fs w1) (PosixPath.dirname new_file) = Some d ->
  move_all (done ++ (new_file, old_file) :: rest) w =
    (w1, Raise (ValueError (wont_copy_msg old_file new_file))).
Proof.
  intros Hdone Hout Hdir. unfold move_all in *.
  rewrite for_each_app, Hdone, for_each_cons. simpl fst. simpl snd.
  rewrite (sort_file_in_taken _ _ _ _ _ Hout Hdir). reflexivity.
Qed.

Lemma existing_target_stops_the_run_witness :
  move_all ([] ++ ("out/2024/a.jpg", "in/a.jpg") :: [("out/2024/b.jpg", "in/b.jpg")])
    taken_target =
    (taken_target, Raise (ValueError (wont_copy_msg "in/a.jpg" "out/2024/a.jpg"))).
Proof.
  apply (existing_target_stops_the_run [] [("out/2024/b.jpg", "in/b.jpg")]
           "out/2024/a.jpg" "in/a.jpg" taken_target taken_target
           (File (Data "OLD")) Dir).
  - reflexivity.
  - vm_compute. reflexivity.
  - vm_compute. reflexivity.
Defined.

(** C8, as stated, fails: the first target is taken, the exception ends
    the loop, and the second file, whose target is free, is not moved. *)
Lemma conflict_stops_later_moves :
  ~ conflict_skips_only_that_move two_moves taken_target.
Proof.
  intros H. unfold conflict_skips_only_that_move in H.
  specialize (H "out/2024/b.jpg" "in/b.jpg" (Data "BBB")).
  assert (stat (fs (fst (move_all two_moves taken_target))) "out/2024/b.jpg"
          = Some (File (Data "BBB"))) as Hmoved.
  { apply H; [simpl; auto | vm_compute; reflexivity | vm_compute; reflexivity]. }
  vm_compute in Hmoved. discriminate Hmoved.
Qed.

(** The whole Apply run on that input: it ends with the exception and the
    ledger is not written. *)
Example apply_with_taken_target :
  Plan.create_moves
    [(mkDatetime 2024 1 2 10 0 0, "in/a.jpg"); (mkDatetime 2024 1 2 11 0 0, "in/b.jpg")]
    "out"
  = Ok [("out/2024/01_02_10_00_00__2th_of_January_at_10h_00m.jpg", "in/a.jpg");
        ("out/2024/01_02_11_00_00__2th_of_January_at_11h_00m.jpg", "in/b.jpg")] /\
  let w :=
    world_of
      [("out", Dir); ("out/2024", Dir); ("in", Dir);
       ("out/2024/01_02_10_00_00__2th_of_January_at_10h_00m.jpg", File (Data "OLD"));
       ("in/a.jpg", File (Data "AAA")); ("in/b.jpg", File (Data "BBB"))] in
  let r := do_move_files
             [(mkDatetime 2024 1 2 10 0 0, "in/a.jpg");
              (mkDatetime 2024 1 2 11 0 0, "in/b.jpg")] "out" w in
  snd r = Raise (ValueError (wont_copy_msg "in/a.jpg"
                   "out/2024/01_02_10_00_00__2th_of_January_at_10h_00m.jpg")) /\
  trace (fst r) = [EvPrint "Moving files..."] /\
  fs (fst r) = fs w.
Proof. vm_compute. repeat split; reflexivity. Qed.

End Conflict.

(** ** The timestamp fallback *)

Module Fallback.
Import Props.
Import Timestamp.

(** The test of the fallback, spelled out: the resolved date is the
    current date and the month number of the current date is its day
    number. *)
Lemma suspicious_spelled_out now t :
  suspicious now t = same_date t now && (month now =? day now).
Proof.
  unfold suspicious, same_date.
  destruct (year t =? year now); [|reflexivity]. cbn [andb].
  destruct (Nat.eqb_spec (month t) (month now)) as [Hm|_]; [|reflexivity].
  destruct (Nat.eqb_spec (day t) (day now)) as [Hd|_].
  - cbn [andb]. rewrite andb_true_r, Hd. reflexivity.
  - rewrite andb_false_r. reflexivity.
Qed.

(** C9 (the code departs from the claim). The fallback does not reject
    the current moment.  The test chains four comparisons,
    [a.month == b.month == a.day == b.day], which also asks the month
    number to be the day number: on 5 March a file whose earlier time is
    the very moment of the run is returned; the same file and moment on
    3 March are rejected.  On the days it works, the test compares the
    date only: on 2 February at 23:30 a file of 10:00 that day is
    rejected.  In general the result is a rejection exactly when the
    resolved date is the current date and the month number of that date
    is its day number, and the resolved timestamp otherwise. *)
Theorem current_moment_is_rejected_on_some_days_only :
  extract_timestamp_from_filemeta (fun _ => Ok march5_10h) (fun _ => Ok march5_10h)
    utc_fromtimestamp (mkDatetime 2024 3 5 10 0 0) "in/a.png"
  = Ok (mkDatetime 2024 3 5 10 0 0) /\
  extract_timestamp_from_filemeta (fun _ => Ok march3_10h) (fun _ => Ok march3_10h)
    utc_fromtimestamp (mkDatetime 2024 3 3 10 0 0) "in/a.png"
  = Raise (ValueError "Suspicious timestamp 2024-03-03 10:00:00") /\
  extract_timestamp_from_filemeta (fun _ => Ok feb2_10h) (fun _ => Ok march5_12h)
    utc_fromtimestamp (mkDatetime 2024 2 2 23 30 0) "in/a.png"
  = Raise (ValueError "Suspicious timestamp 2024-02-02 10:00:00") /\
  forall getctime getmtime fromtimestamp now path ctime mtime,
    getctime path = Ok ctime ->
    getmtime path = Ok mtime ->
    extract_timestamp_from_filemeta getctime getmtime fromtimestamp now path
    = if same_date (fromtimestamp (Z.min ctime mtime)) now && (month now =? day now)
      then Raise (ValueError ("Suspicious timestamp "
                              +:+ str_datetime (fromtimestamp (Z.min ctime mtime))))
      else Ok (fromtimestamp (Z.min ctime mtime)).
Proof.
  split; [vm_compute; reflexivity|]. split; [vm_compute; reflexivity|].
  split; [vm_compute; reflexivity|].
  intros getctime getmtime fromtimestamp now path ctime mtime Hc Hm.
  unfold extract_timestamp_from_filemeta. rewrite Hc, Hm.
  rewrite suspicious_spelled_out. reflexivity.
Qed.

(** The claim as the specification words it fails on 5 March: a file
    whose resolved timestamp is the current date and the exact current
    time (10:00:00) is accepted. *)
Lemma current_moment_is_accepted :
  ~ rejects_exactly_the_current_moment
      (fun _ => Ok march5_10h) (fun _ => Ok march5_12h) utc_fromtimestamp
      (mkDatetime 2024 3 5 10 0 0) "in/a.png".
Proof.
  intros H. unfold rejects_exactly_the_current_moment in H.
  specialize (H march5_10h march5_12h eq_refl eq_refl).
  vm_compute in H. destruct H as [e He]. discriminate He.
Qed.

(** The other direction fails as well: on 2 February a timestamp of the
    same day but of another time is rejected. *)
Example same_day_other_time_is_rejected :
  extract_timestamp_from_filemeta (fun _ => Ok feb2_10h) (fun _ => Ok march5_12h)
    utc_fromtimestamp (mkDatetime 2024 2 2 23 30 0) "in/a.png"
  = Raise (ValueError "Suspicious timestamp 2024-02-02 10:00:00").
Proof. vm_compute. reflexivity. Qed.

End Fallback.

(** ** The tree cleaner *)

Module Cleanup.
Import Props.
Import PyStr Cleaner Facts.

Lemma dirtree_induction (P : dirtree -> Prop) :
  (forall files subdirs,
      (forall e, In e subdirs -> P (snd e)) -> P (DirNode files subdirs)) ->
  forall t, P t.
Proof.
  intros Hnode. fix IH 1. intros [files subdirs]. apply Hnode.
  induction subdirs as [|e subdirs IHs]; intros e' Hin.
  - destruct Hin.
  - destruct Hin as [<-|Hin]; [apply IH | apply IHs; exact Hin].
Qed.

Lemma removed_subset top t p : p ∈ removed top t -> p ∈ all_dirs top t.
Proof.
  revert top p. induction t as [files subdirs IH] using dirtree_induction.
  intros top p. simpl. rewrite elem_of_app, elem_of_cons. intros [Hin|Hin].
  - right. induction subdirs as [|e subdirs IHs]; simpl in *.
    + apply elem_of_nil in Hin. destruct Hin.
    + rewrite elem_of_app in *. destruct Hin as [Hin|Hin].
      * left. apply (IH e); [left; reflexivity | exact Hin].
      * right. apply IHs; [|exact Hin]. intros e' He'. apply IH. right. exact He'.
  - left. destruct (negb _ && _).
    + apply list_elem_of_singleton in Hin. exact Hin.
    + apply elem_of_nil in Hin. destruct Hin.
Qed.

Lemma removed_children_subset top (subdirs : list (string * dirtree)) p :
  p ∈ flat_map (fun e => removed (PosixPath.join top (fst e)) (snd e)) subdirs ->
  p ∈ flat_map (fun e => all_dirs (PosixPath.join top (fst e)) (snd e)) subdirs.
Proof.
  induction subdirs as [|e subdirs IH]; simpl; [auto|].
  rewrite !elem_of_app. intros [H|H]; [left; apply removed_subset; exact H|].
  right. apply IH. exact H.
Qed.

(** The root of a tree is among the removed directories exactly when the
    tree holds no file. *)
Lemma root_removed_iff top t :
  NoDup (all_dirs top t) -> (top ∈ removed top t <-> no_files t = true).
Proof.
  destruct t as [files subdirs]. cbn [all_dirs removed].
  rewrite NoDup_cons. intros [Hnotin _]. rewrite elem_of_app. split.
  - intros [Hin|Hin].
    + exfalso. apply Hnotin. apply removed_children_subset. exact Hin.
    + destruct (no_files (DirNode files subdirs)); [reflexivity|].
      apply elem_of_nil in Hin. destruct Hin.
  - intros ->. right. apply list_elem_of_singleton. reflexivity.
Qed.

(** Which children of [top] are among the removed directories. *)
Lemma child_removed_iff top (subdirs : list (string * dirtree)) (D : gset string) :
  NoDup (flat_map (fun e => all_dirs (PosixPath.join top (fst e)) (snd e)) subdirs) ->
  (forall p,
      p ∈ flat_map (fun e => all_dirs (PosixPath.join top (fst e)) (snd e)) subdirs ->
      p ∉ D) ->
  forall e, In e subdirs ->
    (PosixPath.join top (fst e) ∈
       D ∪ list_to_set
             (flat_map (fun e => removed (PosixPath.join top (fst e)) (snd e)) subdirs)
     <-> no_files (snd e) = true).
Proof.
  induction subdirs as [|e0 subdirs IH]; intros Hnd HD e He; [destruct He|].
  simpl in Hnd, HD. apply NoDup_app in Hnd as (Hnd0 & Hdisj & Hnd').
  assert (forall q t, q ∈ all_dirs q t) as Hroot.
  { intros q [f s]. simpl. apply elem_of_cons. left. reflexivity. }
  simpl. rewrite list_to_set_app_L.
  rewrite !elem_of_union, !elem_of_list_to_set.
  destruct He as [<-|He].
  - rewrite <- (root_removed_iff _ _ Hnd0). split.
    + intros [HinD|[Hin|Hin]].
      * exfalso. apply (HD (PosixPath.join top (fst e0))); [|exact HinD].
        apply elem_of_app. left. apply Hroot.
      * exact Hin.
      * exfalso. apply (Hdisj (PosixPath.join top (fst e0))); [apply Hroot|].
        apply removed_children_subset. exact Hin.
    + intros Hin. right. left. exact Hin.
  - assert (forall p,
              p ∈ flat_map (fun e => all_dirs (PosixPath.join top (fst e)) (snd e))
                    subdirs -> p ∉ D) as HD'.
    { intros p Hp. apply HD. apply elem_of_app. right. exact Hp. }
    specialize (IH Hnd' HD' e He).
    rewrite elem_of_union, elem_of_list_to_set in IH.
    rewrite <- IH. split.
    + intros [HinD|[Hin|Hin]]; [left; exact HinD | | right; exact Hin].
      exfalso. apply removed_subset in Hin.
      apply (Hdisj _ Hin).
      apply list_elem_of_In. apply in_flat_map. exists e.
      split; [exact He|]. apply list_elem_of_In. apply Hroot.
    + intros [HinD|Hin]; [left; exact HinD | right; right; exact Hin].
Qed.

Lemma fold_children top (subdirs : list (string * dirtree)) (D : gset string) :
  (forall e, In e subdirs -> forall top' D',
      NoDup (all_dirs top' (snd e)) ->
      (forall p, p ∈ all_dirs top' (snd e) -> p ∉ D') ->
      fold_left cleanup_step (walk_bottomup top' (snd e)) D'
      = D' ∪ list_to_set (removed top' (snd e))) ->
  NoDup (flat_map (fun e => all_dirs (PosixPath.join top (fst e)) (snd e)) subdirs) ->
  (forall p,
      p ∈ flat_map (fun e => all_dirs (PosixPath.join top (fst e)) (snd e)) subdirs ->
      p ∉ D) ->
  fold_left cleanup_step
    (flat_map (fun e => walk_bottomup (PosixPath.join top (fst e)) (snd e)) subdirs) D
  = D ∪ list_to_set
          (flat_map (fun e => removed (PosixPath.join top (fst e)) (snd e)) subdirs).
Proof.
  revert D. induction subdirs as [|e subdirs IH]; intros D Hsub Hnd HD; simpl.
  - symmetry. apply (right_id_L ∅ (∪)).
  - simpl in Hnd, HD. apply NoDup_app in Hnd as (Hnd0 & Hdisj & Hnd').
    rewrite fold_left_app.
    rewrite (Hsub e (or_introl eq_refl) _ D Hnd0).
    2:{ intros p Hp. apply HD. apply elem_of_app. left. exact Hp. }
    rewrite IH.
    + rewrite list_to_set_app_L, (assoc_L (∪)). reflexivity.
    + intros e' He'. apply Hsub. right. exact He'.
    + exact Hnd'.
    + intros p Hp. rewrite elem_of_union, elem_of_list_to_set.
      intros [HinD|Hin].
      * apply (HD p); [|exact HinD]. apply elem_of_app. right. exact Hp.
      * apply removed_subset in Hin. apply (Hdisj _ Hin Hp).
Qed.

Lemma still_has_subdirs_spec top (subdirs l : list (string * dirtree)) (D' : gset string) :
  (forall e, In e subdirs ->
     (PosixPath.join top (fst e) ∈ D' <-> no_files (snd e) = true)) ->
  (forall e, In e l -> In e subdirs) ->
  existsb (fun subdir => negb (bool_decide (PosixPath.join top subdir ∈ D')))
    (map fst l)
  = negb (forallb (fun e => no_files (snd e)) l).
Proof.
  intros Hiff. induction l as [|e l IH]; intros Hl; [reflexivity|].
  simpl. rewrite IH by (intros e' He'; apply Hl; right; exact He').
  rewrite negb_andb. f_equal.
  specialize (Hiff e (Hl e (or_introl eq_refl))).
  destruct (no_files (snd e)).
  - rewrite bool_decide_eq_true_2; [reflexivity | apply Hiff; reflexivity].
  - rewrite bool_decide_eq_false_2; [reflexivity|].
    intros Hin. apply Hiff in Hin. discriminate Hin.
Qed.

(** The loop of [cleanup] adds to [deleted] exactly the directories
    without files, provided [deleted] held none of the walked paths. *)
Lemma cleanup_fold t :
  forall top (D : gset string),
    NoDup (all_dirs top t) ->
    (forall p, p ∈ all_dirs top t -> p ∉ D) ->
    fold_left cleanup_step (walk_bottomup top t) D
    = D ∪ list_to_set (removed top t).
Proof.
  induction t as [files subdirs IH] using dirtree_induction.
  intros top D Hnd HD. cbn [walk_bottomup removed all_dirs] in *.
  apply NoDup_cons in Hnd as [Htop Hnd].
  assert (forall p,
            p ∈ flat_map (fun e => all_dirs (PosixPath.join top (fst e)) (snd e))
                  subdirs -> p ∉ D) as HD'.
  { intros p Hp. apply HD. apply elem_of_cons. right. exact Hp. }
  rewrite fold_left_app, (fold_children top subdirs D IH Hnd HD').
  cbn [fold_left]. unfold cleanup_step.
  rewrite (still_has_subdirs_spec top subdirs subdirs _
             (child_removed_iff top subdirs D Hnd HD') (fun e H => H)).
  rewrite negb_involutive. cbn [no_files].
  destruct (negb (any_name files) && forallb (fun e => no_files (snd e)) subdirs).
  - rewrite list_to_set_app_L, list_to_set_singleton_L.
    rewrite (comm_L (∪) {[top]}), (assoc_L (∪)). reflexivity.
  - rewrite app_nil_r. reflexivity.
Qed.

Lemma removed_children_NoDup top (subdirs : list (string * dirtree)) :
  (forall e, In e subdirs -> forall top',
      NoDup (all_dirs top' (snd e)) -> NoDup (removed top' (snd e))) ->
  NoDup (flat_map (fun e => all_dirs (PosixPath.join top (fst e)) (snd e)) subdirs) ->
  NoDup (flat_map (fun e => removed (PosixPath.join top (fst e)) (snd e)) subdirs).
Proof.
  induction subdirs as [|e subdirs IH]; intros Hsub Hnd; simpl; [constructor|].
  simpl in Hnd. apply NoDup_app in Hnd as (Hnd0 & Hdisj & Hnd').
  apply NoDup_app. split; [|split].
  - apply Hsub; [left; reflexivity | exact Hnd0].
  - intros p Hp Hp'. apply removed_subset in Hp.
    apply removed_children_subset in Hp'. apply (Hdisj _ Hp Hp').
  - apply IH; [|exact Hnd']. intros e' He'. apply Hsub. right. exact He'.
Qed.

Lemma removed_NoDup t :
  forall top, NoDup (all_dirs top t) -> NoDup (removed top t).
Proof.
  induction t as [files subdirs IH] using dirtree_induction.
  intros top Hnd. cbn [removed all_dirs] in *.
  apply NoDup_cons in Hnd as [Htop Hnd].
  apply NoDup_app. split; [|split].
  - apply removed_children_NoDup; assumption.
  - intros p Hp Hp'. destruct (no_files _).
    + apply list_elem_of_singleton in Hp'. subst p.
      apply Htop. apply removed_children_subset. exact Hp.
    + apply elem_of_nil in Hp'. exact Hp'.
  - destruct (no_files _); [apply NoDup_singleton | constructor].
Qed.

Lemma removed_length t : forall top, length (removed top t) = removable_count t.
Proof.
  induction t as [files subdirs IH] using dirtree_induction.
  intros top. cbn [removed removable_count]. rewrite length_app. f_equal.
  - induction subdirs as [|e subdirs IHs]; [reflexivity|].
    simpl. rewrite length_app, (IH e (or_introl eq_refl)).
    rewrite IHs; [reflexivity|]. intros e' He'. apply IH. right. exact He'.
  - destruct (no_files _); reflexivity.
Qed.

Lemma cleanup_deleted_spec root t :
  NoDup (all_dirs root t) ->
  cleanup_deleted root t = list_to_set (removed root t).
Proof.
  intros Hnd. unfold cleanup_deleted.
  rewrite (cleanup_fold t root ∅ Hnd); [apply (left_id_L ∅ (∪))|].
  intros p _. apply not_elem_of_empty.
Qed.

Lemma cleanup_count root t :
  NoDup (all_dirs root t) -> cleanup root t = removable_count t.
Proof.
  intros Hnd. unfold cleanup. rewrite (cleanup_deleted_spec _ _ Hnd).
  rewrite size_list_to_set by (apply removed_NoDup; exact Hnd).
  apply removed_length.
Qed.

(** In a tree without files every directory counts. *)
Lemma no_files_all_removable t :
  no_files t = true -> removable_count t = dir_count t.
Proof.
  induction t as [files subdirs IH] using dirtree_induction.
  intros Hnf. cbn [removable_count dir_count]. rewrite Hnf.
  cbn [no_files] in Hnf. apply andb_prop in Hnf as [_ Hall].
  rewrite Nat.add_1_r. f_equal.
  induction subdirs as [|e subdirs IHs]; [reflexivity|].
  simpl in *. apply andb_prop in Hall as [He Hall].
  rewrite (IH e (or_introl eq_refl) He). f_equal.
  apply IHs; [|exact Hall]. intros e' He'. apply IH. right. exact He'.
Qed.

Lemma no_files_all_removed t :
  forall top, no_files t = true ->
    forall p, p ∈ all_dirs top t -> p ∈ removed top t.
Proof.
  induction t as [files subdirs IH] using dirtree_induction.
  intros top Hnf p. cbn [all_dirs removed]. rewrite Hnf.
  cbn [no_files] in Hnf. apply andb_prop in Hnf as [_ Hall].
  rewrite elem_of_cons, elem_of_app, list_elem_of_singleton.
  intros [->|Hin]; [right; reflexivity|]. left.
  induction subdirs as [|e subdirs IHs]; [exact Hin|].
  simpl in *. apply andb_prop in Hall as [He Hall].
  rewrite elem_of_app in *. destruct Hin as [Hin|Hin].
  - left. apply (IH e (or_introl eq_refl) _ He). exact Hin.
  - right. apply IHs; [|exact Hall|exact Hin]. intros e' He'. apply IH. right. exact He'.
Qed.

(** *** The paths of a well-formed snapshot are pairwise different *)

Lemma length_app_s a b : String.length (a +:+ b) = String.length a + String.length b.
Proof.
  induction a as [|x a IH]; [reflexivity|]. rewrite app_cons. simpl. rewrite IH.
  reflexivity.
Qed.

Lemma name_ok_spec c :
  name_ok c = true -> c <> "" /\ has_char "/" c = false.
Proof.
  unfold name_ok. intros H. apply andb_prop in H as [H1 H2].
  apply negb_true_iff in H1, H2. split; [|exact H2].
  intros ->. discriminate H1.
Qed.

Lemma no_slash_not_leading c :
  has_char "/" c = false -> startswith "/" c = false.
Proof.
  destruct c as [|a c]; [reflexivity|]. cbn [has_char startswith]. intros H.
  apply orb_false_elim in H as [H _].
  rewrite Ascii.eqb_sym. rewrite H. reflexivity.
Qed.

Lemma no_slash_not_trailing c :
  has_char "/" c = false -> endswith_char PosixPath.sep c = false.
Proof.
  induction c as [|a c IH]; [reflexivity|]. cbn [has_char endswith_char]. intros H.
  apply orb_false_elim in H as [Ha Hc]. destruct c as [|b c].
  - exact Ha.
  - apply IH. exact Hc.
Qed.

Lemma endswith_app x a c :
  c <> "" -> endswith_char x (a +:+ c) = endswith_char x c.
Proof.
  intros Hc. induction a as [|y a IH]; [reflexivity|].
  rewrite app_cons. cbn [endswith_char]. rewrite IH.
  destruct (a +:+ c) eqn:Hac; [|reflexivity].
  destruct a; [rewrite app_empty_l in Hac; contradiction | discriminate Hac].
Qed.

Lemma join_name top c :
  name_ok c = true -> PosixPath.join top c = prefix_of top +:+ c.
Proof.
  intros Hc. apply name_ok_spec in Hc as [_ Hc].
  unfold PosixPath.join, prefix_of. rewrite (no_slash_not_leading c Hc).
  destruct (String.eqb top "" || endswith_char PosixPath.sep top); [reflexivity|].
  rewrite app_assoc_s. reflexivity.
Qed.

Lemma join_clean top c : name_ok c = true -> clean (PosixPath.join top c).
Proof.
  intros Hc. rewrite (join_name _ _ Hc).
  apply name_ok_spec in Hc as [Hne Hc]. split.
  - intros H. destruct (prefix_of top); [rewrite app_empty_l in H; contradiction|].
    discriminate H.
  - rewrite endswith_app by exact Hne. apply no_slash_not_trailing. exact Hc.
Qed.

Lemma prefix_of_clean q : clean q -> prefix_of q = q +:+ "/".
Proof.
  intros [Hne Hend]. unfold prefix_of. rewrite Hend.
  destruct (String.eqb_spec q ""); [contradiction | reflexivity].
Qed.

Lemma join_longer top c :
  name_ok c = true -> String.length top < String.length (PosixPath.join top c).
Proof.
  intros Hc. rewrite (join_name _ _ Hc), length_app_s.
  apply name_ok_spec in Hc as [Hne _].
  assert (String.length top <= String.length (prefix_of top)).
  { unfold prefix_of. destruct (_ || _); [lia|]. rewrite length_app_s. lia. }
  destruct c; [contradiction|]. simpl. lia.
Qed.

Lemma below_length q p : below q p -> String.length q <= String.length p.
Proof. intros (r & -> & _). rewrite length_app_s. lia. Qed.

Lemma wf_tree_node files subdirs :
  wf_tree (DirNode files subdirs) = true ->
  forallb name_ok (map fst subdirs) = true /\
  distinct (map fst subdirs) = true /\
  (forall e, In e subdirs -> wf_tree (snd e) = true).
Proof.
  cbn [wf_tree]. intros H. apply andb_prop in H as [H H3].
  apply andb_prop in H as [H1 H2]. repeat split; try assumption.
  intros e He. rewrite forallb_forall in H3. apply H3. exact He.
Qed.

Lemma dirs_below t :
  wf_tree t = true ->
  forall q, clean q -> forall p, p ∈ all_dirs q t -> below q p.
Proof.
  induction t as [files subdirs IH] using dirtree_induction.
  intros Hwf q Hq p. apply wf_tree_node in Hwf as (Hnames & _ & Hsub).
  cbn [all_dirs]. rewrite elem_of_cons. intros [->|Hin].
  - exists "". rewrite app_empty_r. auto.
  - apply list_elem_of_In, in_flat_map in Hin as (e & He & Hin).
    apply list_elem_of_In in Hin.
    assert (name_ok (fst e) = true) as Hc.
    { rewrite forallb_forall in Hnames. apply Hnames. apply in_map. exact He. }
    destruct (IH e He (Hsub e He) _ (join_clean q _ Hc) p Hin) as (r & -> & _).
    rewrite (join_name _ _ Hc), (prefix_of_clean _ Hq).
    exists ("/" +:+ fst e +:+ r). split.
    + rewrite !app_assoc_s. reflexivity.
    + right. reflexivity.
Qed.

(** Two proper names followed by nothing or by a slash agree as soon as
    the whole strings agree. *)
Lemma name_split c1 : forall c2 r1 r2,
  has_char "/" c1 = false -> has_char "/" c2 = false ->
  (r1 = "" \/ startswith "/" r1 = true) ->
  (r2 = "" \/ startswith "/" r2 = true) ->
  c1 +:+ r1 = c2 +:+ r2 -> c1 = c2.
Proof.
  assert (forall a c r,
            has_char "/" (String a c) = false ->
            (r = "" \/ startswith "/" r = true) ->
            r = String a c +:+ r -> False) as Hno.
  { intros a c r Hc [->|Hr] Heq.
    - discriminate Heq.
    - rewrite app_cons in Heq. destruct r as [|b r]; [discriminate Hr|].
      injection Heq as -> _. cbn [has_char startswith] in Hr, Hc.
      apply orb_false_elim in Hc as [Hc _].
      apply andb_prop in Hr as [Hr _].
      rewrite Ascii.eqb_sym, Hr in Hc. discriminate Hc. }
  induction c1 as [|a c1 IH]; intros c2 r1 r2 H1 H2 Hr1 Hr2 Heq.
  - destruct c2 as [|b c2]; [reflexivity|]. exfalso.
    rewrite app_empty_l in Heq. subst r1.
    destruct Hr1 as [Hr1|Hr1].
    + rewrite app_cons in Hr1. discriminate Hr1.
    + rewrite app_cons in Hr1. cbn [has_char startswith] in Hr1, H2.
      apply orb_false_elim in H2 as [H2 _].
      apply andb_prop in Hr1 as [Hr1 _].
      rewrite Ascii.eqb_sym, Hr1 in H2. discriminate H2.
  - destruct c2 as [|b c2].
    + exfalso. rewrite app_empty_l in Heq. symmetry in Heq.
      apply (Hno a (c1 +:+ r1) r2).
      * cbn [has_char] in H1 |- *. apply orb_false_elim in H1 as [H1 _].
        destruct Hr2 as [->|Hr2]; [discriminate Heq|].
        rewrite app_cons in Heq. destruct r2 as [|x r2]; [discriminate Hr2|].
        injection Heq as -> _. cbn [startswith] in Hr2.
        apply andb_prop in Hr2 as [Hr2 _].
        rewrite Ascii.eqb_sym, Hr2 in H1. discriminate H1.
      * exact Hr2.
      * rewrite app_cons in Heq. destruct Hr2 as [->|Hr2]; [discriminate Heq|].
        destruct r2 as [|x r2]; [discriminate Hr2|].
        injection Heq as -> _. cbn [has_char startswith] in Hr2, H1.
        apply orb_false_elim in H1 as [H1 _].
        apply andb_prop in Hr2 as [Hr2 _].
        rewrite Ascii.eqb_sym, Hr2 in H1. discriminate H1.
    + rewrite !app_cons in Heq. injection Heq as -> Heq.
      cbn [has_char] in H1, H2.
      apply orb_false_elim in H1 as [_ H1]. apply orb_false_elim in H2 as [_ H2].
      f_equal. apply (IH c2 r1 r2 H1 H2 Hr1 Hr2 Heq).
Qed.

Lemma distinct_cons x l :
  distinct (x :: l) = true -> ~ In x l /\ distinct l = true.
Proof.
  cbn [distinct]. intros H. apply andb_prop in H as [H1 H2].
  split; [|exact H2]. intros Hin. apply negb_true_iff in H1.
  assert (existsb (String.eqb x) l = true) as Hex.
  { apply existsb_exists. exists x. split; [exact Hin | apply String.eqb_refl]. }
  rewrite Hex in H1. discriminate H1.
Qed.

Lemma children_dirs_NoDup top (subdirs : list (string * dirtree)) :
  forallb name_ok (map fst subdirs) = true ->
  distinct (map fst subdirs) = true ->
  (forall e, In e subdirs -> wf_tree (snd e) = true) ->
  (forall e, In e subdirs -> forall top', NoDup (all_dirs top' (snd e))) ->
  NoDup (flat_map (fun e => all_dirs (PosixPath.join top (fst e)) (snd e)) subdirs).
Proof.
  induction subdirs as [|e subdirs IH]; intros Hnames Hdist Hwf Hnd; simpl;
    [constructor|].
  cbn [map forallb] in Hnames. apply andb_prop in Hnames as [Hc Hnames].
  cbn [map] in Hdist. apply distinct_cons in Hdist as [Hfresh Hdist].
  apply NoDup_app. split; [|split].
  - apply Hnd. left. reflexivity.
  - intros p Hp Hp'.
    apply list_elem_of_In, in_flat_map in Hp' as (e' & He' & Hp').
    apply list_elem_of_In in Hp'.
    assert (name_ok (fst e') = true) as Hc'.
    { rewrite forallb_forall in Hnames. apply Hnames. apply in_map. exact He'. }
    destruct (dirs_below (snd e) (Hwf e (or_introl eq_refl)) _
                (join_clean top _ Hc) p Hp) as (r & Hr & Hr0).
    destruct (dirs_below (snd e') (Hwf e' (or_intror He')) _
                (join_clean top _ Hc') p Hp') as (r' & Hr' & Hr0').
    rewrite Hr in Hr'. rewrite (join_name _ _ Hc), (join_name _ _ Hc') in Hr'.
    rewrite !app_assoc_s in Hr'. apply String.app_inj in Hr'.
    apply name_ok_spec in Hc as [_ Hc]. apply name_ok_spec in Hc' as [_ Hc'].
    apply (name_split _ _ _ _ Hc Hc' Hr0 Hr0') in Hr'.
    apply Hfresh. rewrite Hr'. apply in_map. exact He'.
  - apply IH; try assumption.
    + intros e' He'. apply Hwf. right. exact He'.
    + intros e' He'. apply Hnd. right. exact He'.
Qed.

(** In a well-formed snapshot no two directories have the same path. *)
Lemma all_dirs_NoDup t :
  wf_tree t = true -> forall top, NoDup (all_dirs top t).
Proof.
  induction t as [files subdirs IH] using dirtree_induction.
  intros Hwf top. pose proof (wf_tree_node _ _ Hwf) as (Hnames & Hdist & Hsub).
  cbn [all_dirs]. apply NoDup_cons. split.
  - intros Hin. apply list_elem_of_In, in_flat_map in Hin as (e & He & Hin).
    apply list_elem_of_In in Hin.
    assert (name_ok (fst e) = true) as Hc.
    { rewrite forallb_forall in Hnames. apply Hnames. apply in_map. exact He. }
    apply (dirs_below (snd e) (Hsub e He) _ (join_clean top _ Hc)) in Hin.
    apply below_length in Hin. pose proof (join_longer top _ Hc). lia.
  - apply children_dirs_NoDup; try assumption.
    intros e He top'. apply IH; [exact He | apply Hsub; exact He].
Qed.

(** C10. For a snapshot whose entries have proper, distinct names: if
    the root has no files and every one of its subdirectories is among
    the directories [cleanup] removed, then [cleanup] removes the root
    too, every directory of the tree is removed, and the returned count
    is the number of directories of the tree, the root and every nested
    one included.  [main], run with [--cleanup], calls [cleanup] on the
    source directory and prints that count. *)
Theorem cleanup_removes_emptied_root (root : string) (t : dirtree) :
  wf_tree t = true ->
  any_name (files_of t) = false ->
  (forall e, In e (subdirs_of t) ->
     PosixPath.join root (fst e) ∈ cleanup_deleted root t) ->
  root ∈ cleanup_deleted root t /\
  (forall p, In p (all_dirs root t) -> p ∈ cleanup_deleted root t) /\
  cleanup root t = dir_count t /\
  main_cleanup true root t
  = ["Deleted " +:+ of_nat (dir_count t) +:+ " empty directories"].
Proof.
  intros Hwf Hfiles Hsubs.
  pose proof (all_dirs_NoDup t Hwf root) as Hnd.
  assert (no_files t = true) as Hnf.
  { destruct t as [files subdirs]. cbn [files_of subdirs_of] in *.
    cbn [no_files]. rewrite Hfiles. cbn [negb andb].
    apply forallb_forall. intros e He.
    pose proof Hnd as Hnd'. cbn [all_dirs] in Hnd'.
    apply NoDup_cons in Hnd' as [Htop Hnd'].
    apply (child_removed_iff root subdirs ∅ Hnd' ltac:(intros; apply not_elem_of_empty)
             e He).
    specialize (Hsubs e He).
    rewrite (cleanup_deleted_spec _ _ Hnd) in Hsubs.
    apply elem_of_list_to_set in Hsubs. cbn [removed] in Hsubs.
    apply elem_of_app in Hsubs as [Hin|Hin].
    - apply elem_of_union. right. apply elem_of_list_to_set. exact Hin.
    - exfalso. destruct (no_files _).
      + apply list_elem_of_singleton in Hin.
        assert (name_ok (fst e) = true) as Hc.
        { apply wf_tree_node in Hwf as (Hnames & _).
          rewrite forallb_forall in Hnames. apply Hnames. apply in_map. exact He. }
        pose proof (join_longer root _ Hc) as Hlen. rewrite Hin in Hlen. lia.
      + apply elem_of_nil in Hin. exact Hin. }
  assert (cleanup root t = dir_count t) as Hcount.
  { rewrite (cleanup_count _ _ Hnd). apply no_files_all_removable. exact Hnf. }
  rewrite (cleanup_deleted_spec _ _ Hnd). repeat split.
  - apply elem_of_list_to_set. apply (root_removed_iff _ _ Hnd). exact Hnf.
  - intros p Hp. apply elem_of_list_to_set. apply no_files_all_removed; [exact Hnf|].
    apply list_elem_of_In. exact Hp.
  - exact Hcount.
  - unfold main_cleanup. rewrite Hcount. reflexivity.
Qed.

Lemma cleanup_removes_emptied_root_witness :
  "src" ∈ cleanup_deleted "src" emptied /\
  (forall p, In p (all_dirs "src" emptied) -> p ∈ cleanup_deleted "src" emptied) /\
  cleanup "src" emptied = dir_count emptied /\
  main_cleanup true "src" emptied
  = ["Deleted " +:+ of_nat (dir_count emptied) +:+ " empty directories"].
Proof.
  apply (cleanup_removes_emptied_root "src" emptied).
  - reflexivity.
  - reflexivity.
  - intros e He. apply (bool_decide_unpack _).
    simpl in He. destruct He as [<-|[<-|[]]]; vm_compute; exact I.
Defined.

Example cleanup_emptied :
  elements (cleanup_deleted "src" emptied) = ["src/a"; "src/b/c"; "src/b"; "src"] /\
  cleanup "src" emptied = 4.
Proof. vm_compute. split; reflexivity. Qed.

(** A directory that still holds a file stays, with all its ancestors. *)
Example cleanup_keeps_files :
  let t := DirNode [] [("a", DirNode [] []);
                       ("b", DirNode [] [("c", DirNode [] [])]);
                       ("d", DirNode ["f.jpg"] [])] in
  elements (cleanup_deleted "src" t) = ["src/a"; "src/b/c"; "src/b"] /\
  cleanup "src" t = 3.
Proof. vm_compute. split; reflexivity. Qed.

End Cleanup.

(** ** Target names *)

Module Naming.
Import Props.
Import PyStr PyDict Facts.

Lemma has_char_app c a b : has_char c (a +:+ b) = has_char c a || has_char c b.
Proof.
  induction a as [|x a IH]; [reflexivity|].
  rewrite app_cons. cbn [has_char]. rewrite IH, orb_assoc. reflexivity.
Qed.

Lemma all_chars_app P a b : all_chars P (a +:+ b) = all_chars P a && all_chars P b.
Proof.
  induction a as [|x a IH]; [reflexivity|].
  rewrite app_cons. cbn [all_chars]. rewrite IH, andb_assoc. reflexivity.
Qed.

Lemma all_chars_no_char P c s :
  P c = false -> all_chars P s = true -> has_char c s = false.
Proof.
  intros Hc. induction s as [|x s IH]; [reflexivity|].
  cbn [all_chars has_char]. intros H. apply andb_prop in H as [Hx Hs].
  rewrite (IH Hs), orb_false_r.
  destruct (Ascii.eqb_spec x c) as [->|]; [|reflexivity].
  rewrite Hc in Hx. discriminate Hx.
Qed.

Lemma string_of_uint_digits d :
  all_chars is_digit (NilEmpty.string_of_uint d) = true.
Proof. induction d; simpl; auto. Qed.

Lemma of_nat_digits n : all_chars is_digit (of_nat n) = true.
Proof. apply string_of_uint_digits. Qed.

Lemma of_nat_nonempty n : of_nat n <> "".
Proof.
  unfold of_nat.
  assert (Nat.to_uint n <> Decimal.Nil) as Hn.
  { rewrite <- (DecimalNat.Unsigned.of_to n) at 1.
    rewrite DecimalNat.Unsigned.to_of. unfold Decimal.unorm.
    destruct (Decimal.nzhead (Nat.to_uint n)); discriminate. }
  destruct (Nat.to_uint n); [contradiction | ..]; discriminate.
Qed.

Lemma of_nat_inj n m : of_nat n = of_nat m -> n = m.
Proof.
  unfold of_nat. intros H. apply DecimalNat.Unsigned.to_uint_inj.
  assert (Some (Nat.to_uint n) = Some (Nat.to_uint m)) as Hs.
  { rewrite <- !NilEmpty.usu. rewrite H. reflexivity. }
  injection Hs as Hs. exact Hs.
Qed.

Lemma last_char_app a b : b <> "" -> last_char (a +:+ b) = last_char b.
Proof.
  intros Hb. induction a as [|x a IH]; [reflexivity|].
  rewrite app_cons. cbn [last_char]. rewrite IH.
  destruct (a +:+ b) eqn:Hab; [|reflexivity].
  destruct a; [rewrite app_empty_l in Hab; contradiction | discriminate Hab].
Qed.

Lemma last_char_all P s a :
  all_chars P s = true -> last_char s = Some a -> P a = true.
Proof.
  induction s as [|x s IH]; [discriminate|].
  cbn [all_chars last_char]. intros H. apply andb_prop in H as [Hx Hs].
  destruct s as [|y s].
  - intros [= <-]. exact Hx.
  - apply IH. exact Hs.
Qed.

Lemma last_char_nonempty s : s <> "" -> exists a, last_char s = Some a.
Proof.
  induction s as [|x s IH]; [contradiction|]. intros _.
  cbn [last_char]. destruct s as [|y s]; [eauto|]. apply IH. discriminate.
Qed.

(** Cutting at the last occurrence of [c] is unambiguous. *)
Lemma last_sep_split c a1 : forall a2 e1 e2,
  has_char c e1 = false -> has_char c e2 = false ->
  a1 +:+ String c e1 = a2 +:+ String c e2 -> a1 = a2 /\ e1 = e2.
Proof.
  assert (forall a e, has_char c (a +:+ String c e) = true) as Hin.
  { intros a e. rewrite has_char_app. cbn [has_char].
    rewrite Ascii.eqb_refl. apply orb_true_r. }
  induction a1 as [|x a1 IH]; intros a2 e1 e2 H1 H2 Heq.
  - rewrite app_empty_l in Heq. destruct a2 as [|y a2].
    + rewrite app_empty_l in Heq. injection Heq as ->. auto.
    + rewrite app_cons in Heq. injection Heq as _ Heq.
      rewrite Heq, Hin in H1. discriminate H1.
  - rewrite app_cons in Heq. destruct a2 as [|y a2].
    + rewrite app_empty_l in Heq. injection Heq as _ Heq.
      rewrite <- Heq, Hin in H2. discriminate H2.
    + rewrite app_cons in Heq. injection Heq as -> Heq.
      destruct (IH a2 e1 e2 H1 H2 Heq) as [-> ->]. auto.
Qed.

Lemma split_on_nonempty c s : split_on c s <> [].
Proof.
  destruct s as [|x s]; cbn [split_on]; [discriminate|].
  destruct (Ascii.eqb x c); [discriminate|].
  destruct (split_on c s); discriminate.
Qed.

Lemma split_on_free c s w : In w (split_on c s) -> has_char c w = false.
Proof.
  revert w. induction s as [|x s IH]; intros w; cbn [split_on].
  - intros [<-|[]]. reflexivity.
  - destruct (Ascii.eqb_spec x c) as [->|Hne].
    + intros [<-|Hin]; [reflexivity | apply IH; exact Hin].
    + destruct (split_on c s) as [|w0 ws] eqn:Hs.
      * intros [<-|[]]. cbn [has_char].
        destruct (Ascii.eqb_spec x c); [contradiction | reflexivity].
      * intros [<-|Hin].
        -- cbn [has_char]. rewrite (IH w0 (or_introl eq_refl)).
           destruct (Ascii.eqb_spec x c); [contradiction | reflexivity].
        -- apply IH. right. exact Hin.
Qed.

Lemma split_on_one c a : has_char c a = false -> split_on c a = [a].
Proof.
  induction a as [|x a IH]; [reflexivity|].
  cbn [has_char split_on]. intros H. apply orb_false_elim in H as [Hx Ha].
  rewrite Hx, (IH Ha). reflexivity.
Qed.

Lemma split_on_two c a e :
  has_char c a = false -> has_char c e = false ->
  split_on c (a +:+ String c e) = [a; e].
Proof.
  intros Ha He. induction a as [|x a IH].
  - rewrite app_empty_l. cbn [split_on]. rewrite Ascii.eqb_refl.
    rewrite (split_on_one _ _ He). reflexivity.
  - rewrite app_cons. cbn [has_char split_on] in *.
    apply orb_false_elim in Ha as [Hx Ha]. rewrite Hx, (IH Ha). reflexivity.
Qed.

Lemma split_on_one_inv c s e : split_on c s = [e] -> s = e.
Proof.
  revert e. induction s as [|x s IH]; intros e; cbn [split_on].
  - intros [= <-]. reflexivity.
  - destruct (Ascii.eqb x c).
    + intros [= _ H]. exfalso. exact (split_on_nonempty c s H).
    + destruct (split_on c s) as [|w ws] eqn:Hs; [intros [= <-]|].
      * exfalso. exact (split_on_nonempty c s Hs).
      * intros [= <- ->]. rewrite (IH w eq_refl). reflexivity.
Qed.

Lemma split_on_two_inv c s a e :
  split_on c s = [a; e] ->
  s = a +:+ String c e /\ has_char c a = false /\ has_char c e = false.
Proof.
  intros H.
  assert (has_char c a = false /\ has_char c e = false) as [Ha He].
  { split; apply (split_on_free c s); rewrite H; simpl; auto. }
  split; [|auto]. revert a H Ha. induction s as [|x s IH]; intros a; cbn [split_on].
  - discriminate.
  - destruct (Ascii.eqb_spec x c) as [->|Hne].
    + intros [= <- H] _. apply split_on_one_inv in H. subst s.
      rewrite app_empty_l. reflexivity.
    + destruct (split_on c s) as [|w ws] eqn:Hs; [discriminate|].
      intros [= <- ->] Ha. rewrite app_cons. f_equal.
      apply IH; [reflexivity|].
      cbn [has_char] in Ha. apply orb_false_elim in Ha as [_ Ha]. exact Ha.
Qed.

End Naming.

(** ** The plan builder *)

Module PlanFacts.
Import Props.
Import PyStr PyDict Facts Naming Plan.

Lemma digits_not_leading_slash s r :
  all_chars is_digit s = true -> s <> "" -> startswith "/" (s +:+ r) = false.
Proof.
  destruct s as [|a s]; [contradiction|]. intros H _.
  rewrite app_cons. cbn [all_chars startswith] in *.
  apply andb_prop in H as [Ha _].
  destruct (Ascii.eqb_spec "/"%char a) as [<-|]; [discriminate Ha | reflexivity].
Qed.

Lemma pad2_digits n : all_chars is_digit (Strftime.pad2 n) = true.
Proof.
  unfold Strftime.pad2. destruct (n <? 10).
  - rewrite all_chars_app, of_nat_digits. reflexivity.
  - apply of_nat_digits.
Qed.

Lemma pad2_nonempty n : Strftime.pad2 n <> "".
Proof.
  unfold Strftime.pad2. destruct (n <? 10); [discriminate | apply of_nat_nonempty].
Qed.

Lemma format_ends_in_m t : last_char (Strftime.format t) = Some "m"%char.
Proof.
  unfold Strftime.format. rewrite <- !app_assoc_s.
  apply last_char_app. discriminate.
Qed.

Lemma format_not_leading_slash t r :
  startswith "/" (Strftime.format t +:+ r) = false.
Proof.
  unfold Strftime.format. rewrite app_assoc_s.
  apply digits_not_leading_slash; [apply pad2_digits | apply pad2_nonempty].
Qed.

Lemma year_name_ok n : name_ok (of_nat n) = true.
Proof.
  unfold name_ok. apply andb_true_intro. split.
  - apply negb_true_iff. destruct (String.eqb_spec (of_nat n) "") as [H|]; [|reflexivity].
    exfalso. exact (of_nat_nonempty n H).
  - apply negb_true_iff.
    apply (all_chars_no_char is_digit); [reflexivity | apply of_nat_digits].
Qed.

Lemma last_dot_free (l : list string) :
  (forall w, In w l -> has_char "." w = false) -> has_char "." (List.last l "") = false.
Proof.
  induction l as [|w l IH]; intros H; [reflexivity|].
  destruct l as [|w' l]; [apply H; left; reflexivity|].
  apply IH. intros w0 Hw0. apply H. right. exact Hw0.
Qed.

Lemma target_name_eq out t path :
  target_name out t path =
  (PosixPath.join out (of_nat (year t)) +:+ "/" +:+ Strftime.format t)
  +:+ String "." (List.last (split_on "." (PosixPath.basename path)) "").
Proof.
  unfold target_name.
  destruct (Cleanup.join_clean out _ (year_name_ok (year t))) as [Hne Hend].
  unfold PosixPath.join at 1.
  rewrite format_not_leading_slash, Hend.
  destruct (String.eqb_spec (PosixPath.join out (of_nat (year t))) "");
    [contradiction|].
  cbn [orb]. rewrite !app_assoc_s. reflexivity.
Qed.

Lemma target_name_shaped out t path : shaped (target_name out t path).
Proof.
  rewrite target_name_eq.
  exists (PosixPath.join out (of_nat (year t))), (Strftime.format t),
    (List.last (split_on "." (PosixPath.basename path)) "").
  split; [reflexivity|]. split; [apply format_ends_in_m|].
  apply last_dot_free. intros w. apply split_on_free.
Qed.

Lemma numbered_name_Ok k i name :
  numbered_name k i = Ok name ->
  exists s e,
    k = s +:+ String "." e /\
    name = (s +:+ "_" +:+ of_nat (i + 1)) +:+ String "." e /\
    has_char "." s = false /\ has_char "." e = false.
Proof.
  unfold numbered_name.
  destruct (split_on "." k) as [|s [|e [|? ?]]] eqn:Hs; try discriminate.
  intros [= <-]. apply split_on_two_inv in Hs as (-> & Hs & He).
  exists s, e. repeat split; try assumption.
  rewrite !app_assoc_s. reflexivity.
Qed.

Lemma no_underscore_in_number n : has_char "_" (of_nat n) = false.
Proof. apply (all_chars_no_char is_digit); [reflexivity | apply of_nat_digits]. Qed.

Lemma no_dot_in_number n : has_char "." (of_nat n) = false.
Proof. apply (all_chars_no_char is_digit); [reflexivity | apply of_nat_digits]. Qed.

(** The numbers of one group give different names. *)
Lemma numbered_name_inj_index k i j name :
  numbered_name k i = Ok name -> numbered_name k j = Ok name -> i = j.
Proof.
  intros Hi Hj.
  apply numbered_name_Ok in Hi as (s & e & -> & -> & Hs & He).
  apply numbered_name_Ok in Hj as (s' & e' & Hk & Hn & Hs' & He').
  apply (last_sep_split "." _ _ _ _ He He') in Hk as [<- <-].
  apply (last_sep_split "." _ _ _ _ He He) in Hn as [Hn _].
  apply String.app_inj in Hn. injection Hn as Hn.
  apply of_nat_inj in Hn. lia.
Qed.

(** Numbered names of different groups are different. *)
Lemma numbered_name_inj_key k1 k2 i j name :
  numbered_name k1 i = Ok name -> numbered_name k2 j = Ok name -> k1 = k2.
Proof.
  intros Hi Hj.
  apply numbered_name_Ok in Hi as (s & e & -> & -> & Hs & He).
  apply numbered_name_Ok in Hj as (s' & e' & -> & Hn & Hs' & He').
  apply (last_sep_split "." _ _ _ _ He He') in Hn as [Hn <-].
  apply (last_sep_split "_" s s' _ _ (no_underscore_in_number _)
           (no_underscore_in_number _)) in Hn as [<- _].
  reflexivity.
Qed.

(** A numbered name is never the plain name of a group. *)
Lemma numbered_name_not_shaped k i name :
  numbered_name k i = Ok name -> shaped name -> False.
Proof.
  intros Hi (d & f & e' & Hn & Hm & He').
  apply numbered_name_Ok in Hi as (s & e & _ & -> & Hs & He).
  apply (last_sep_split "." _ _ _ _ He He') in Hn as [Hn _].
  assert (f <> "") as Hf by (intros ->; discriminate Hm).
  assert (last_char ((s +:+ "_") +:+ of_nat (i + 1)) = Some "m"%char) as Hlast.
  { rewrite app_assoc_s.
    replace (s +:+ "_" +:+ of_nat (i + 1)) with (d +:+ "/" +:+ f).
    rewrite <- app_assoc_s, (last_char_app _ f Hf). exact Hm. }
  rewrite (last_char_app _ _ (of_nat_nonempty _)) in Hlast.
  apply (last_char_all is_digit) in Hlast; [discriminate Hlast|].
  apply of_nat_digits.
Qed.

(** *** Dictionaries under assignment *)

Section dict.
Context {V : Type}.
Implicit Types d : dict V.

Lemma get_None_not_In d k : get d k = None -> ~ In k (keys d).
Proof.
  intros H Hin. apply In_keys_get in Hin as [v Hv]. rewrite Hv in H. discriminate H.
Qed.

Lemma set_fresh d k v : ~ In k (keys d) -> set d k v = d ++ [(k, v)].
Proof.
  induction d as [|[k' v'] d IH]; intros Hk; [reflexivity|].
  cbn [set]. destruct (String.eqb_spec k' k) as [->|Hne].
  - exfalso. apply Hk. left. reflexivity.
  - rewrite IH; [reflexivity|]. intros Hin. apply Hk. right. exact Hin.
Qed.

Lemma keys_set_present d k v v' :
  get d k = Some v' -> keys (set d k v) = keys d.
Proof.
  induction d as [|[k0 v0] d IH]; [discriminate|].
  cbn [get set]. destruct (String.eqb k0 k); [reflexivity|].
  intros H. cbn [keys map]. f_equal. apply IH. exact H.
Qed.
End dict.

Lemma files_set_present (d : dict (list string)) k files p :
  get d k = Some files ->
  Permutation (concat (map snd (set d k (files ++ [p])))) (p :: concat (map snd d)).
Proof.
  induction d as [|[k0 v0] d IH]; [discriminate|].
  cbn [get set]. destruct (String.eqb k0 k).
  - intros [= ->]. cbn [map snd concat]. rewrite <- app_assoc.
    apply Permutation_sym, Permutation_middle.
  - intros H. cbn [map snd concat].
    rewrite (IH H). apply Permutation_sym, Permutation_middle.
Qed.

(** *** The groups of the first loop *)

Lemma group_step_grouped out pictures G r :
  grouped out pictures G -> grouped out (pictures ++ [r]) (group_step out G r).
Proof.
  intros (Hnd & Hkeys & Hperm). destruct r as [t path].
  unfold grouped, group_step. rewrite (map_app snd pictures). cbn [map snd].
  destruct (get G (target_name out t path)) as [files|] eqn:Hget.
  - split; [|split].
    + rewrite (keys_set_present _ _ _ _ Hget). exact Hnd.
    + rewrite (keys_set_present _ _ _ _ Hget). exact Hkeys.
    + rewrite (files_set_present _ _ _ _ Hget).
      rewrite Hperm. apply Permutation_cons_append.
  - pose proof (get_None_not_In _ _ Hget) as Hfresh.
    rewrite (set_fresh _ _ _ Hfresh). unfold keys. rewrite !map_app.
    cbn [map fst snd]. split; [|split].
    + apply NoDup_app. split; [exact Hnd|]. split; [|apply NoDup_singleton].
      intros k Hk Hk'. apply list_elem_of_singleton in Hk'. subst k.
      apply Hfresh. apply list_elem_of_In. exact Hk.
    + intros k Hk. apply in_app_or in Hk as [Hk|[<-|[]]]; [apply Hkeys; exact Hk|].
      eauto.
    + rewrite concat_app. cbn [concat]. rewrite app_nil_r.
      apply Permutation_app_tail. exact Hperm.
Qed.

Lemma group_all_grouped out pictures : grouped out pictures (group_all out pictures).
Proof.
  unfold group_all.
  assert (forall rest done G,
            grouped out done G ->
            grouped out (done ++ rest) (fold_left (group_step out) rest G)) as Hgen.
  { induction rest as [|r rest IH]; intros done G HG.
    - rewrite app_nil_r. exact HG.
    - cbn [fold_left].
      replace (done ++ r :: rest) with ((done ++ [r]) ++ rest)
        by (rewrite <- app_assoc; reflexivity).
      apply IH. apply group_step_grouped. exact HG. }
  apply (Hgen pictures [] []).
  split; [constructor|]. split; [intros k []|]. constructor.
Qed.

(** *** The names of the second loop *)

Lemma number_files_placed k files :
  forall i moves result,
    number_files k i files moves = Ok result ->
    NoDup (keys moves) ->
    (forall name, In name (keys moves) ->
       forall j, i <= j -> numbered_name k j <> Ok name) ->
    NoDup (keys result) /\
    map snd result = map snd moves ++ files /\
    forall name, In name (keys result) ->
      In name (keys moves) \/ exists j, numbered_name k j = Ok name.
Proof.
  induction files as [|file files IH]; intros i moves result Hrun Hnd Hfresh.
  - cbn [number_files] in Hrun. injection Hrun as <-.
    rewrite app_nil_r. auto.
  - cbn [number_files] in Hrun.
    destruct (numbered_name k i) as [name|e] eqn:Hname; [|discriminate Hrun].
    assert (~ In name (keys moves)) as Hnew.
    { intros Hin. apply (Hfresh name Hin i (le_n i)). exact Hname. }
    rewrite (set_fresh _ _ _ Hnew) in Hrun.
    destruct (IH (S i) _ result Hrun) as (Hnd' & Hval & Hnames).
    + unfold keys. rewrite map_app. cbn [map fst].
      apply NoDup_app. split; [exact Hnd|]. split; [|apply NoDup_singleton].
      intros x Hx Hx'. apply list_elem_of_singleton in Hx'. subst x.
      apply Hnew. apply list_elem_of_In. exact Hx.
    + unfold keys. rewrite map_app. cbn [map fst].
      intros x Hx j Hj Hxj. apply in_app_or in Hx as [Hx|[<-|[]]].
      * apply (Hfresh x Hx j); [lia | exact Hxj].
      * pose proof (numbered_name_inj_index _ _ _ _ Hname Hxj). lia.
    + split; [exact Hnd'|]. split.
      * rewrite Hval, map_app. cbn [map snd]. rewrite <- app_assoc. reflexivity.
      * intros x Hx. destruct (Hnames x Hx) as [Hin|Hj]; [|right; exact Hj].
        unfold keys in Hin. rewrite map_app in Hin. cbn [map fst] in Hin.
        apply in_app_or in Hin as [Hin|[<-|[]]]; [left; exact Hin|].
        right. eauto.
Qed.

Lemma place_group_placed done moves g moves' :
  placed done moves ->
  ~ In (fst g) (keys done) ->
  shaped (fst g) ->
  (forall k, In k (keys done) -> shaped k) ->
  place_group moves g = Ok moves' ->
  placed (done ++ [g]) moves'.
Proof.
  intros (Hnd & Hval & Hder) Hnew Hshape Hshapes Hrun.
  destruct g as [k files]. cbn [fst] in *. unfold place_group in Hrun.
  assert (forall name, In name (keys moves) ->
            exists g, In g (done ++ [(k, files)]) /\ derived g name) as Hder'.
  { intros name Hin. destruct (Hder name Hin) as (g & Hg & Hd).
    exists g. split; [apply in_or_app; left; exact Hg | exact Hd]. }
  assert (concat (map snd (done ++ [(k, files)])) = concat (map snd done) ++ files)
    as Hcat.
  { rewrite map_app, concat_app. cbn [map snd concat]. rewrite app_nil_r.
    reflexivity. }
  assert (forall name, In name (keys moves) ->
            forall j, numbered_name k j <> Ok name) as Hnum.
  { intros name Hin j Hj. destruct (Hder name Hin) as ([k' files'] & Hg & Hd).
    assert (In k' (keys done)) as Hk' by (apply (in_map fst _ _ Hg)).
    unfold derived in Hd. cbn [fst snd] in Hd.
    assert ((exists i, numbered_name k' i = Ok name) -> False) as Hother.
    { intros [i Hi]. apply Hnew.
      rewrite (numbered_name_inj_key _ _ _ _ _ Hj Hi). exact Hk'. }
    destruct files' as [|f1 [|f2 files']]; [apply Hother; exact Hd | | apply Hother; exact Hd].
    subst name. apply (numbered_name_not_shaped _ _ _ Hj). apply Hshapes. exact Hk'. }
  assert (forall file, files = [file] -> placed (done ++ [(k, files)]) (set moves k file))
    as Hone.
  { intros file ->.
    assert (~ In k (keys moves)) as Hfresh.
    { intros Hin. destruct (Hder k Hin) as ([k' files'] & Hg & Hd).
      assert (In k' (keys done)) as Hk' by (apply (in_map fst _ _ Hg)).
      unfold derived in Hd. cbn [fst snd] in Hd.
      assert ((exists i, numbered_name k' i = Ok k) -> False) as Hother.
      { intros [i Hi]. apply (numbered_name_not_shaped _ _ _ Hi Hshape). }
      destruct files' as [|f1 [|f2 files']];
        [apply Hother; exact Hd | | apply Hother; exact Hd].
      subst k'. apply Hnew. exact Hk'. }
    rewrite (set_fresh _ _ _ Hfresh). unfold placed, keys in *.
    rewrite !map_app. cbn [map fst snd]. split; [|split].
    - apply NoDup_app. split; [exact Hnd|]. split; [|apply NoDup_singleton].
      intros x Hx Hx'. apply list_elem_of_singleton in Hx'. subst x.
      apply Hfresh. apply list_elem_of_In. exact Hx.
    - rewrite concat_app. cbn [concat]. rewrite app_nil_r, Hval. reflexivity.
    - intros name Hin. apply in_app_or in Hin as [Hin|[<-|[]]];
        [apply Hder'; exact Hin|].
      exists (k, [file]). split; [apply in_or_app; right; left; reflexivity|].
      reflexivity. }
  assert (number_files k 0 files moves = Ok moves' ->
          (forall file, files <> [file]) ->
          placed (done ++ [(k, files)]) moves') as Hmany.
  { intros Hloop Hnot.
    destruct (number_files_placed k files 0 moves moves' Hloop Hnd) as (Hnd' & Hv & Hn).
    { intros name Hin j _. apply Hnum. exact Hin. }
    split; [exact Hnd'|]. split; [rewrite Hv, Hcat, Hval; reflexivity|].
    intros name Hin. destruct (Hn name Hin) as [Hold|Hj]; [apply Hder'; exact Hold|].
    exists (k, files). split; [apply in_or_app; right; left; reflexivity|].
    unfold derived. cbn [fst snd].
    destruct files as [|f1 [|f2 files]]; [exact Hj | | exact Hj].
    exfalso. apply (Hnot f1). reflexivity. }
  destruct files as [|f1 [|f2 files]].
  - apply Hmany; [exact Hrun | discriminate].
  - injection Hrun as <-. apply (Hone f1). reflexivity.
  - apply Hmany; [exact Hrun | discriminate].
Qed.

Lemma place_all_placed rest :
  forall done moves result,
    NoDup (keys (done ++ rest)) ->
    (forall k, In k (keys (done ++ rest)) -> shaped k) ->
    placed done moves ->
    place_all rest moves = Ok result ->
    placed (done ++ rest) result.
Proof.
  induction rest as [|g rest IH]; intros done moves result Hnd Hshape Hp Hrun.
  - cbn [place_all] in Hrun. injection Hrun as <-. rewrite app_nil_r. exact Hp.
  - cbn [place_all] in Hrun.
    destruct (place_group moves g) as [moves'|e] eqn:Hg; [|discriminate Hrun].
    replace (done ++ g :: rest) with ((done ++ [g]) ++ rest) in *
      by (rewrite <- app_assoc; reflexivity).
    apply (IH _ moves'); try assumption.
    apply (place_group_placed done moves g moves' Hp); [| | |exact Hg].
    + unfold keys in Hnd. rewrite !map_app in Hnd. cbn [map fst] in Hnd.
      apply NoDup_app in Hnd as [Hnd _]. apply NoDup_app in Hnd as (_ & Hdisj & _).
      intros Hin. apply (Hdisj (fst g)).
      * apply list_elem_of_In. exact Hin.
      * apply list_elem_of_singleton. reflexivity.
    + apply Hshape. unfold keys. rewrite !map_app. cbn [map fst].
      apply in_or_app. left. apply in_or_app. right. left. reflexivity.
    + intros k Hk. apply Hshape. unfold keys in *. rewrite !map_app.
      apply in_or_app. left. apply in_or_app. left. exact Hk.
Qed.

(** *** No exception when the output directory has no dot *)

Lemma month_name_no_dot m : has_char "." (Strftime.month_name m) = false.
Proof. do 13 (destruct m as [|m]; [reflexivity|]). reflexivity. Qed.

Lemma pad2_no_dot n : has_char "." (Strftime.pad2 n) = false.
Proof. apply (all_chars_no_char is_digit); [reflexivity | apply pad2_digits]. Qed.

Lemma format_no_dot t : has_char "." (Strftime.format t) = false.
Proof.
  unfold Strftime.format.
  rewrite !has_char_app, !pad2_no_dot, no_dot_in_number, month_name_no_dot.
  reflexivity.
Qed.

Lemma target_name_splits out t path :
  has_char "." out = false ->
  exists s e, split_on "." (target_name out t path) = [s; e].
Proof.
  intros Hout. rewrite target_name_eq. eexists _, _. apply split_on_two.
  - assert (has_char "." (prefix_of out) = false) as Hpre.
    { unfold prefix_of.
      destruct (String.eqb out "" || endswith_char PosixPath.sep out);
        [exact Hout|].
      rewrite has_char_app, Hout. reflexivity. }
    rewrite (Cleanup.join_name _ _ (year_name_ok (year t))).
    rewrite !has_char_app, Hpre, no_dot_in_number, format_no_dot.
    reflexivity.
  - apply last_dot_free. intros w. apply split_on_free.
Qed.

Lemma number_files_total k files :
  (exists s e, split_on "." k = [s; e]) ->
  forall i moves, exists result, number_files k i files moves = Ok result.
Proof.
  intros (s & e & Hs). induction files as [|file files IH]; intros i moves.
  - eexists. reflexivity.
  - cbn [number_files]. unfold numbered_name. rewrite Hs. apply IH.
Qed.

Lemma place_all_total groups :
  (forall g, In g groups -> exists s e, split_on "." (fst g) = [s; e]) ->
  forall moves, exists result, place_all groups moves = Ok result.
Proof.
  induction groups as [|[k files] groups IH]; intros Hsplit moves.
  - eexists. reflexivity.
  - cbn [place_all].
    assert (exists moves', place_group moves (k, files) = Ok moves') as [moves' ->].
    { unfold place_group. destruct files as [|f1 [|f2 files]].
      - eexists. reflexivity.
      - eexists. reflexivity.
      - apply number_files_total. apply (Hsplit (k, f1 :: f2 :: files)).
        left. reflexivity. }
    apply IH. intros g Hg. apply Hsplit. right. exact Hg.
Qed.

(** C6. Whenever [create_moves] returns a plan, no two files were given
    the same target: the keys of the plan are pairwise distinct, the
    plan has one entry per record, and its sources are exactly the
    sources of the records.  It returns a plan for every list of records
    whenever the output directory is written without a dot. *)
Theorem plan_targets_are_unique
    (pictures : list (datetime * string)) (out : string) :
  (forall moves,
      create_moves pictures out = Ok moves ->
      NoDup (keys moves) /\
      length moves = length pictures /\
      Permutation (map snd moves) (map snd pictures)) /\
  (has_char "." out = false ->
   exists moves, create_moves pictures out = Ok moves).
Proof.
  destruct (group_all_grouped out pictures) as (Hnd & Hkeys & Hperm).
  unfold create_moves. split.
  - intros moves Hrun.
    destruct (place_all_placed (group_all out pictures) [] [] moves)
      as (Hnd' & Hval & _); try assumption.
    + intros k Hk. destruct (Hkeys k Hk) as (t & path & ->).
      apply target_name_shaped.
    + split; [constructor|]. split; [reflexivity|]. intros name [].
    + cbn [app] in Hval.
      assert (Permutation (map snd moves) (map snd pictures)) as Hp.
      { rewrite Hval. exact Hperm. }
      split; [exact Hnd'|]. split; [|exact Hp].
      rewrite <- (length_map snd moves), <- (length_map snd pictures).
      apply Permutation_length. exact Hp.
  - intros Hout. apply place_all_total. intros g Hg.
    destruct (Hkeys (fst g) (in_map fst _ _ Hg)) as (t & path & ->).
    apply target_name_splits. exact Hout.
Qed.

(** Three files of one second and one extension get the numbers 1, 2, 3
    in the order of discovery. *)
Example three_of_one_second :
  create_moves
    [(mkDatetime 2024 1 2 10 0 0, "in/x.jpg");
     (mkDatetime 2024 1 2 10 0 0, "in/y.jpg");
     (mkDatetime 2024 1 2 10 0 0, "in/z.jpg")] "out"
  = Ok [("out/2024/01_02_10_00_00__2th_of_January_at_10h_00m_1.jpg", "in/x.jpg");
        ("out/2024/01_02_10_00_00__2th_of_January_at_10h_00m_2.jpg", "in/y.jpg");
        ("out/2024/01_02_10_00_00__2th_of_January_at_10h_00m_3.jpg", "in/z.jpg")].
Proof. vm_compute. reflexivity. Qed.

(** With a dot in the output directory, a group of two cannot be
    numbered: the unpacking of [new_name.split('.')] fails. *)
Example dot_in_output_directory :
  create_moves
    [(mkDatetime 2024 1 2 10 0 0, "in/x.jpg");
     (mkDatetime 2024 1 2 10 0 0, "in/y.jpg")] "../sorted"
  = Raise (ValueError "too many values to unpack (expected 2)").
Proof. vm_compute. reflexivity. Qed.

End PlanFacts.

(** * Further properties

    Properties of the code beside the claims of the specification: the
    names of the plan, the reconciled plan, the ledger written, single
    moves and whole runs, the cleaner, the discovery walk and the
    readers. *)

(** ** The names of the plan *)

Module PlanShape.
Import Props Notions.
Import PyStr PyDict Facts Naming Plan PlanFacts Scenario.

Section dict.
Context {V : Type}.
Implicit Types d : dict V.

Lemma get_set d k v k' :
  get (set d k v) k' = if String.eqb k k' then Some v else get d k'.
Proof.
  induction d as [|[k0 v0] d IH]; cbn [set get]; [reflexivity|].
  destruct (String.eqb_spec k0 k) as [->|Hne]; cbn [get].
  - destruct (String.eqb k k'); reflexivity.
  - rewrite IH. destruct (String.eqb_spec k0 k') as [->|Hne']; [|reflexivity].
    destruct (String.eqb_spec k k') as [->|_]; [|reflexivity].
    exfalso. apply Hne. reflexivity.
Qed.

Lemma get_Some_In d k v : get d k = Some v -> In (k, v) d.
Proof.
  induction d as [|[k0 v0] d IH]; [discriminate|].
  cbn [get]. destruct (String.eqb_spec k0 k) as [->|Hne].
  - intros [= ->]. left. reflexivity.
  - intros H. right. apply IH. exact H.
Qed.

Lemma In_get d k v : NoDup (keys d) -> In (k, v) d -> get d k = Some v.
Proof.
  induction d as [|[k0 v0] d IH]; intros Hnd Hin; [destruct Hin|].
  cbn [keys map fst] in Hnd. apply NoDup_cons in Hnd as [Hk0 Hnd].
  cbn [get]. destruct Hin as [[= -> ->]|Hin].
  - rewrite String.eqb_refl. reflexivity.
  - destruct (String.eqb_spec k0 k) as [->|Hne]; [|apply IH; assumption].
    exfalso. apply Hk0. apply list_elem_of_In. apply (in_map fst _ _ Hin).
Qed.
End dict.

(** *** The groups hold the sources of their target, in order *)

Lemma sources_of_snoc out k done t path :
  sources_of out k (done ++ [(t, path)]) =
  sources_of out k done ++
  (if String.eqb (target_name out t path) k then [path] else []).
Proof.
  unfold sources_of. rewrite List.filter_app, map_app. cbn [List.filter map fst snd].
  destruct (String.eqb (target_name out t path) k); reflexivity.
Qed.

Lemma nonempty_snoc {A} (l : list A) x : nonempty (l ++ [x]) = Some (l ++ [x]).
Proof. destruct l; reflexivity. Qed.

Lemma nonempty_Some {A} (l l' : list A) : nonempty l = Some l' -> l' = l /\ l <> [].
Proof. destruct l; [discriminate|]. intros [= <-]. split; [reflexivity|discriminate]. Qed.

Lemma group_step_get out done G r :
  (forall k, get G k = nonempty (sources_of out k done)) ->
  forall k, get (group_step out G r) k = nonempty (sources_of out k (done ++ [r])).
Proof.
  intros HG k. destruct r as [t path]. unfold group_step.
  rewrite sources_of_snoc.
  pose proof (HG (target_name out t path)) as Hk.
  destruct (get G (target_name out t path)) as [files|] eqn:Hget.
  - symmetry in Hk. apply nonempty_Some in Hk as [-> _].
    rewrite get_set. destruct (String.eqb_spec (target_name out t path) k) as [<-|Hne].
    + rewrite nonempty_snoc. reflexivity.
    + rewrite app_nil_r. apply HG.
  - rewrite get_set. destruct (String.eqb_spec (target_name out t path) k) as [<-|Hne].
    + destruct (sources_of out _ done); [reflexivity|discriminate Hk].
    + rewrite app_nil_r. apply HG.
Qed.

Lemma group_fold_get out rest :
  forall done G,
    (forall k, get G k = nonempty (sources_of out k done)) ->
    forall k, get (fold_left (group_step out) rest G) k
              = nonempty (sources_of out k (done ++ rest)).
Proof.
  induction rest as [|r rest IH]; intros done G HG k.
  - rewrite app_nil_r. apply HG.
  - cbn [fold_left].
    replace (done ++ r :: rest) with ((done ++ [r]) ++ rest)
      by (rewrite <- app_assoc; reflexivity).
    apply IH. apply group_step_get. exact HG.
Qed.

Lemma group_all_get out pictures k :
  get (group_all out pictures) k = nonempty (sources_of out k pictures).
Proof.
  unfold group_all. apply (group_fold_get out pictures [] []).
  intros k'. reflexivity.
Qed.

Lemma group_files out pictures k files :
  In (k, files) (group_all out pictures) ->
  files = sources_of out k pictures /\ files <> [].
Proof.
  intros Hin. destruct (group_all_grouped out pictures) as (Hnd & _ & _).
  apply (In_get _ _ _ Hnd) in Hin. rewrite group_all_get in Hin.
  apply nonempty_Some in Hin as [-> Hne]. split; [reflexivity|exact Hne].
Qed.

Lemma sources_of_In out k pictures src :
  In src (sources_of out k pictures) ->
  exists t, In (t, src) pictures /\ target_name out t src = k.
Proof.
  unfold sources_of. intros Hin. apply in_map_iff in Hin as ([t p] & Hp & Hin).
  cbn [snd] in Hp. subst p. apply filter_In in Hin as [Hin Hk].
  cbn [fst snd] in Hk. apply String.eqb_eq in Hk. eauto.
Qed.

Lemma sources_of_length out k pictures :
  length (sources_of out k pictures) <= length pictures.
Proof.
  unfold sources_of. rewrite length_map. induction pictures as [|r l IH]; [reflexivity|].
  cbn [List.filter]. destruct (String.eqb _ _); cbn [length]; lia.
Qed.

(** *** The plan is the list of the entries of the groups *)

Lemma number_files_exact k files :
  forall i moves result,
    number_files k i files moves = Ok result ->
    NoDup (keys moves) ->
    (forall name, In name (keys moves) ->
       forall j, i <= j -> numbered_name k j <> Ok name) ->
    exists l, numbered_entries k i files = Ok l /\ result = moves ++ l.
Proof.
  induction files as [|file files IH]; intros i moves result Hrun Hnd Hfresh.
  - cbn [number_files] in Hrun. injection Hrun as <-.
    exists []. rewrite app_nil_r. auto.
  - cbn [number_files] in Hrun. cbn [numbered_entries].
    destruct (numbered_name k i) as [name|e] eqn:Hname; [|discriminate Hrun].
    assert (~ In name (keys moves)) as Hnew.
    { intros Hin. apply (Hfresh name Hin i (le_n i)). exact Hname. }
    rewrite (set_fresh _ _ _ Hnew) in Hrun.
    destruct (IH (S i) _ result Hrun) as (l & Hl & ->).
    + unfold keys. rewrite map_app. cbn [map fst].
      apply NoDup_app. split; [exact Hnd|]. split; [|apply NoDup_singleton].
      intros x Hx Hx'. apply list_elem_of_singleton in Hx'. subst x.
      apply Hnew. apply list_elem_of_In. exact Hx.
    + unfold keys. rewrite map_app. cbn [map fst].
      intros x Hx j Hj Hxj. apply in_app_or in Hx as [Hx|[<-|[]]].
      * apply (Hfresh x Hx j); [lia | exact Hxj].
      * pose proof (numbered_name_inj_index _ _ _ _ Hname Hxj). lia.
    + rewrite Hl. exists ((name, file) :: l). split; [reflexivity|].
      rewrite <- app_assoc. reflexivity.
Qed.

Lemma place_group_exact done moves g moves' :
  placed done moves ->
  ~ In (fst g) (keys done) ->
  shaped (fst g) ->
  (forall k, In k (keys done) -> shaped k) ->
  place_group moves g = Ok moves' ->
  exists l, entries_of g = Ok l /\ moves' = moves ++ l.
Proof.
  intros (Hnd & Hval & Hder) Hnew Hshape Hshapes Hrun.
  destruct g as [k files]. cbn [fst] in *. unfold place_group in Hrun.
  unfold entries_of. cbn [fst snd].
  assert (forall name, In name (keys moves) ->
            forall j, numbered_name k j <> Ok name) as Hnum.
  { intros name Hin j Hj. destruct (Hder name Hin) as ([k' files'] & Hg & Hd).
    assert (In k' (keys done)) as Hk' by (apply (in_map fst _ _ Hg)).
    unfold derived in Hd. cbn [fst snd] in Hd.
    assert ((exists i, numbered_name k' i = Ok name) -> False) as Hother.
    { intros [i Hi]. apply Hnew.
      rewrite (numbered_name_inj_key _ _ _ _ _ Hj Hi). exact Hk'. }
    destruct files' as [|f1 [|f2 files']]; [apply Hother; exact Hd | | apply Hother; exact Hd].
    subst name. apply (numbered_name_not_shaped _ _ _ Hj). apply Hshapes. exact Hk'. }
  assert (~ In k (keys moves)) as Hfresh.
  { intros Hin. destruct (Hder k Hin) as ([k' files'] & Hg & Hd).
    assert (In k' (keys done)) as Hk' by (apply (in_map fst _ _ Hg)).
    unfold derived in Hd. cbn [fst snd] in Hd.
    assert ((exists i, numbered_name k' i = Ok k) -> False) as Hother.
    { intros [i Hi]. apply (numbered_name_not_shaped _ _ _ Hi Hshape). }
    destruct files' as [|f1 [|f2 files']];
      [apply Hother; exact Hd | | apply Hother; exact Hd].
    subst k'. apply Hnew. exact Hk'. }
  assert (number_files k 0 files moves = Ok moves' ->
          exists l, numbered_entries k 0 files = Ok l /\ moves' = moves ++ l) as Hmany.
  { intros Hloop. apply (number_files_exact k files 0 moves moves' Hloop Hnd).
    intros name Hin j _. apply Hnum. exact Hin. }
  destruct files as [|f1 [|f2 files]].
  - apply Hmany. exact Hrun.
  - injection Hrun as <-. rewrite (set_fresh _ _ _ Hfresh). eauto.
  - apply Hmany. exact Hrun.
Qed.

Lemma place_all_exact rest :
  forall done moves result,
    NoDup (keys (done ++ rest)) ->
    (forall k, In k (keys (done ++ rest)) -> shaped k) ->
    placed done moves ->
    place_all rest moves = Ok result ->
    exists ls, Forall2 (fun g l => entries_of g = Ok l) rest ls /\
               result = moves ++ concat ls.
Proof.
  induction rest as [|g rest IH]; intros done moves result Hnd Hshape Hp Hrun.
  - cbn [place_all] in Hrun. injection Hrun as <-.
    exists []. split; [constructor|]. cbn [concat]. rewrite app_nil_r. reflexivity.
  - cbn [place_all] in Hrun.
    destruct (place_group moves g) as [moves'|e] eqn:Hg; [|discriminate Hrun].
    assert (~ In (fst g) (keys done)) as Hnew.
    { unfold keys in Hnd. rewrite !map_app in Hnd. cbn [map fst] in Hnd.
      apply NoDup_app in Hnd as (_ & Hdisj & _).
      intros Hin. apply (Hdisj (fst g)).
      - apply list_elem_of_In. exact Hin.
      - left. }
    assert (shaped (fst g)) as Hsg.
    { apply Hshape. unfold keys. rewrite !map_app. cbn [map fst].
      apply in_or_app. right. left. reflexivity. }
    assert (forall k, In k (keys done) -> shaped k) as Hsd.
    { intros k Hk. apply Hshape. unfold keys in *. rewrite !map_app.
      apply in_or_app. left. exact Hk. }
    destruct (place_group_exact done moves g moves' Hp Hnew Hsg Hsd Hg) as (l & Hl & ->).
    replace (done ++ g :: rest) with ((done ++ [g]) ++ rest) in *
      by (rewrite <- app_assoc; reflexivity).
    destruct (IH (done ++ [g]) (moves ++ l) result Hnd Hshape) as (ls & Hls & ->).
    + apply (place_group_placed done moves g _ Hp Hnew Hsg Hsd Hg).
    + exact Hrun.
    + exists (l :: ls). split; [constructor; assumption|].
      cbn [concat]. rewrite <- app_assoc. reflexivity.
Qed.

Lemma create_moves_exact pictures out moves :
  create_moves pictures out = Ok moves ->
  exists ls, Forall2 (fun g l => entries_of g = Ok l) (group_all out pictures) ls /\
             moves = concat ls.
Proof.
  intros Hrun. destruct (group_all_grouped out pictures) as (Hnd & Hkeys & _).
  apply (place_all_exact (group_all out pictures) [] [] moves); try assumption.
  - intros k Hk. destruct (Hkeys k Hk) as (t & path & ->). apply target_name_shaped.
  - split; [constructor|]. split; [reflexivity|]. intros name [].
Qed.

Lemma Forall2_concat_In {A B} (R : A -> list B -> Prop) (xs : list A) (ls : list (list B)) y :
  Forall2 R xs ls -> In y (concat ls) -> exists x l, In x xs /\ R x l /\ In y l.
Proof.
  induction 1 as [|x l xs ls HR _ IH]; cbn [concat]; [intros []|].
  intros Hin. apply in_app_or in Hin as [Hin|Hin].
  - exists x, l. split; [left; reflexivity|]. split; assumption.
  - destruct (IH Hin) as (x' & l' & Hx & HR' & Hy).
    exists x', l'. split; [right; exact Hx|]. split; assumption.
Qed.

Lemma numbered_entries_In k files :
  forall i l name src,
    numbered_entries k i files = Ok l -> In (name, src) l ->
    exists j, nth_error files j = Some src /\ numbered_name k (i + j) = Ok name.
Proof.
  induction files as [|file files IH]; intros i l name src Hl Hin.
  - cbn [numbered_entries] in Hl. injection Hl as <-. destruct Hin.
  - cbn [numbered_entries] in Hl.
    destruct (numbered_name k i) as [n0|e] eqn:Hname; [|discriminate Hl].
    destruct (numbered_entries k (S i) files) as [l0|e] eqn:Hrest; [|discriminate Hl].
    injection Hl as <-. destruct Hin as [[= <- <-]|Hin].
    + exists 0. rewrite Nat.add_0_r. split; [reflexivity|exact Hname].
    + destruct (IH _ _ _ _ Hrest Hin) as (j & Hj & Hn).
      exists (S j). split; [exact Hj|]. rewrite Nat.add_succ_r. exact Hn.
Qed.

Lemma ext_of_no_dot path : has_char "." (ext_of path) = false.
Proof. apply last_dot_free. intros w Hw. apply (split_on_free _ _ _ Hw). Qed.

Lemma target_name_stem out t path :
  target_name out t path = stem_of out t +:+ String "." (ext_of path).
Proof. apply target_name_eq. Qed.

Lemma numbered_name_of_target out t path i name :
  numbered_name (target_name out t path) i = Ok name ->
  name = (stem_of out t +:+ "_" +:+ of_nat (i + 1)) +:+ "." +:+ ext_of path.
Proof.
  intros Hname. apply numbered_name_Ok in Hname as (s & e & Hk & -> & _ & He).
  rewrite target_name_stem in Hk.
  apply last_sep_split in Hk as [-> ->]; [reflexivity | apply ext_of_no_dot | exact He].
Qed.

(** X1. Every entry of the plan sends a discovered file to the name of its
    own timestamp and extension: the plain name
    [<out>/<year>/<formatted timestamp>.<ext>] when no other record has
    this name, and otherwise the name with the suffix [_N], [N] counting
    from 1 its position among the records of this name, in the order of
    discovery. *)
Theorem plan_names_follow_timestamps
    (pictures : list (datetime * string)) (out : string) (moves : dict string) :
  create_moves pictures out = Ok moves ->
  forall name src, In (name, src) moves ->
    exists t, In (t, src) pictures /\
      match sources_of out (target_name out t src) pictures with
      | [_] => name = stem_of out t +:+ "." +:+ ext_of src
      | files =>
          exists i, nth_error files i = Some src /\
            name = (stem_of out t +:+ "_" +:+ of_nat (i + 1)) +:+ "." +:+ ext_of src
      end.
Proof.
  intros Hrun name src Hin.
  destruct (create_moves_exact _ _ _ Hrun) as (ls & Hls & ->).
  destruct (Forall2_concat_In _ _ _ _ Hls Hin) as ([k files] & l & Hg & Hl & Hentry).
  destruct (group_files _ _ _ _ Hg) as [Hfiles _].
  assert (In src files -> exists t, In (t, src) pictures /\ target_name out t src = k)
    as Hsrc.
  { rewrite Hfiles. apply sources_of_In. }
  unfold entries_of in Hl. cbn [fst snd] in Hl.
  assert (numbered_entries k 0 files = Ok l ->
          exists t, In (t, src) pictures /\ target_name out t src = k /\
            exists i, nth_error files i = Some src /\
              name = (stem_of out t +:+ "_" +:+ of_nat (i + 1)) +:+ "." +:+ ext_of src)
    as Hmany.
  { intros Hnum. destruct (numbered_entries_In _ _ _ _ _ _ Hnum Hentry) as (j & Hj & Hn).
    destruct (Hsrc (nth_error_In _ _ Hj)) as (t & Ht & Hk).
    exists t. split; [exact Ht|]. split; [exact Hk|]. exists j. split; [exact Hj|].
    subst k. apply (numbered_name_of_target _ _ _ _ _ Hn). }
  destruct files as [|f1 [|f2 files]].
  - destruct (Hmany Hl) as (t & Ht & Hk & Hi). exists t. split; [exact Ht|].
    rewrite Hk, <- Hfiles. exact Hi.
  - injection Hl as <-. destruct Hentry as [[= <- <-]|[]].
    destruct (Hsrc (or_introl eq_refl)) as (t & Ht & Hk).
    exists t. split; [exact Ht|]. rewrite Hk, <- Hfiles.
    rewrite <- Hk. apply target_name_stem.
  - destruct (Hmany Hl) as (t & Ht & Hk & Hi). exists t. split; [exact Ht|].
    rewrite Hk, <- Hfiles. exact Hi.
Qed.

Lemma plan_names_follow_timestamps_witness :
  exists t, In (t, "in/y.jpg") burst /\
    match sources_of "out" (target_name "out" t "in/y.jpg") burst with
    | [_] => "out/2024/" +:+ Scenario.stem +:+ "_2.jpg"
             = stem_of "out" t +:+ "." +:+ ext_of "in/y.jpg"
    | files =>
        exists i, nth_error files i = Some "in/y.jpg" /\
          "out/2024/" +:+ Scenario.stem +:+ "_2.jpg"
          = (stem_of "out" t +:+ "_" +:+ of_nat (i + 1)) +:+ "." +:+ ext_of "in/y.jpg"
    end.
Proof.
  apply (plan_names_follow_timestamps burst "out"
           [("out/2024/" +:+ Scenario.stem +:+ "_1.jpg", "in/x.jpg");
            ("out/2024/" +:+ Scenario.stem +:+ "_2.jpg", "in/y.jpg");
            ("out/2023/12_24_18_30_05__24th_of_December_at_18h_30m.png", "in/c.png")]).
  - vm_compute. reflexivity.
  - right. left. reflexivity.
Defined.

Lemma plan_keys_NoDup pictures out moves :
  create_moves pictures out = Ok moves -> NoDup (keys moves).
Proof.
  intros Hrun. destruct (group_all_grouped out pictures) as (Hnd & Hkeys & _).
  destruct (place_all_placed (group_all out pictures) [] [] moves) as (Hnd' & _);
    try assumption.
  - intros k Hk. destruct (Hkeys k Hk) as (t & path & ->). apply target_name_shaped.
  - split; [constructor|]. split; [reflexivity|]. intros name [].
Qed.

(** *** A dot in the output directory *)

Lemma split_on_app_sep c a e :
  split_on c (a +:+ String c e) = split_on c a ++ split_on c e.
Proof.
  induction a as [|x a IH].
  - rewrite app_empty_l. cbn [split_on]. rewrite Ascii.eqb_refl. reflexivity.
  - rewrite app_cons. cbn [split_on]. rewrite IH.
    destruct (Ascii.eqb x c); [reflexivity|].
    pose proof (split_on_nonempty c a) as Hne.
    destruct (split_on c a) as [|w ws]; [exfalso; apply Hne; reflexivity|].
    reflexivity.
Qed.

Lemma split_on_has_char c a :
  has_char c a = true -> 2 <= length (split_on c a).
Proof.
  induction a as [|x a IH]; [discriminate|].
  cbn [has_char split_on]. pose proof (split_on_nonempty c a) as Hne.
  destruct (Ascii.eqb x c); cbn [orb].
  - intros _. destruct (split_on c a); [exfalso; apply Hne; reflexivity|].
    cbn [length]. lia.
  - intros H. specialize (IH H).
    destruct (split_on c a) as [|w ws]; cbn [length] in *; lia.
Qed.

Lemma numbered_name_too_many a e i :
  has_char "." a = true ->
  numbered_name (a +:+ String "." e) i
  = Raise (ValueError "too many values to unpack (expected 2)").
Proof.
  intros Ha. unfold numbered_name. rewrite split_on_app_sep.
  pose proof (split_on_has_char _ _ Ha) as Hlen.
  pose proof (split_on_nonempty "." e) as Hne.
  destruct (split_on "." a) as [|w1 [|w2 ws]]; cbn [length] in Hlen; [lia|lia|].
  destruct (split_on "." e) as [|v vs]; [exfalso; apply Hne; reflexivity|].
  cbn [app]. destruct ws; reflexivity.
Qed.

Lemma stem_of_dotted out t :
  has_char "." out = true -> has_char "." (stem_of out t) = true.
Proof.
  intros Hout. unfold stem_of.
  rewrite (Cleanup.join_name _ _ (year_name_ok (year t))).
  rewrite !has_char_app.
  assert (has_char "." (prefix_of out) = true) as ->; [|reflexivity].
  unfold prefix_of. destruct (_ || _); [exact Hout|].
  rewrite has_char_app, Hout. reflexivity.
Qed.

Lemma place_all_raises e groups :
  (forall g, In g groups -> forall i, numbered_name (fst g) i = Raise e) ->
  (exists g, In g groups /\ 2 <= length (snd g)) ->
  forall moves, place_all groups moves = Raise e.
Proof.
  induction groups as [|[k files] groups IH]; intros Hall (g & Hg & Hlen) moves.
  - destruct Hg.
  - assert (2 <= length files \/ exists g, In g groups /\ 2 <= length (snd g)) as Hcase.
    { destruct Hg as [<-|Hg]; [left; exact Hlen|right; eauto]. }
    assert (forall moves', (exists g, In g groups /\ 2 <= length (snd g)) ->
                           place_all groups moves' = Raise e) as Hrest.
    { intros moves' Hex. apply IH; [|exact Hex].
      intros g' Hg'. apply Hall. right. exact Hg'. }
    cbn [place_all place_group].
    destruct files as [|f1 [|f2 files]].
    + cbn [number_files]. destruct Hcase as [Hl|Hex]; [cbn [length] in Hl; lia|].
      apply Hrest. exact Hex.
    + destruct Hcase as [Hl|Hex]; [cbn [length] in Hl; lia|].
      apply Hrest. exact Hex.
    + pose proof (Hall (k, f1 :: f2 :: files) (or_introl eq_refl) 0) as H0.
      cbn [fst] in H0. cbn [number_files]. rewrite H0. reflexivity.
Qed.

Lemma sources_of_two out l1 t1 p1 l2 t2 p2 l3 :
  target_name out t1 p1 = target_name out t2 p2 ->
  2 <= length (sources_of out (target_name out t1 p1)
                 (l1 ++ (t1, p1) :: l2 ++ (t2, p2) :: l3)).
Proof.
  intros Heq. unfold sources_of.
  rewrite List.filter_app. cbn [List.filter fst snd]. rewrite String.eqb_refl.
  rewrite map_app. cbn [map]. rewrite List.filter_app. cbn [List.filter fst snd].
  rewrite <- Heq, String.eqb_refl. rewrite map_app. cbn [map].
  rewrite !length_app. cbn [length]. rewrite !length_app. cbn [length]. lia.
Qed.

(** X2. When the output directory has a dot in its path, a plan cannot be
    built for a discovery in which two files get the same target name:
    unpacking [new_name.split('.')] into two names raises. *)
Theorem dotted_output_fails_on_shared_name
    (out : string) (l1 l2 l3 : list (datetime * string))
    (t1 t2 : datetime) (p1 p2 : string) :
  has_char "." out = true ->
  target_name out t1 p1 = target_name out t2 p2 ->
  create_moves (l1 ++ (t1, p1) :: l2 ++ (t2, p2) :: l3) out
  = Raise (ValueError "too many values to unpack (expected 2)").
Proof.
  intros Hout Heq. unfold create_moves.
  set (pictures := l1 ++ (t1, p1) :: l2 ++ (t2, p2) :: l3).
  destruct (group_all_grouped out pictures) as (_ & Hkeys & _).
  apply place_all_raises.
  - intros g Hg i. destruct (Hkeys (fst g) (in_map fst _ _ Hg)) as (t & path & ->).
    rewrite target_name_stem. apply numbered_name_too_many.
    apply stem_of_dotted. exact Hout.
  - pose proof (sources_of_two out l1 t1 p1 l2 t2 p2 l3 Heq) as Hlen.
    fold pictures in Hlen.
    pose proof (group_all_get out pictures (target_name out t1 p1)) as Hget.
    destruct (sources_of out (target_name out t1 p1) pictures) as [|f files] eqn:Hs;
      [cbn [length] in Hlen; lia|].
    cbn [nonempty] in Hget. apply get_Some_In in Hget.
    exists (target_name out t1 p1, f :: files). split; [exact Hget|exact Hlen].
Qed.

Lemma dotted_output_fails_on_shared_name_witness :
  create_moves ([] ++ (jan2_2024, "in/x.jpg") :: [] ++ (jan2_2024, "in/y.jpg") :: [])
    "/home/j.doe/pictures"
  = Raise (ValueError "too many values to unpack (expected 2)").
Proof.
  apply (dotted_output_fails_on_shared_name "/home/j.doe/pictures" [] [] []
           jan2_2024 jan2_2024 "in/x.jpg" "in/y.jpg"); reflexivity.
Defined.

End PlanShape.

(** ** What reconciliation returns *)

Module LedgerFacts.
Import Props Notions.
Import PyStr PyDict Sys Os Organizer Frame Facts Reconcile Scenario.
Local Open Scope pyio_scope.

(** The iterations that end normally: the key matches no plan entry, or
    the single entry it matches is dropped after the comparison. *)
Lemma reconcile_entry_Ok dry_run k moves n w w' moves' n' :
  reconcile_entry dry_run k (moves, n) w = (w', Ok (moves', n')) ->
  (existsb (String.eqb (PosixPath.basename k))
     (map PosixPath.basename (keys moves)) = false /\
   w' = w /\ moves' = moves /\ n' = n) \/
  (exists incoming src,
     existsb (String.eqb (PosixPath.basename k))
       (map PosixPath.basename (keys moves)) = true /\
     List.filter (fun new_file => contains (PosixPath.basename k) new_file) (keys moves)
     = [incoming] /\
     get moves incoming = Some src /\
     moves' = del moves incoming /\
     ((n' = n /\
       w' = mkWorld (fs w)
              (trace w ++ [EvCompare (recorded_location k) src false;
                           EvPrint (different_msg k src)])) \/
      (dry_run = true /\ n' = n /\
       w' = mkWorld (fs w) (trace w ++ [EvCompare (recorded_location k) src true])) \/
      (dry_run = false /\ n' = n + 1 /\
       w' = mkWorld (delete src (fs w))
              (trace w ++ [EvCompare (recorded_location k) src true; EvRemove src])))).
Proof.
  unfold reconcile_entry.
  destruct (existsb _ _) eqn:Hex.
  - destruct (List.filter _ _) as [|incoming [|? ?]] eqn:Hfil; try discriminate.
    destruct (get moves incoming) as [src|] eqn:Hget; [|discriminate].
    intros Hrun. right. exists incoming, src.
    split; [reflexivity|]. split; [reflexivity|]. split; [exact Hget|].
    revert Hrun. unfold bind. rewrite filecmp_cmp_run.
    destruct (stat (fs w) _) as [n1|]; [|discriminate].
    destruct (stat (fs w) src) as [n2|]; [|discriminate].
    destruct (same_content n1 n2); cbn [negb].
    + destruct dry_run; cbn [negb].
      * unfold ret. intros [= <- <- <-]. split; [reflexivity|].
        right. left. auto.
      * rewrite remove_run. cbn [fs trace].
        destruct (stat _ src) as [[c|]|]; try discriminate.
        unfold ret. intros [= <- <- <-]. split; [reflexivity|].
        right. right. rewrite <- app_assoc. auto.
    + rewrite print_run. cbn [fs trace]. unfold ret. intros [= <- <- <-].
      split; [reflexivity|]. left. rewrite <- app_assoc. auto.
  - unfold ret. intros [= <- <- <-]. left. auto.
Qed.

Lemma filter_filter {A} (f g : A -> bool) (l : list A) :
  List.filter f (List.filter g l) = List.filter (fun x => g x && f x) l.
Proof.
  induction l as [|x l IH]; [reflexivity|].
  cbn [List.filter]. destruct (g x); cbn [List.filter andb].
  - destruct (f x); [f_equal|]; exact IH.
  - exact IH.
Qed.

(** One iteration drops exactly the entries named like the ledger key. *)
Lemma reconcile_entry_filter dry_run k moves n w w' moves' n' :
  reconcile_entry dry_run k (moves, n) w = (w', Ok (moves', n')) ->
  moves' = List.filter (unknown_name [k]) moves.
Proof.
  intros Hrun. apply reconcile_entry_Ok in Hrun
    as [(Hex & _ & -> & _)|(incoming & src & Hex & Hfil & Hget & -> & _)].
  - symmetry. apply forallb_filter_id. apply forallb_forall. intros [t s] Hin.
    unfold unknown_name. cbn [existsb fst]. rewrite orb_false_r.
    destruct (String.eqb_spec (PosixPath.basename k) (PosixPath.basename t)) as [Heq|_];
      [|reflexivity].
    exfalso. assert (existsb (String.eqb (PosixPath.basename k))
              (map PosixPath.basename (keys moves)) = true) as Hyes.
    { apply existsb_exists. exists (PosixPath.basename t). split.
      - apply in_map. apply (in_map fst _ _ Hin).
      - rewrite Heq. apply String.eqb_refl. }
    rewrite Hyes in Hex. discriminate Hex.
  - unfold del. apply filter_ext_in. intros [t s] Hin.
    unfold unknown_name. cbn [existsb fst]. rewrite orb_false_r. f_equal.
    destruct (single_incoming_named_like moves k incoming Hex Hfil) as [Hname _].
    destruct (String.eqb_spec t incoming) as [->|Hne].
    + rewrite Hname. symmetry. apply String.eqb_refl.
    + destruct (String.eqb_spec (PosixPath.basename k) (PosixPath.basename t))
        as [Heq|_]; [|reflexivity].
      exfalso. apply Hne.
      assert (In t (List.filter
                (fun new_file => contains (PosixPath.basename k) new_file)
                (keys moves))) as Hin'.
      { apply filter_In. split; [apply (in_map fst _ _ Hin)|].
        rewrite Heq. apply contains_basename. }
      rewrite Hfil in Hin'. destruct Hin' as [<-|[]]. reflexivity.
Qed.

Lemma unknown_name_cons k l entry :
  unknown_name (k :: l) entry = unknown_name [k] entry && unknown_name l entry.
Proof.
  unfold unknown_name. cbn [existsb]. rewrite orb_false_r. apply negb_orb.
Qed.

Lemma reconcile_loop_filter dry_run l :
  forall moves n w w' moves' n',
    fold_m (reconcile_entry dry_run) l (moves, n) w = (w', Ok (moves', n')) ->
    moves' = List.filter (unknown_name l) moves.
Proof.
  induction l as [|k l IH]; intros moves n w w' moves' n' Hrun.
  - cbn [fold_m] in Hrun. injection Hrun as _ <- _.
    symmetry. apply forallb_filter_id. apply forallb_forall. reflexivity.
  - rewrite fold_m_cons in Hrun.
    destruct (reconcile_entry dry_run k (moves, n) w) as [w1 [[m1 n1]|e]] eqn:Hstep;
      [|discriminate Hrun].
    rewrite (IH _ _ _ _ _ _ Hrun), (reconcile_entry_filter _ _ _ _ _ _ _ _ Hstep).
    rewrite filter_filter. apply filter_ext. intros entry.
    symmetry. apply unknown_name_cons.
Qed.

Lemma check_update_Ok moves json_file dry_run w w' r :
  check_update_old_info moves json_file dry_run w = (w', Ok r) ->
  fold_m (reconcile_entry dry_run) (keys (ledger_of (fs w) json_file)) (moves, 0) w
  = (w', Ok r).
Proof.
  unfold check_update_old_info, bind.
  destruct (load_old_info_run json_file w) as (r0 & Hload & Hobj).
  rewrite Hload. destruct r0 as [obj|e]; [|discriminate].
  rewrite <- (Hobj obj eq_refl). auto.
Qed.

(** X3. The plan that reconciliation returns is the plan it was given
    without the entries whose target has the base name of a ledger key,
    in the same order; the bytes compared and the mode play no part. *)
Theorem reconciled_plan_is_the_unknown_names
    (moves : dict string) (json_file : string) (dry_run : bool)
    (w w' : world) (moves' : dict string) (n : nat) :
  check_update_old_info moves json_file dry_run w = (w', Ok (moves', n)) ->
  moves' = List.filter (unknown_name (keys (ledger_of (fs w) json_file))) moves.
Proof.
  intros Hrun. apply check_update_Ok in Hrun.
  apply (reconcile_loop_filter _ _ _ _ _ _ _ _ Hrun).
Qed.

Lemma reconciled_plan_is_the_unknown_names_witness :
  [("out/2023/" +:+ stem +:+ ".jpg", "in/e.jpg")]
  = List.filter
      (unknown_name (keys (ledger_of (fs numbered_pair) "out/info.json")))
      [("out/2024/" +:+ stem +:+ "_1.jpg", "in/c.jpg");
       ("out/2023/" +:+ stem +:+ ".jpg", "in/e.jpg");
       ("out/2024/" +:+ stem +:+ "_2.jpg", "in/d.jpg")].
Proof.
  apply (reconciled_plan_is_the_unknown_names _ "out/info.json" false numbered_pair
           (fst (check_update_old_info
                   [("out/2024/" +:+ stem +:+ "_1.jpg", "in/c.jpg");
                    ("out/2023/" +:+ stem +:+ ".jpg", "in/e.jpg");
                    ("out/2024/" +:+ stem +:+ "_2.jpg", "in/d.jpg")]
                   "out/info.json" false numbered_pair)) _ 1).
  vm_compute. reflexivity.
Defined.

(** *** Counting the events of a reconciliation *)

Lemma count_events_app test evs1 evs2 :
  count_events test (evs1 ++ evs2) = count_events test evs1 + count_events test evs2.
Proof. unfold count_events. rewrite List.filter_app, length_app. reflexivity. Qed.

(** Deleting the only key that passes a test shortens the dictionary by
    one entry. *)
Lemma del_single_length {V} (P : string -> bool) (d : dict V) x :
  List.filter P (keys d) = [x] -> length d = S (length (del d x)).
Proof.
  induction d as [|[k0 v0] d IH]; [discriminate|].
  cbn [keys map fst List.filter]. unfold del. cbn [List.filter fst length].
  destruct (P k0) eqn:HP.
  - intros [= -> Hrest]. rewrite String.eqb_refl. cbn [negb]. f_equal.
    rewrite forallb_filter_id; [reflexivity|].
    apply forallb_forall. intros [k1 v1] Hin. cbn [fst].
    destruct (String.eqb_spec k1 x) as [->|_]; [|reflexivity].
    exfalso. assert (In x (List.filter P (keys d))) as Hx.
    { apply filter_In. split; [apply (in_map fst _ _ Hin)|exact HP]. }
    fold (keys d) in Hrest. rewrite Hrest in Hx. destruct Hx.
  - intros Hrest. destruct (String.eqb_spec k0 x) as [->|_].
    + exfalso. assert (In x (List.filter P (keys d))) as Hx.
      { fold (keys d) in Hrest. rewrite Hrest. left. reflexivity. }
      apply filter_In in Hx as [_ Hx]. rewrite Hx in HP. discriminate HP.
    + cbn [negb length]. f_equal. apply IH. exact Hrest.
Qed.

Lemma reconcile_entry_account dry_run k moves n w w' moves' n' :
  reconcile_entry dry_run k (moves, n) w = (w', Ok (moves', n')) ->
  exists evs,
    trace w' = trace w ++ evs /\
    n' = n + count_events is_removal evs /\
    length moves = length moves' + count_events is_compare evs.
Proof.
  intros Hrun. apply reconcile_entry_Ok in Hrun
    as [(_ & -> & -> & ->)|(incoming & src & _ & Hfil & _ & -> & Hcase)].
  - exists []. rewrite app_nil_r. cbn. split; [reflexivity|]. split; lia.
  - pose proof (del_single_length _ _ _ Hfil) as Hlen.
    destruct Hcase as [(-> & ->)|[(_ & -> & ->)|(_ & -> & ->)]];
      eexists; (split; [reflexivity|]); cbn; split; lia.
Qed.

Lemma reconcile_loop_account dry_run l :
  forall moves n w w' moves' n',
    fold_m (reconcile_entry dry_run) l (moves, n) w = (w', Ok (moves', n')) ->
    exists evs,
      trace w' = trace w ++ evs /\
      n' = n + count_events is_removal evs /\
      length moves = length moves' + count_events is_compare evs.
Proof.
  induction l as [|k l IH]; intros moves n w w' moves' n' Hrun.
  - cbn [fold_m] in Hrun. injection Hrun as <- <- <-.
    exists []. rewrite app_nil_r. cbn. split; [reflexivity|]. split; lia.
  - rewrite fold_m_cons in Hrun.
    destruct (reconcile_entry dry_run k (moves, n) w) as [w1 [[m1 n1]|e]] eqn:Hstep;
      [|discriminate Hrun].
    destruct (reconcile_entry_account _ _ _ _ _ _ _ _ Hstep) as (evs1 & Ht1 & Hn1 & Hl1).
    destruct (IH _ _ _ _ _ _ Hrun) as (evs2 & Ht2 & Hn2 & Hl2).
    exists (evs1 ++ evs2). rewrite !count_events_app.
    split; [rewrite Ht2, Ht1, app_assoc; reflexivity|]. split; lia.
Qed.

(** X4. The number of duplicates that reconciliation returns is the number
    of files it removed, and the entries it took out of the plan are as
    many as the comparisons it made. *)
Theorem reconciliation_counts_its_events
    (moves : dict string) (json_file : string) (dry_run : bool)
    (w w' : world) (moves' : dict string) (n : nat) :
  check_update_old_info moves json_file dry_run w = (w', Ok (moves', n)) ->
  exists evs,
    trace w' = trace w ++ evs /\
    n = count_events is_removal evs /\
    length moves = length moves' + count_events is_compare evs.
Proof.
  intros Hrun. apply check_update_Ok in Hrun.
  destruct (reconcile_loop_account _ _ _ _ _ _ _ _ Hrun) as (evs & Ht & Hn & Hl).
  exists evs. split; [exact Ht|]. split; [exact Hn|exact Hl].
Qed.

Lemma reconciliation_counts_its_events_witness :
  exists evs,
    trace (fst (check_update_old_info
                  [("out/2024/" +:+ stem +:+ "_1.jpg", "in/c.jpg");
                   ("out/2024/" +:+ stem +:+ "_2.jpg", "in/d.jpg")]
                  "out/info.json" false numbered_pair))
    = trace numbered_pair ++ evs /\
    1 = count_events is_removal evs /\
    length [("out/2024/" +:+ stem +:+ "_1.jpg", "in/c.jpg");
            ("out/2024/" +:+ stem +:+ "_2.jpg", "in/d.jpg")]
    = length ([] : dict string) + count_events is_compare evs.
Proof.
  apply (reconciliation_counts_its_events _ "out/info.json" false numbered_pair).
  vm_compute. reflexivity.
Defined.

End LedgerFacts.

(** ** What is written to the ledger *)

Module LedgerWrite.
Import Props Notions.
Import PyStr PyDict Sys Os Organizer Frame Facts Reconcile Rerun PlanFacts Scenario.
Local Open Scope pyio_scope.

Lemma load_json json_file obj w :
  stat (fs w) json_file = Some (File (Json obj)) ->
  load_old_info json_file w = (w, Ok obj).
Proof.
  intros Hs. unfold load_old_info, json_load, path_exists, get_fs, bind.
  cbn beta iota. rewrite Hs. cbn beta iota. rewrite Hs. reflexivity.
Qed.

Lemma load_absent json_file w :
  stat (fs w) json_file = None -> load_old_info json_file w = (w, Ok []).
Proof.
  intros Hs. unfold load_old_info, path_exists, bind.
  cbn beta iota. rewrite Hs. reflexivity.
Qed.

Lemma check_keys_pass moves l w :
  (forall k, In k l -> mem k moves = false) ->
  for_each l (check_key moves) w = (w, Ok tt).
Proof.
  induction l as [|k l IH]; intros Hl; [reflexivity|].
  rewrite for_each_cons. unfold check_key at 1.
  rewrite (Hl k (or_introl eq_refl)). unfold ret at 1.
  apply IH. intros k' Hk'. apply Hl. right. exact Hk'.
Qed.

Lemma check_keys_stop moves l w :
  (exists k, In k l /\ mem k moves = true) ->
  exists before k after,
    l = before ++ k :: after /\
    (forall k0, In k0 before -> mem k0 moves = false) /\
    mem k moves = true /\
    for_each l (check_key moves) w =
      (mkWorld (fs w) (trace w ++ [EvPrint (still_exists_msg k)]),
       Raise (TypeError "exceptions must derive from BaseException")).
Proof.
  induction l as [|k l IH]; intros (k0 & Hin & Hk0); [destruct Hin|].
  destruct (mem k moves) eqn:Hk.
  - exists [], k, l. split; [reflexivity|]. split; [intros k1 []|].
    split; [exact Hk|].
    rewrite for_each_cons. unfold check_key at 1. rewrite Hk.
    unfold bind. rewrite print_run. reflexivity.
  - destruct Hin as [->|Hin]; [rewrite Hk in Hk0; discriminate Hk0|].
    destruct (IH (ex_intro _ k0 (conj Hin Hk0)))
      as (before & k' & after & -> & Hbefore & Hk' & Hrun).
    exists (k :: before), k', after. split; [reflexivity|].
    split; [intros k1 [<-|Hk1]; [exact Hk|apply Hbefore; exact Hk1]|].
    split; [exact Hk'|].
    rewrite for_each_cons. unfold check_key at 1. rewrite Hk. unfold ret at 1.
    exact Hrun.
Qed.

(** X5. When a key of the ledger on disk is also a key of the plan,
    [append_moves_to_json] prints its ERROR line for the first such key,
    in the order of the ledger, and ends with a [TypeError] (it raises
    the value of [print]); nothing else is printed and the ledger file
    is not written, in either mode. *)
Theorem append_refuses_a_known_key
    (moves : dict string) (json_file : string) (dry_run : bool) (w : world)
    (obj : dict string) (k : string) :
  stat (fs w) json_file = Some (File (Json obj)) ->
  In k (keys obj) ->
  mem k moves = true ->
  exists before k' after,
    keys obj = before ++ k' :: after /\
    (forall k0, In k0 before -> mem k0 moves = false) /\
    mem k' moves = true /\
    append_moves_to_json moves json_file dry_run w =
      (mkWorld (fs w) (trace w ++ [EvPrint (still_exists_msg k')]),
       Raise (TypeError "exceptions must derive from BaseException")).
Proof.
  intros Hs Hin Hk.
  destruct (check_keys_stop moves (keys obj) w (ex_intro _ k (conj Hin Hk)))
    as (before & k' & after & Hsplit & Hbefore & Hk' & Hrun).
  exists before, k', after. split; [exact Hsplit|]. split; [exact Hbefore|].
  split; [exact Hk'|].
  unfold append_moves_to_json. unfold bind at 1. rewrite (load_json _ _ _ Hs).
  unfold bind at 1. fold (check_key moves). rewrite Hrun. reflexivity.
Qed.

Lemma append_refuses_a_known_key_witness :
  exists before k' after,
    keys [("out/2023/" +:+ stem +:+ ".jpg", "old/a.jpg");
          ("out/2024/" +:+ stem +:+ ".jpg", "old/c.jpg")]
    = before ++ k' :: after /\
    (forall k0, In k0 before -> mem k0 one_move = false) /\
    mem k' one_move = true /\
    append_moves_to_json one_move "out/info.json" false two_years =
      (mkWorld (fs two_years) (trace two_years ++ [EvPrint (still_exists_msg k')]),
       Raise (TypeError "exceptions must derive from BaseException")).
Proof.
  apply (append_refuses_a_known_key one_move "out/info.json" false two_years
           [("out/2023/" +:+ stem +:+ ".jpg", "old/a.jpg");
            ("out/2024/" +:+ stem +:+ ".jpg", "old/c.jpg")]
           ("out/2024/" +:+ stem +:+ ".jpg")).
  - vm_compute. reflexivity.
  - right. left. reflexivity.
  - reflexivity.
Defined.

(** In [two_years] the key under 2023 is passed and the line names the
    key under 2024. *)
Example append_names_the_first_shared_key :
  append_moves_to_json one_move "out/info.json" true two_years =
    (mkWorld (fs two_years)
       (trace two_years
        ++ [EvPrint (still_exists_msg ("out/2024/" +:+ stem +:+ ".jpg"))]),
     Raise (TypeError "exceptions must derive from BaseException")).
Proof. vm_compute. reflexivity. Qed.

(** *** [update] with new keys appends *)

Lemma update_fresh {V} (other : dict V) :
  forall d,
    NoDup (keys other) ->
    (forall k, In k (keys other) -> ~ In k (keys d)) ->
    update d other = d ++ other.
Proof.
  unfold update.
  induction other as [|[k v] other IH]; intros d Hnd Hnew.
  - cbn [fold_left]. rewrite app_nil_r. reflexivity.
  - cbn [fold_left fst snd]. cbn [keys map fst] in Hnd. apply NoDup_cons in Hnd as [Hk Hnd].
    rewrite (set_fresh d k v); [|apply Hnew; left; reflexivity].
    rewrite IH; [rewrite <- app_assoc; reflexivity|exact Hnd|].
    intros k' Hk' Hin. unfold keys in Hin. rewrite map_app in Hin.
    apply in_app_or in Hin as [Hin|[<-|[]]].
    + apply (Hnew k'); [right; exact Hk'|exact Hin].
    + apply Hk. apply list_elem_of_In. exact Hk'.
Qed.

Lemma dump_over json_file obj obj' w :
  ledger_written (fs w) json_file obj ->
  json_dump obj' json_file w =
    (mkWorld (<[json_file := File (Json obj')]> (fs w)) (trace w ++ [EvWrite json_file]),
     Ok tt).
Proof.
  intros (Hne & Hs & Hpar).
  unfold json_dump, get_fs, lift, set_fs, emit, bind.
  cbn beta iota. rewrite Hne, Hs, Hpar. reflexivity.
Qed.

Lemma mem_false_iff {V} (d : dict V) k : mem k d = false <-> ~ In k (keys d).
Proof.
  split; [apply mem_false_not_In|].
  intros Hk. unfold mem. destruct (get d k) eqn:Hg; [|reflexivity].
  exfalso. apply Hk. apply (get_Some_In_keys _ _ _ Hg).
Qed.

(** X6. In Apply mode, when no key of the ledger on disk is a key of the
    plan, the ledger file is rewritten with the old entries, unchanged
    and in their order, followed by the entries of the plan; reading the
    ledger afterwards gives back exactly this dictionary. *)
Theorem append_extends_the_ledger
    (moves : dict string) (json_file : string) (w : world) (obj : dict string) :
  ledger_written (fs w) json_file obj ->
  NoDup (keys moves) ->
  (forall k, In k (keys obj) -> mem k moves = false) ->
  let w' := mkWorld (<[json_file := File (Json (obj ++ moves))]> (fs w))
              (trace w ++ [EvWrite json_file]) in
  append_moves_to_json moves json_file false w = (w', Ok (obj ++ moves)) /\
  load_old_info json_file w' = (w', Ok (obj ++ moves)).
Proof.
  intros Hw Hnd Hnew w'.
  assert (update obj moves = obj ++ moves) as Hup.
  { apply update_fresh; [exact Hnd|]. intros k Hk Hin.
    specialize (Hnew k Hin). apply mem_false_iff in Hnew. apply Hnew. exact Hk. }
  split.
  - unfold append_moves_to_json. unfold bind at 1. rewrite (load_written _ _ _ Hw).
    unfold bind at 1. fold (check_key moves). rewrite (check_keys_pass _ _ _ Hnew).
    rewrite Hup. cbn [negb].
    unfold bind at 1. unfold bind at 1. unfold bind at 1.
    assert (path_exists json_file w = (w, Ok true)) as ->.
    { unfold path_exists. destruct Hw as (_ & -> & _). reflexivity. }
    cbn [negb]. unfold ret at 1.
    rewrite (dump_over _ _ _ _ Hw). reflexivity.
  - apply load_json. subst w'. cbn [fs]. destruct Hw as (Hne & Hs & _).
    revert Hs. unfold stat. rewrite Hne.
    destruct (PosixPath.all_sep json_file); [discriminate|].
    intros _. apply lookup_insert_eq.
Qed.

Lemma append_extends_the_ledger_witness :
  let w' := mkWorld (<["out/info.json" :=
                        File (Json ([("out/2024/a.jpg", "old/a.jpg")] ++ two_new))]>
                       (fs one_known))
              (trace one_known ++ [EvWrite "out/info.json"]) in
  append_moves_to_json two_new "out/info.json" false one_known
  = (w', Ok ([("out/2024/a.jpg", "old/a.jpg")] ++ two_new)) /\
  load_old_info "out/info.json" w'
  = (w', Ok ([("out/2024/a.jpg", "old/a.jpg")] ++ two_new)).
Proof.
  apply (append_extends_the_ledger two_new "out/info.json" one_known
           [("out/2024/a.jpg", "old/a.jpg")]).
  - split; [reflexivity|]. split; vm_compute; reflexivity.
  - apply (bool_decide_unpack _). vm_compute. exact I.
  - intros k [<-|[]]. reflexivity.
Defined.

End LedgerWrite.

(** ** The report of a dry run, and a ledger that cannot be read *)

Module Reports.
Import Props Notions.
Import PyStr PyDict Sys Os Organizer Frame Facts Reconcile DryRun Duplicates LedgerFacts
  LedgerWrite Scenario.
Local Open Scope pyio_scope.

Lemma print_each {A} (line : A -> string) (l : list A) w :
  for_each l (fun item => print (line item)) w =
    (mkWorld (fs w) (trace w ++ map (fun item => EvPrint (line item)) l), Ok tt).
Proof.
  revert w. induction l as [|x l IH]; intros w.
  - cbn [for_each map]. rewrite app_nil_r. destruct w. reflexivity.
  - rewrite for_each_cons, print_run, IH. cbn [fs trace map].
    rewrite <- app_assoc. reflexivity.
Qed.

(** The ledger is read a second time by [append_moves_to_json]; in a dry
    run it is the ledger the reconciliation read. *)
Lemma load_again moves json_file dry_run w w' r w2 :
  check_update_old_info moves json_file dry_run w = (w', Ok r) ->
  fs w2 = fs w ->
  load_old_info json_file w2 = (w2, Ok (ledger_of (fs w) json_file)).
Proof.
  intros Hrun Hfs. unfold check_update_old_info, bind in Hrun.
  unfold ledger_of.
  destruct (stat (fs w) json_file) as [[[bytes|obj]|]|] eqn:Hs.
  - exfalso. revert Hrun. unfold load_old_info, path_exists, json_load, get_fs, bind.
    cbn beta iota. rewrite Hs. cbn beta iota. rewrite Hs. discriminate.
  - apply load_json. rewrite Hfs. exact Hs.
  - exfalso. revert Hrun. unfold load_old_info, path_exists, json_load, get_fs, bind.
    cbn beta iota. rewrite Hs. cbn beta iota. rewrite Hs. discriminate.
  - apply load_absent. rewrite Hfs. exact Hs.
Qed.

(** X7. A dry run whose reconciliation ends normally prints, after the
    lines of the reconciliation, one line [<source> --> <target>] for
    every entry of the reconciled plan, in the order of the plan, and
    nothing more; the check of [append_moves_to_json] cannot fail on a
    reconciled plan, and the line "Would have deleted ..." is never
    printed. *)
Theorem dry_run_lists_the_reconciled_plan
    (pictures : list (datetime * string)) (out : string) (w w1 : world)
    (moves moves' : dict string) (n : nat) :
  Plan.create_moves pictures out = Ok moves ->
  check_update_old_info moves (PosixPath.join out "info.json") true w
  = (w1, Ok (moves', n)) ->
  dryrun_move_files pictures out w =
    (mkWorld (fs w)
       (trace w1 ++ map (fun item => EvPrint (planned_line (fst item) (snd item))) moves'),
     Ok tt).
Proof.
  intros Hplan Hrun.
  pose proof (keeps_check_update_old_info moves (PosixPath.join out "info.json") w) as Hfs.
  rewrite Hrun in Hfs. cbn [fst] in Hfs.
  pose proof (dry_run_counts_nothing _ _ _ _ _ _ Hrun) as ->.
  unfold dryrun_move_files. unfold bind at 1. unfold lift at 1. rewrite Hplan.
  unfold bind at 1. rewrite Hrun.
  unfold bind at 1. rewrite print_each.
  set (w2 := mkWorld (fs w1) _).
  unfold bind at 1. unfold append_moves_to_json.
  unfold bind at 1. rewrite (load_again _ _ _ _ _ _ w2 Hrun Hfs).
  unfold bind at 1. fold (check_key moves'). rewrite check_keys_pass.
  - cbn [negb Nat.ltb Nat.leb]. unfold bind, ret. subst w2. rewrite Hfs. reflexivity.
  - intros k Hk. apply mem_false_iff. intros Hin.
    apply (reconciled_plan_has_no_ledger_name _ _ _ _ _ _ _ Hrun k k Hin Hk).
    reflexivity.
Qed.

Lemma dry_run_lists_the_reconciled_plan_witness :
  dryrun_move_files one_picture "out" fresh =
    (mkWorld (fs fresh)
       (trace fresh ++
        map (fun item => EvPrint (planned_line (fst item) (snd item))) one_move),
     Ok tt).
Proof.
  apply (dry_run_lists_the_reconciled_plan one_picture "out" fresh fresh
           one_move one_move 0); vm_compute; reflexivity.
Defined.

(** X8. When the ledger file is there and does not hold JSON, neither
    mode gets past reading it: Apply has printed its banner, the dry run
    nothing, and no file was compared, removed, moved or written. *)
Theorem unreadable_ledger_stops_the_run
    (pictures : list (datetime * string)) (out : string) (w : world) (bytes : string) :
  stat (fs w) (PosixPath.join out "info.json") = Some (File (Data bytes)) ->
  let e := match Plan.create_moves pictures out with
           | Raise e => e
           | Ok _ => JSONDecodeError (PosixPath.join out "info.json")
           end in
  do_move_files pictures out w =
    (mkWorld (fs w) (trace w ++ [EvPrint "Moving files..."]), Raise e) /\
  dryrun_move_files pictures out w = (w, Raise e).
Proof.
  intros Hs e.
  assert (forall w0 moves dry_run, fs w0 = fs w ->
            check_update_old_info moves (PosixPath.join out "info.json") dry_run w0
            = (w0, Raise (JSONDecodeError (PosixPath.join out "info.json")))) as Hload.
  { intros w0 moves dry_run Hfs.
    unfold check_update_old_info, load_old_info, path_exists, json_load, get_fs, bind.
    cbn beta iota. rewrite Hfs, Hs. cbn beta iota. rewrite Hfs, Hs. reflexivity. }
  split.
  - unfold do_move_files. unfold bind at 1. rewrite print_run.
    unfold bind at 1. unfold lift at 1. subst e.
    destruct (Plan.create_moves pictures out) as [moves|e0]; [|reflexivity].
    unfold bind at 1. rewrite Hload; reflexivity.
  - unfold dryrun_move_files. unfold bind at 1. unfold lift at 1. subst e.
    destruct (Plan.create_moves pictures out) as [moves|e0]; [|reflexivity].
    unfold bind at 1. rewrite Hload; reflexivity.
Qed.

Lemma unreadable_ledger_stops_the_run_witness :
  let w := world_of [("out", Dir); ("out/info.json", File (Data "{")); ("in", Dir);
                     ("in/b.jpg", File (Data "AAA"))] in
  let e := match Plan.create_moves one_picture "out" with
           | Raise e => e
           | Ok _ => JSONDecodeError (PosixPath.join "out" "info.json")
           end in
  do_move_files one_picture "out" w =
    (mkWorld (fs w) (trace w ++ [EvPrint "Moving files..."]), Raise e) /\
  dryrun_move_files one_picture "out" w = (w, Raise e).
Proof.
  apply (unreadable_ledger_stops_the_run one_picture "out"
           (world_of [("out", Dir); ("out/info.json", File (Data "{")); ("in", Dir);
                      ("in/b.jpg", File (Data "AAA"))]) "{").
  vm_compute. reflexivity.
Defined.

End Reports.

(** ** Moving one file, and all files of a plan *)

Module Moves.
Import Props Notions.
Import PyStr PyDict Sys Os Organizer Frame Facts Reconcile Rerun Conflict Scenario.
Local Open Scope pyio_scope.

Lemma only_new_dirs_refl f : only_new_dirs f f.
Proof. intros p. left. reflexivity. Qed.

Lemma only_new_dirs_trans f1 f2 f3 :
  only_new_dirs f1 f2 -> only_new_dirs f2 f3 -> only_new_dirs f1 f3.
Proof.
  intros H12 H23 p. destruct (H23 p) as [H|[Hn Hd]]; destruct (H12 p) as [H'|[Hn' Hd']].
  - left. congruence.
  - right. split; congruence.
  - right. split; congruence.
  - right. split; congruence.
Qed.

Lemma adds_keeps {A} (m : M A) : keeps_fs m -> adds_dirs m.
Proof. intros H w. rewrite (H w). apply only_new_dirs_refl. Qed.

Lemma adds_bind {A B} (m : M A) (k : A -> M B) :
  adds_dirs m -> (forall a, adds_dirs (k a)) -> adds_dirs (bind m k).
Proof.
  intros Hm Hk w. unfold bind. specialize (Hm w).
  destruct (m w) as [w1 [a|e]]; [|exact Hm].
  apply (only_new_dirs_trans _ _ _ Hm). apply Hk.
Qed.

Lemma adds_try_with {A} (m : M A) (h : exn -> M A) :
  adds_dirs m -> (forall e, adds_dirs (h e)) -> adds_dirs (try_with m h).
Proof.
  intros Hm Hh w. unfold try_with. specialize (Hm w).
  destruct (m w) as [w1 [a|e]]; [exact Hm|].
  apply (only_new_dirs_trans _ _ _ Hm). apply Hh.
Qed.

Lemma stat_None f p :
  stat f p = None -> p = "" \/ (PosixPath.all_sep p = false /\ f !! p = None).
Proof.
  unfold stat. destruct (String.eqb_spec p "") as [->|_]; [auto|].
  destruct (PosixPath.all_sep p); [discriminate|auto].
Qed.

Lemma stat_File f p c : stat f p = Some (File c) -> f !! p = Some (File c).
Proof.
  unfold stat. destruct (String.eqb p ""); [discriminate|].
  destruct (PosixPath.all_sep p); [discriminate|auto].
Qed.

Lemma adds_mkdir name : adds_dirs (mkdir name).
Proof.
  intros w. unfold mkdir, bind, get_fs, raise, lift, set_fs, emit.
  destruct (String.eqb_spec name "") as [->|Hne]; [apply only_new_dirs_refl|].
  destruct (stat (fs w) name) eqn:Hs; [apply only_new_dirs_refl|].
  destruct (parent_ok (fs w) name); [|apply only_new_dirs_refl].
  cbn [fst fs]. apply stat_None in Hs as [Hs|[_ Hs]]; [contradiction|].
  intros p. destruct (decide (p = name)) as [->|Hp].
  - right. split; [exact Hs|apply lookup_insert_eq].
  - left. apply lookup_insert_ne. congruence.
Qed.

Lemma adds_isdir p : adds_dirs (isdir p).
Proof. intros w. apply only_new_dirs_refl. Qed.

Lemma adds_path_exists p : adds_dirs (path_exists p).
Proof. intros w. apply only_new_dirs_refl. Qed.

Lemma adds_ret {A} (a : A) : adds_dirs (ret a).
Proof. intros w. apply only_new_dirs_refl. Qed.

Lemma adds_raise {A} e : adds_dirs (@raise A e).
Proof. intros w. apply only_new_dirs_refl. Qed.

Lemma adds_makedirs_go fuel name exist_ok :
  adds_dirs (makedirs_go fuel name exist_ok).
Proof.
  revert name. induction fuel as [|fuel IH]; intros name; simpl;
    destruct (PosixPath.split name) as [head tail];
    destruct (if String.eqb tail "" then PosixPath.split head else (head, tail))
      as [head' tail'].
  - apply adds_bind; [apply adds_path_exists|]. intros ex.
    assert (adds_dirs (try_with (mkdir name)
              (fun e => if is_oserror e
                        then let* d := isdir name in
                             if negb exist_ok || negb d then raise e else ret tt
                        else raise e))) as Hfin.
    { apply adds_try_with; [apply adds_mkdir|]. intros e.
      destruct (is_oserror e); [|apply adds_raise].
      apply adds_bind; [apply adds_isdir|]. intros d.
      destruct (negb exist_ok || negb d); [apply adds_raise | apply adds_ret]. }
    destruct (_ && _); exact Hfin.
  - apply adds_bind; [apply adds_path_exists|]. intros ex.
    assert (adds_dirs (try_with (mkdir name)
              (fun e => if is_oserror e
                        then let* d := isdir name in
                             if negb exist_ok || negb d then raise e else ret tt
                        else raise e))) as Hfin.
    { apply adds_try_with; [apply adds_mkdir|]. intros e.
      destruct (is_oserror e); [|apply adds_raise].
      apply adds_bind; [apply adds_isdir|]. intros d.
      destruct (negb exist_ok || negb d); [apply adds_raise | apply adds_ret]. }
    destruct (_ && _); [|exact Hfin].
    apply adds_bind.
    + apply adds_try_with; [apply IH|]. intros e.
      destruct e; first [apply adds_ret | apply adds_raise].
    + intros _. destruct (String.eqb tail' "."); [apply adds_ret | exact Hfin].
Qed.

Lemma adds_makedirs name exist_ok : adds_dirs (makedirs name exist_ok).
Proof. apply adds_makedirs_go. Qed.

(** [os.rename] of a regular file. *)
Lemma rename_file src dst c w :
  stat (fs w) src = Some (File c) ->
  stat (fs w) dst = None ->
  rename src dst w =
  match parent_ok (fs w) dst with
  | Ok _ => (mkWorld (<[dst := File c]> (delete src (fs w))) (trace w ++ [EvMove src dst]),
             Ok tt)
  | Raise e => (w, Raise e)
  end.
Proof.
  intros Hsrc Hdst. unfold rename, bind, get_fs, lift, set_fs, emit.
  rewrite Hsrc, Hdst. destruct (parent_ok (fs w) dst) as [[]|e]; reflexivity.
Qed.


(** What [sort_file_in] does after it has made sure of the directory:
    it stops at a taken target, and otherwise renames the source. *)
Lemma sort_file_in_steps outfile infile w w' r :
  sort_file_in outfile infile w = (w', r) ->
  (exists e, r = Raise e /\ only_new_dirs (fs w) (fs w')) \/
  (exists w1,
     only_new_dirs (fs w) (fs w1) /\
     stat (fs w1) outfile = None /\
     rename infile outfile w1 = (w', r)).
Proof.
  unfold sort_file_in. unfold bind at 1. unfold path_exists at 1.
  unfold bind at 1.
  set (m := if negb _ then makedirs (PosixPath.dirname outfile) false else ret tt).
  assert (adds_dirs m) as Hm.
  { subst m. destruct (negb _); [apply adds_makedirs|apply adds_ret]. }
  specialize (Hm w). destruct (m w) as [w1 [[]|e]]; cbn [fst] in Hm.
  - unfold bind, path_exists.
    destruct (stat (fs w1) outfile) as [n|] eqn:Hout.
    + unfold raise. intros [= <- <-]. left. eauto.
    + unfold shutil_move, bind, isdir. rewrite Hout.
      intros Hrun. right. exists w1. auto.
  - intros [= <- <-]. left. eauto.
Qed.

Lemma stat_grows f f' p n :
  only_new_dirs f f' -> stat f p = Some n -> stat f' p = Some n.
Proof.
  intros Hg. unfold stat. destruct (String.eqb p ""); [auto|].
  destruct (PosixPath.all_sep p); [auto|].
  intros Hp. destruct (Hg p) as [->|[Hn _]]; [exact Hp|congruence].
Qed.

Lemma stat_grows_None f f' p :
  only_new_dirs f f' -> stat f' p = None -> stat f p = None.
Proof.
  intros Hg Hp. destruct (stat f p) as [n|] eqn:Hs; [|reflexivity].
  rewrite (stat_grows _ _ _ _ Hg Hs) in Hp. discriminate Hp.
Qed.

(** X9. A call of [sort_file_in] on a regular file that ends normally has
    found the target free; afterwards the target holds the bytes of the
    source, the source is gone, and every other path is as before, or is
    a directory that was created. *)
Theorem sort_file_in_moves_the_file
    (outfile infile : string) (w w' : world) (c : content) :
  sort_file_in outfile infile w = (w', Ok tt) ->
  stat (fs w) infile = Some (File c) ->
  stat (fs w) outfile = None /\
  fs w' !! outfile = Some (File c) /\
  fs w' !! infile = None /\
  forall p, p <> infile -> p <> outfile ->
    fs w' !! p = fs w !! p \/ (fs w !! p = None /\ fs w' !! p = Some Dir).
Proof.
  intros Hrun Hin.
  apply sort_file_in_steps in Hrun as [(e & He & _)|(w1 & Hg & Hout & Hrun)];
    [discriminate He|].
  pose proof (stat_grows _ _ _ _ Hg Hin) as Hin1.
  rewrite (rename_file _ _ _ _ Hin1 Hout) in Hrun.
  destruct (parent_ok (fs w1) outfile) as [[]|e]; [|discriminate Hrun].
  injection Hrun as <-. cbn [fs].
  assert (outfile <> infile) as Hne.
  { intros ->. rewrite Hout in Hin1. discriminate Hin1. }
  split; [apply (stat_grows_None _ _ _ Hg Hout)|].
  split; [apply lookup_insert_eq|].
  split.
  - rewrite lookup_insert_ne by exact Hne. apply lookup_delete_eq.
  - intros p Hp1 Hp2.
    rewrite lookup_insert_ne by congruence. rewrite lookup_delete_ne by congruence.
    apply Hg.
Qed.

Lemma sort_file_in_moves_the_file_witness :
  stat (fs fresh) "out/2024/b.jpg" = None /\
  fs (fst (sort_file_in "out/2024/b.jpg" "in/b.jpg" fresh)) !! "out/2024/b.jpg"
  = Some (File (Data "AAA")) /\
  fs (fst (sort_file_in "out/2024/b.jpg" "in/b.jpg" fresh)) !! "in/b.jpg" = None /\
  forall p, p <> "in/b.jpg" -> p <> "out/2024/b.jpg" ->
    fs (fst (sort_file_in "out/2024/b.jpg" "in/b.jpg" fresh)) !! p = fs fresh !! p \/
    (fs fresh !! p = None /\
     fs (fst (sort_file_in "out/2024/b.jpg" "in/b.jpg" fresh)) !! p = Some Dir).
Proof.
  apply (sort_file_in_moves_the_file "out/2024/b.jpg" "in/b.jpg" fresh
           (fst (sort_file_in "out/2024/b.jpg" "in/b.jpg" fresh)) (Data "AAA"));
    vm_compute; reflexivity.
Defined.



(** *** Carrying out a plan *)

Lemma stat_moved f src dst n p :
  p <> src -> p <> dst -> stat (<[dst := n]> (delete src f)) p = stat f p.
Proof.
  intros Hs Hd. unfold stat. destruct (String.eqb p ""); [reflexivity|].
  destruct (PosixPath.all_sep p); [reflexivity|].
  rewrite lookup_insert_ne by congruence. apply lookup_delete_ne. congruence.
Qed.

Lemma sort_file_in_run outfile infile c w :
  stat (fs w) (PosixPath.dirname outfile) = Some Dir ->
  stat (fs w) outfile = None ->
  stat (fs w) infile = Some (File c) ->
  sort_file_in outfile infile w =
    (mkWorld (<[outfile := File c]> (delete infile (fs w)))
       (trace w ++ [EvMove infile outfile]), Ok tt).
Proof.
  intros Hdir Hout Hin.
  unfold sort_file_in. unfold bind at 1. unfold path_exists at 1. rewrite Hdir.
  cbn [negb]. unfold bind at 1. unfold ret at 1.
  unfold bind at 1. unfold path_exists at 1. rewrite Hout.
  unfold shutil_move. unfold bind at 1. unfold isdir at 1. rewrite Hout.
  rewrite (rename_file _ _ _ _ Hin Hout).
  unfold parent_ok. rewrite Hdir.
  destruct (String.eqb _ ""); reflexivity.
Qed.

(** X11. When the targets of a plan are free and all different, their
    directories exist, and the sources are regular files, all
    different, the loop of [do_move_files] ends normally after one move
    per entry, in the order of the plan; every target then holds what
    its source held, no source is left, and nothing else has changed. *)
Theorem move_all_carries_out_the_plan (moves : dict string) (w : world) :
  NoDup (keys moves) ->
  NoDup (map snd moves) ->
  (forall dst src, In (dst, src) moves ->
     stat (fs w) (PosixPath.dirname dst) = Some Dir /\
     stat (fs w) dst = None /\
     exists c, stat (fs w) src = Some (File c)) ->
  exists w',
    move_all moves w = (w', Ok tt) /\
    trace w' = trace w ++ map move_event moves /\
    (forall dst src, In (dst, src) moves ->
       fs w' !! dst = fs w !! src /\ fs w' !! src = None) /\
    (forall p, ~ touched moves p -> fs w' !! p = fs w !! p).
Proof.
  revert w. induction moves as [|[dst src] rest IH]; intros w Hk Hs Hpre.
  - exists w. split; [reflexivity|]. split; [cbn [map]; rewrite app_nil_r; reflexivity|].
    split; [intros ? ? []|reflexivity].
  - cbn [keys map fst snd] in Hk, Hs.
    apply NoDup_cons in Hk as [Hdst Hk]. apply NoDup_cons in Hs as [Hsrc Hs].
    destruct (Hpre dst src (or_introl eq_refl)) as (Hdir & Hfree & c & Hfile).
    assert (forall d s, In (d, s) rest ->
              d <> dst /\ d <> src /\ s <> src /\ s <> dst /\
              PosixPath.dirname d <> dst /\ PosixPath.dirname d <> src) as Hneq.
    { intros d s Hin.
      destruct (Hpre d s (or_intror Hin)) as (Hdir' & Hfree' & c' & Hfile').
      repeat split; intros Heq.
      - apply Hdst. apply list_elem_of_In. rewrite <- Heq. apply (in_map fst _ _ Hin).
      - rewrite Heq, Hfile in Hfree'. discriminate Hfree'.
      - apply Hsrc. apply list_elem_of_In. rewrite <- Heq. apply (in_map snd _ _ Hin).
      - rewrite Heq, Hfree in Hfile'. discriminate Hfile'.
      - rewrite Heq, Hfree in Hdir'. discriminate Hdir'.
      - rewrite Heq, Hfile in Hdir'. discriminate Hdir'. }
    set (w1 := mkWorld (<[dst := File c]> (delete src (fs w)))
                 (trace w ++ [EvMove src dst])).
    destruct (IH w1 Hk Hs) as (w' & Hrun & Htrace & Hmoved & Hframe).
    { intros d s Hin.
      destruct (Hpre d s (or_intror Hin)) as (Hdir' & Hfree' & c' & Hfile').
      destruct (Hneq d s Hin) as (H1 & H2 & H3 & H4 & H5 & H6).
      subst w1. cbn [fs]. rewrite !stat_moved by assumption. eauto. }
    assert (dst <> src) as Hds.
    { intros Heq. rewrite Heq, Hfile in Hfree. discriminate Hfree. }
    assert (~ touched rest dst) as Hdst'.
    { intros [Hin|Hin]; [apply Hdst; apply list_elem_of_In; exact Hin|].
      apply in_map_iff in Hin as ([d s] & Heq & Hin). cbn [snd] in Heq. subst s.
      destruct (Hneq d dst Hin) as (_ & _ & _ & H4 & _). apply H4. reflexivity. }
    assert (~ touched rest src) as Hsrc'.
    { intros [Hin|Hin]; [|apply Hsrc; apply list_elem_of_In; exact Hin].
      apply in_map_iff in Hin as ([d s] & Heq & Hin). cbn [fst] in Heq. subst d.
      destruct (Hneq src s Hin) as (_ & H2 & _). apply H2. reflexivity. }
    exists w'. split; [|split; [|split]].
    + unfold move_all in *. rewrite for_each_cons. cbn [fst snd].
      rewrite (sort_file_in_run _ _ _ _ Hdir Hfree Hfile). exact Hrun.
    + rewrite Htrace. subst w1. cbn [trace map]. rewrite <- app_assoc. reflexivity.
    + intros d s [[= <- <-]|Hin].
      * rewrite (Hframe dst Hdst'), (Hframe src Hsrc'). subst w1. cbn [fs]. split.
        -- rewrite lookup_insert_eq. symmetry. apply (stat_File _ _ _ Hfile).
        -- rewrite lookup_insert_ne by exact Hds. apply lookup_delete_eq.
      * destruct (Hmoved d s Hin) as [Hd Hs']. split; [|exact Hs'].
        rewrite Hd. subst w1. cbn [fs].
        destruct (Hneq d s Hin) as (_ & _ & H3 & H4 & _).
        rewrite lookup_insert_ne by congruence. apply lookup_delete_ne. congruence.
    + intros p Hp.
      assert (~ touched rest p) as Hp'.
      { intros [Hin|Hin]; apply Hp; [left|right]; right; exact Hin. }
      rewrite (Hframe p Hp'). subst w1. cbn [fs].
      rewrite lookup_insert_ne.
      * apply lookup_delete_ne. intros ->. apply Hp. right. left. reflexivity.
      * intros ->. apply Hp. left. left. reflexivity.
Qed.

Lemma move_all_carries_out_the_plan_witness :
  exists w',
    move_all two_new one_known = (w', Ok tt) /\
    trace w' = trace one_known ++ map move_event two_new /\
    (forall dst src, In (dst, src) two_new ->
       fs w' !! dst = fs one_known !! src /\ fs w' !! src = None) /\
    (forall p, ~ touched two_new p -> fs w' !! p = fs one_known !! p).
Proof.
  apply (move_all_carries_out_the_plan two_new one_known).
  - apply (bool_decide_unpack _). vm_compute. exact I.
  - apply (bool_decide_unpack _). vm_compute. exact I.
  - intros dst src [[= <- <-]|[[= <- <-]|[]]];
      (split; [vm_compute; reflexivity|]; split; [vm_compute; reflexivity|]);
      eexists; vm_compute; reflexivity.
Defined.

End Moves.

(** ** An Apply run as a whole *)

Module ApplyRun.
Import Props Notions.
Import PyStr PyDict Sys Os Organizer Frame Facts Reconcile Executor Rerun LedgerFacts
  Scenario.
Local Open Scope pyio_scope.

(** *** The moves are those of the plan *)

Lemma rename_events src dst : emits (fun ev => ev = EvMove src dst) (rename src dst).
Proof.
  unfold rename. apply emits_bind; [apply emits_get_fs|]. intros f.
  destruct (stat f src) as [[c|]|]; [| |apply emits_raise].
  - destruct (stat f dst) as [[c'|]|]; try apply emits_raise;
      (apply emits_bind; [apply emits_lift|]; intros _;
       apply emits_bind; [apply emits_set_fs|]; intros _;
       apply emits_emit; reflexivity).
  - destruct (stat f dst) as [[c'|]|]; try apply emits_raise.
    apply emits_bind; [apply emits_lift|]; intros _.
    apply emits_bind; [apply emits_set_fs|]; intros _.
    apply emits_emit; reflexivity.
Qed.

Lemma sort_file_in_events moves outfile infile w :
  In (outfile, infile) moves ->
  emits_at (planned_move moves) (sort_file_in outfile infile) w.
Proof.
  intros Hin. unfold sort_file_in.
  apply emits_at_bind; [apply emits_emits_at, emits_path_exists|]. intros ex w1 _.
  apply emits_at_bind.
  { apply emits_emits_at. destruct (negb ex); [|apply emits_ret].
    apply emits_makedirs. intros p. exact I. }
  intros _ w2 _.
  apply emits_at_bind; [apply emits_emits_at, emits_path_exists|]. intros ex2 w3 Hex.
  unfold path_exists in Hex. injection Hex as <- <-.
  destruct (stat (fs w2) outfile) as [n|] eqn:Hout;
    [apply emits_emits_at, emits_raise|].
  unfold shutil_move.
  apply emits_at_bind; [apply emits_emits_at, emits_isdir|]. intros d w4 Hd.
  unfold isdir in Hd. rewrite Hout in Hd. injection Hd as <- <-.
  apply emits_emits_at. apply (emits_weaken (fun ev => ev = EvMove infile outfile)).
  - intros ev ->. exact Hin.
  - apply rename_events.
Qed.

Lemma emits_at_for_each {A} P (l : list A) (body : A -> M unit) :
  (forall x, In x l -> forall w, emits_at P (body x) w) ->
  forall w, emits_at P (for_each l body) w.
Proof.
  induction l as [|x l IH]; intros Hbody w.
  - apply emits_emits_at, emits_ret.
  - cbn [for_each]. apply emits_at_bind.
    + apply Hbody. left. reflexivity.
    + intros _ w1 _. apply IH. intros y Hy. apply Hbody. right. exact Hy.
Qed.

Lemma move_all_events moves w : emits_at (planned_move moves) (move_all moves) w.
Proof.
  unfold move_all. apply emits_at_for_each. intros [dst src] Hin w1.
  apply sort_file_in_events. exact Hin.
Qed.

Lemma emits_at_In {A} P (m : M A) w evs ev :
  emits_at P m w -> trace (fst (m w)) = trace w ++ evs -> In ev evs -> P ev.
Proof.
  intros (evs' & Ht & Hall) Ht' Hin.
  rewrite Ht in Ht'. apply app_inv_head in Ht'. subst evs'.
  apply (proj1 (List.Forall_forall _ _) Hall _ Hin).
Qed.

(** X12. Whatever an Apply run moves is an entry of the plan that
    [create_moves] built and that reconciliation left in it: the file is
    moved from the source of the entry to its target, and the target has
    the base name of no ledger key. *)
Theorem apply_moves_only_planned_entries
    (pictures : list (datetime * string)) (out : string) (w : world) :
  exists evs,
    trace (fst (do_move_files pictures out w)) = trace w ++ evs /\
    forall src dst, In (EvMove src dst) evs ->
      exists moves,
        Plan.create_moves pictures out = Ok moves /\
        In (dst, src) moves /\
        unknown_name (keys (ledger_of (fs w) (PosixPath.join out "info.json")))
          (dst, src) = true.
Proof.
  set (json_file := PosixPath.join out "info.json").
  set (P := fun ev =>
              match ev with
              | EvMove src dst =>
                  exists moves,
                    Plan.create_moves pictures out = Ok moves /\
                    In (dst, src) moves /\
                    unknown_name (keys (ledger_of (fs w) json_file)) (dst, src) = true
              | _ => True
              end).
  assert (emits_at P (do_move_files pictures out) w) as (evs & Ht & Hall).
  { unfold do_move_files. fold json_file.
    apply emits_at_bind.
    { apply emits_emits_at, emits_emit. exact I. }
    intros [] w1 Hprint. rewrite print_run in Hprint. injection Hprint as <-.
    apply emits_at_bind; [apply emits_emits_at, emits_lift|].
    intros moves w2 Hplan. unfold lift in Hplan. injection Hplan as <- Hplan.
    apply emits_at_bind.
    { apply (emits_at_weaken
               (reconcile_event
                  (keys (ledger_of (fs w) json_file)) moves (fs w)));
        [|apply (reconcile_events moves json_file false
                   (mkWorld (fs w) (trace w ++ [EvPrint "Moving files..."])))].
      intros [] Hev; first [exact I | destruct Hev]. }
    intros [moves' n] w3 Hrec.
    apply check_update_Ok in Hrec. apply reconcile_loop_filter in Hrec.
    cbn [fs] in Hrec.
    apply emits_at_bind.
    { apply (emits_at_weaken (planned_move moves')); [|apply move_all_events].
      intros ev Hev. destruct ev as [| | |src dst| |]; try exact I; try (destruct Hev; fail).
      cbn [planned_move] in Hev. rewrite Hrec in Hev. apply filter_In in Hev as [Hin Hun].
      exists moves. auto. }
    intros _ w4 _. apply emits_emits_at.
    apply emits_bind.
    - apply emits_append_moves_to_json; intros; exact I.
    - intros _. destruct (0 <? n); [apply emits_emit; exact I|apply emits_ret]. }
  exists evs. split; [exact Ht|]. intros src dst Hin.
  apply (proj1 (List.Forall_forall _ _) Hall _ Hin).
Qed.

(** *** The ledger is written last *)

Lemma writes_last_before path {A B} (m : M A) (k : A -> M B) :
  emits no_write m -> (forall a, writes_last path (k a)) ->
  writes_last path (bind m k).
Proof.
  intros Hm Hk w. unfold bind. destruct (Hm w) as (evs1 & Ht1 & H1).
  destruct (m w) as [w1 [a|e]]; cbn [fst snd] in *.
  - destruct (Hk a w1) as (evs2 & Ht2 & H2).
    exists (evs1 ++ evs2). split; [rewrite Ht2, Ht1, app_assoc; reflexivity|].
    destruct (snd (k a w1)) as [b|e]; cbn [written_last] in *.
    + destruct H2 as (before & after & -> & Hb & Ha).
      exists (evs1 ++ before), after. split; [rewrite app_assoc; reflexivity|].
      split; [apply Forall_app; split; assumption|exact Ha].
    + apply Forall_app. split; assumption.
  - exists evs1. split; [exact Ht1|exact H1].
Qed.

Lemma writes_last_after path {A B} (m : M A) (k : A -> M B) :
  writes_last path m -> (forall a, reports (k a)) ->
  writes_last path (bind m k).
Proof.
  intros Hm Hk w. unfold bind. destruct (Hm w) as (evs1 & Ht1 & H1).
  destruct (m w) as [w1 [a|e]]; cbn [fst snd] in *.
  - destruct (Hk a w1) as (evs2 & b & -> & H2). cbn [fst snd trace written_last].
    destruct H1 as (before & after & -> & Hb & Ha).
    exists ((before ++ EvWrite path :: after) ++ evs2).
    split; [rewrite Ht1, <- !app_assoc; reflexivity|].
    exists before, (after ++ evs2).
    split; [rewrite <- app_assoc; reflexivity|].
    split; [exact Hb|apply Forall_app; split; assumption].
  - exists evs1. split; [exact Ht1|exact H1].
Qed.

Lemma writes_last_json_dump obj path : writes_last path (json_dump obj path).
Proof.
  intros w. unfold json_dump, bind, get_fs, lift, set_fs, emit, raise.
  assert (exists evs,
            trace w = trace w ++ evs /\ @written_last path unit (Raise (ValueError "")) evs)
    as Hraise.
  { exists []. rewrite app_nil_r. split; [reflexivity|constructor]. }
  destruct (String.eqb path ""); [exact Hraise|].
  assert (exists evs,
            trace (fst (match parent_ok (fs w) path with
                        | Ok _ => (mkWorld (<[path := File (Json obj)]> (fs w))
                                     (trace w ++ [EvWrite path]), Ok tt)
                        | Raise e => (w, Raise e)
                        end)) = trace w ++ evs /\
            written_last path
              (snd (match parent_ok (fs w) path with
                    | Ok _ => (mkWorld (<[path := File (Json obj)]> (fs w))
                                 (trace w ++ [EvWrite path]), Ok tt)
                    | Raise e => (w, Raise e)
                    end)) evs) as Hdump.
  { destruct (parent_ok (fs w) path) as [[]|e]; [|exact Hraise].
    exists [EvWrite path]. split; [reflexivity|].
    exists [], []. split; [reflexivity|]. split; constructor. }
  destruct (stat (fs w) path) as [[c|]|]; [exact Hdump|exact Hraise|exact Hdump].
Qed.

Lemma reports_ret {A} (a : A) : reports (ret a).
Proof.
  intros w. exists [], a. rewrite app_nil_r. split; [destruct w; reflexivity|constructor].
Qed.

Lemma reports_print line : reports (print line).
Proof.
  intros w. exists [EvPrint line], tt. rewrite print_run.
  split; [reflexivity|]. constructor; [exact I|constructor].
Qed.

Lemma no_write_reconcile moves json_file dry_run :
  emits no_write (check_update_old_info moves json_file dry_run).
Proof.
  intros w.
  apply (emits_at_weaken
           (reconcile_event (keys (ledger_of (fs w) json_file)) moves (fs w)));
    [|apply reconcile_events].
  intros [] Hev; first [exact I | destruct Hev].
Qed.

Lemma writes_last_append moves json_file :
  writes_last json_file (append_moves_to_json moves json_file false).
Proof.
  unfold append_moves_to_json.
  apply writes_last_before; [apply emits_load_old_info|]. intros old_info.
  apply writes_last_before.
  { apply emits_for_each. intros k. destruct (mem k moves); [|apply emits_ret].
    apply emits_bind; [apply emits_emit; exact I|]. intros _. apply emits_raise. }
  intros _. apply writes_last_after; [|intros _; apply reports_ret].
  cbn [negb].
  apply writes_last_before; [apply emits_path_exists|]. intros present.
  apply writes_last_before; [|intros _; apply writes_last_json_dump].
  destruct (negb present); [|apply emits_ret].
  apply emits_makedirs. intros p. exact I.
Qed.

(** X13. An Apply run writes one file, the ledger, and writes it last:
    when the run raises, nothing was written; when it ends normally,
    the ledger was written once, after every comparison, removal and
    move, and only the report of the duplicates may follow. *)
Theorem apply_writes_the_ledger_last
    (pictures : list (datetime * string)) (out : string) (w : world) :
  exists evs,
    trace (fst (do_move_files pictures out w)) = trace w ++ evs /\
    written_last (PosixPath.join out "info.json")
      (snd (do_move_files pictures out w)) evs.
Proof.
  revert w. change (writes_last (PosixPath.join out "info.json")
                      (do_move_files pictures out)).
  unfold do_move_files.
  apply writes_last_before; [apply emits_emit; exact I|]. intros _.
  apply writes_last_before; [apply emits_lift|]. intros moves.
  apply writes_last_before; [apply no_write_reconcile|]. intros [moves' n].
  apply writes_last_before.
  { apply emits_move_all; intros; exact I. }
  intros _. apply writes_last_after; [apply writes_last_append|].
  intros _. destruct (0 <? n); [apply reports_print|apply reports_ret].
Qed.

(** *** The ledger of a completed run *)

Lemma get_update_other {V} (other : dict V) :
  forall d k, ~ In k (keys other) -> get (update d other) k = get d k.
Proof.
  unfold update. induction other as [|[k0 v0] other IH]; intros d k Hk; [reflexivity|].
  cbn [fold_left fst snd]. rewrite IH.
  - rewrite PlanShape.get_set. destruct (String.eqb_spec k0 k) as [->|_]; [|reflexivity].
    exfalso. apply Hk. left. reflexivity.
  - intros Hin. apply Hk. right. exact Hin.
Qed.

Lemma get_update_new {V} (other : dict V) :
  forall d k v, NoDup (keys other) -> In (k, v) other -> get (update d other) k = Some v.
Proof.
  induction other as [|[k0 v0] other IH]; intros d k v Hnd Hin; [destruct Hin|].
  cbn [keys map fst] in Hnd. apply NoDup_cons in Hnd as [Hk0 Hnd].
  destruct Hin as [[= -> ->]|Hin].
  - unfold update. cbn [fold_left fst snd]. fold (update (set d k v) other).
    rewrite get_update_other.
    + rewrite PlanShape.get_set, String.eqb_refl. reflexivity.
    + intros Hin. apply Hk0. apply list_elem_of_In. exact Hin.
  - unfold update. cbn [fold_left fst snd]. fold (update (set d k0 v0) other).
    apply IH; assumption.
Qed.

Lemma NoDup_keys_filter {V} (f : string * V -> bool) (d : dict V) :
  NoDup (keys d) -> NoDup (keys (List.filter f d)).
Proof.
  induction d as [|[k v] d IH]; intros Hnd; [constructor|].
  cbn [keys map fst] in Hnd. apply NoDup_cons in Hnd as [Hk Hnd].
  cbn [List.filter]. destruct (f (k, v)); [|apply IH; exact Hnd].
  cbn [keys map fst]. apply NoDup_cons. split; [|apply IH; exact Hnd].
  intros Hin. apply Hk. apply list_elem_of_In. apply list_elem_of_In in Hin.
  apply in_map_iff in Hin as ([k' v'] & Heq & Hin). cbn [fst] in Heq. subst k'.
  apply filter_In in Hin as [Hin _]. apply (in_map fst _ _ Hin).
Qed.

Lemma append_Ok moves json_file w w' r :
  append_moves_to_json moves json_file false w = (w', Ok r) ->
  r = update (ledger_of (fs w) json_file) moves /\ ledger_written (fs w') json_file r.
Proof.
  unfold append_moves_to_json. intros H.
  apply bind_Ok_inv in H as (w1 & old_info & Hload & H).
  destruct (load_old_info_run json_file w) as (r0 & Hrun & Hobj).
  rewrite Hrun in Hload. injection Hload as <- ->.
  rewrite <- (Hobj old_info eq_refl).
  apply bind_Ok_inv in H as (w2 & [] & _ & H).
  apply bind_Ok_inv in H as (w3 & [] & H & Hret).
  injection Hret as <- <-. split; [reflexivity|]. cbn [negb] in H.
  apply bind_Ok_inv in H as (w4 & present & _ & H).
  apply bind_Ok_inv in H as (w5 & [] & _ & H).
  apply (json_dump_Ok _ _ _ _ _ H).
Qed.

Lemma no_move_reconcile moves json_file dry_run :
  emits no_move (check_update_old_info moves json_file dry_run).
Proof.
  intros w.
  apply (emits_at_weaken
           (reconcile_event (keys (ledger_of (fs w) json_file)) moves (fs w)));
    [|apply reconcile_events].
  intros [] Hev; first [exact I | destruct Hev].
Qed.

Lemma emits_run {A} P (m : M A) w w' r :
  emits_at P m w -> m w = (w', r) ->
  exists evs, trace w' = trace w ++ evs /\ Forall P evs.
Proof. intros (evs & Ht & Hall) Hrun. rewrite Hrun in Ht. eauto. Qed.

(** X14. After an Apply run that ended normally, the ledger file holds an
    entry for every move the run made: the target of the move is a key,
    and its value is the path the file was moved from. *)
Theorem completed_apply_records_every_move
    (pictures : list (datetime * string)) (out : string) (w w' : world) :
  do_move_files pictures out w = (w', Ok tt) ->
  exists evs obj,
    trace w' = trace w ++ evs /\
    ledger_written (fs w') (PosixPath.join out "info.json") obj /\
    forall src dst, In (EvMove src dst) evs -> get obj dst = Some src.
Proof.
  unfold do_move_files. set (json_file := PosixPath.join out "info.json"). intros H.
  apply bind_Ok_inv in H as (wa & [] & Hprint & H).
  apply bind_Ok_inv in H as (wb & moves & Hplan & H).
  apply bind_Ok_inv in H as (wc & [moves' n] & Hrec & H).
  apply bind_Ok_inv in H as (wd & [] & Hmove & H).
  apply bind_Ok_inv in H as (we & r & Happ & Hfin).
  unfold lift in Hplan. injection Hplan as <- Hplan.
  assert (NoDup (keys moves')) as Hnd.
  { apply check_update_Ok in Hrec. apply reconcile_loop_filter in Hrec. subst moves'.
    apply NoDup_keys_filter. apply (PlanShape.plan_keys_NoDup _ _ _ Hplan). }
  destruct (append_Ok _ _ _ _ _ Happ) as [-> Hledger].
  destruct (emits_run no_move _ _ _ _
              (emits_emits_at _ _ _
                 (emits_emit no_move (EvPrint "Moving files...") I)) Hprint)
    as (evs1 & Ht1 & Hall1).
  destruct (emits_run no_move _ _ _ _
              (emits_emits_at _ _ _ (no_move_reconcile _ _ _)) Hrec)
    as (evs2 & Ht2 & Hall2).
  destruct (emits_run _ _ _ _ _ (move_all_events moves' wc) Hmove)
    as (evs3 & Ht3 & Hall3).
  destruct (emits_run no_move _ _ _ _
              (emits_emits_at _ _ _
                 (emits_append_moves_to_json no_move (fun _ => I) (fun _ => I)
                    (fun _ => I) moves' json_file false)) Happ)
    as (evs4 & Ht4 & Hall4).
  assert (exists evs5, trace w' = trace we ++ evs5 /\ Forall no_move evs5 /\
                       fs w' = fs we) as (evs5 & Ht5 & Hall5 & Hfs).
  { destruct (0 <? n).
    - rewrite print_run in Hfin. injection Hfin as <-.
      exists [EvPrint (deleted_msg n)]. split; [reflexivity|].
      split; [constructor; [exact I|constructor]|reflexivity].
    - unfold ret in Hfin. injection Hfin as <-.
      exists []. rewrite app_nil_r. split; [reflexivity|]. split; [constructor|reflexivity]. }
  exists (evs1 ++ evs2 ++ evs3 ++ evs4 ++ evs5), (update (ledger_of (fs wd) json_file) moves').
  split; [rewrite Ht5, Ht4, Ht3, Ht2, Ht1, <- !app_assoc; reflexivity|].
  split; [rewrite Hfs; exact Hledger|].
  intros src dst Hin.
  assert (forall evs, Forall no_move evs -> In (EvMove src dst) evs -> False) as Hno.
  { intros evs Hall Hev. apply (proj1 (List.Forall_forall _ _) Hall _ Hev). }
  apply in_app_or in Hin as [Hin|Hin]; [destruct (Hno _ Hall1 Hin)|].
  apply in_app_or in Hin as [Hin|Hin]; [destruct (Hno _ Hall2 Hin)|].
  apply in_app_or in Hin as [Hin|Hin].
  - apply get_update_new; [exact Hnd|].
    apply (proj1 (List.Forall_forall _ _) Hall3 _ Hin).
  - apply in_app_or in Hin as [Hin|Hin]; [destruct (Hno _ Hall4 Hin)|].
    destruct (Hno _ Hall5 Hin).
Qed.

Lemma completed_apply_records_every_move_witness :
  exists evs obj,
    trace after_fresh = trace fresh ++ evs /\
    ledger_written (fs after_fresh) (PosixPath.join "out" "info.json") obj /\
    forall src dst, In (EvMove src dst) evs -> get obj dst = Some src.
Proof.
  apply (completed_apply_records_every_move one_picture "out" fresh after_fresh).
  vm_compute. reflexivity.
Defined.

End ApplyRun.

(** ** The fallback on the days it can reject, and the cleaner in general *)

Module FallbackFacts.
Import Props Notions.
Import Timestamp.

(** X15. The test of the file-metadata fallback needs the month number of
    the current date to be its day number.  On every other day the
    fallback returns the earlier of the two file times, also for a file
    of the current day; on such a day it rejects every file whose
    earlier time lies on the current date. *)
Theorem fallback_rejects_on_matching_month_and_day_only
    (getctime getmtime : string -> outcome Z) (fromtimestamp : Z -> datetime)
    (now : datetime) (path : string) (ctime mtime : Z) :
  getctime path = Ok ctime ->
  getmtime path = Ok mtime ->
  let min_time := fromtimestamp (Z.min ctime mtime) in
  (month now <> day now ->
   extract_timestamp_from_filemeta getctime getmtime fromtimestamp now path
   = Ok min_time) /\
  (month now = day now -> same_date min_time now = true ->
   extract_timestamp_from_filemeta getctime getmtime fromtimestamp now path
   = Raise (ValueError ("Suspicious timestamp " +:+ str_datetime min_time))).
Proof.
  intros Hc Hm min_time. unfold extract_timestamp_from_filemeta.
  rewrite Hc, Hm. fold min_time. split.
  - intros Hne.
    assert (suspicious now min_time = false) as ->; [|reflexivity].
    unfold suspicious.
    destruct (Nat.eqb_spec (month min_time) (month now)) as [Ha|_];
      [|apply andb_false_r].
    destruct (Nat.eqb_spec (month now) (day min_time)) as [Hb|_];
      [|apply andb_false_r].
    destruct (Nat.eqb_spec (day min_time) (day now)) as [Hd|_];
      [|apply andb_false_r].
    exfalso. apply Hne. congruence.
  - intros Heq Hsame.
    assert (suspicious now min_time = true) as ->; [|reflexivity].
    unfold same_date in Hsame. rewrite !andb_true_iff in Hsame.
    destruct Hsame as ((Hy & Hmo) & Hd).
    apply Nat.eqb_eq in Hmo, Hd.
    unfold suspicious. rewrite Hy. cbn [andb].
    rewrite !andb_true_iff, !Nat.eqb_eq. repeat split; congruence.
Qed.

Lemma fallback_rejects_on_matching_month_and_day_only_witness :
  let min_time := utc_fromtimestamp (Z.min march5_10h march5_12h) in
  (month (mkDatetime 2024 3 5 23 0 0) <> day (mkDatetime 2024 3 5 23 0 0) ->
   extract_timestamp_from_filemeta (fun _ => Ok march5_10h) (fun _ => Ok march5_12h)
     utc_fromtimestamp (mkDatetime 2024 3 5 23 0 0) "in/a.png"
   = Ok min_time) /\
  (month (mkDatetime 2024 3 5 23 0 0) = day (mkDatetime 2024 3 5 23 0 0) ->
   same_date min_time (mkDatetime 2024 3 5 23 0 0) = true ->
   extract_timestamp_from_filemeta (fun _ => Ok march5_10h) (fun _ => Ok march5_12h)
     utc_fromtimestamp (mkDatetime 2024 3 5 23 0 0) "in/a.png"
   = Raise (ValueError ("Suspicious timestamp " +:+ str_datetime min_time))).
Proof.
  apply (fallback_rejects_on_matching_month_and_day_only
           (fun _ => Ok march5_10h) (fun _ => Ok march5_12h) utc_fromtimestamp
           (mkDatetime 2024 3 5 23 0 0) "in/a.png" march5_10h march5_12h);
    reflexivity.
Defined.

End FallbackFacts.

Module CleanupFacts.
Import Props Notions.
Import PyStr Cleaner Listing Facts Cleanup.

Lemma listed_induction (P : listed -> Prop) :
  (forall files subdirs,
      (forall name below, In (name, Some below) subdirs -> P below) ->
      P (Listed files subdirs)) ->
  forall t, P t.
Proof.
  intros H. fix IH 1. intros [files subdirs]. apply H.
  induction subdirs as [|[name [below|]] subdirs IHs]; intros n b Hin.
  - destruct Hin.
  - destruct Hin as [[= <- <-]|Hin]; [apply IH | apply (IHs n b Hin)].
  - destruct Hin as [[=]|Hin]. apply (IHs n b Hin).
Qed.

(** The triple of a name that is only listed would change nothing. *)
Lemma cleanup_step_kept (D : gset string) (dir : string) :
  cleanup_step D (dir, [], ["."]) = D.
Proof. reflexivity. Qed.

(** The loop of [cleanup] over the walk is the loop over the walk of the
    stand-in. *)
Lemma fold_stand_in t :
  forall top (D : gset string),
    fold_left cleanup_step (Cleaner.walk_bottomup top (stand_in t)) D
    = fold_left cleanup_step (Listing.walk_bottomup top t) D.
Proof.
  induction t as [files subdirs IH] using listed_induction.
  intros top D. cbn [stand_in Cleaner.walk_bottomup Listing.walk_bottomup].
  rewrite !fold_left_app, map_map. cbn [fst]. f_equal.
  revert D. induction subdirs as [|[name [below|]] subdirs IHs]; intros D.
  - reflexivity.
  - cbn [map flat_map fst snd]. rewrite !fold_left_app.
    rewrite (IH name below (or_introl eq_refl)).
    apply IHs. intros n b Hin. apply (IH n b). right. exact Hin.
  - cbn [map flat_map fst snd stand_in Cleaner.walk_bottomup app].
    cbn [fold_left]. rewrite cleanup_step_kept.
    apply IHs. intros n b Hin. apply (IH n b). right. exact Hin.
Qed.

Lemma cleanup_deleted_stand_in root t :
  Listing.cleanup_deleted root t = Cleaner.cleanup_deleted root (stand_in t).
Proof.
  unfold Listing.cleanup_deleted, Cleaner.cleanup_deleted.
  symmetry. apply fold_stand_in.
Qed.

Lemma bare_stand_in t : bare t = no_files (stand_in t).
Proof.
  induction t as [files subdirs IH] using listed_induction.
  cbn [bare stand_in no_files]. f_equal.
  induction subdirs as [|[name [below|]] subdirs IHs].
  - reflexivity.
  - cbn [map forallb fst snd]. rewrite (IH name below (or_introl eq_refl)).
    f_equal. apply IHs. intros n b Hin. apply (IH n b). right. exact Hin.
  - cbn [map forallb fst snd]. reflexivity.
Qed.

Lemma bare_dirs_stand_in t : forall top, bare_dirs top t = removed top (stand_in t).
Proof.
  induction t as [files subdirs IH] using listed_induction.
  intros top. cbn [bare_dirs stand_in removed].
  f_equal; [|rewrite (bare_stand_in (Listed files subdirs)); reflexivity].
  induction subdirs as [|[name [below|]] subdirs IHs].
  - reflexivity.
  - cbn [map flat_map fst snd]. rewrite (IH name below (or_introl eq_refl)).
    f_equal. apply IHs. intros n b Hin. apply (IH n b). right. exact Hin.
  - cbn [map flat_map fst snd].
    change (removed (PosixPath.join top name) (DirNode ["."] [])) with (@nil string).
    cbn [app].
    apply IHs. intros n b Hin. apply (IH n b). right. exact Hin.
Qed.

Lemma wf_stand_in t : wf_listed t = wf_tree (stand_in t).
Proof.
  induction t as [files subdirs IH] using listed_induction.
  cbn [wf_listed stand_in wf_tree]. rewrite map_map. cbn [fst]. f_equal.
  induction subdirs as [|[name [below|]] subdirs IHs].
  - reflexivity.
  - cbn [map forallb fst snd]. rewrite (IH name below (or_introl eq_refl)).
    f_equal. apply IHs. intros n b Hin. apply (IH n b). right. exact Hin.
  - cbn [map forallb fst snd wf_tree andb].
    apply IHs. intros n b Hin. apply (IH n b). right. exact Hin.
Qed.

(** When the walk visits every directory it lists, the two cleaners are
    the same. *)
Lemma stand_in_all_visited t : stand_in (all_visited t) = t.
Proof.
  induction t as [files subdirs IH] using dirtree_induction.
  cbn [all_visited stand_in]. f_equal. rewrite map_map. cbn [fst snd].
  induction subdirs as [|[name below] subdirs IHs]; [reflexivity|].
  cbn [map fst snd stand_in].
  pose proof (IH (name, below) (or_introl eq_refl)) as Hb. cbn [snd] in Hb.
  fold stand_in. rewrite Hb.
  f_equal. apply IHs. intros e Hin. apply IH. right. exact Hin.
Qed.

Lemma cleanup_all_visited root t :
  Listing.cleanup_deleted root (all_visited t) = Cleaner.cleanup_deleted root t /\
  Listing.cleanup root (all_visited t) = Cleaner.cleanup root t.
Proof.
  unfold Listing.cleanup, Cleaner.cleanup.
  rewrite cleanup_deleted_stand_in, stand_in_all_visited. split; reflexivity.
Qed.

(** X16. [os.walk] yields a triple for the directories it visits; a
    link to a directory, or a directory it cannot read, is only listed
    among the subdirectories of its parent.  On such a walk, with proper,
    distinct names, [cleanup] removes exactly the visited directories
    below which there is, at any depth, neither a file nor a name that
    is only listed; the root is among them exactly when the whole tree
    is like that; no directory is counted twice, and the result is their
    number. *)
Theorem cleanup_removes_exactly_the_bare_directories
    (root : string) (t : listed) :
  wf_listed t = true ->
  (forall p, p ∈ Listing.cleanup_deleted root t <-> In p (bare_dirs root t)) /\
  (root ∈ Listing.cleanup_deleted root t <-> bare t = true) /\
  List.NoDup (bare_dirs root t) /\
  Listing.cleanup root t = length (bare_dirs root t).
Proof.
  intros Hwf. rewrite wf_stand_in in Hwf.
  pose proof (all_dirs_NoDup (stand_in t) Hwf root) as Hnd.
  unfold Listing.cleanup.
  rewrite cleanup_deleted_stand_in, bare_dirs_stand_in, bare_stand_in.
  rewrite (cleanup_deleted_spec root (stand_in t) Hnd).
  split; [|split; [|split]].
  - intros p. rewrite elem_of_list_to_set. apply list_elem_of_In.
  - rewrite elem_of_list_to_set. apply (root_removed_iff root (stand_in t) Hnd).
  - apply NoDup_ListNoDup. apply removed_NoDup. exact Hnd.
  - apply size_list_to_set. apply removed_NoDup. exact Hnd.
Qed.

Lemma cleanup_removes_exactly_the_bare_directories_witness :
  (forall p, p ∈ Listing.cleanup_deleted "src" with_link
             <-> In p (bare_dirs "src" with_link)) /\
  ("src" ∈ Listing.cleanup_deleted "src" with_link <-> bare with_link = true) /\
  List.NoDup (bare_dirs "src" with_link) /\
  Listing.cleanup "src" with_link = length (bare_dirs "src" with_link).
Proof.
  apply (cleanup_removes_exactly_the_bare_directories "src" with_link).
  reflexivity.
Defined.

(** A directory that holds only a link to a directory is kept, and so is
    everything above it. *)
Example cleanup_keeps_the_parent_of_a_link :
  bare_dirs "src" with_link = ["src/a"] /\
  Listing.cleanup "src" with_link = 1 /\
  ("src/b" ∉ Listing.cleanup_deleted "src" with_link) /\
  ("src" ∉ Listing.cleanup_deleted "src" with_link).
Proof.
  split; [reflexivity|]. split; [vm_compute; reflexivity|].
  split; (apply (proj1 (bool_decide_eq_false _)); vm_compute; reflexivity).
Qed.

(** On a walk that visits everything: *)
Example cleanup_one_left :
  removed "src" one_left = ["src/a"; "src/b/c"; "src/b"; "src/d/e"] /\
  Cleaner.cleanup "src" one_left = 4 /\
  Listing.cleanup "src" (all_visited one_left) = 4.
Proof. repeat split; vm_compute; reflexivity. Qed.

End CleanupFacts.

(** ** The discovery walk *)

Module DiscoveryFacts.
Import Props Notions.
Import PyStr PyDict Cleaner Discovery Facts Naming Plan PlanFacts PlanShape.

Lemma record_paths d path r :
  Permutation (sorted_paths (record_timestamp d path r)) (sorted_paths d ++ [path]).
Proof.
  unfold sorted_paths. destruct r as [t|e]; cbn [record_timestamp Discovery.pictures
    unmatched errors].
  - rewrite map_app. cbn [map snd]. rewrite <- !app_assoc.
    apply Permutation_app_head.
    etransitivity; [apply (Permutation_app_comm [path])|].
    rewrite <- app_assoc. reflexivity.
  - rewrite map_app. cbn [map snd]. rewrite <- !app_assoc. reflexivity.
Qed.

Section readers.
Variable exif_tags : string -> outcome (dict string).
Variable strptime : string -> outcome datetime.
Variable probe : string -> outcome probe_result.
Variable fromisoformat : string -> outcome datetime.
Variable getctime getmtime : string -> outcome Z.
Variable fromtimestamp : Z -> datetime.
Variable now : datetime.

Lemma find_file_paths root d file :
  Permutation
    (sorted_paths (find_file exif_tags strptime probe fromisoformat getctime getmtime
                     fromtimestamp now root d file))
    (sorted_paths d ++ [PosixPath.join root file]).
Proof.
  unfold find_file.
  destruct (endswith_any allowed_picture_extensions file); [apply record_paths|].
  destruct (endswith_any video_extensions file); [apply record_paths|].
  unfold sorted_paths. cbn [Discovery.pictures unmatched errors].
  rewrite <- !app_assoc. do 2 apply Permutation_app_head.
  apply (Permutation_app_comm [PosixPath.join root file]).
Qed.

Lemma find_files_paths root files :
  forall d,
    Permutation
      (sorted_paths
         (fold_left (find_file exif_tags strptime probe fromisoformat getctime getmtime
                       fromtimestamp now root) files d))
      (sorted_paths d ++ map (PosixPath.join root) files).
Proof.
  induction files as [|file files IH]; intros d.
  - cbn [fold_left map]. rewrite app_nil_r. reflexivity.
  - cbn [fold_left map]. rewrite IH, find_file_paths, <- app_assoc. reflexivity.
Qed.

Lemma find_dirs_paths triples :
  forall d,
    Permutation
      (sorted_paths
         (fold_left (find_dir exif_tags strptime probe fromisoformat getctime getmtime
                       fromtimestamp now) triples d))
      (sorted_paths d ++
       flat_map (fun triple => map (PosixPath.join (fst (fst triple))) (snd triple))
         triples).
Proof.
  induction triples as [|[[root dirs] files] triples IH]; intros d.
  - cbn [fold_left flat_map]. rewrite app_nil_r. reflexivity.
  - cbn [fold_left flat_map fst snd]. rewrite IH.
    unfold find_dir.
    rewrite find_files_paths, <- app_assoc. reflexivity.
Qed.

(** X17. [find_pictures] puts every file of the source tree in exactly one
    of its three lists: the paths of the lists together are the paths of
    the walk, each as often as the walk gives it; the two numbers of the
    line it prints add up to the number of files. *)
Theorem find_pictures_sorts_every_file_once
    (source : string) (t : dirtree) (d : discovery) (line : string) :
  find_pictures exif_tags strptime probe fromisoformat getctime getmtime
    fromtimestamp now source (Some t) = Ok (d, line) ->
  Permutation (sorted_paths d) (all_files source t) /\
  length (Discovery.pictures d) + (length (unmatched d) + length (errors d))
  = length (all_files source t) /\
  line = found_msg d.
Proof.
  unfold find_pictures. intros [= <- <-].
  pose proof (find_dirs_paths (walk_topdown source t) (mkDiscovery [] [] [])) as Hperm.
  change (sorted_paths (mkDiscovery [] [] [])) with (@nil string) in Hperm.
  cbn [app] in Hperm.
  split; [exact Hperm|]. split; [|reflexivity].
  apply Permutation_length in Hperm. unfold all_files. rewrite <- Hperm.
  unfold sorted_paths. rewrite !length_app, !length_map. reflexivity.
Qed.

(** *** Every entry is where its reading puts it *)

Lemma find_file_sorted triples root dirs files file d :
  In (root, dirs, files) triples -> In file files ->
  sorted_by_reading exif_tags strptime probe fromisoformat getctime getmtime
    fromtimestamp now triples d ->
  sorted_by_reading exif_tags strptime probe fromisoformat getctime getmtime
    fromtimestamp now triples
    (find_file exif_tags strptime probe fromisoformat getctime getmtime
       fromtimestamp now root d file).
Proof.
  intros Htriple Hfile (Hp & Hu & He).
  assert (forall r,
            reading exif_tags strptime probe fromisoformat getctime getmtime
              fromtimestamp now file (PosixPath.join root file) = Some r ->
            sorted_by_reading exif_tags strptime probe fromisoformat getctime getmtime
              fromtimestamp now triples
              (record_timestamp d (PosixPath.join root file) r)) as Hrec.
  { intros r Hr. destruct r as [t|e]; cbn [record_timestamp];
      (split; [|split]); cbn [Discovery.pictures unmatched errors];
      try assumption.
    - intros ts path Hin. apply in_app_or in Hin as [Hin|[[= <- <-]|[]]];
        [apply Hp; exact Hin|].
      exists root, dirs, files, file. auto.
    - intros e' path Hin. apply in_app_or in Hin as [Hin|[[= <- <-]|[]]];
        [apply He; exact Hin|].
      exists root, dirs, files, file. auto. }
  unfold find_file. unfold reading in Hrec.
  destruct (endswith_any allowed_picture_extensions file) eqn:Hpic;
    [apply Hrec; reflexivity|].
  destruct (endswith_any video_extensions file) eqn:Hv; [apply Hrec; reflexivity|].
  split; [|split]; cbn [Discovery.pictures unmatched errors]; try assumption.
  intros path Hin. apply in_app_or in Hin as [Hin|[<-|[]]]; [apply Hu; exact Hin|].
  exists root, dirs, files, file.
  split; [exact Htriple|]. split; [exact Hfile|]. split; [reflexivity|].
  unfold reading. rewrite Hpic, Hv. reflexivity.
Qed.

Lemma find_files_sorted triples root dirs files :
  In (root, dirs, files) triples ->
  forall some d,
    (forall file, In file some -> In file files) ->
    sorted_by_reading exif_tags strptime probe fromisoformat getctime getmtime
      fromtimestamp now triples d ->
    sorted_by_reading exif_tags strptime probe fromisoformat getctime getmtime
      fromtimestamp now triples
      (fold_left (find_file exif_tags strptime probe fromisoformat getctime getmtime
                    fromtimestamp now root) some d).
Proof.
  intros Htriple. induction some as [|file some IH]; intros d Hsome Hd; [exact Hd|].
  cbn [fold_left]. apply IH.
  - intros f Hf. apply Hsome. right. exact Hf.
  - apply (find_file_sorted triples root dirs files); [exact Htriple| |exact Hd].
    apply Hsome. left. reflexivity.
Qed.

Lemma find_dirs_sorted triples :
  forall some d,
    (forall triple, In triple some -> In triple triples) ->
    sorted_by_reading exif_tags strptime probe fromisoformat getctime getmtime
      fromtimestamp now triples d ->
    sorted_by_reading exif_tags strptime probe fromisoformat getctime getmtime
      fromtimestamp now triples
      (fold_left (find_dir exif_tags strptime probe fromisoformat getctime getmtime
                    fromtimestamp now) some d).
Proof.
  induction some as [|[[root dirs] files] some IH]; intros d Hsome Hd; [exact Hd|].
  cbn [fold_left]. apply IH.
  - intros triple Ht. apply Hsome. right. exact Ht.
  - unfold find_dir. apply (find_files_sorted triples root dirs files).
    + apply Hsome. left. reflexivity.
    + auto.
    + exact Hd.
Qed.

(** X18. Each entry of the lists of [find_pictures] is a file of the walk
    in the list its name and its reading select: a record of [pictures]
    carries the timestamp that the reader selected by the extension
    returned for the path; an entry of [errors] carries the exception
    this reader raised; an entry of [unmatched] has a name that ends in
    none of the picture and video extensions. *)
Theorem find_pictures_sorts_by_extension_and_reading
    (source : string) (t : dirtree) (d : discovery) (line : string) :
  find_pictures exif_tags strptime probe fromisoformat getctime getmtime
    fromtimestamp now source (Some t) = Ok (d, line) ->
  sorted_by_reading exif_tags strptime probe fromisoformat getctime getmtime
    fromtimestamp now (walk_topdown source t) d.
Proof.
  unfold find_pictures. intros [= <- _].
  apply find_dirs_sorted; [auto|].
  split; [|split]; cbn [Discovery.pictures unmatched errors]; intros; contradiction.
Qed.

End readers.

Lemma find_pictures_sorts_every_file_once_witness :
  let d := mkDiscovery [(mkDatetime 2024 3 5 10 0 0, "src/a.png")] ["src/notes.txt"]
             [(OSError "ffprobe", "src/x/v.mp4")] in
  Permutation (sorted_paths d) (all_files "src" mixed_tree) /\
  length (Discovery.pictures d) + (length (unmatched d) + length (errors d))
  = length (all_files "src" mixed_tree) /\
  "Found 1 valid files and 2 invalid files..." = found_msg d.
Proof.
  apply (find_pictures_sorts_every_file_once no_exif no_strptime no_probe no_strptime
           ctime_march5 mtime_march5 Timestamp.utc_fromtimestamp
           (mkDatetime 2024 3 6 9 0 0) "src" mixed_tree).
  vm_compute. reflexivity.
Defined.

Lemma find_pictures_sorts_by_extension_and_reading_witness :
  sorted_by_reading no_exif no_strptime no_probe no_strptime
    ctime_march5 mtime_march5 Timestamp.utc_fromtimestamp
    (mkDatetime 2024 3 6 9 0 0) (walk_topdown "src" mixed_tree)
    (mkDiscovery [(mkDatetime 2024 3 5 10 0 0, "src/a.png")] ["src/notes.txt"]
       [(OSError "ffprobe", "src/x/v.mp4")]).
Proof.
  apply (find_pictures_sorts_by_extension_and_reading no_exif no_strptime no_probe
           no_strptime ctime_march5 mtime_march5 Timestamp.utc_fromtimestamp
           (mkDatetime 2024 3 6 9 0 0) "src" mixed_tree _
           "Found 1 valid files and 2 invalid files...").
  vm_compute. reflexivity.
Defined.

(** *** The extension of the target *)

Lemma endswith_inv suffix s :
  endswith suffix s = true -> exists pre, s = pre +:+ suffix.
Proof.
  induction s as [|a s IH]; cbn [endswith].
  - rewrite orb_false_r. intros H. apply String.eqb_eq in H. subst suffix.
    exists "". reflexivity.
  - destruct (String.eqb_spec suffix (String a s)) as [->|_].
    + intros _. exists "". reflexivity.
    + cbn [orb]. intros H. destruct (IH H) as [pre ->].
      exists (String a pre). rewrite app_cons. reflexivity.
Qed.

Lemma join_suffix a b : exists x, PosixPath.join a b = x +:+ b.
Proof.
  unfold PosixPath.join. destruct (startswith "/" b); [exists ""; reflexivity|].
  destruct (_ || _); [exists a; reflexivity|].
  exists (a +:+ "/"). rewrite app_assoc_s. reflexivity.
Qed.

Lemma rsplit_no_slash s :
  has_char "/" s = false -> PosixPath.rsplit s = ("", s).
Proof.
  induction s as [|a s IH]; [reflexivity|].
  cbn [has_char PosixPath.rsplit]. intros H. apply orb_false_elim in H as [Ha Hs].
  rewrite (IH Hs). unfold PosixPath.sep. rewrite Ha. reflexivity.
Qed.

Lemma rsplit_app_no_slash x s :
  has_char "/" s = false ->
  PosixPath.rsplit (x +:+ s)
  = (fst (PosixPath.rsplit x), snd (PosixPath.rsplit x) +:+ s).
Proof.
  intros Hs. induction x as [|a x IH].
  - rewrite app_empty_l. rewrite (rsplit_no_slash _ Hs). reflexivity.
  - rewrite app_cons. cbn [PosixPath.rsplit]. rewrite IH.
    destruct (PosixPath.rsplit x) as [h t]. cbn [fst snd].
    destruct h as [|b h]; [|reflexivity].
    destruct (Ascii.eqb a PosixPath.sep); [reflexivity|].
    cbn [fst snd]. rewrite app_cons. reflexivity.
Qed.

Lemma ext_of_dotted x e :
  has_char "." e = false -> has_char "/" e = false ->
  ext_of (x +:+ String "." e) = e.
Proof.
  intros Hdot Hslash. unfold ext_of, PosixPath.basename.
  rewrite rsplit_app_no_slash; [|cbn [has_char]; rewrite Hslash; reflexivity].
  cbn [snd]. rewrite split_on_app_sep, (split_on_one _ _ Hdot).
  apply last_last.
Qed.

Lemma known_extension ext :
  In ext (allowed_picture_extensions ++ video_extensions) ->
  exists e, ext = String "." e /\ has_char "." e = false /\ has_char "/" e = false.
Proof.
  cbn [allowed_picture_extensions video_extensions app In].
  intros H.
  repeat (destruct H as [<-|H];
          [eexists; split; [reflexivity|split; reflexivity]|]).
  destruct H.
Qed.

(** X19. A file that [find_pictures] takes for a picture or a video by an
    extension of its lists gets a target name that ends in this very
    extension, in its spelling: the plan never changes the extension by
    which a file was recognized. *)
Theorem target_keeps_the_recognized_extension
    (out : string) (t : datetime) (root file ext : string) :
  In ext (allowed_picture_extensions ++ video_extensions) ->
  endswith ext file = true ->
  target_name out t (PosixPath.join root file) = stem_of out t +:+ ext.
Proof.
  intros Hext Hends.
  destruct (known_extension _ Hext) as (e & -> & Hdot & Hslash).
  destruct (endswith_inv _ _ Hends) as [pre ->].
  destruct (join_suffix root (pre +:+ String "." e)) as [x Hx].
  rewrite target_name_stem, Hx, <- app_assoc_s.
  rewrite (ext_of_dotted _ _ Hdot Hslash). reflexivity.
Qed.

Lemma target_keeps_the_recognized_extension_witness :
  target_name "out" Scenario.jan2_2024 (PosixPath.join "in/2019" "IMG_0042.JPG")
  = stem_of "out" Scenario.jan2_2024 +:+ ".JPG".
Proof.
  apply (target_keeps_the_recognized_extension "out" Scenario.jan2_2024 "in/2019"
           "IMG_0042.JPG" ".JPG").
  - right. left. reflexivity.
  - reflexivity.
Defined.

End DiscoveryFacts.

(** ** The default output directory *)

Module MainFacts.
Import Props Notions.
Import PyStr Discovery Facts Cleanup DiscoveryFacts.

Lemma rsplit_trailing_slash b :
  PosixPath.rsplit (b +:+ "/") = (b +:+ "/", "").
Proof.
  induction b as [|a b IH]; [reflexivity|].
  rewrite app_cons. cbn [PosixPath.rsplit]. rewrite IH.
  destruct b; reflexivity.
Qed.

Lemma all_sep_ends s :
  s <> "" -> PosixPath.all_sep s = true -> endswith_char PosixPath.sep s = true.
Proof.
  induction s as [|a s IH]; [contradiction|]. intros _.
  cbn [PosixPath.all_sep endswith_char]. intros H. apply andb_prop in H as [Ha Hs].
  destruct s as [|b s]; [exact Ha|]. apply IH; [discriminate|exact Hs].
Qed.

Lemma all_sep_app a b :
  PosixPath.all_sep (a +:+ b) = PosixPath.all_sep a && PosixPath.all_sep b.
Proof.
  induction a as [|x a IH]; [reflexivity|].
  rewrite app_cons. cbn [PosixPath.all_sep]. rewrite IH. apply andb_assoc.
Qed.

Lemma rstrip_trailing b :
  b <> "" -> endswith_char PosixPath.sep b = false ->
  rstrip PosixPath.sep (b +:+ "/") = b.
Proof.
  induction b as [|a b IH]; [contradiction|]. intros _ Hend.
  rewrite app_cons. cbn [rstrip].
  destruct b as [|x b].
  - cbn [endswith_char] in Hend. rewrite app_empty_l.
    cbn [rstrip]. unfold PosixPath.sep in *. cbn. rewrite Hend. reflexivity.
  - cbn [endswith_char] in Hend. rewrite IH; [reflexivity|discriminate|exact Hend].
Qed.

Lemma split_child base name :
  clean base -> name_ok name = true ->
  PosixPath.split (base +:+ "/" +:+ name) = (base, name).
Proof.
  intros [Hne Hend] Hname. apply name_ok_spec in Hname as [_ Hslash].
  unfold PosixPath.split.
  rewrite <- app_assoc_s, (rsplit_app_no_slash _ _ Hslash), rsplit_trailing_slash.
  cbn [fst snd]. rewrite app_empty_l.
  assert (String.eqb (base +:+ "/") "" = false) as ->.
  { destruct base; [contradiction|reflexivity]. }
  assert (PosixPath.all_sep (base +:+ "/") = false) as ->.
  { rewrite all_sep_app. destruct (PosixPath.all_sep base) eqn:Hall; [|reflexivity].
    rewrite (all_sep_ends _ Hne Hall) in Hend. discriminate Hend. }
  cbn [negb andb]. rewrite (rstrip_trailing _ Hne Hend). reflexivity.
Qed.

(** X20. Without [--out], the output directory of a source [<base>/<name>]
    is [<base>/pictures], next to the source; for a source that is itself
    named [pictures] it is the source directory. *)
Theorem default_output_is_next_to_the_source (base name : string) :
  clean base -> name_ok name = true ->
  default_out (base +:+ "/" +:+ name) = base +:+ "/pictures" /\
  (name = "pictures" -> default_out (base +:+ "/" +:+ name) = base +:+ "/" +:+ name).
Proof.
  intros Hbase Hname.
  assert (default_out (base +:+ "/" +:+ name) = base +:+ "/pictures") as Hout.
  { unfold default_out. rewrite (split_child _ _ Hbase Hname).
    destruct Hbase as [Hne Hend].
    unfold PosixPath.join. cbn [startswith Ascii.eqb Bool.eqb andb].
    rewrite Hend. destruct base; [contradiction|reflexivity]. }
  split; [exact Hout|]. intros ->. exact Hout.
Qed.

Lemma default_output_is_next_to_the_source_witness :
  default_out ("/home/u" +:+ "/" +:+ "photos") = "/home/u" +:+ "/pictures" /\
  ("photos" = "pictures" ->
   default_out ("/home/u" +:+ "/" +:+ "photos") = "/home/u" +:+ "/" +:+ "photos").
Proof.
  apply (default_output_is_next_to_the_source "/home/u" "photos").
  - split; [discriminate|reflexivity].
  - reflexivity.
Defined.

Example default_output_of_pictures :
  default_out "/home/u/pictures" = "/home/u/pictures".
Proof. reflexivity. Qed.

End MainFacts.

(** ** Two plan entries named like one ledger key *)

Module Ambiguity.
Import Props Notions.
Import PyStr PyDict Sys Os Organizer Frame Facts Reconcile LedgerFacts Scenario.
Local Open Scope pyio_scope.

Lemma reconcile_entry_ambiguous dry_run k moves n w t1 t2 :
  In t1 (keys moves) -> In t2 (keys moves) -> t1 <> t2 ->
  PosixPath.basename t1 = PosixPath.basename k ->
  PosixPath.basename t2 = PosixPath.basename k ->
  reconcile_entry dry_run k (moves, n) w = (w, Raise (ValueError (more_than_one_msg k))).
Proof.
  intros H1 H2 Hne Hb1 Hb2. unfold reconcile_entry.
  assert (existsb (String.eqb (PosixPath.basename k))
            (map PosixPath.basename (keys moves)) = true) as ->.
  { apply existsb_exists. exists (PosixPath.basename t1). split.
    - apply in_map. exact H1.
    - rewrite Hb1. apply String.eqb_refl. }
  assert (forall t, In t (keys moves) -> PosixPath.basename t = PosixPath.basename k ->
            In t (List.filter (fun new_file => contains (PosixPath.basename k) new_file)
                    (keys moves))) as Hin.
  { intros t Ht Hb. apply filter_In. split; [exact Ht|].
    rewrite <- Hb. apply contains_basename. }
  pose proof (Hin t1 H1 Hb1) as Hf1. pose proof (Hin t2 H2 Hb2) as Hf2.
  destruct (List.filter _ _) as [|x [|y l]]; [destruct Hf1| |reflexivity].
  exfalso. destruct Hf1 as [<-|[]]. destruct Hf2 as [->|[]]. apply Hne. reflexivity.
Qed.

Lemma unknown_name_other k t s :
  PosixPath.basename t <> PosixPath.basename k -> unknown_name [k] (t, s) = true.
Proof.
  intros Hne. unfold unknown_name. cbn [existsb fst]. rewrite orb_false_r.
  destruct (String.eqb_spec (PosixPath.basename k) (PosixPath.basename t)) as [Heq|_];
    [|reflexivity].
  exfalso. apply Hne. symmetry. exact Heq.
Qed.

Lemma In_keys_filter (f : string * string -> bool) (moves : dict string) t :
  In t (keys moves) -> (forall s, f (t, s) = true) -> In t (keys (List.filter f moves)).
Proof.
  intros Hin Hf. apply in_map_iff in Hin as ([t' s] & Heq & Hin). cbn [fst] in Heq.
  subst t'. apply in_map_iff. exists (t, s). split; [reflexivity|].
  apply filter_In. split; [exact Hin|apply Hf].
Qed.

Lemma reconcile_loop_ambiguous dry_run l k t1 t2 :
  In k l -> t1 <> t2 ->
  PosixPath.basename t1 = PosixPath.basename k ->
  PosixPath.basename t2 = PosixPath.basename k ->
  forall moves n w,
    In t1 (keys moves) -> In t2 (keys moves) ->
    exists w' e, fold_m (reconcile_entry dry_run) l (moves, n) w = (w', Raise e).
Proof.
  intros Hk Hne Hb1 Hb2.
  induction l as [|k' l IH]; intros moves n w H1 H2; [destruct Hk|].
  rewrite fold_m_cons.
  destruct (String.eqb_spec (PosixPath.basename k') (PosixPath.basename k)) as [Heq|Hdiff].
  - rewrite (reconcile_entry_ambiguous dry_run k' moves n w t1 t2); eauto; congruence.
  - destruct Hk as [->|Hk]; [exfalso; apply Hdiff; reflexivity|].
    destruct (reconcile_entry dry_run k' (moves, n) w) as [w1 [[m1 n1]|e]] eqn:Hstep;
      [|eauto].
    apply reconcile_entry_filter in Hstep. subst m1.
    apply (IH Hk).
    + apply In_keys_filter; [exact H1|]. intros s. apply unknown_name_other. congruence.
    + apply In_keys_filter; [exact H2|]. intros s. apply unknown_name_other. congruence.
Qed.

(** X21. When two entries of the plan have the base name of one key of the
    ledger (a second or third file of a moment the ledger knows, under
    another year for instance), reconciliation does not return: it
    raises, in either mode, whatever the files hold. *)
Theorem two_entries_named_like_a_ledger_key_stop_the_run
    (moves : dict string) (json_file : string) (dry_run : bool) (w : world)
    (k t1 t2 : string) :
  In k (keys (ledger_of (fs w) json_file)) ->
  In t1 (keys moves) -> In t2 (keys moves) -> t1 <> t2 ->
  PosixPath.basename t1 = PosixPath.basename k ->
  PosixPath.basename t2 = PosixPath.basename k ->
  exists w' e, check_update_old_info moves json_file dry_run w = (w', Raise e).
Proof.
  intros Hk H1 H2 Hne Hb1 Hb2.
  unfold check_update_old_info, bind.
  destruct (load_old_info_run json_file w) as (r & Hload & Hobj).
  rewrite Hload. destruct r as [obj|e]; [|eauto].
  rewrite <- (Hobj obj eq_refl) in Hk.
  apply (reconcile_loop_ambiguous dry_run (keys obj) k t1 t2); assumption.
Qed.

Lemma two_entries_named_like_a_ledger_key_stop_the_run_witness :
  exists w' e,
    check_update_old_info
      [("out/2024/" +:+ stem +:+ ".jpg", "in/b.jpg");
       ("out/2025/" +:+ stem +:+ ".jpg", "in/c.jpg")]
      "out/info.json" true other_year = (w', Raise e).
Proof.
  apply (two_entries_named_like_a_ledger_key_stop_the_run _ "out/info.json" true
           other_year ("out/2023/" +:+ stem +:+ ".jpg")
           ("out/2024/" +:+ stem +:+ ".jpg") ("out/2025/" +:+ stem +:+ ".jpg")).
  - left. reflexivity.
  - left. reflexivity.
  - right. left. reflexivity.
  - discriminate.
  - reflexivity.
  - reflexivity.
Defined.

End Ambiguity.

(** ** Directories made on the way *)

Module Directories.
Import Props Notions.
Import PyStr PyDict Sys Os Organizer Frame Facts Reconcile Rerun LedgerWrite Moves Cleanup
  PlanFacts Scenario.
Local Open Scope pyio_scope.

Lemma split_eq p : PosixPath.split p = (PosixPath.dirname p, PosixPath.basename p).
Proof.
  unfold PosixPath.dirname, PosixPath.basename, PosixPath.split.
  destruct (PosixPath.rsplit p) as [h t]. destruct (_ && _); reflexivity.
Qed.

(** [os.makedirs] does not recurse when the parent of the directory is
    there. *)
Lemma makedirs_direct name exist_ok w :
  PosixPath.basename name <> "" ->
  (PosixPath.dirname name = "" \/ stat (fs w) (PosixPath.dirname name) <> None) ->
  makedirs name exist_ok w =
  try_with (mkdir name)
    (fun e => if is_oserror e
              then let* d := isdir name in
                   if negb exist_ok || negb d then raise e else ret tt
              else raise e) w.
Proof.
  intros Hbase Hparent. unfold makedirs.
  assert (String.eqb (PosixPath.basename name) "" = false) as Hb.
  { apply String.eqb_neq. exact Hbase. }
  assert (negb (String.eqb (PosixPath.dirname name) "")
          && negb (String.eqb (PosixPath.basename name) "")
          && negb (match stat (fs w) (PosixPath.dirname name) with
                   | Some _ => true
                   | None => false
                   end) = false) as Hcond.
  { destruct Hparent as [Hp | Hp]; [rewrite Hp; reflexivity|].
    destruct (stat (fs w) (PosixPath.dirname name)); [|contradiction].
    rewrite andb_false_r. reflexivity. }
  destruct (String.length name); cbn [makedirs_go];
    rewrite split_eq, Hb; unfold bind at 1; unfold path_exists at 1;
    rewrite Hcond; reflexivity.
Qed.

Lemma mkdir_new name w :
  name <> "" -> stat (fs w) name = None ->
  (PosixPath.dirname name = "" \/ stat (fs w) (PosixPath.dirname name) = Some Dir) ->
  mkdir name w = (mkWorld (<[name := Dir]> (fs w)) (trace w ++ [EvMkdir name]), Ok tt).
Proof.
  intros Hne Hs Hparent. unfold mkdir, bind, get_fs, lift, set_fs, emit.
  apply String.eqb_neq in Hne. rewrite Hne, Hs.
  unfold parent_ok. destruct Hparent as [Hp | Hp]; rewrite Hp; [reflexivity|].
  destruct (String.eqb (PosixPath.dirname name) ""); reflexivity.
Qed.

Lemma basename_nonempty name : PosixPath.basename name <> "" -> name <> "".
Proof. intros H ->. apply H. reflexivity. Qed.

(** *** No path is its own directory *)

Lemma rstrip_length c s : String.length (rstrip c s) <= String.length s.
Proof.
  induction s as [|a s IH]; [reflexivity|].
  cbn [rstrip]. destruct (rstrip c s) as [|b r].
  - destruct (Ascii.eqb a c); cbn [String.length]; lia.
  - cbn [String.length] in *. lia.
Qed.

Lemma rstrip_end c s : rstrip c s = "" \/ endswith_char c (rstrip c s) = false.
Proof.
  induction s as [|a s IH]; [left; reflexivity|].
  cbn [rstrip]. destruct (rstrip c s) as [|b r] eqn:Hr.
  - destruct (Ascii.eqb a c) eqn:Ha; [left; reflexivity|].
    right. cbn [endswith_char]. exact Ha.
  - right. destruct IH as [IH|IH]; [discriminate IH|]. exact IH.
Qed.

Lemma rsplit_tail_empty p h :
  PosixPath.rsplit p = (h, "") -> h = "" \/ endswith_char PosixPath.sep h = true.
Proof.
  revert h. induction p as [|a p IH]; intros h.
  - cbn [PosixPath.rsplit]. intros [= <-]. left. reflexivity.
  - cbn [PosixPath.rsplit]. destruct (PosixPath.rsplit p) as [h' t'].
    destruct h' as [|b h'].
    + destruct (Ascii.eqb a PosixPath.sep) eqn:Ha; [|discriminate].
      intros [= <- ->]. right. cbn [endswith_char]. exact Ha.
    + intros [= <- ->]. right. destruct (IH _ eq_refl) as [H|H]; [discriminate H|].
      exact H.
Qed.

Lemma dirname_fixed p :
  PosixPath.dirname p = p -> p = "" \/ PosixPath.all_sep p = true.
Proof.
  unfold PosixPath.dirname, PosixPath.split.
  pose proof (rsplit_app p) as Happ.
  destruct (PosixPath.rsplit p) as [h t] eqn:Hr. cbn [fst snd] in Happ.
  destruct (String.eqb_spec h "") as [->|Hh]; cbn [negb andb fst].
  - intros <-. left. reflexivity.
  - destruct (PosixPath.all_sep h) eqn:Hall; cbn [negb fst].
    + intros <-. right. exact Hall.
    + intros Hfix. exfalso.
      assert (t = "") as ->.
      { pose proof (rstrip_length PosixPath.sep h) as Hlen.
        rewrite Hfix, <- Happ, length_app_s in Hlen.
        destruct t; [reflexivity|cbn [String.length] in Hlen; lia]. }
      rewrite app_empty_r in Happ. subst p.
      destruct (rsplit_tail_empty _ _ Hr) as [H|H]; [contradiction|].
      destruct (rstrip_end PosixPath.sep h) as [He|He]; rewrite Hfix in He;
        [contradiction|congruence].
Qed.

Lemma absent_not_its_directory f p :
  stat f (PosixPath.dirname p) = None ->
  PosixPath.basename (PosixPath.dirname p) <> "" ->
  p <> PosixPath.dirname p.
Proof.
  intros Hs Hb Heq. symmetry in Heq.
  destruct (dirname_fixed p Heq) as [->|Hall].
  - apply Hb. reflexivity.
  - rewrite Heq in Hs, Hb. unfold stat in Hs. rewrite Hall in Hs.
    destruct (String.eqb p "") eqn:Hp; [|discriminate Hs].
    apply String.eqb_eq in Hp. apply Hb. rewrite Hp. reflexivity.
Qed.

Lemma stat_insert_other f k n p : p <> k -> stat (<[k := n]> f) p = stat f p.
Proof.
  intros Hne. unfold stat. destruct (String.eqb p ""); [reflexivity|].
  destruct (PosixPath.all_sep p); [reflexivity|].
  apply lookup_insert_ne. congruence.
Qed.

Lemma stat_insert_same f k n :
  stat f k = None -> k <> "" -> stat (<[k := n]> f) k = Some n.
Proof.
  intros Hs Hne. apply stat_None in Hs as [Hs|[Hall _]]; [contradiction|].
  unfold stat. apply String.eqb_neq in Hne. rewrite Hne, Hall.
  apply lookup_insert_eq.
Qed.

Lemma sort_file_in_present outfile infile w n :
  stat (fs w) (PosixPath.dirname outfile) = Some n ->
  sort_file_in outfile infile w =
  (let* out_exists := path_exists outfile in
   if out_exists
   then raise (ValueError ("Won't copy " +:+ infile +:+ " to " +:+ outfile
                           +:+ ". File already exists!"))
   else shutil_move infile outfile) w.
Proof.
  intros Hs. unfold sort_file_in. unfold bind at 1. unfold path_exists at 1.
  rewrite Hs. cbn [negb]. unfold bind at 1. unfold ret at 1. reflexivity.
Qed.

(** X22. When the directory of the target is not there but its parent is,
    [sort_file_in] creates this one directory and then moves the file:
    the first file of a year makes the directory of the year. *)
Theorem sort_file_in_makes_the_directory
    (outfile infile : string) (c : content) (w : world) :
  let directory := PosixPath.dirname outfile in
  stat (fs w) directory = None ->
  PosixPath.basename directory <> "" ->
  (PosixPath.dirname directory = "" \/
   stat (fs w) (PosixPath.dirname directory) = Some Dir) ->
  stat (fs w) outfile = None ->
  stat (fs w) infile = Some (File c) ->
  sort_file_in outfile infile w =
    (mkWorld (<[outfile := File c]> (delete infile (<[directory := Dir]> (fs w))))
       (trace w ++ [EvMkdir directory; EvMove infile outfile]),
     Ok tt).
Proof.
  intros directory Hdir Hbase Hparent Hout Hin.
  pose proof (basename_nonempty _ Hbase) as Hne.
  pose proof (absent_not_its_directory _ _ Hdir Hbase) as Hself.
  fold directory in Hself.
  assert (infile <> directory) as Hsrc.
  { intros Heq. rewrite Heq, Hdir in Hin. discriminate Hin. }
  set (w1 := mkWorld (<[directory := Dir]> (fs w)) (trace w ++ [EvMkdir directory])).
  assert (makedirs directory false w = (w1, Ok tt)) as Hmk.
  { rewrite makedirs_direct; [|exact Hbase|].
    - unfold try_with. rewrite (mkdir_new _ _ Hne Hdir Hparent). reflexivity.
    - destruct Hparent as [Hp | Hp]; [left; exact Hp|right; rewrite Hp; discriminate]. }
  unfold sort_file_in. fold directory.
  unfold bind at 1. unfold path_exists at 1. rewrite Hdir. cbn [negb].
  unfold bind at 1. rewrite Hmk.
  assert (stat (fs w1) outfile = None) as Hout1.
  { subst w1. cbn [fs]. rewrite stat_insert_other by exact Hself. exact Hout. }
  assert (stat (fs w1) infile = Some (File c)) as Hin1.
  { subst w1. cbn [fs]. rewrite stat_insert_other by exact Hsrc. exact Hin. }
  assert (stat (fs w1) (PosixPath.dirname outfile) = Some Dir) as Hdir1.
  { subst w1. cbn [fs]. apply stat_insert_same; assumption. }
  rewrite <- (sort_file_in_present outfile infile w1 Dir Hdir1).
  rewrite (sort_file_in_run _ _ _ _ Hdir1 Hout1 Hin1).
  subst w1. cbn [fs trace]. rewrite <- app_assoc. reflexivity.
Qed.

Lemma sort_file_in_makes_the_directory_witness :
  let directory := PosixPath.dirname "out/2024/b.jpg" in
  sort_file_in "out/2024/b.jpg" "in/b.jpg" first_run =
    (mkWorld (<["out/2024/b.jpg" := File (Data "AAA")]>
                (delete "in/b.jpg" (<[directory := Dir]> (fs first_run))))
       (trace first_run ++ [EvMkdir directory; EvMove "in/b.jpg" "out/2024/b.jpg"]),
     Ok tt).
Proof.
  apply (sort_file_in_makes_the_directory "out/2024/b.jpg" "in/b.jpg" (Data "AAA")
           first_run).
  - reflexivity.
  - discriminate.
  - right. reflexivity.
  - reflexivity.
  - reflexivity.
Defined.

(** *** The first ledger *)

Lemma makedirs_present name w :
  stat (fs w) name = Some Dir ->
  PosixPath.basename name <> "" ->
  (PosixPath.dirname name = "" \/ stat (fs w) (PosixPath.dirname name) <> None) ->
  makedirs name true w = (w, Ok tt).
Proof.
  intros Hs Hbase Hparent. rewrite (makedirs_direct _ _ _ Hbase Hparent).
  pose proof (basename_nonempty _ Hbase) as Hne. apply String.eqb_neq in Hne.
  unfold try_with, mkdir, bind, get_fs, raise. rewrite Hne, Hs.
  cbn [is_oserror]. unfold isdir. rewrite Hs. reflexivity.
Qed.

(** X23. On a first Apply run, with no ledger file yet in an output
    directory that exists, [append_moves_to_json] creates the ledger,
    and the ledger holds the plan: its keys are the targets, its values
    the sources, in the order of the plan. *)
Theorem first_ledger_is_the_plan (moves : dict string) (json_file : string) (w : world) :
  let directory := PosixPath.dirname json_file in
  json_file <> "" ->
  stat (fs w) json_file = None ->
  stat (fs w) directory = Some Dir ->
  PosixPath.basename directory <> "" ->
  (PosixPath.dirname directory = "" \/
   stat (fs w) (PosixPath.dirname directory) <> None) ->
  NoDup (keys moves) ->
  append_moves_to_json moves json_file false w =
    (mkWorld (<[json_file := File (Json moves)]> (fs w)) (trace w ++ [EvWrite json_file]),
     Ok moves).
Proof.
  intros directory Hne Hfile Hdir Hbase Hparent Hnd.
  assert (update [] moves = moves) as Hup.
  { rewrite update_fresh; [reflexivity|exact Hnd|]. intros k _ []. }
  unfold append_moves_to_json. unfold bind at 1. rewrite (load_absent _ _ Hfile).
  unfold bind at 1. cbn [keys map for_each]. unfold ret at 1.
  rewrite Hup. cbn [negb].
  unfold bind at 1. unfold bind at 1. unfold bind at 1.
  unfold path_exists at 1. rewrite Hfile. cbn [negb].
  change (fst (PosixPath.split json_file)) with directory.
  rewrite (makedirs_present _ _ Hdir Hbase Hparent).
  unfold json_dump, bind, get_fs, lift, set_fs, emit, ret.
  apply String.eqb_neq in Hne. rewrite Hne, Hfile.
  unfold parent_ok. fold directory. rewrite Hdir.
  destruct (String.eqb directory ""); reflexivity.
Qed.

Lemma first_ledger_is_the_plan_witness :
  append_moves_to_json two_new "out/info.json" false first_run =
    (mkWorld (<["out/info.json" := File (Json two_new)]> (fs first_run))
       (trace first_run ++ [EvWrite "out/info.json"]),
     Ok two_new).
Proof.
  apply (first_ledger_is_the_plan two_new "out/info.json" first_run).
  - discriminate.
  - reflexivity.
  - reflexivity.
  - discriminate.
  - left. reflexivity.
  - apply (bool_decide_unpack _). vm_compute. exact I.
Defined.

End Directories.

(** ** The EXIF reader *)

Module ExifFacts.
Import Props Notions.
Import PyStr PyDict Discovery.

Lemma ascii_compare_trans a b c :
  Ascii.compare a b <> Gt -> Ascii.compare b c <> Gt ->
  Ascii.compare a c <> Gt /\
  (Ascii.compare a c = Eq -> Ascii.compare a b = Eq /\ Ascii.compare b c = Eq).
Proof.
  unfold Ascii.compare.
  destruct (N.compare_spec (N_of_ascii a) (N_of_ascii b)) as [Hab|Hab|Hab];
    destruct (N.compare_spec (N_of_ascii b) (N_of_ascii c)) as [Hbc|Hbc|Hbc];
    destruct (N.compare_spec (N_of_ascii a) (N_of_ascii c)) as [Hac|Hac|Hac];
    intros Hle1 Hle2; split; try congruence; try lia;
    intros _; split; first [reflexivity | exfalso; lia].
Qed.

Lemma leb_trans s1 : forall s2 s3,
  String.leb s1 s2 = true -> String.leb s2 s3 = true -> String.leb s1 s3 = true.
Proof.
  unfold String.leb.
  induction s1 as [|a s1 IH]; intros [|b s2] [|c s3]; cbn [String.compare];
    try reflexivity; try discriminate.
  intros H12 H23.
  destruct (ascii_compare_trans a b c) as [Hac Heq].
  - destruct (Ascii.compare a b); [discriminate|discriminate|discriminate H12].
  - destruct (Ascii.compare b c); [discriminate|discriminate|discriminate H23].
  - destruct (Ascii.compare a c) eqn:Hc; [|reflexivity|contradiction].
    destruct (Heq eq_refl) as [Hab Hbc]. rewrite Hab in H12. rewrite Hbc in H23.
    apply (IH s2 s3); assumption.
Qed.

Lemma leb_refl s : String.leb s s = true.
Proof. destruct (String.leb_total s s); assumption. Qed.

Lemma min_str_le smallest d :
  String.leb (min_str smallest d) smallest = true /\
  String.leb (min_str smallest d) d = true /\
  (min_str smallest d = smallest \/ min_str smallest d = d).
Proof.
  unfold min_str, String.ltb.
  destruct (String.compare d smallest) eqn:Hc.
  - apply String.compare_eq_iff in Hc. subst d.
    split; [apply leb_refl|]. split; [apply leb_refl|]. left. reflexivity.
  - split; [unfold String.leb; rewrite Hc; reflexivity|].
    split; [apply leb_refl|]. right. reflexivity.
  - split; [apply leb_refl|]. split; [|left; reflexivity].
    unfold String.leb. rewrite String.compare_antisym, Hc. reflexivity.
Qed.

Lemma min_fold ds : forall d,
  In (fold_left min_str ds d) (d :: ds) /\
  forall x, In x (d :: ds) -> String.leb (fold_left min_str ds d) x = true.
Proof.
  induction ds as [|y ds IH]; intros d.
  - cbn [fold_left]. split; [left; reflexivity|].
    intros x [<-|[]]. apply leb_refl.
  - cbn [fold_left]. destruct (IH (min_str d y)) as [Hin Hle].
    destruct (min_str_le d y) as (Hd & Hy & Hcase).
    split.
    + destruct Hin as [Hin|Hin]; [|right; right; exact Hin].
      rewrite <- Hin. destruct Hcase as [-> | ->]; [left|right; left]; reflexivity.
    + intros x [<-|[<-|Hx]].
      * apply (leb_trans _ (min_str d y)); [apply Hle; left; reflexivity|exact Hd].
      * apply (leb_trans _ (min_str d y)); [apply Hle; left; reflexivity|exact Hy].
      * apply Hle. right. exact Hx.
Qed.

(** X24. For a path that ends in one of the four JPEG extensions,
    [extract_picture_timestamp] parses one of the date tags present in
    the EXIF data, the smallest of them as a string; it turns to the
    file times only when none of the three tags is present. *)
Theorem exif_timestamp_is_the_smallest_date_tag
    (exif_tags : string -> outcome (dict string))
    (strptime : string -> outcome datetime)
    (getctime getmtime : string -> outcome Z) (fromtimestamp : Z -> datetime)
    (now : datetime) (path : string) (tags : dict string) :
  endswith_any pictures_with_exif path = true ->
  exif_tags path = Ok tags ->
  (exif_dates tags = [] ->
   extract_picture_timestamp exif_tags strptime getctime getmtime fromtimestamp now path
   = Timestamp.extract_timestamp_from_filemeta getctime getmtime fromtimestamp now path)
  /\
  (exif_dates tags <> [] ->
   exists smallest,
     In smallest (exif_dates tags) /\
     (forall d, In d (exif_dates tags) -> String.leb smallest d = true) /\
     extract_picture_timestamp exif_tags strptime getctime getmtime fromtimestamp now path
     = strptime smallest).
Proof.
  intros Hext Htags. unfold extract_picture_timestamp. rewrite Hext, Htags.
  fold (exif_dates tags). destruct (exif_dates tags) as [|d ds].
  - split; [reflexivity|]. intros H. contradiction.
  - split; [discriminate|]. intros _.
    destruct (min_fold ds d) as [Hin Hle].
    exists (fold_left min_str ds d). auto.
Qed.

Lemma exif_timestamp_is_the_smallest_date_tag_witness :
  (exif_dates [("Model", "X100"); ("DateTime", "2024:03:05 12:00:00");
               ("DateTimeOriginal", "2024:03:05 10:00:00")] = [] ->
   extract_picture_timestamp two_dates strptime_10h ctime_march5 mtime_march5
     Timestamp.utc_fromtimestamp (mkDatetime 2024 3 6 9 0 0) "in/a.jpg"
   = Timestamp.extract_timestamp_from_filemeta ctime_march5 mtime_march5
       Timestamp.utc_fromtimestamp (mkDatetime 2024 3 6 9 0 0) "in/a.jpg")
  /\
  (exif_dates [("Model", "X100"); ("DateTime", "2024:03:05 12:00:00");
               ("DateTimeOriginal", "2024:03:05 10:00:00")] <> [] ->
   exists smallest,
     In smallest (exif_dates [("Model", "X100"); ("DateTime", "2024:03:05 12:00:00");
                              ("DateTimeOriginal", "2024:03:05 10:00:00")]) /\
     (forall d, In d (exif_dates [("Model", "X100"); ("DateTime", "2024:03:05 12:00:00");
                                  ("DateTimeOriginal", "2024:03:05 10:00:00")]) ->
                String.leb smallest d = true) /\
     extract_picture_timestamp two_dates strptime_10h ctime_march5 mtime_march5
       Timestamp.utc_fromtimestamp (mkDatetime 2024 3 6 9 0 0) "in/a.jpg"
     = strptime_10h smallest).
Proof.
  apply (exif_timestamp_is_the_smallest_date_tag two_dates strptime_10h
           ctime_march5 mtime_march5 Timestamp.utc_fromtimestamp
           (mkDatetime 2024 3 6 9 0 0) "in/a.jpg"); reflexivity.
Defined.

Example exif_original_before_modified :
  extract_picture_timestamp two_dates strptime_10h ctime_march5 mtime_march5
    Timestamp.utc_fromtimestamp (mkDatetime 2024 3 6 9 0 0) "in/a.jpg"
  = Ok (mkDatetime 2024 3 5 10 0 0).
Proof. vm_compute. reflexivity. Qed.

End ExifFacts.

(** * Whole reconciliations and repeated runs

    What the loop of [check_update_old_info] compares and drops, and
    what a second run of [main] does to the tree the first run left. *)

(** ** Which files reconciliation compares *)

Module Matching.
Import Props Notions.
Import PyStr PyDict Sys Os Organizer Frame Facts Reconcile Scenario LedgerFacts.
Local Open Scope pyio_scope.

(** The three ways an iteration of the loop can go: the key matches no
    plan entry; the iteration raises before it has done anything; the
    single entry it matches is compared and dropped. *)
Lemma reconcile_entry_cases dry_run k moves n w :
  (existsb (String.eqb (PosixPath.basename k))
     (map PosixPath.basename (keys moves)) = false /\
   reconcile_entry dry_run k (moves, n) w = (w, Ok (moves, n))) \/
  (exists e, reconcile_entry dry_run k (moves, n) w = (w, Raise e)) \/
  (exists incoming src n1 n2,
     existsb (String.eqb (PosixPath.basename k))
       (map PosixPath.basename (keys moves)) = true /\
     List.filter (fun new_file => contains (PosixPath.basename k) new_file) (keys moves)
     = [incoming] /\
     get moves incoming = Some src /\
     stat (fs w) (recorded_location k) = Some n1 /\
     stat (fs w) src = Some n2 /\
     reconcile_entry dry_run k (moves, n) w =
     if same_content n1 n2 then
       if dry_run
       then (mkWorld (fs w) (trace w ++ [EvCompare (recorded_location k) src true]),
             Ok (del moves incoming, n))
       else (mkWorld (delete src (fs w))
               (trace w ++ [EvCompare (recorded_location k) src true; EvRemove src]),
             Ok (del moves incoming, n + 1))
     else (mkWorld (fs w)
             (trace w ++ [EvCompare (recorded_location k) src false;
                          EvPrint (different_msg k src)]),
           Ok (del moves incoming, n))).
Proof.
  unfold reconcile_entry.
  destruct (existsb _ _) eqn:Hex; [|left; split; reflexivity].
  right.
  destruct (List.filter _ _) as [|incoming [|? ?]] eqn:Hfil;
    [left; eexists; reflexivity | | left; eexists; reflexivity].
  destruct (get moves incoming) as [src|] eqn:Hget; [|left; eexists; reflexivity].
  unfold bind. rewrite filecmp_cmp_run.
  destruct (stat (fs w) (recorded_location k)) as [n1|] eqn:Hs1;
    [|left; eexists; reflexivity].
  destruct (stat (fs w) src) as [n2|] eqn:Hs2; [|left; eexists; reflexivity].
  right. exists incoming, src, n1, n2.
  do 5 (split; [first [reflexivity | eassumption]|]).
  destruct (same_content n1 n2) eqn:Hsame; cbn [negb].
  - destruct dry_run; cbn [negb]; [reflexivity|].
    rewrite remove_run. cbn [fs trace]. rewrite Hs2.
    apply same_content_true in Hsame as (c & -> & ->).
    unfold ret. rewrite <- app_assoc. reflexivity.
  - rewrite print_run. cbn [fs trace]. unfold ret. rewrite <- app_assoc. reflexivity.
Qed.

Lemma get_del_other {V} (d : dict V) k key :
  key <> k -> get (del d k) key = get d key.
Proof.
  intros Hne. unfold del. induction d as [|[k' v'] d IH]; [reflexivity|].
  cbn [List.filter fst get].
  destruct (String.eqb_spec k' k) as [->|Hk]; cbn [negb get].
  - destruct (String.eqb_spec k key) as [->|_]; [contradiction|exact IH].
  - destruct (String.eqb k' key); [reflexivity|exact IH].
Qed.

Lemma get_del_inv {V} (d : dict V) k key v :
  get (del d k) key = Some v -> key <> k /\ get d key = Some v.
Proof.
  intros H. split.
  - intros ->. rewrite get_del_same in H. discriminate H.
  - apply (get_del_Some _ _ _ _ H).
Qed.

Lemma get_filter_None {V} (f : string * V -> bool) (d : dict V) k :
  get d k = None -> get (List.filter f d) k = None.
Proof.
  induction d as [|[k' v'] d IH]; [reflexivity|].
  cbn [get List.filter]. destruct (String.eqb k' k) eqn:Hk; [discriminate|].
  intros H. destruct (f (k', v')); [cbn [get]; rewrite Hk|]; apply IH; exact H.
Qed.

(** *** The first key of a name *)

Lemma first_named_head k l : first_named k (k :: l).
Proof. exists [], l. split; [reflexivity|]. intros k' []. Qed.

Lemma first_named_skip k0 k l :
  PosixPath.basename k0 <> PosixPath.basename k ->
  first_named k l -> first_named k (k0 :: l).
Proof.
  intros Hne (before & after & -> & Hfirst).
  exists (k0 :: before), after. split; [reflexivity|].
  intros k' [<-|Hin]; [exact Hne|apply Hfirst; exact Hin].
Qed.

Lemma first_named_inv k0 k l :
  first_named k (k0 :: l) ->
  k = k0 \/ (PosixPath.basename k0 <> PosixPath.basename k /\ first_named k l).
Proof.
  intros ([|k1 before] & after & Heq & Hfirst).
  - left. injection Heq as -> _. reflexivity.
  - right. injection Heq as -> ->. split.
    + apply Hfirst. left. reflexivity.
    + exists before, after. split; [reflexivity|].
      intros k' Hin. apply Hfirst. right. exact Hin.
Qed.

Lemma first_named_nil k : ~ first_named k [].
Proof. intros ([|? ?] & after & Heq & _); discriminate Heq. Qed.

(** A plan key with the base name of the ledger key makes the test of
    the loop succeed. *)
Lemma named_key_found (moves : dict string) k t src :
  get moves t = Some src -> PosixPath.basename t = PosixPath.basename k ->
  existsb (String.eqb (PosixPath.basename k))
    (map PosixPath.basename (keys moves)) = true.
Proof.
  intros Hget Hname. apply existsb_exists. exists (PosixPath.basename t). split.
  - apply in_map. apply (get_Some_In_keys _ _ _ Hget).
  - rewrite Hname. apply String.eqb_refl.
Qed.

(** When one plan key only contains the name, a key with that base name
    is that key. *)
Lemma named_key_is_incoming (moves : dict string) k incoming t src :
  List.filter (fun new_file => contains (PosixPath.basename k) new_file) (keys moves)
  = [incoming] ->
  get moves t = Some src -> PosixPath.basename t = PosixPath.basename k ->
  t = incoming.
Proof.
  intros Hfil Hget Hname.
  assert (In t (List.filter
            (fun new_file => contains (PosixPath.basename k) new_file)
            (keys moves))) as Hin.
  { apply filter_In. split; [apply (get_Some_In_keys _ _ _ Hget)|].
    rewrite <- Hname. apply contains_basename. }
  rewrite Hfil in Hin. destruct Hin as [<-|[]]. reflexivity.
Qed.

(** *** The matches before and after an iteration *)

Lemma match_no_hit k l (moves : dict string) f1 f2 :
  existsb (String.eqb (PosixPath.basename k))
    (map PosixPath.basename (keys moves)) = false ->
  first_name_match (k :: l) moves f1 f2 <-> first_name_match l moves f1 f2.
Proof.
  intros Hex.
  assert (forall k0 t, get moves t = Some f2 ->
            PosixPath.basename t = PosixPath.basename k0 ->
            PosixPath.basename k <> PosixPath.basename k0) as Hother.
  { intros k0 t Hget Hname Heq.
    rewrite (named_key_found moves k t f2 Hget) in Hex; [discriminate Hex|].
    rewrite Hname. symmetry. exact Heq. }
  split; intros (k0 & t & Hfirst & Hget & Hname & Hf1); exists k0, t.
  - split; [|auto].
    apply first_named_inv in Hfirst as [->|[_ Hfirst]]; [|exact Hfirst].
    exfalso. apply (Hother k t Hget Hname). reflexivity.
  - split; [|auto]. apply first_named_skip; [|exact Hfirst].
    apply (Hother k0 t Hget Hname).
Qed.

Lemma match_hit_head k l (moves : dict string) incoming src :
  existsb (String.eqb (PosixPath.basename k))
    (map PosixPath.basename (keys moves)) = true ->
  List.filter (fun new_file => contains (PosixPath.basename k) new_file) (keys moves)
  = [incoming] ->
  get moves incoming = Some src ->
  first_name_match (k :: l) moves (recorded_location k) src.
Proof.
  intros Hex Hfil Hget. exists k, incoming.
  split; [apply first_named_head|]. split; [exact Hget|].
  split; [|reflexivity].
  apply (single_incoming_named_like moves k incoming Hex Hfil).
Qed.

Lemma match_hit_tail k l (moves : dict string) incoming f1 f2 :
  List.filter (fun new_file => contains (PosixPath.basename k) new_file) (keys moves)
  = [incoming] ->
  first_name_match l (del moves incoming) f1 f2 ->
  first_name_match (k :: l) moves f1 f2.
Proof.
  intros Hfil (k0 & t & Hfirst & Hget & Hname & Hf1).
  apply get_del_inv in Hget as [Hne Hget].
  exists k0, t. split; [|auto].
  apply first_named_skip; [|exact Hfirst].
  intros Heq. apply Hne.
  apply (named_key_is_incoming moves k incoming t f2 Hfil Hget).
  rewrite Hname. symmetry. exact Heq.
Qed.

Lemma match_hit_inv k l (moves : dict string) incoming src f1 f2 :
  existsb (String.eqb (PosixPath.basename k))
    (map PosixPath.basename (keys moves)) = true ->
  List.filter (fun new_file => contains (PosixPath.basename k) new_file) (keys moves)
  = [incoming] ->
  get moves incoming = Some src ->
  first_name_match (k :: l) moves f1 f2 ->
  (f1 = recorded_location k /\ f2 = src) \/
  first_name_match l (del moves incoming) f1 f2.
Proof.
  intros Hex Hfil Hsrc (k0 & t & Hfirst & Hget & Hname & Hf1).
  destruct (single_incoming_named_like moves k incoming Hex Hfil) as [Hinc _].
  apply first_named_inv in Hfirst as [->|[Hne Hfirst]].
  - left. split; [exact Hf1|].
    rewrite (named_key_is_incoming moves k incoming t f2 Hfil Hget Hname) in Hget.
    rewrite Hsrc in Hget. injection Hget as <-. reflexivity.
  - right. exists k0, t. split; [exact Hfirst|]. split; [|auto].
    rewrite get_del_other; [exact Hget|].
    intros ->. apply Hne. rewrite <- Hinc. exact Hname.
Qed.

(** The comparisons of the loop are the first-name matches; all of them
    when the loop ends normally. *)
Lemma loop_comparisons dry_run l :
  forall moves n w,
  exists evs,
    trace (fst (fold_m (reconcile_entry dry_run) l (moves, n) w)) = trace w ++ evs /\
    (forall f1 f2 same,
        In (EvCompare f1 f2 same) evs -> first_name_match l moves f1 f2) /\
    (forall st,
        snd (fold_m (reconcile_entry dry_run) l (moves, n) w) = Ok st ->
        forall f1 f2, first_name_match l moves f1 f2 ->
                      exists same, In (EvCompare f1 f2 same) evs).
Proof.
  induction l as [|k l IH]; intros moves n w.
  - exists []. cbn [fold_m ret fst snd]. rewrite app_nil_r.
    split; [reflexivity|]. split; [intros f1 f2 same []|].
    intros _ _ f1 f2 (k & t & Hfirst & _). destruct (first_named_nil k Hfirst).
  - rewrite fold_m_cons.
    destruct (reconcile_entry_cases dry_run k moves n w)
      as [(Hex & ->)|[(e & ->)|(incoming & src & n1 & n2 & Hex & Hfil & Hget & _ & _ & ->)]].
    + destruct (IH moves n w) as (evs & Ht & Hsound & Hall).
      exists evs. split; [exact Ht|]. split.
      * intros f1 f2 same Hin. apply (match_no_hit k l moves f1 f2 Hex).
        apply (Hsound f1 f2 same Hin).
      * intros st Hok f1 f2 Hm. apply (Hall st Hok).
        apply (match_no_hit k l moves f1 f2 Hex). exact Hm.
    + exists []. cbn [fst snd]. rewrite app_nil_r.
      split; [reflexivity|]. split; [intros f1 f2 same []|]. intros st Hok.
      discriminate Hok.
    + assert (forall w1 n1' evs1 same1,
                trace w1 = trace w ++ evs1 ->
                In (EvCompare (recorded_location k) src same1) evs1 ->
                (forall f1 f2 same, In (EvCompare f1 f2 same) evs1 ->
                                    f1 = recorded_location k /\ f2 = src) ->
                exists evs,
                  trace (fst (fold_m (reconcile_entry dry_run) l
                                (del moves incoming, n1') w1)) = trace w ++ evs /\
                  (forall f1 f2 same,
                      In (EvCompare f1 f2 same) evs ->
                      first_name_match (k :: l) moves f1 f2) /\
                  (forall st,
                      snd (fold_m (reconcile_entry dry_run) l
                             (del moves incoming, n1') w1) = Ok st ->
                      forall f1 f2, first_name_match (k :: l) moves f1 f2 ->
                                    exists same, In (EvCompare f1 f2 same) evs))
        as Hrest.
      { intros w1 n1' evs1 same1 Ht1 Hhead Honly.
        destruct (IH (del moves incoming) n1' w1) as (evs & Ht & Hsound & Hall).
        exists (evs1 ++ evs). split; [rewrite Ht, Ht1, app_assoc; reflexivity|].
        split.
        - intros f1 f2 same Hin. apply in_app_or in Hin as [Hin|Hin].
          + destruct (Honly f1 f2 same Hin) as [-> ->].
            apply (match_hit_head k l moves incoming src Hex Hfil Hget).
          + apply (match_hit_tail k l moves incoming f1 f2 Hfil).
            apply (Hsound f1 f2 same Hin).
        - intros st Hok f1 f2 Hm.
          destruct (match_hit_inv k l moves incoming src f1 f2 Hex Hfil Hget Hm)
            as [[-> ->]|Hm'].
          + exists same1. apply in_or_app. left. exact Hhead.
          + destruct (Hall st Hok f1 f2 Hm') as [same Hin].
            exists same. apply in_or_app. right. exact Hin. }
      destruct (same_content n1 n2); [destruct dry_run|].
      * apply (Hrest _ n [EvCompare (recorded_location k) src true] true);
          [reflexivity | left; reflexivity |].
        intros f1 f2 same [[= <- <- _]|[]]. auto.
      * apply (Hrest _ (n + 1)
                 [EvCompare (recorded_location k) src true; EvRemove src] true);
          [reflexivity | left; reflexivity |].
        intros f1 f2 same [[= <- <- _]|[Hin|[]]]; [auto|discriminate Hin].
      * apply (Hrest _ n
                 [EvCompare (recorded_location k) src false;
                  EvPrint (different_msg k src)] false);
          [reflexivity | left; reflexivity |].
        intros f1 f2 same [[= <- <- _]|[Hin|[]]]; [auto|discriminate Hin].
Qed.

(** *** A plan with one match *)

(** An iteration that finds its single match and both files. *)
Lemma reconcile_entry_hit dry_run k moves n w incoming src n1 n2 :
  existsb (String.eqb (PosixPath.basename k))
    (map PosixPath.basename (keys moves)) = true ->
  List.filter (fun new_file => contains (PosixPath.basename k) new_file) (keys moves)
  = [incoming] ->
  get moves incoming = Some src ->
  stat (fs w) (recorded_location k) = Some n1 ->
  stat (fs w) src = Some n2 ->
  reconcile_entry dry_run k (moves, n) w =
  if same_content n1 n2 then
    if dry_run
    then (mkWorld (fs w) (trace w ++ [EvCompare (recorded_location k) src true]),
          Ok (del moves incoming, n))
    else (mkWorld (delete src (fs w))
            (trace w ++ [EvCompare (recorded_location k) src true; EvRemove src]),
          Ok (del moves incoming, n + 1))
  else (mkWorld (fs w)
          (trace w ++ [EvCompare (recorded_location k) src false;
                       EvPrint (different_msg k src)]),
        Ok (del moves incoming, n)).
Proof.
  intros Hex Hfil Hget Hs1 Hs2.
  destruct (reconcile_entry_cases dry_run k moves n w)
    as [(Hex' & _)|[(e & Hraise)|(i' & s' & m1 & m2 & _ & Hfil' & Hget' & Hs1' & Hs2' & Hrun)]].
  - rewrite Hex in Hex'. discriminate Hex'.
  - exfalso. revert Hraise. unfold reconcile_entry. rewrite Hex, Hfil, Hget.
    unfold bind. rewrite filecmp_cmp_run, Hs1, Hs2.
    destruct (same_content n1 n2) eqn:Hsame; cbn [negb].
    + destruct dry_run; cbn [negb]; [discriminate|].
      rewrite remove_run. cbn [fs trace]. rewrite Hs2.
      apply same_content_true in Hsame as (c & -> & ->). discriminate.
    + rewrite print_run. discriminate.
  - rewrite Hfil in Hfil'. injection Hfil' as <-.
    rewrite Hget in Hget'. injection Hget' as <-.
    rewrite Hs1 in Hs1'. injection Hs1' as <-.
    rewrite Hs2 in Hs2'. injection Hs2' as <-. exact Hrun.
Qed.

Lemma fold_m_app {A S} (body : A -> S -> M S) l1 l2 s w :
  fold_m body (l1 ++ l2) s w =
  match fold_m body l1 s w with
  | (w', Ok s') => fold_m body l2 s' w'
  | (w', Raise e) => (w', Raise e)
  end.
Proof.
  revert s w. induction l1 as [|x l1 IH]; intros s w; [reflexivity|].
  cbn [app]. rewrite !fold_m_cons.
  destruct (body x s w) as [w1 [s1|e]]; [apply IH|reflexivity].
Qed.

(** Keys that name no plan entry are passed. *)
Lemma loop_no_match dry_run l moves n w :
  (forall k, In k l ->
     existsb (String.eqb (PosixPath.basename k))
       (map PosixPath.basename (keys moves)) = false) ->
  fold_m (reconcile_entry dry_run) l (moves, n) w = (w, Ok (moves, n)).
Proof.
  induction l as [|k l IH]; intros Hl; [reflexivity|].
  rewrite fold_m_cons.
  destruct (reconcile_entry_cases dry_run k moves n w)
    as [(_ & ->)|[(e & Hraise)|(i' & s' & m1 & m2 & Hex & _)]].
  - apply IH. intros k' Hk'. apply Hl. right. exact Hk'.
  - exfalso. revert Hraise. unfold reconcile_entry.
    rewrite (Hl k (or_introl eq_refl)). discriminate.
  - rewrite (Hl k (or_introl eq_refl)) in Hex. discriminate Hex.
Qed.

Lemma no_name_after_del (moves : dict string) k t k' :
  List.filter (fun new_file => contains (PosixPath.basename k) new_file) (keys moves)
  = [t] ->
  (PosixPath.basename k' <> PosixPath.basename k ->
   existsb (String.eqb (PosixPath.basename k'))
     (map PosixPath.basename (keys moves)) = false) ->
  existsb (String.eqb (PosixPath.basename k'))
    (map PosixPath.basename (keys (del moves t))) = false.
Proof.
  intros Hfil Hother.
  destruct (existsb _ (map _ (keys (del moves t)))) eqn:Hex; [|reflexivity].
  exfalso. apply existsb_exists in Hex as (b & Hin & Heq).
  apply String.eqb_eq in Heq. subst b.
  apply in_map_iff in Hin as (t' & Hname & Hin).
  apply In_keys_del in Hin as [Hin Hne].
  destruct (string_dec (PosixPath.basename k') (PosixPath.basename k)) as [Hsame|Hdiff].
  - apply Hne.
    assert (In t' (List.filter
              (fun new_file => contains (PosixPath.basename k) new_file)
              (keys moves))) as Hin'.
    { apply filter_In. split; [exact Hin|].
      rewrite <- Hsame, <- Hname. apply contains_basename. }
    rewrite Hfil in Hin'. destruct Hin' as [<-|[]]. reflexivity.
  - specialize (Hother Hdiff).
    assert (existsb (String.eqb (PosixPath.basename k'))
              (map PosixPath.basename (keys moves)) = true) as Hyes.
    { apply existsb_exists. exists (PosixPath.basename t'). split.
      - apply in_map. exact Hin.
      - rewrite Hname. apply String.eqb_refl. }
    rewrite Hyes in Hother. discriminate Hother.
Qed.

(** When one plan key only contains the name of a ledger key, and no
    plan key is named like a ledger key of another name, the loop is the
    iteration for the first key of that name. *)
Lemma lone_match_loop dry_run l moves n w k t src n1 n2 :
  first_named k l ->
  get moves t = Some src ->
  PosixPath.basename t = PosixPath.basename k ->
  List.filter (fun new_file => contains (PosixPath.basename k) new_file) (keys moves)
  = [t] ->
  (forall k', In k' l ->
     PosixPath.basename k' <> PosixPath.basename k ->
     existsb (String.eqb (PosixPath.basename k'))
       (map PosixPath.basename (keys moves)) = false) ->
  stat (fs w) (recorded_location k) = Some n1 ->
  stat (fs w) src = Some n2 ->
  fold_m (reconcile_entry dry_run) l (moves, n) w =
  if same_content n1 n2 then
    if dry_run
    then (mkWorld (fs w) (trace w ++ [EvCompare (recorded_location k) src true]),
          Ok (del moves t, n))
    else (mkWorld (delete src (fs w))
            (trace w ++ [EvCompare (recorded_location k) src true; EvRemove src]),
          Ok (del moves t, n + 1))
  else (mkWorld (fs w)
          (trace w ++ [EvCompare (recorded_location k) src false;
                       EvPrint (different_msg k src)]),
        Ok (del moves t, n)).
Proof.
  intros (before & after & -> & Hfirst) Hget Hname Hfil Hothers Hs1 Hs2.
  rewrite fold_m_app, loop_no_match.
  2:{ intros k' Hk'. apply Hothers; [apply in_or_app; left; exact Hk'|].
      apply Hfirst. exact Hk'. }
  rewrite fold_m_cons.
  rewrite (reconcile_entry_hit dry_run k moves n w t src n1 n2
             (named_key_found moves k t src Hget Hname) Hfil Hget Hs1 Hs2).
  assert (forall k', In k' after ->
            existsb (String.eqb (PosixPath.basename k'))
              (map PosixPath.basename (keys (del moves t))) = false) as Hafter.
  { intros k' Hk'. apply (no_name_after_del moves k t k' Hfil).
    apply Hothers. apply in_or_app. right. right. exact Hk'. }
  destruct (same_content n1 n2); [destruct dry_run|];
    apply loop_no_match; exact Hafter.
Qed.

Lemma ledger_loaded json_file w k l :
  keys (ledger_of (fs w) json_file) = k :: l ->
  load_old_info json_file w = (w, Ok (ledger_of (fs w) json_file)).
Proof.
  unfold ledger_of, load_old_info, json_load, path_exists, get_fs, bind.
  cbn beta iota.
  destruct (stat (fs w) json_file) as [[[b|obj]|]|] eqn:Hs; try discriminate.
  intros _. cbn beta iota. rewrite Hs. reflexivity.
Qed.

Lemma first_named_cons k l : first_named k l -> exists k0 l0, l = k0 :: l0.
Proof. intros ([|k0 before] & after & -> & _); eauto. Qed.

(** C5 (as amended). Reconciliation matches by file name, not by full
    target path.  A plan entry is matched with the first ledger key that
    has the base name of its target, and the two files compared are the
    file at the recorded location of that key and the source of the
    entry.  Every comparison of a reconciliation is of this kind, also
    when it raises; when it returns, every such match has been compared.
    When the target of the entry is the only plan key that contains the
    name, no plan key has the base name of a ledger key of another name,
    and something is at both paths, reconciliation returns, and the
    comparison it has made tells whether the two are files with the same
    content. *)
Theorem comparisons_are_the_first_name_matches
    (moves : dict string) (json_file : string) (dry_run : bool) (w : world) :
  (exists evs,
     trace (fst (check_update_old_info moves json_file dry_run w)) = trace w ++ evs /\
     (forall f1 f2 same,
         In (EvCompare f1 f2 same) evs ->
         first_name_match (keys (ledger_of (fs w) json_file)) moves f1 f2) /\
     (forall r,
         snd (check_update_old_info moves json_file dry_run w) = Ok r ->
         forall f1 f2,
           first_name_match (keys (ledger_of (fs w) json_file)) moves f1 f2 ->
           exists same, In (EvCompare f1 f2 same) evs)) /\
  (forall k t src n1 n2,
     first_named k (keys (ledger_of (fs w) json_file)) ->
     get moves t = Some src ->
     PosixPath.basename t = PosixPath.basename k ->
     List.filter (fun new_file => contains (PosixPath.basename k) new_file)
       (keys moves) = [t] ->
     (forall k', In k' (keys (ledger_of (fs w) json_file)) ->
        PosixPath.basename k' <> PosixPath.basename k ->
        existsb (String.eqb (PosixPath.basename k'))
          (map PosixPath.basename (keys moves)) = false) ->
     stat (fs w) (recorded_location k) = Some n1 ->
     stat (fs w) src = Some n2 ->
     exists rest n,
       snd (check_update_old_info moves json_file dry_run w) = Ok (del moves t, n) /\
       trace (fst (check_update_old_info moves json_file dry_run w))
       = trace w ++ EvCompare (recorded_location k) src (same_content n1 n2) :: rest).
Proof.
  split.
  - unfold check_update_old_info, bind.
    destruct (load_old_info_run json_file w) as (r0 & Hload & Hobj).
    rewrite Hload. destruct r0 as [obj|e].
    + rewrite <- (Hobj obj eq_refl). apply loop_comparisons.
    + exists []. cbn [fst snd]. rewrite app_nil_r. split; [reflexivity|].
      split; [intros f1 f2 same []|]. intros r Hr. discriminate Hr.
  - intros k t src n1 n2 Hfirst Hget Hname Hfil Hothers Hs1 Hs2.
    destruct (first_named_cons _ _ Hfirst) as (k0 & l0 & Hl).
    unfold check_update_old_info, bind.
    rewrite (ledger_loaded json_file w k0 l0 Hl).
    rewrite (lone_match_loop dry_run _ moves 0 w k t src n1 n2
               Hfirst Hget Hname Hfil Hothers Hs1 Hs2).
    destruct (same_content n1 n2); [destruct dry_run|]; cbn [fst snd trace];
      eexists; eexists; (split; [reflexivity|]); reflexivity.
Qed.

(** In [two_years] the plan has one entry, matched with the key under
    2023: reconciliation returns and has compared the file recorded
    there with the incoming file. *)
Example comparison_in_two_years :
  first_name_match (keys (ledger_of (fs two_years) "out/info.json")) one_move
    ("out/2023/" +:+ stem +:+ ".jpg") "in/b.jpg" /\
  check_update_old_info one_move "out/info.json" false two_years
  = (mkWorld (delete "in/b.jpg" (fs two_years))
       [EvCompare ("out/2023/" +:+ stem +:+ ".jpg") "in/b.jpg" true;
        EvRemove "in/b.jpg"],
     Ok ([], 1)).
Proof.
  split; [|vm_compute; reflexivity].
  exists ("out/2023/" +:+ stem +:+ ".jpg"), ("out/2024/" +:+ stem +:+ ".jpg").
  split; [apply first_named_head|]. repeat split; reflexivity.
Qed.

End Matching.

(** ** An entry whose recorded file differs *)

Module Differing.
Import Props Notions.
Import PyStr PyDict Sys Os Organizer Frame Facts Reconcile Scenario LedgerFacts Matching.
Local Open Scope pyio_scope.

Lemma stat_delete_other (f : gmap string node) p q :
  p <> q -> stat (delete p f) q = stat f q.
Proof.
  intros Hne. unfold stat. rewrite lookup_delete_ne by exact Hne. reflexivity.
Qed.

Lemma stat_delete_Some (f : gmap string node) p q n :
  stat (delete p f) q = Some n -> stat f q = Some n.
Proof.
  unfold stat. destruct (String.eqb q ""); [auto|].
  destruct (PosixPath.all_sep q); [auto|].
  destruct (decide (p = q)) as [->|Hne].
  - rewrite lookup_delete_eq. discriminate.
  - rewrite lookup_delete_ne by exact Hne. auto.
Qed.

(** A path that is the source of no plan entry is not removed, and what
    is at that path stays. *)
Lemma loop_keeps_other_paths dry_run l p :
  forall moves n w w' st,
    (forall t, get moves t <> Some p) ->
    fold_m (reconcile_entry dry_run) l (moves, n) w = (w', Ok st) ->
    exists evs,
      trace w' = trace w ++ evs /\ ~ In (EvRemove p) evs /\
      stat (fs w') p = stat (fs w) p.
Proof.
  induction l as [|k l IH]; intros moves n w w' st Hfree Hrun.
  - cbn [fold_m] in Hrun. injection Hrun as <- _.
    exists []. rewrite app_nil_r. auto.
  - rewrite fold_m_cons in Hrun.
    destruct (reconcile_entry_cases dry_run k moves n w)
      as [(_ & Hstep)|[(e & Hstep)|(incoming & src & n1 & n2 & _ & _ & Hget & _ & _ & Hstep)]];
      rewrite Hstep in Hrun.
    + apply (IH moves n w w' st Hfree Hrun).
    + discriminate Hrun.
    + assert (src <> p) as Hsrc.
      { intros ->. apply (Hfree incoming Hget). }
      assert (forall t, get (del moves incoming) t <> Some p) as Hfree'.
      { intros t Ht. apply (Hfree t). apply (get_del_Some _ _ _ _ Ht). }
      destruct (same_content n1 n2); [destruct dry_run|];
        destruct (IH _ _ _ _ _ Hfree' Hrun) as (evs & Ht & Hno & Hstat);
        cbn [fs trace] in Ht, Hstat;
        eexists; (split; [rewrite Ht, <- app_assoc; reflexivity|]);
        (split; [|rewrite Hstat; try reflexivity]).
      * intros [Hin|Hin]; [discriminate Hin|exact (Hno Hin)].
      * intros [Hin|[Hin|Hin]]; [discriminate Hin| |exact (Hno Hin)].
        injection Hin as Heq. exact (Hsrc Heq).
      * apply stat_delete_other. exact Hsrc.
      * intros [Hin|[Hin|Hin]]; [discriminate Hin|discriminate Hin|exact (Hno Hin)].
Qed.

(** The loop reaches the first key of a name with the plan entry of that
    name still in the plan and its source still on disk; when the file
    at the recorded location is not a file of the same content, the
    entry is reported and dropped and its source is left alone. *)
Lemma loop_differing dry_run l :
  forall moves n w w' moves' n' k t src c2,
    fold_m (reconcile_entry dry_run) l (moves, n) w = (w', Ok (moves', n')) ->
    first_named k l ->
    get moves t = Some src ->
    PosixPath.basename t = PosixPath.basename k ->
    (forall t', get moves t' = Some src -> t' = t) ->
    stat (fs w) (recorded_location k) <> Some (File c2) ->
    stat (fs w) src = Some (File c2) ->
    exists evs,
      trace w' = trace w ++ evs /\
      In (EvCompare (recorded_location k) src false) evs /\
      In (EvPrint (different_msg k src)) evs /\
      get moves' t = None /\
      ~ In (EvRemove src) evs /\
      stat (fs w') src = Some (File c2).
Proof.
  induction l as [|k0 l IH];
    intros moves n w w' moves' n' k t src c2 Hrun Hfirst Hget Hname Honly Hloc Hsrc.
  - destruct (first_named_nil k Hfirst).
  - rewrite fold_m_cons in Hrun.
    apply first_named_inv in Hfirst as [->|[Hne Hfirst]].
    + (* the key itself *)
      destruct (reconcile_entry_cases dry_run k0 moves n w)
        as [(Hex & _)|[(e & Hstep)|(incoming & src' & n1 & n2 & _ & Hfil & Hget' & Hs1 & Hs2 & Hstep)]].
      * rewrite (named_key_found moves k0 t src Hget Hname) in Hex. discriminate Hex.
      * rewrite Hstep in Hrun. discriminate Hrun.
      * rewrite Hstep in Hrun. clear Hstep.
        pose proof (named_key_is_incoming moves k0 incoming t src Hfil Hget Hname) as <-.
        rewrite Hget in Hget'. injection Hget' as <-.
        rewrite Hsrc in Hs2. injection Hs2 as <-.
        assert (same_content n1 (File c2) = false) as Hsame.
        { destruct (same_content n1 (File c2)) eqn:Hsame; [|reflexivity].
          apply same_content_true in Hsame as (c & -> & [= ->]).
          destruct (Hloc Hs1). }
        rewrite Hsame in Hrun.
        assert (forall t', get (del moves t) t' <> Some src) as Hfree.
        { intros t' Ht'. apply get_del_inv in Ht' as [Hne Ht'].
          apply Hne. apply (Honly t' Ht'). }
        destruct (loop_keeps_other_paths dry_run l src _ _ _ _ _ Hfree Hrun)
          as (evs & Ht & Hno & Hstat).
        cbn [fs trace] in Ht, Hstat.
        exists ([EvCompare (recorded_location k0) src false;
                 EvPrint (different_msg k0 src)] ++ evs).
        split; [rewrite Ht, <- app_assoc; reflexivity|].
        split; [left; reflexivity|]. split; [right; left; reflexivity|].
        split.
        { rewrite (reconcile_loop_filter _ _ _ _ _ _ _ _ Hrun).
          apply get_filter_None. apply get_del_same. }
        split; [|rewrite Hstat; exact Hsrc].
        intros [Hin|[Hin|Hin]]; [discriminate Hin|discriminate Hin|exact (Hno Hin)].
    + (* an earlier key of another name *)
      destruct (reconcile_entry_cases dry_run k0 moves n w)
        as [(_ & Hstep)|[(e & Hstep)|(incoming & src' & n1 & n2 & Hex & Hfil & Hget' & _ & _ & Hstep)]];
        rewrite Hstep in Hrun; clear Hstep.
      * apply (IH _ _ _ _ _ _ _ _ _ _ Hrun Hfirst Hget Hname Honly Hloc Hsrc).
      * discriminate Hrun.
      * destruct (single_incoming_named_like moves k0 incoming Hex Hfil) as [Hinc _].
        assert (t <> incoming) as Hti.
        { intros ->. apply Hne. rewrite <- Hinc. exact Hname. }
        assert (src' <> src) as Hss.
        { intros ->. apply Hti. symmetry. apply (Honly incoming Hget'). }
        assert (get (del moves incoming) t = Some src) as Hget1.
        { rewrite get_del_other by exact Hti. exact Hget. }
        assert (forall t', get (del moves incoming) t' = Some src -> t' = t) as Honly1.
        { intros t' Ht'. apply Honly. apply (get_del_Some _ _ _ _ Ht'). }
        assert (stat (delete src' (fs w)) (recorded_location k) <> Some (File c2))
          as Hloc1.
        { intros H. apply Hloc. apply (stat_delete_Some _ _ _ _ H). }
        assert (stat (delete src' (fs w)) src = Some (File c2)) as Hsrc1.
        { rewrite stat_delete_other by exact Hss. exact Hsrc. }
        destruct (same_content n1 n2); [destruct dry_run|].
        -- destruct (IH _ _ _ _ _ _ _ _ _ _ Hrun Hfirst Hget1 Hname Honly1 Hloc Hsrc)
             as (evs & Ht & Hcmp & Hprint & Hgone & Hno & Hstat).
           cbn [fs trace] in Ht.
           eexists. split; [rewrite Ht, <- app_assoc; reflexivity|].
           split; [apply in_or_app; right; exact Hcmp|].
           split; [apply in_or_app; right; exact Hprint|].
           split; [exact Hgone|]. split; [|exact Hstat].
           intros [Hin|Hin]; [discriminate Hin|exact (Hno Hin)].
        -- destruct (IH _ _ _ _ _ _ _ _ _ _ Hrun Hfirst Hget1 Hname Honly1 Hloc1 Hsrc1)
             as (evs & Ht & Hcmp & Hprint & Hgone & Hno & Hstat).
           cbn [fs trace] in Ht.
           eexists. split; [rewrite Ht, <- app_assoc; reflexivity|].
           split; [apply in_or_app; right; exact Hcmp|].
           split; [apply in_or_app; right; exact Hprint|].
           split; [exact Hgone|]. split; [|exact Hstat].
           intros [Hin|[Hin|Hin]]; [discriminate Hin| |exact (Hno Hin)].
           injection Hin as Heq. exact (Hss Heq).
        -- destruct (IH _ _ _ _ _ _ _ _ _ _ Hrun Hfirst Hget1 Hname Honly1 Hloc Hsrc)
             as (evs & Ht & Hcmp & Hprint & Hgone & Hno & Hstat).
           cbn [fs trace] in Ht.
           eexists. split; [rewrite Ht, <- app_assoc; reflexivity|].
           split; [apply in_or_app; right; exact Hcmp|].
           split; [apply in_or_app; right; exact Hprint|].
           split; [exact Hgone|]. split; [|exact Hstat].
           intros [Hin|[Hin|Hin]]; [discriminate Hin|discriminate Hin|exact (Hno Hin)].
Qed.

(** The entry of a source that no other entry has is dropped with the
    name of its target. *)
Lemma unplanned_source (ledger_keys : list string) (moves : dict string) k t src :
  In k ledger_keys ->
  PosixPath.basename t = PosixPath.basename k ->
  (forall t', In (t', src) moves -> t' = t) ->
  ~ In src (map snd (List.filter (unknown_name ledger_keys) moves)).
Proof.
  intros Hk Hname Honly Hin.
  apply in_map_iff in Hin as ([t' s] & Hs & Hin). cbn [snd] in Hs. subst s.
  apply filter_In in Hin as [Hin Hun].
  rewrite (Honly t' Hin) in Hun. unfold unknown_name in Hun. cbn [fst] in Hun.
  apply negb_true_iff in Hun.
  assert (existsb (fun k0 => String.eqb (PosixPath.basename k0) (PosixPath.basename t))
            ledger_keys = true) as Hyes.
  { apply existsb_exists. exists k. split; [exact Hk|].
    rewrite Hname. apply String.eqb_refl. }
  rewrite Hyes in Hun. discriminate Hun.
Qed.

Lemma first_named_In k l : first_named k l -> In k l.
Proof.
  intros (before & after & -> & _). apply in_or_app. right. left. reflexivity.
Qed.

(** C2 (as amended). A plan entry whose target has the base name of a
    ledger key is matched with the first ledger key of that name; let
    the file at the recorded location of that key and the source of the
    entry be files with different content.

    When the target of the entry is the only plan key that contains the
    name, and no plan key has the base name of a ledger key of another
    name, reconciliation returns: it has compared the two files and
    found them different,
    printed the line asking for a manual comparison, removed nothing,
    counted nothing, and the plan it returns is the plan without the
    entry.

    In general, when reconciliation returns and the source is the source
    of this entry only (as in every plan made from a discovery), the two
    files have been compared and found different and the line has been
    printed; the source has not been removed and is still at its path
    with its content; the entry is not in the returned plan, no entry of
    the returned plan has this source, and the loop that carries out the
    returned plan makes no move of it. *)
Theorem differing_entry_is_reported_and_unplanned
    (moves : dict string) (json_file : string) (dry_run : bool) (w : world)
    (k t src : string) (c1 c2 : content) :
  first_named k (keys (ledger_of (fs w) json_file)) ->
  get moves t = Some src ->
  PosixPath.basename t = PosixPath.basename k ->
  stat (fs w) (recorded_location k) = Some (File c1) ->
  stat (fs w) src = Some (File c2) ->
  c1 <> c2 ->
  (List.filter (fun new_file => contains (PosixPath.basename k) new_file)
     (keys moves) = [t] ->
   (forall k', In k' (keys (ledger_of (fs w) json_file)) ->
      PosixPath.basename k' <> PosixPath.basename k ->
      existsb (String.eqb (PosixPath.basename k'))
        (map PosixPath.basename (keys moves)) = false) ->
   check_update_old_info moves json_file dry_run w =
     (mkWorld (fs w)
        (trace w ++ [EvCompare (recorded_location k) src false;
                     EvPrint (different_msg k src)]),
      Ok (del moves t, 0))) /\
  (forall w' moves' n,
     check_update_old_info moves json_file dry_run w = (w', Ok (moves', n)) ->
     (forall t', In (t', src) moves -> t' = t) ->
     (exists evs,
        trace w' = trace w ++ evs /\
        In (EvCompare (recorded_location k) src false) evs /\
        In (EvPrint (different_msg k src)) evs /\
        ~ In (EvRemove src) evs) /\
     stat (fs w') src = Some (File c2) /\
     get moves' t = None /\
     ~ In src (map snd moves') /\
     forall w1,
       emits_at (fun ev => forall dst, ev <> EvMove src dst) (move_all moves') w1).
Proof.
  intros Hfirst Hget Hname Hloc Hsrc Hdiff. split.
  - intros Hfil Hothers.
    destruct (first_named_cons _ _ Hfirst) as (k0 & l0 & Hl).
    unfold check_update_old_info, bind.
    rewrite (ledger_loaded json_file w k0 l0 Hl).
    rewrite (lone_match_loop dry_run _ moves 0 w k t src (File c1) (File c2)
               Hfirst Hget Hname Hfil Hothers Hloc Hsrc).
    cbn [same_content]. rewrite bool_decide_eq_false_2 by exact Hdiff. reflexivity.
  - intros w' moves' n Hrun Honly.
    apply check_update_Ok in Hrun.
    assert (forall t', get moves t' = Some src -> t' = t) as Honly'.
    { intros t' Ht'. apply Honly. apply (PlanShape.get_Some_In _ _ _ Ht'). }
    assert (stat (fs w) (recorded_location k) <> Some (File c2)) as Hloc'.
    { rewrite Hloc. intros [= Heq]. exact (Hdiff Heq). }
    destruct (loop_differing dry_run _ _ _ _ _ _ _ _ _ _ _
                Hrun Hfirst Hget Hname Honly' Hloc' Hsrc)
      as (evs & Ht & Hcmp & Hprint & Hgone & Hno & Hstat).
    assert (~ In src (map snd moves')) as Hout.
    { rewrite (reconcile_loop_filter _ _ _ _ _ _ _ _ Hrun).
      apply (unplanned_source _ moves k t src (first_named_In _ _ Hfirst) Hname Honly). }
    split; [exists evs; auto|]. split; [exact Hstat|]. split; [exact Hgone|].
    split; [exact Hout|].
    intros w1. apply (emits_at_weaken (planned_move moves'));
      [|apply ApplyRun.move_all_events].
    intros ev Hev dst ->. cbn [planned_move] in Hev.
    apply Hout. apply (in_map snd _ _ Hev).
Qed.

Lemma differing_entry_is_reported_and_unplanned_witness :
  check_update_old_info one_move "out/info.json" false (same_target "BBB") =
    (mkWorld (fs (same_target "BBB"))
       (trace (same_target "BBB")
        ++ [EvCompare (recorded_location ("out/2024/" +:+ stem +:+ ".jpg"))
              "in/b.jpg" false;
            EvPrint (different_msg ("out/2024/" +:+ stem +:+ ".jpg") "in/b.jpg")]),
     Ok (del one_move ("out/2024/" +:+ stem +:+ ".jpg"), 0)) /\
  (exists evs,
     trace (fst (check_update_old_info one_move "out/info.json" false
                   (same_target "BBB")))
     = trace (same_target "BBB") ++ evs /\
     In (EvCompare (recorded_location ("out/2024/" +:+ stem +:+ ".jpg"))
           "in/b.jpg" false) evs /\
     In (EvPrint (different_msg ("out/2024/" +:+ stem +:+ ".jpg") "in/b.jpg")) evs /\
     ~ In (EvRemove "in/b.jpg") evs) /\
  stat (fs (fst (check_update_old_info one_move "out/info.json" false
                   (same_target "BBB")))) "in/b.jpg" = Some (File (Data "BBB")) /\
  get ([] : dict string) ("out/2024/" +:+ stem +:+ ".jpg") = None /\
  ~ In "in/b.jpg" (map snd ([] : dict string)) /\
  forall w1, emits_at (fun ev => forall dst, ev <> EvMove "in/b.jpg" dst)
               (move_all []) w1.
Proof.
  destruct (differing_entry_is_reported_and_unplanned one_move "out/info.json" false
              (same_target "BBB")
              ("out/2024/" +:+ stem +:+ ".jpg") ("out/2024/" +:+ stem +:+ ".jpg")
              "in/b.jpg" (Data "AAA") (Data "BBB")) as [Hlone Hany].
  - exists [], []. split; [vm_compute; reflexivity|]. intros k' [].
  - reflexivity.
  - reflexivity.
  - vm_compute. reflexivity.
  - vm_compute. reflexivity.
  - discriminate.
  - split.
    + apply Hlone; [vm_compute; reflexivity|].
      intros k' [<-|[]] Hne. destruct Hne. reflexivity.
    + apply (Hany _ [] 0); [vm_compute; reflexivity|].
      intros t' [[= <-]|[]]. reflexivity.
Defined.

(** The second key of a name is not compared: in [two_years] the plan
    entry is matched with the key under 2023, found identical to the
    file there and removed, although the key under 2024, the target of
    the entry, records a file with other bytes. *)
Example second_key_of_a_name_is_skipped :
  ~ first_named ("out/2024/" +:+ stem +:+ ".jpg")
      (keys (ledger_of (fs two_years) "out/info.json")) /\
  trace (fst (check_update_old_info one_move "out/info.json" false two_years))
  = [EvCompare ("out/2023/" +:+ stem +:+ ".jpg") "in/b.jpg" true;
     EvRemove "in/b.jpg"].
Proof.
  split; [|vm_compute; reflexivity].
  intros (before & after & Heq & Hfirst).
  change (keys (ledger_of (fs two_years) "out/info.json"))
    with ["out/2023/" +:+ stem +:+ ".jpg"; "out/2024/" +:+ stem +:+ ".jpg"] in Heq.
  destruct before as [|k0 before].
  - injection Heq as Heq _. vm_compute in Heq. discriminate Heq.
  - injection Heq as <- Heq. apply (Hfirst _ (or_introl eq_refl)). reflexivity.
Qed.

End Differing.

(** ** A second Apply run *)

Module SecondRun.
Import Props Notions.
Import PyStr PyDict Sys Os Organizer Cleaner Discovery Snapshot Scenario.
Local Open Scope pyio_scope.

(** A source that is not a directory stops the run before anything is
    done. *)
Lemma apply_once_needs_a_directory
    exif_tags strptime probe fromisoformat getctime getmtime fromtimestamp now
    source out w :
  stat (fs w) source <> Some Dir ->
  apply_once exif_tags strptime probe fromisoformat getctime getmtime fromtimestamp
    now source out w
  = (w, Raise (ValueError "Source is not a directory")).
Proof.
  intros Hs. unfold apply_once, tree_of.
  destruct (stat (fs w) source) as [[c|]|]; try reflexivity.
  destruct Hs. reflexivity.
Qed.

(** The second discovery is a new walk of the tree the first run left:
    it finds the sorted picture, below the source. *)
Example second_walk_finds_the_sorted_picture :
  tree_of (fs own_output) "/x/pictures" = Some (DirNode ["IMG_1.jpg"] []) /\
  tree_of (fs after_own_output) "/x/pictures"
  = Some (DirNode ["info.json"] [("2024", DirNode [stem +:+ ".jpg"] [])]).
Proof. split; vm_compute; reflexivity. Qed.

(** C3 (the code departs from the claim). Apply is not idempotent.
    For a source directory named [pictures], [main] without [--out]
    sorts into the source directory itself.  The first run moves the
    picture below [2024] and records it; the second run, with no file
    added, walks the same tree, finds the sorted picture, plans it for
    the path where it is, takes it for a duplicate of the ledger entry
    for that path, compares it with itself and removes it: the picture
    is neither at its old path nor at its sorted path.  With the output
    elsewhere, a file that the first run left in the source as different
    from its ledger namesake is planned under another name by the second
    run, and moved. *)
Theorem second_apply_is_not_a_repeat :
  (default_out "/x/pictures" = "/x/pictures" /\
   apply_jan2 "/x/pictures" "/x/pictures" own_output = (after_own_output, Ok tt) /\
   trace after_own_output
   = [EvPrint "Found 1 valid files and 0 invalid files...";
      EvPrint "Moving files...";
      EvMkdir "/x/pictures/2024";
      EvMove "/x/pictures/IMG_1.jpg" ("/x/pictures/2024/" +:+ stem +:+ ".jpg");
      EvWrite "/x/pictures/info.json"] /\
   stat (fs after_own_output) ("/x/pictures/2024/" +:+ stem +:+ ".jpg")
   = Some (File (Data "AAA")) /\
   snd (apply_jan2 "/x/pictures" "/x/pictures" after_own_output) = Ok tt /\
   trace (fst (apply_jan2 "/x/pictures" "/x/pictures" after_own_output))
   = trace after_own_output ++
     [EvPrint "Found 1 valid files and 1 invalid files...";
      EvPrint "Moving files...";
      EvCompare ("/x/pictures/2024/" +:+ stem +:+ ".jpg")
        ("/x/pictures/2024/" +:+ stem +:+ ".jpg") true;
      EvRemove ("/x/pictures/2024/" +:+ stem +:+ ".jpg");
      EvWrite "/x/pictures/info.json";
      EvPrint "Deleted 1 duplicates"] /\
   stat (fs (fst (apply_jan2 "/x/pictures" "/x/pictures" after_own_output)))
     ("/x/pictures/2024/" +:+ stem +:+ ".jpg") = None /\
   stat (fs (fst (apply_jan2 "/x/pictures" "/x/pictures" after_own_output)))
     "/x/pictures/IMG_1.jpg" = None) /\
  (apply_jan2 "in" "out" numbered_pair = (after_numbered_pair, Ok tt) /\
   trace after_numbered_pair
   = [EvPrint "Found 2 valid files and 0 invalid files...";
      EvPrint "Moving files...";
      EvCompare ("out/2024/" +:+ stem +:+ "_1.jpg") "in/c.jpg" true;
      EvRemove "in/c.jpg";
      EvCompare ("out/2024/" +:+ stem +:+ "_2.jpg") "in/d.jpg" false;
      EvPrint (different_msg ("out/2024/" +:+ stem +:+ "_2.jpg") "in/d.jpg");
      EvWrite "out/info.json";
      EvPrint "Deleted 1 duplicates"] /\
   snd (apply_jan2 "in" "out" after_numbered_pair) = Ok tt /\
   trace (fst (apply_jan2 "in" "out" after_numbered_pair))
   = trace after_numbered_pair ++
     [EvPrint "Found 1 valid files and 0 invalid files...";
      EvPrint "Moving files...";
      EvMove "in/d.jpg" ("out/2024/" +:+ stem +:+ ".jpg");
      EvWrite "out/info.json"]).
Proof.
  split.
  - repeat (split; [vm_compute; reflexivity|]). vm_compute. reflexivity.
  - repeat (split; [vm_compute; reflexivity|]). vm_compute. reflexivity.
Qed.

End SecondRun.
